(* ===== verification/_CoqProject ===== *)
-Q . S2P
Prelude.v
Sorting.v
VaultErrors.v
VaultTypes.v
Host.v
VaultMath.v
VaultEvents.v
VaultStorage.v
VaultAssets.v
VaultContract.v
HostModel.v
RewardPool.v
VaultFacts.v
VaultRefine.v
VaultAssetRefine.v
VaultCalls.v
VaultAdmin.v
VaultSystem.v
VaultInvariant.v
VaultSpec.v
VaultScenario.v
VaultSafety.v
VaultAccounts.v
VaultAccess.v
VaultRewards.v
ChainParams.v
Governance.v
Tasks.v
Consensus.v
NetworkErrors.v
RateLimiter.v
HorizonClient.v
P2P.v
NetworkService.v
GatewayService.v
P2PService.v
ErrorMiddleware.v
Signer.v
Kms.v
Signing.v
CryptoPool.v
Config.v
SorobanRpc.v
LegacyParams.v
GrpcServer.v
StateTrie.v
HttpServer.v
Node.v
Shutdown.v
Stellar.v
RestGateway.v
Floats.v
Metrics.v
Profiling.v
VerifyService.v
ErrorLog.v
HealthService.v
GrpcStart.v
VaultTvl.v
HttpRoutes.v
Process.v
ApiDoc.v
