(* ===== verification/Prelude.v ===== *)
(** * Axionvera network: a verification development

    The repository is a Soroban vault contract (contracts/vault-contract, with a
    successor in contracts/vault-contract-v2) and a network node (network-node)
    that keeps chain parameters, runs a governance service and a proposal/vote
    engine, serves gRPC and HTTP, signs and verifies messages, keeps a table of
    peers and talks to Horizon and Soroban providers.  This library models these
    parts as executable functions and proves the properties that make them
    correct, or the exact way in which they are not.

    ** The vault (contracts/vault-contract/src)

    - VaultErrors: errors.rs - categories, error enums, [VaultError] with its
      codes and messages, and the [From] conversions as coercions.
    - VaultTypes: the data of storage.rs - [DataKey] with the type of the value
      behind each key, [VaultState], [UserPosition], locks, multiplier points.
    - Host: the Soroban environment the contract runs in.  Storage maps and
      the token ledger are code outside the repository and are the parameters
      of the class [Host], with their documented behaviour as class [HostLaws];
      [Env] is the state of the ledger as the contract sees it, and [M] the
      monad of a contract call: [Done (Ok _)], [Done (Err _)] or a trap.
      [invoke] is the transaction: an error or a trap rolls back.  HostModel
      gives a concrete instance, so that every law is known to be satisfiable.
    - VaultMath: the arithmetic of storage.rs ([checked_reward_index_increment],
      [checked_accrued_rewards], [calculate_vested_rewards],
      [calculate_utilization_multiplier]) with its width-checked operations.
    - VaultEvents: events.rs.  VaultStorage: storage.rs for the legacy vault.
      VaultAssets: storage.rs for the per-asset vaults.  VaultContract: lib.rs,
      every entry point, and the entry points of vault-contract-v2.
    - RewardPool: the abstract specification - a pool with balances, a reward
      index and unpaid rewards, its transitions [pool_step] and the theorem
      that unpaid rewards never exceed what was funded.
    - VaultFacts, VaultRefine, VaultAssetRefine: each storage operation of the
      legacy and the per-asset vault is a transition of its pool.
    - VaultCalls, VaultAdmin, VaultSystem, VaultInvariant, VaultSpec: the entry
      points; the ledger as a step relation [vstep] (who signs, a call, time
      passing, token movements that take nothing from the contract);
      [reachable] states and the invariant [vault_inv] by induction on steps.
    - VaultScenario: concrete runs (set up, funded, staked), proved reachable,
      on which every hypothesis of the theorems below is instantiated.
    - VaultSafety: solvency - deposits and credited rewards are held by the
      contract, and claims are always funded.  VaultAccounts: totals are sums,
      views are exact, the contract refines the pools, locks hold, deposit and
      withdraw are inverse, only owners take out.  VaultAccess: pause,
      the two-step admin transfer, fixed configuration, the reentrancy guard,
      upgrades and what the second version reads.  VaultRewards: vesting,
      multipliers and the exact effect of deposit, lock, distribute and claim.

    ** The node (network-node/src)

    - ChainParams: chain_params.rs - genesis, roles, parameter upgrades.  The
      theorems: parameters in force are a replay of the announced upgrades, an
      upgrade takes effect exactly at its height, and who may announce one.
    - Governance: governance.rs - proposals, votes and [tick].
    - Tasks: tokio tasks with read/write locks; a task that waits for a lock it
      holds itself has the outcome [Blocked].  Consensus: consensus.rs on top
      of it - votes are counted once on top of what a proposal came with, the
      quorum wedges every operation but [get_votes], clean-up is exact, and two
      tasks handling one vote can count it twice.
    - NetworkErrors: error.rs.  RateLimiter: rate_limiter.rs and the middleware
      of enhanced_server.rs; Redis is a parameter with the laws of INCR and
      EXPIRE, and a map of counters is the instance of the witness.
      HorizonClient: horizon_client.rs - circuit breakers and failover, and the
      health check in three parts (its guard, its probes, its update), since other
      tasks are served while it probes and never after.
      Stellar: stellar_service.rs and its routes on top of it.
      SorobanRpc: soroban_rpc_client.rs, soroban_service.rs and the polling loop
      of indexer.rs - endpoints are asked in order, and polls resume.
    - LegacyParams: the older registry of amazon_eks.rs, shown equivalent to
      ChainParams for registries governed by admin keys.
    - NetworkService, GatewayService, P2PService: the services of grpc/, every
      method; RestGateway: gateway.rs over the gateway service.  GrpcServer:
      grpc/server.rs - the admin interceptor and the routing of calls, so that
      chain parameters change only for an authenticated administrator - with the
      TLS set-up of both servers and grpc/health_service.rs.
    - P2P: p2p.rs - the Kademlia table (Sorting has the sort and the order of
      byte strings): buckets are common-prefix lengths, the table stays well
      formed, [find_closest] returns the nearest peers by exclusive or.
    - Signer: the [Signer] trait as a record, ed25519 as a class with laws.
      Signing: signing.rs - key cache and signer registry.  Kms: both KMS signers
      and their retries.  CryptoPool: crypto.rs - workers and batches as steps on
      queues; what the signing service signs, the pool's verifier accepts.
    - ErrorMiddleware: error_middleware.rs - statistics and breakers; each section
      of [handle_error] reads the clock for itself ([Times]).
      HttpServer: the middleware stack of enhanced_server.rs as events on
      interleaved requests that may be dropped at any await point; the connection
      counter, refusal during shutdown, draining, error responses.
    - StateTrie: state_trie.rs over a database, a hash and a codec with laws.
      Config: config.rs.  Node: lib.rs and database.rs - how the node is
      assembled from the components above.
    - Shutdown: the other half of lib.rs - [start] with its [select!], and
      [shutdown] as a task that is polled beside the requests of HttpServer, the
      handlers that read the pool and the tasks that hold its connections, with
      time passing between polls (the runtime may be late by [lag]).  The drain
      ends within the grace period and that lag; closing the pool then waits for
      readers and connections, and ends as soon as they are gone.
    - Floats: IEEE doubles.  Metrics: metrics.rs - counters under wrapping
      [fetch_add], and the page a scrape reads, exact for every interleaving of
      updates with the loads of the page.  Profiling: profiling.rs - per-operation
      totals, benchmarks and their summaries.
    - VerifyService: the callers of the verification pool - who gets an answer, and
      who waits for ever.  ErrorLog: log_error and the error contexts of error.rs -
      one entry per error, at the level of its severity.  HealthService: the watch
      stream of grpc/health_service.rs as steps of its task, channel and client.
    - GrpcStart: how grpc/server.rs and the older server.rs come up, with
      tls_utils.rs: which routes the admin interceptor guards, what each makes of
      incomplete TLS settings, and the port both health servers want.
    - VaultTvl: grpc/vault_service.rs over the table of deposits.  HttpRoutes: the
      router of enhanced_server.rs with every handler behind it and
      memory_profiling.rs - what a request changes, what a scrape counts, which
      routes hang after a health check of the providers.  ApiDoc: openapi.rs and
      the annotations of gateway.rs against the router and its answers.
    - Process: main.rs and shutdown.rs - signals, the end of [start] and the exit
      status, for every schedule of the node before and after its end is asked for.

    ** Modelling choices

    - Machine integers are [Z]; the width is in the operations: [checked_*]
      return [None] out of range, [as] casts reduce modulo the width, and where
      the source uses plain [+] the release profile, which does not check for
      overflow, wraps.
    - Clocks, random ids and the iteration order of a HashMap are arguments,
      and the theorems hold for all of them.
    - The loops of the sources run over lists or count their attempts, so the
      definitions are total without fuel: the loop of [execute_request] is a
      recursion on the attempts left, the retries of the KMS signer on their limit,
      and [hex_digits] counts the 64 digits its format prints.  The waits of the
      shutdown are states of its task, with a measure that every poll lowers (60
      and 30 polls at most).  Loops that never end (indexer, workers)
      are modelled by one turn and its repetition over a list of inputs.
    - What the node reaches outside (HTTP, KMS, databases, files) is a function of
      a world, threaded through; where a theorem relies on documented behaviour
      it is a law of a class, with an instance that satisfies it.
    - Names the sources use and declare nowhere (some error constructors, the
      lock types of the vault) are declared with the shape their uses need.
    - Time-to-live extensions are recorded in [lifetimes] of [Env]; entries do
      not expire in the model (a contract whose entries are archived cannot be
      called before they are restored).
    - Of the log, the entries of the error middleware are modelled (ErrorLog); other
      log lines are not.  Events, channel sends, samples handed to the metrics
      library and requests are.

    ** Not modelled

    pb.rs is one inclusion of generated code, build.rs generates it, and
    telemetry.rs is one call that installs a log subscriber; the functions main.rs
    calls besides are declared nowhere, and their outcomes are arguments of [main].
    Of modelled files: the descriptions metrics.rs registers beside its samples, the
    reflection service of grpc/, the schema lists of openapi.rs, derived
    serialisation, the constructor of [SorobanClient], which only sets up the HTTP
    client (its timeouts and retries are part of what a request does to the
    world), and log lines.  [AwsKmsConfig] of amazon_eks.rs repeats [KmsConfig] and
    shares its record.

    What is left to do: error bounds for the rates and averages that profiling.rs
    computes in floating point, which are modelled bit for bit but characterised
    only where they are exact, and the interleaving of the HTTP events of
    HttpServer with the handlers of HttpRoutes, which are stated for one request. *)

(** Shared by all files: [Result] and its notation, machine integers, sums over
    lists, function update, tactics and hint databases. *)
From stdpp Require Import base gmap list strings.
From Stdlib Require Import ZArith Lia.

#[global] Open Scope Z_scope.

(** ** Results: Rust's [Result<A, E>] with the [?] operator *)

Inductive result (E A : Type) : Type :=
| Ok (a : A)
| Err (e : E).
Arguments Ok {E A} a.
Arguments Err {E A} e.

Definition bindR {E A B : Type} (r : result E A) (f : A -> result E B) : result E B :=
  match r with
  | Ok a => f a
  | Err e => Err e
  end.

(** [Option::ok_or]. *)
Definition ok_or {E A : Type} (o : option A) (e : E) : result E A :=
  match o with
  | Some a => Ok a
  | None => Err e
  end.

Definition is_ok {E A : Type} (r : result E A) : bool :=
  match r with Ok _ => true | Err _ => false end.

Declare Scope vault_scope.
Delimit Scope vault_scope with vault.
#[global] Open Scope vault_scope.

Notation "'let?' x ':=' r 'in' k" := (bindR r (fun x => k))
  (at level 10, x pattern, r at level 100, k at level 200) : vault_scope.

(** ** Machine integers: values are [Z], the width is in the operations *)

Definition i128_min : Z := -170141183460469231731687303715884105728.
Definition i128_max : Z := 170141183460469231731687303715884105727.
Definition u128_max : Z := 340282366920938463463374607431768211455.
Definition u64_max : Z := 18446744073709551615.
Definition u32_max : Z := 4294967295.
Definition u8_max : Z := 255.

(** [Some z] when the exact result [z] is representable, as [checked_*] does. *)
Definition checked (lo hi z : Z) : option Z :=
  if (lo <=? z) && (z <=? hi) then Some z else None.

Definition i128_checked_add (a b : Z) : option Z := checked i128_min i128_max (a + b).
Definition i128_checked_sub (a b : Z) : option Z := checked i128_min i128_max (a - b).
Definition i128_checked_mul (a b : Z) : option Z := checked i128_min i128_max (a * b).
(** Rust's integer division truncates towards zero ([Z.quot]). *)
Definition i128_checked_div (a b : Z) : option Z :=
  if b =? 0 then None else checked i128_min i128_max (Z.quot a b).
Definition u128_checked_mul (a b : Z) : option Z := checked 0 u128_max (a * b).
Definition u128_checked_div (a b : Z) : option Z :=
  if b =? 0 then None else Some (Z.quot a b).
Definition u64_checked_add (a b : Z) : option Z := checked 0 u64_max (a + b).
Definition u64_checked_sub (a b : Z) : option Z := checked 0 u64_max (a - b).
Definition u64_saturating_add (a b : Z) : Z := Z.min u64_max (a + b).

(** [as] casts: reduction modulo the width, reinterpreted in the target type. *)
Definition as_u128 (z : Z) : Z := z mod (u128_max + 1).
Definition as_u64 (z : Z) : Z := z mod (u64_max + 1).
Definition as_u32 (z : Z) : Z := z mod (u32_max + 1).
Definition as_i128 (z : Z) : Z := (z - i128_min) mod (u128_max + 1) + i128_min.
Definition as_i64 (z : Z) : Z :=
  (z + 9223372036854775808) mod (u64_max + 1) - 9223372036854775808.

#[global] Arguments i128_checked_add : simpl never.
#[global] Arguments i128_checked_sub : simpl never.
#[global] Arguments i128_checked_mul : simpl never.
#[global] Arguments i128_checked_div : simpl never.
#[global] Arguments u128_checked_mul : simpl never.
#[global] Arguments u128_checked_div : simpl never.
#[global] Arguments u64_checked_add : simpl never.
#[global] Arguments u64_checked_sub : simpl never.
#[global] Arguments as_u128 : simpl never.
#[global] Arguments as_u32 : simpl never.
#[global] Arguments as_i128 : simpl never.
#[global] Arguments Z.mul : simpl never.
#[global] Arguments Z.quot : simpl never.

(** ** Sums over finite lists *)

Definition sumZ {A : Type} (f : A -> Z) (l : list A) : Z :=
  foldr (fun x acc => f x + acc) 0 l.

(** Pointwise update of a function. *)
Definition upd {A B : Type} `{EqDecision A} (f : A -> B) (a : A) (b : B) (x : A) : B :=
  if decide (x = a) then b else f x.

(** ** Tactics *)

(** Turn boolean tests in the context into propositions on [Z]. *)
Ltac bool_to_prop :=
  repeat match goal with
  | H : (_ && _)%bool = true |- _ => apply andb_true_iff in H as [? ?]
  | H : (_ && _)%bool = false |- _ => apply andb_false_iff in H
  | H : (_ || _)%bool = false |- _ => apply orb_false_iff in H as [? ?]
  | H : (_ || _)%bool = true |- _ => apply orb_true_iff in H
  | H : negb _ = true |- _ => apply negb_true_iff in H
  | H : negb _ = false |- _ => apply negb_false_iff in H
  | H : Z.leb _ _ = true |- _ => apply Z.leb_le in H
  | H : Z.leb _ _ = false |- _ => apply Z.leb_gt in H
  | H : Z.ltb _ _ = true |- _ => apply Z.ltb_lt in H
  | H : Z.ltb _ _ = false |- _ => apply Z.ltb_ge in H
  | H : Z.gtb _ _ = true |- _ => rewrite Z.gtb_ltb in H; apply Z.ltb_lt in H
  | H : Z.gtb _ _ = false |- _ => rewrite Z.gtb_ltb in H; apply Z.ltb_ge in H
  | H : Z.geb _ _ = true |- _ => rewrite Z.geb_leb in H; apply Z.leb_le in H
  | H : Z.geb _ _ = false |- _ => rewrite Z.geb_leb in H; apply Z.leb_gt in H
  | H : Z.eqb _ _ = true |- _ => apply Z.eqb_eq in H
  | H : Z.eqb _ _ = false |- _ => apply Z.eqb_neq in H
  | H : bool_decide _ = true |- _ => apply bool_decide_eq_true in H
  | H : bool_decide _ = false |- _ => apply bool_decide_eq_false in H
  end.

(** ** Generic lemmas *)

Section results.
Context {E A B : Type}.

Lemma bindR_Ok (r : result E A) (f : A -> result E B) b :
  bindR r f = Ok b <-> exists a, r = Ok a /\ f a = Ok b.
Proof. destruct r; naive_solver. Qed.

Lemma bindR_Err (r : result E A) (f : A -> result E B) x :
  bindR r f = Err x <-> r = Err x \/ exists a, r = Ok a /\ f a = Err x.
Proof. destruct r; naive_solver. Qed.

Lemma ok_or_Ok (o : option A) (x : E) a : ok_or o x = Ok a <-> o = Some a.
Proof. destruct o; naive_solver. Qed.

Lemma ok_or_Err (o : option A) (x y : E) : ok_or o x = Err y <-> o = None /\ y = x.
Proof. destruct o; naive_solver. Qed.
End results.

Section ints.
Lemma checked_Some lo hi z r : checked lo hi z = Some r <-> r = z /\ lo <= z <= hi.
Proof. unfold checked. destruct (_ && _) eqn:E; bool_to_prop; split; intros; naive_solver lia. Qed.

Lemma checked_None lo hi z : checked lo hi z = None <-> ~ (lo <= z <= hi).
Proof. unfold checked. destruct (_ && _) eqn:E; bool_to_prop; split; intros; naive_solver lia. Qed.

Lemma i128_checked_add_Some a b r :
  i128_checked_add a b = Some r <-> r = a + b /\ i128_min <= a + b <= i128_max.
Proof. apply checked_Some. Qed.

Lemma i128_checked_sub_Some a b r :
  i128_checked_sub a b = Some r <-> r = a - b /\ i128_min <= a - b <= i128_max.
Proof. apply checked_Some. Qed.

Lemma i128_checked_mul_Some a b r :
  i128_checked_mul a b = Some r <-> r = a * b /\ i128_min <= a * b <= i128_max.
Proof. apply checked_Some. Qed.

Lemma u128_checked_mul_Some a b r :
  u128_checked_mul a b = Some r <-> r = a * b /\ 0 <= a * b <= u128_max.
Proof. apply checked_Some. Qed.

Lemma u64_checked_add_Some a b r :
  u64_checked_add a b = Some r <-> r = a + b /\ 0 <= a + b <= u64_max.
Proof. apply checked_Some. Qed.

Lemma u64_checked_sub_Some a b r :
  u64_checked_sub a b = Some r <-> r = a - b /\ 0 <= a - b <= u64_max.
Proof. apply checked_Some. Qed.

Lemma i128_checked_div_Some a b r :
  i128_checked_div a b = Some r <->
  r = Z.quot a b /\ b <> 0 /\ i128_min <= Z.quot a b <= i128_max.
Proof.
  unfold i128_checked_div. destruct (b =? 0) eqn:E; bool_to_prop;
    rewrite ?checked_Some; naive_solver lia.
Qed.

Lemma u128_checked_div_Some a b r :
  u128_checked_div a b = Some r <-> r = Z.quot a b /\ b <> 0.
Proof. unfold u128_checked_div. destruct (b =? 0) eqn:E; bool_to_prop; naive_solver. Qed.

Lemma as_u128_id z : 0 <= z <= u128_max -> as_u128 z = z.
Proof. intros. unfold as_u128. apply Z.mod_small. unfold u128_max in *; lia. Qed.

Lemma as_u32_id z : 0 <= z <= u32_max -> as_u32 z = z.
Proof. intros. unfold as_u32. apply Z.mod_small. unfold u32_max in *; lia. Qed.

Lemma as_u64_id z : 0 <= z <= u64_max -> as_u64 z = z.
Proof. intros. unfold as_u64. apply Z.mod_small. unfold u64_max in *; lia. Qed.

(** Wrapping sums: reducing early changes nothing. *)
Lemma as_u64_add z k : as_u64 (as_u64 z + k) = as_u64 (z + k).
Proof. unfold as_u64. by rewrite Zplus_mod_idemp_l. Qed.

Lemma as_u64_bound z : 0 <= as_u64 z <= u64_max.
Proof. unfold as_u64. pose proof (Z.mod_pos_bound z (u64_max + 1) ltac:(reflexivity)). lia. Qed.

Lemma as_i128_id z : i128_min <= z <= i128_max -> as_i128 z = z.
Proof.
  intros. unfold as_i128. rewrite Z.mod_small; unfold i128_min, i128_max, u128_max in *; lia.
Qed.

(** Truncated division of non-negative numbers is the floor. *)
Lemma quot_floor a b : 0 <= a -> 0 < b -> b * Z.quot a b <= a < b * (Z.quot a b + 1).
Proof.
  intros. rewrite Z.quot_div_nonneg by lia.
  pose proof (Z.mod_pos_bound a b). pose proof (Z.div_mod a b). lia.
Qed.

Lemma quot_nonneg a b : 0 <= a -> 0 < b -> 0 <= Z.quot a b.
Proof. intros. apply Z.quot_pos; lia. Qed.

Lemma quot_le_self a b : 0 <= a -> 0 < b -> Z.quot a b <= a.
Proof. intros. pose proof (quot_floor a b). pose proof (quot_nonneg a b). nia. Qed.
End ints.

Section sums.
Context {A : Type} `{EqDecision A}.
Implicit Types (f g : A -> Z) (l : list A).

Lemma sumZ_cons f x l : sumZ f (x :: l) = f x + sumZ f l.
Proof. reflexivity. Qed.

Lemma sumZ_app f l1 l2 : sumZ f (l1 ++ l2) = sumZ f l1 + sumZ f l2.
Proof. induction l1; simpl; lia. Qed.

Lemma sumZ_ext f g l : (forall x, x ∈ l -> f x = g x) -> sumZ f l = sumZ g l.
Proof.
  induction l as [|x l IH]; intros Hx; [done|]. rewrite !sumZ_cons.
  rewrite (Hx x), IH; set_solver.
Qed.

Lemma sumZ_le f g l : (forall x, x ∈ l -> f x <= g x) -> sumZ f l <= sumZ g l.
Proof.
  induction l as [|x l IH]; intros Hx; [done|]. rewrite !sumZ_cons.
  pose proof (Hx x ltac:(set_solver)). assert (sumZ f l <= sumZ g l) by set_solver. lia.
Qed.

Lemma sumZ_zero f l : (forall x, x ∈ l -> f x = 0) -> sumZ f l = 0.
Proof.
  intros Hx. rewrite (sumZ_ext f (fun _ => 0)) by done. clear Hx. induction l; simpl; lia.
Qed.

Lemma sumZ_nonneg f l : (forall x, x ∈ l -> 0 <= f x) -> 0 <= sumZ f l.
Proof.
  intros Hx. rewrite <- (sumZ_zero (fun _ => 0) l) by done. by apply sumZ_le.
Qed.

Lemma sumZ_plus f g l : sumZ (fun x => f x + g x) l = sumZ f l + sumZ g l.
Proof. induction l; simpl; lia. Qed.

Lemma sumZ_scale k f l : sumZ (fun x => k * f x) l = k * sumZ f l.
Proof. induction l; simpl; lia. Qed.

Lemma sumZ_elem f l x : (forall y, y ∈ l -> 0 <= f y) -> x ∈ l -> f x <= sumZ f l.
Proof.
  induction l as [|y l IH]; intros Hx Hin; [set_solver|]. rewrite sumZ_cons.
  pose proof (sumZ_nonneg f l ltac:(set_solver)).
  apply elem_of_cons in Hin as [->|Hin]; [lia|].
  pose proof (Hx y ltac:(set_solver)). assert (f x <= sumZ f l) by set_solver. lia.
Qed.

Lemma upd_eq {B} (f : A -> B) a b : upd f a b a = b.
Proof. unfold upd. by rewrite decide_True. Qed.

Lemma upd_ne {B} (f : A -> B) a b x : x <> a -> upd f a b x = f x.
Proof. intros. unfold upd. by rewrite decide_False. Qed.

(** Changing a function at one point of a duplicate-free list changes its sum
    by the difference at that point. *)
Lemma sumZ_change f g l a :
  NoDup l -> a ∈ l -> (forall x, x <> a -> g x = f x) ->
  sumZ g l = sumZ f l - f a + g a.
Proof.
  induction 1 as [|y l Hy Hnd IH]; intros Hin Hfg; [set_solver|]. rewrite !sumZ_cons.
  apply elem_of_cons in Hin as [->|Hin].
  - rewrite (sumZ_ext g f l); [lia|]. intros x Hx. apply Hfg. by intros ->.
  - rewrite IH, (Hfg y) by (done || by intros ->). lia.
Qed.
End sums.

(** The order of the elements does not matter. *)
Lemma sumZ_perm {A} (f : A -> Z) l1 l2 : Permutation l1 l2 -> sumZ f l1 = sumZ f l2.
Proof. induction 1; rewrite ?sumZ_cons; lia. Qed.

(** ** The hint database of the development *)

Create HintDb vault discriminated.
#[export] Hint Resolve quot_nonneg sumZ_nonneg : vault.
Create Rewrite HintDb vault.
#[export] Hint Rewrite @upd_eq @bindR_Ok @ok_or_Ok checked_Some : vault.
