(* ===== verification/Sorting.v ===== *)
(** A stable sort and byte strings, shared by the node's components.

    [sort_by] is [slice::sort_by] / [sort_by_key]: stable, the order given by a
    boolean.  A byte array [[u8; n]] is a list of numbers below 256, compared
    lexicographically; [be_value] is the number it writes in base 256. *)
From stdpp Require Import base sets list sorting.
From S2P Require Import Prelude.

Section sorting.
Context {A : Type} (leb : A -> A -> bool).

Fixpoint insert_by (x : A) (l : list A) : list A :=
  match l with
  | [] => [x]
  | y :: l' => if leb x y then x :: l else y :: insert_by x l'
  end.
Definition sort_by (l : list A) : list A := foldr insert_by [] l.

Lemma insert_by_perm x l : insert_by x l ≡ₚ x :: l.
Proof.
  induction l as [|y l IH]; cbn; [done|]. destruct (leb x y); [done|].
  rewrite IH. constructor.
Qed.

Lemma sort_by_perm l : sort_by l ≡ₚ l.
Proof. induction l as [|x l IH]; cbn; [done|]. rewrite insert_by_perm. by constructor. Qed.

Definition leb_rel (x y : A) : Prop := leb x y = true.

Hypothesis leb_total : forall x y, leb x y = true \/ leb y x = true.
Hypothesis leb_trans : forall x y z, leb x y = true -> leb y z = true -> leb x z = true.

Lemma insert_by_sorted x l : StronglySorted leb_rel l -> StronglySorted leb_rel (insert_by x l).
Proof.
  induction 1 as [|y l Hs IH Hy]; cbn; [repeat constructor|].
  destruct (leb x y) eqn:E; unfold leb_rel in *.
  - constructor; [by constructor|]. constructor; [done|]. eapply Forall_impl; [done|]. eauto.
  - constructor; [done|]. rewrite insert_by_perm. constructor; [|done].
    destruct (leb_total x y); congruence.
Qed.

Lemma sort_by_sorted l : StronglySorted leb_rel (sort_by l).
Proof. induction l; cbn; [constructor|]. by apply insert_by_sorted. Qed.
End sorting.

(** What a sorted list starts with is below what it goes on with. *)
Lemma sorted_take_drop {A} (R : A -> A -> Prop) l k x y :
  StronglySorted R l -> x ∈ take k l -> y ∈ drop k l -> R x y.
Proof.
  intros Hs. revert k. induction Hs as [|z l Hs IH Hz]; intros [|k]; cbn; intros Hx Hy;
    rewrite ?elem_of_nil in *; try done.
  apply elem_of_cons in Hx as [->|Hx]; [|eauto].
  rewrite Forall_forall in Hz. apply Hz. rewrite <- (take_drop k l). set_solver.
Qed.

Lemma filter_partition_length {A} (P : A -> Prop) `{!forall x, Decision (P x)} (l : list A) :
  (length (filter P l) + length (filter (fun x => ~ P x) l) = length l)%nat.
Proof.
  induction l as [|x l IH]; [done|]. rewrite !filter_cons.
  destruct (decide (P x)); [rewrite decide_False by tauto|rewrite decide_True by done]; cbn; lia.
Qed.

(** ** Byte strings *)

Definition byte_ok (b : Z) : bool := (0 <=? b) && (b <=? u8_max).
Definition bytes_ok (l : list Z) : bool := forallb byte_ok l.

(** [Ord] on byte arrays. *)
Fixpoint bytes_cmp (a b : list Z) : comparison :=
  match a, b with
  | [], [] => Eq
  | [], _ => Lt
  | _, [] => Gt
  | x :: a', y :: b' => match (x ?= y)%Z with Eq => bytes_cmp a' b' | c => c end
  end.

Lemma bytes_cmp_eq a b : bytes_cmp a b = Eq <-> a = b.
Proof.
  revert b. induction a as [|x a IH]; intros [|y b]; cbn; try done.
  destruct (Z.compare_spec x y); [subst; rewrite IH; naive_solver|..]; split; intros; simplify_eq; lia.
Qed.

Lemma bytes_cmp_opp a b : bytes_cmp a b = CompOpp (bytes_cmp b a).
Proof.
  revert b. induction a as [|x a IH]; intros [|y b]; cbn; try done.
  rewrite Z.compare_antisym, IH. by destruct (y ?= x).
Qed.

Lemma bytes_cmp_trans a b c :
  bytes_cmp a b <> Gt -> bytes_cmp b c <> Gt -> bytes_cmp a c <> Gt.
Proof.
  revert b c. induction a as [|x a IH]; intros [|y b] [|z c]; cbn; try done.
  destruct (Z.compare_spec x y), (Z.compare_spec y z), (Z.compare_spec x z);
    try done; try lia. apply IH.
Qed.

Fixpoint be_value (l : list Z) : Z :=
  match l with
  | [] => 0
  | b :: l' => b * 2 ^ (8 * Z.of_nat (length l')) + be_value l'
  end.

Lemma byte_ok_spec b : byte_ok b = true <-> 0 <= b < 256.
Proof. unfold byte_ok, u8_max. rewrite andb_true_iff, !Z.leb_le. lia. Qed.

Lemma bytes_ok_cons b l : bytes_ok (b :: l) = true <-> 0 <= b < 256 /\ bytes_ok l = true.
Proof. cbn. by rewrite andb_true_iff, byte_ok_spec. Qed.

Lemma pow8_pos n : 0 < 2 ^ (8 * Z.of_nat n).
Proof. apply Z.pow_pos_nonneg; lia. Qed.
#[export] Hint Resolve pow8_pos : vault.

Lemma be_value_bound l : bytes_ok l = true -> 0 <= be_value l < 2 ^ (8 * Z.of_nat (length l)).
Proof.
  induction l as [|b l IH]; [done|]. rewrite bytes_ok_cons. intros [Hb Hl]. cbn [be_value length].
  specialize (IH Hl). pose proof (pow8_pos (length l)).
  replace (8 * Z.of_nat (S (length l))) with (8 + 8 * Z.of_nat (length l)) by lia.
  rewrite Z.pow_add_r by lia. change (2 ^ 8) with 256. nia.
Qed.

(** The lexicographic order of byte strings of one length is the order of the
    numbers they write. *)
Lemma bytes_cmp_value a b :
  length a = length b -> bytes_ok a = true -> bytes_ok b = true ->
  bytes_cmp a b = (be_value a ?= be_value b).
Proof.
  revert b. induction a as [|x a IH]; intros [|y b]; try done.
  rewrite !bytes_ok_cons. cbn [length be_value bytes_cmp].
  intros [= Hlen] [Hx Ha] [Hy Hb]. rewrite (IH b) by done.
  pose proof (be_value_bound a Ha). pose proof (be_value_bound b Hb). rewrite Hlen in *.
  set (P := 2 ^ (8 * Z.of_nat (length b))) in *. clearbody P.
  destruct (Z.compare_spec x y); [subst; by rewrite Zcompare_plus_compat| |]; symmetry.
  - apply Z.compare_lt_iff. nia.
  - apply Z.compare_gt_iff. nia.
Qed.

Lemma be_value_inj a b :
  length a = length b -> bytes_ok a = true -> bytes_ok b = true ->
  be_value a = be_value b -> a = b.
Proof.
  revert b. induction a as [|x a IH]; intros [|y b]; try done.
  rewrite !bytes_ok_cons. cbn [length be_value]. intros [= Hlen] [Hx Ha] [Hy Hb] E.
  pose proof (be_value_bound a Ha). pose proof (be_value_bound b Hb). rewrite Hlen in *.
  set (P := 2 ^ (8 * Z.of_nat (length b))) in *. clearbody P.
  assert (x = y) as -> by nia. f_equal. apply IH; [done..|lia].
Qed.

(** ** Exclusive or and logarithm, byte by byte *)

Lemma split_lxor n a b u v :
  0 <= n -> 0 <= u < 2 ^ n -> 0 <= v < 2 ^ n ->
  Z.lxor (a * 2 ^ n + u) (b * 2 ^ n + v) = Z.lxor a b * 2 ^ n + Z.lxor u v.
Proof.
  intros Hn Hu Hv.
  assert (forall x y, 0 <= y < 2 ^ n -> forall i, 0 <= i ->
    Z.testbit (x * 2 ^ n + y) i = if i <? n then Z.testbit y i else Z.testbit x (i - n)) as Hbit.
  { intros x y Hy i Hi. destruct (i <? n) eqn:E; bool_to_prop.
    - rewrite <- (Z.mod_pow2_bits_low (x * 2 ^ n + y) n i) by lia.
      rewrite Z.add_comm, Z_mod_plus_full, Z.mod_small by lia. done.
    - replace i with ((i - n) + n) at 1 by lia. rewrite <- Z.div_pow2_bits by lia.
      rewrite Z.div_add_l, (Z.div_small y) by lia. by rewrite Z.add_0_r. }
  assert (0 <= Z.lxor u v < 2 ^ n) as Huv.
  { assert (0 <= Z.lxor u v) by (apply Z.lxor_nonneg; lia). split; [done|].
    destruct (decide (Z.lxor u v = 0)) as [->|]; [lia|].
    destruct (decide (n = 0)) as [->|]; [assert (u = 0) by lia; assert (v = 0) by lia; subst; done|].
    apply Z.log2_lt_pow2; [lia|]. pose proof (Z.log2_lxor u v ltac:(lia) ltac:(lia)).
    assert (forall w, 0 <= w < 2 ^ n -> Z.log2 w < n) as Hw.
    { intros w Hw. destruct (decide (w = 0)) as [->|]; [cbn; lia|]. apply Z.log2_lt_pow2; lia. }
    pose proof (Hw u Hu). pose proof (Hw v Hv). lia. }
  apply Z.bits_inj'. intros i Hi. rewrite Z.lxor_spec, !Hbit by (lia || done).
  destruct (i <? n); by rewrite Z.lxor_spec.
Qed.

Lemma log2_high n b u :
  0 <= n -> 0 < b -> 0 <= u < 2 ^ n -> Z.log2 (b * 2 ^ n + u) = Z.log2 b + n.
Proof.
  intros Hn Hb Hu. pose proof (Z.log2_spec b Hb) as [H1 H2]. pose proof (Z.log2_nonneg b).
  apply Z.log2_unique; [lia|]. rewrite Z.pow_succ_r in * by lia.
  rewrite Z.pow_add_r by lia. nia.
Qed.
