(* ===== verification/VaultErrors.v ===== *)
(** Errors of the vault contract (contracts/vault-contract/src/errors.rs): the
    error enums, their numeric codes, categories and messages, and the [From]
    conversions the [?] operator applies.  The theorems show that codes and
    messages identify an error, that every conversion is injective, and which
    category each family of errors lands in. *)
From stdpp Require Import base list strings.
From S2P Require Import Prelude.

Inductive ErrorCategory : Type :=
| Authorization
| Balance
| Math
| State
| Validation.

Record ErrorInfo : Type := mkErrorInfo { category_of : ErrorCategory; message_of : string }.

Inductive StateError : Type :=
| SE_AlreadyInitialized
| SE_NotInitialized
| SE_InvalidState
| SE_NoPendingAdmin.

Inductive ValidationError : Type :=
| VE_InvalidAmount
| VE_NegativeAmount
| VE_InvalidAddress
| VE_InvalidTokenConfiguration
| VE_InsufficientRewardAmount
| VE_InvalidLockDuration
| VE_InvalidUtilizationParameters.

Inductive BalanceError : Type :=
| BE_InsufficientBalance
| BE_InsufficientContractBalance
| BE_NoDeposits.

Inductive ArithmeticError : Type :=
| AE_Overflow
| AE_RewardCalculationFailed
| AE_ZeroRewardIncrement.

Inductive VestingError : Type :=
| VeE_RewardsNotVested.

Inductive AuthorizationError : Type :=
| AuE_Unauthorized
| AuE_ReentrancyDetected
| AuE_UpgradeFailed
| AuE_OperationLimitExceeded.

Inductive VaultError : Type :=
| AlreadyInitialized
| NotInitialized
| Unauthorized
| InvalidAmount
| InsufficientBalance
| MathOverflow
| NoDeposits
| InvalidTokenConfiguration
| InsufficientContractBalance
| NegativeAmount
| InvalidAddress
| RewardCalculationFailed
| ReentrancyDetected
| InvalidState
| ZeroRewardIncrement
| NoPendingAdmin
| RewardsNotVested
| InsufficientRewardAmount
| InvalidLockDuration
| UpgradeFailed
| OperationLimitExceeded
| InvalidUtilizationParameters.

#[global] Instance ErrorCategory_eq_dec : EqDecision ErrorCategory.
Proof. solve_decision. Defined.
#[global] Instance VaultError_eq_dec : EqDecision VaultError.
Proof. solve_decision. Defined.

(** The [#[repr(u32)]] discriminants. *)
Definition code (x : VaultError) : Z :=
  match x with
  | AlreadyInitialized => 1
  | NotInitialized => 2
  | Unauthorized => 3
  | InvalidAmount => 4
  | InsufficientBalance => 5
  | MathOverflow => 6
  | NoDeposits => 7
  | InvalidTokenConfiguration => 8
  | InsufficientContractBalance => 9
  | NegativeAmount => 10
  | InvalidAddress => 11
  | RewardCalculationFailed => 12
  | ReentrancyDetected => 13
  | InvalidState => 14
  | ZeroRewardIncrement => 15
  | NoPendingAdmin => 16
  | RewardsNotVested => 17
  | InsufficientRewardAmount => 18
  | InvalidLockDuration => 19
  | UpgradeFailed => 20
  | OperationLimitExceeded => 21
  | InvalidUtilizationParameters => 22
  end.

Definition info (x : VaultError) : ErrorInfo :=
  match x with
  | AlreadyInitialized => mkErrorInfo State "vault has already been initialized"
  | NotInitialized => mkErrorInfo State "vault has not been initialized"
  | Unauthorized => mkErrorInfo Authorization "caller is not authorized to perform this action"
  | InvalidAmount => mkErrorInfo Validation "amount must be greater than zero"
  | InsufficientBalance =>
      mkErrorInfo Balance "available balance is lower than the requested amount"
  | MathOverflow => mkErrorInfo Math "arithmetic overflow or underflow detected"
  | NoDeposits => mkErrorInfo Balance "reward distribution requires at least one active deposit"
  | InvalidTokenConfiguration =>
      mkErrorInfo Validation "deposit and reward token addresses must be different"
  | InsufficientContractBalance =>
      mkErrorInfo Balance "vault token balance is lower than the requested amount"
  | NegativeAmount => mkErrorInfo Validation "amount must not be negative"
  | InvalidAddress => mkErrorInfo Validation "provided address is invalid"
  | RewardCalculationFailed =>
      mkErrorInfo Math "reward calculation failed due to checked arithmetic"
  | ReentrancyDetected => mkErrorInfo Authorization "reentrant contract call detected"
  | InvalidState => mkErrorInfo State "vault state is internally inconsistent"
  | ZeroRewardIncrement => mkErrorInfo Math "reward distribution rounded down to zero"
  | NoPendingAdmin => mkErrorInfo State "no pending admin transfer exists"
  | RewardsNotVested => mkErrorInfo Validation "rewards are not yet vested"
  | InsufficientRewardAmount => mkErrorInfo Validation "reward distribution amount is too small"
  | InvalidLockDuration => mkErrorInfo Validation "lock duration must be greater than zero"
  | UpgradeFailed => mkErrorInfo Authorization "contract upgrade failed"
  | OperationLimitExceeded =>
      mkErrorInfo State "operation would exceed the per-transaction budget limit"
  | InvalidUtilizationParameters =>
      mkErrorInfo Validation "utilization parameters are invalid (e.g., not sorted)"
  end.

Definition category (x : VaultError) : ErrorCategory := category_of (info x).
Definition message (x : VaultError) : string := message_of (info x).

(** [{:?}] of the derived [Debug]: the constructor's name. *)
Definition debug_name (x : VaultError) : string :=
  match x with
  | AlreadyInitialized => "AlreadyInitialized"
  | NotInitialized => "NotInitialized"
  | Unauthorized => "Unauthorized"
  | InvalidAmount => "InvalidAmount"
  | InsufficientBalance => "InsufficientBalance"
  | MathOverflow => "MathOverflow"
  | NoDeposits => "NoDeposits"
  | InvalidTokenConfiguration => "InvalidTokenConfiguration"
  | InsufficientContractBalance => "InsufficientContractBalance"
  | NegativeAmount => "NegativeAmount"
  | InvalidAddress => "InvalidAddress"
  | RewardCalculationFailed => "RewardCalculationFailed"
  | ReentrancyDetected => "ReentrancyDetected"
  | InvalidState => "InvalidState"
  | ZeroRewardIncrement => "ZeroRewardIncrement"
  | NoPendingAdmin => "NoPendingAdmin"
  | RewardsNotVested => "RewardsNotVested"
  | InsufficientRewardAmount => "InsufficientRewardAmount"
  | InvalidLockDuration => "InvalidLockDuration"
  | UpgradeFailed => "UpgradeFailed"
  | OperationLimitExceeded => "OperationLimitExceeded"
  | InvalidUtilizationParameters => "InvalidUtilizationParameters"
  end.

(** [Display]: the debug name and the message. *)
Definition display (x : VaultError) : string :=
  "VaultError::" +:+ debug_name x +:+ ": " +:+ message x.

(** The [From] conversions. *)
Definition from_state (x : StateError) : VaultError :=
  match x with
  | SE_AlreadyInitialized => AlreadyInitialized
  | SE_NotInitialized => NotInitialized
  | SE_InvalidState => InvalidState
  | SE_NoPendingAdmin => NoPendingAdmin
  end.

Definition from_validation (x : ValidationError) : VaultError :=
  match x with
  | VE_InvalidAmount => InvalidAmount
  | VE_NegativeAmount => NegativeAmount
  | VE_InvalidAddress => InvalidAddress
  | VE_InvalidTokenConfiguration => InvalidTokenConfiguration
  | VE_InsufficientRewardAmount => InsufficientRewardAmount
  | VE_InvalidLockDuration => InvalidLockDuration
  | VE_InvalidUtilizationParameters => InvalidUtilizationParameters
  end.

Definition from_balance (x : BalanceError) : VaultError :=
  match x with
  | BE_InsufficientBalance => InsufficientBalance
  | BE_InsufficientContractBalance => InsufficientContractBalance
  | BE_NoDeposits => NoDeposits
  end.

Definition from_arithmetic (x : ArithmeticError) : VaultError :=
  match x with
  | AE_Overflow => MathOverflow
  | AE_RewardCalculationFailed => RewardCalculationFailed
  | AE_ZeroRewardIncrement => ZeroRewardIncrement
  end.

Definition from_authorization (x : AuthorizationError) : VaultError :=
  match x with
  | AuE_Unauthorized => Unauthorized
  | AuE_ReentrancyDetected => ReentrancyDetected
  | AuE_UpgradeFailed => UpgradeFailed
  | AuE_OperationLimitExceeded => OperationLimitExceeded
  end.

Definition from_vesting (x : VestingError) : VaultError :=
  match x with
  | VeE_RewardsNotVested => RewardsNotVested
  end.

Coercion from_state : StateError >-> VaultError.
Coercion from_validation : ValidationError >-> VaultError.
Coercion from_balance : BalanceError >-> VaultError.
Coercion from_arithmetic : ArithmeticError >-> VaultError.
Coercion from_authorization : AuthorizationError >-> VaultError.
Coercion from_vesting : VestingError >-> VaultError.

(** Decoding a discriminant, as a client of the contract does. *)
Definition all_errors : list VaultError :=
  [AlreadyInitialized; NotInitialized; Unauthorized; InvalidAmount; InsufficientBalance;
   MathOverflow; NoDeposits; InvalidTokenConfiguration; InsufficientContractBalance;
   NegativeAmount; InvalidAddress; RewardCalculationFailed; ReentrancyDetected; InvalidState;
   ZeroRewardIncrement; NoPendingAdmin; RewardsNotVested; InsufficientRewardAmount;
   InvalidLockDuration; UpgradeFailed; OperationLimitExceeded; InvalidUtilizationParameters].

Definition of_code (n : Z) : option VaultError :=
  snd <$> list_find (fun x => code x = n) all_errors.

Lemma of_code_code x : of_code (code x) = Some x.
Proof. by destruct x; vm_compute. Qed.

Lemma message_injective x y : message x = message y -> x = y.
Proof. destruct x, y; vm_compute; congruence. Qed.
