(* ===== verification/VaultTypes.v ===== *)
(** Data of the vault contract: storage keys, the structs kept in storage and
    the event payloads (storage.rs and events.rs of contracts/vault-contract).

    [Lock], [MultiplierPoint], [LockEvent] and [UnlockEvent] are used by the
    sources but declared nowhere in them; their fields are those the code reads
    and writes.  Likewise the key constructors [UserLiquidBalance] and
    [UserLocks] are used by storage.rs although its [DataKey] lacks them. *)
From stdpp Require Import base gmap list strings countable.
From S2P Require Import Prelude.

(** A Soroban address: the contract only compares addresses for equality. *)
Definition Address : Type := N.
#[global] Instance Address_eq_dec : EqDecision Address := _.
#[global] Instance Address_countable : Countable Address := _.

(** [BytesN<32>], passed through unchanged. *)
Definition BytesN32 : Type := list Z.

(** storage.rs: a point of the utilization curve, both fields [u32]. *)
Record MultiplierPoint : Type := mkPoint { utilization_bps : Z; multiplier_bps : Z }.

(** storage.rs: a time lock; [amount : i128], [unlock_timestamp : u64]. *)
Record Lock : Type := mkLock {
  lock_amount : Z;
  unlock_timestamp : Z;
  reward_multiplier : Z }.

Inductive DataKey : Type :=
| Initialized
| Admin
| PendingAdmin
| DepositToken
| RewardToken
| TotalDeposits
| RewardIndex
| VestingPeriod
| TargetDeposits
| UtilizationMultipliers
| ReentrancyGuard
| IsPaused
| UserBalance (user : Address)
| UserRewardIndex (user : Address)
| UserAccruedRewards (user : Address)
| UserLastRewardTimestamp (user : Address)
| SupportedAssets
| AssetTotalDeposits (asset : Address)
| AssetRewardIndex (asset : Address)
| UserAssetBalance (user asset : Address)
| UserAssetRewardIndex (user asset : Address)
| UserAssetAccruedRewards (user asset : Address)
| UserAssetLastRewardTimestamp (user asset : Address)
| UserLiquidBalance (user : Address)
| UserLocks (user : Address).

#[global] Instance MultiplierPoint_eq_dec : EqDecision MultiplierPoint.
Proof. solve_decision. Defined.
#[global] Instance Lock_eq_dec : EqDecision Lock.
Proof. solve_decision. Defined.
#[global] Instance DataKey_eq_dec : EqDecision DataKey.
Proof. solve_decision. Defined.

(** The type the contract stores under each key: every key is read and written
    at one type throughout the sources. *)
Definition KeyTy (k : DataKey) : Type :=
  match k with
  | Initialized | ReentrancyGuard | IsPaused => bool
  | Admin | PendingAdmin | DepositToken | RewardToken => Address
  | UtilizationMultipliers => list MultiplierPoint
  | UserLocks _ => list Lock
  | SupportedAssets => gmap Address bool
  | TotalDeposits | RewardIndex | VestingPeriod | TargetDeposits => Z
  | UserBalance _ | UserRewardIndex _ | UserAccruedRewards _ => Z
  | UserLastRewardTimestamp _ | AssetTotalDeposits _ | AssetRewardIndex _ => Z
  | UserAssetBalance _ _ | UserAssetRewardIndex _ _ | UserAssetAccruedRewards _ _ => Z
  | UserAssetLastRewardTimestamp _ _ | UserLiquidBalance _ => Z
  end.

Record VaultState : Type := mkVaultState {
  admin : Address;
  deposit_token : Address;
  reward_token : Address;
  total_deposits : Z;
  reward_index : Z;
  vesting_period : Z;
  target_deposits : Z;
  utilization_multipliers : list MultiplierPoint }.

Record UserPosition : Type := mkPosition {
  balance : Z;
  pos_reward_index : Z;
  accrued_rewards : Z;
  last_reward_timestamp : Z }.

Record UserRewardSnapshot : Type := mkSnapshot {
  snap_reward_index : Z;
  rewards : Z;
  vested_rewards : Z }.

Record InitializeEvent : Type := mkInitializeEvent {
  ie_admin : Address; ie_deposit_token : Address; ie_reward_token : Address; ie_timestamp : Z }.
Record DepositEvent : Type := mkDepositEvent {
  de_user : Address; de_amount : Z; de_timestamp : Z }.
Record WithdrawEvent : Type := mkWithdrawEvent {
  we_user : Address; we_amount : Z; we_remaining_balance : Z; we_timestamp : Z }.
Record DistributeEvent : Type := mkDistributeEvent {
  die_caller : Address; die_amount : Z; die_timestamp : Z }.
Record ClaimEvent : Type := mkClaimEvent {
  ce_user : Address; ce_amount : Z; ce_timestamp : Z }.
Record AdminTransferProposedEvent : Type := mkAdminTransferProposedEvent {
  ape_current_admin : Address; ape_pending_admin : Address; ape_timestamp : Z }.
Record AdminTransferAcceptedEvent : Type := mkAdminTransferAcceptedEvent {
  aae_previous_admin : Address; aae_new_admin : Address; aae_timestamp : Z }.
Record UpgradeEvent : Type := mkUpgradeEvent {
  ue_admin : Address; ue_new_wasm_hash : BytesN32; ue_timestamp : Z }.
Record AssetAddedEvent : Type := mkAssetAddedEvent { aade_asset : Address; aade_timestamp : Z }.
Record AssetDepositEvent : Type := mkAssetDepositEvent {
  ade_user : Address; ade_asset : Address; ade_amount : Z; ade_timestamp : Z }.
Record AssetWithdrawEvent : Type := mkAssetWithdrawEvent {
  awe_user : Address; awe_asset : Address; awe_amount : Z; awe_remaining_balance : Z;
  awe_timestamp : Z }.
Record AssetDistributeEvent : Type := mkAssetDistributeEvent {
  adie_caller : Address; adie_asset : Address; adie_amount : Z; adie_timestamp : Z }.
Record AssetClaimEvent : Type := mkAssetClaimEvent {
  ace_user : Address; ace_asset : Address; ace_amount : Z; ace_timestamp : Z }.
Record LockEvent : Type := mkLockEvent {
  le_user : Address; le_amount : Z; le_unlock_timestamp : Z; le_timestamp : Z }.
Record UnlockEvent : Type := mkUnlockEvent {
  ule_user : Address; ule_amount : Z; ule_timestamp : Z }.

(** The payload of a published event. *)
Inductive EventData : Type :=
| EvInitialize (d : InitializeEvent)
| EvDeposit (d : DepositEvent)
| EvWithdraw (d : WithdrawEvent)
| EvDistribute (d : DistributeEvent)
| EvClaim (d : ClaimEvent)
| EvAdminTransferProposed (d : AdminTransferProposedEvent)
| EvAdminTransferAccepted (d : AdminTransferAcceptedEvent)
| EvUpgrade (d : UpgradeEvent)
| EvAssetAdded (d : AssetAddedEvent)
| EvAssetDeposit (d : AssetDepositEvent)
| EvAssetWithdraw (d : AssetWithdrawEvent)
| EvAssetDistribute (d : AssetDistributeEvent)
| EvAssetClaim (d : AssetClaimEvent)
| EvLock (d : LockEvent)
| EvUnlock (d : UnlockEvent).

(** A published event: its topic symbols and its payload. *)
Record Event : Type := mkEvent { topics : list string; data : EventData }.
