(* ===== verification/Host.v ===== *)
(** The Soroban host as the contract sees it.

    Storage, token contracts and entry lifetimes are code outside the
    repository: they are the parameters of the class [Host], and [HostLaws]
    states the documented behaviour the vault relies on.  [Env] is the state a
    contract invocation reads and changes; [M] is the monad of contract code: a
    computation returns a Rust [Result] with the changed environment, or traps
    (a panic, a failed [require_auth], a failing token call). *)
From stdpp Require Import base gmap list strings.
From S2P Require Import Prelude VaultErrors VaultTypes.

Class Host : Type := {
  (** key-value storage, one entry per key (instance() and persistent()) *)
  Store : Type;
  sget : forall k : DataKey, Store -> option (KeyTy k);
  sset : forall k : DataKey, KeyTy k -> Store -> Store;
  sremove : DataKey -> Store -> Store;
  (** the ledgers of all token contracts, by token address (SEP-41) *)
  Tokens : Type;
  token_balance : Address -> Address -> Tokens -> Z;
  token_transfer : Address -> Address -> Address -> Z -> Tokens -> option Tokens;
  (** lifetimes of ledger entries: the contract instance ([None]) or a key *)
  Lifetimes : Type;
  extend_ttl : option DataKey -> Z -> Z -> Lifetimes -> Lifetimes;
}.

(** Documented behaviour: storage reads back what was written last; a token
    transfer of SEP-41 needs a non-negative amount covered by the sender's
    balance, moves exactly that amount, touches no other balance, and keeps
    balances in the non-negative [i128] range. *)
Class HostLaws `{Host} : Prop := {
  sget_sset_eq : forall k (v : KeyTy k) s, sget k (sset k v s) = Some v;
  sget_sset_ne : forall k k' (v : KeyTy k) s, k <> k' -> sget k' (sset k v s) = sget k' s;
  sget_sremove_eq : forall k s, sget k (sremove k s) = None;
  sget_sremove_ne : forall k k' s, k <> k' -> sget k' (sremove k s) = sget k' s;
  token_balance_range : forall t a ts, 0 <= token_balance t a ts <= i128_max;
  transfer_covered : forall t f d amt ts ts',
    token_transfer t f d amt ts = Some ts' -> 0 <= amt <= token_balance t f ts;
  transfer_moves : forall t f d amt ts ts',
    token_transfer t f d amt ts = Some ts' -> f <> d ->
    token_balance t f ts' = token_balance t f ts - amt /\
    token_balance t d ts' = token_balance t d ts + amt;
  transfer_frame : forall t f d amt ts ts' t' a,
    token_transfer t f d amt ts = Some ts' ->
    t' <> t \/ (a <> f /\ a <> d) ->
    token_balance t' a ts' = token_balance t' a ts;
}.

Section env.
Context `{Host}.

Record Env : Type := mkEnv {
  instance : Store;
  persistent : Store;
  lifetimes : Lifetimes;
  tokens : Tokens;
  timestamp : Z;               (** e.ledger().timestamp(), a [u64] *)
  current_contract_address : Address;
  authorized : Address -> bool;  (** the addresses that authorized this invocation *)
  events : list Event;
  wasm : option BytesN32;       (** the code installed by the last upgrade, if any *)
}.

Definition with_instance (s : Store) (e : Env) : Env :=
  mkEnv s (persistent e) (lifetimes e) (tokens e) (timestamp e)
    (current_contract_address e) (authorized e) (events e) (wasm e).
Definition with_persistent (s : Store) (e : Env) : Env :=
  mkEnv (instance e) s (lifetimes e) (tokens e) (timestamp e)
    (current_contract_address e) (authorized e) (events e) (wasm e).
Definition with_lifetimes (l : Lifetimes) (e : Env) : Env :=
  mkEnv (instance e) (persistent e) l (tokens e) (timestamp e)
    (current_contract_address e) (authorized e) (events e) (wasm e).
Definition with_tokens (t : Tokens) (e : Env) : Env :=
  mkEnv (instance e) (persistent e) (lifetimes e) t (timestamp e)
    (current_contract_address e) (authorized e) (events e) (wasm e).
Definition with_timestamp (t : Z) (e : Env) : Env :=
  mkEnv (instance e) (persistent e) (lifetimes e) (tokens e) t
    (current_contract_address e) (authorized e) (events e) (wasm e).
Definition with_authorized (a : Address -> bool) (e : Env) : Env :=
  mkEnv (instance e) (persistent e) (lifetimes e) (tokens e) (timestamp e)
    (current_contract_address e) a (events e) (wasm e).
Definition with_events (l : list Event) (e : Env) : Env :=
  mkEnv (instance e) (persistent e) (lifetimes e) (tokens e) (timestamp e)
    (current_contract_address e) (authorized e) l (wasm e).
Definition with_wasm (w : option BytesN32) (e : Env) : Env :=
  mkEnv (instance e) (persistent e) (lifetimes e) (tokens e) (timestamp e)
    (current_contract_address e) (authorized e) (events e) w.

(** ** The contract monad *)

Inductive outcome (A : Type) : Type :=
| Done (r : result VaultError A) (e : Env)
| Trap.
#[global] Arguments Done {A} r e.
#[global] Arguments Trap {A}.

Definition M (A : Type) : Type := Env -> outcome A.

Definition retM {A} (a : A) : M A := fun e => Done (Ok a) e.
Definition throwM {A} (x : VaultError) : M A := fun e => Done (Err x) e.
Definition trapM {A} : M A := fun _ => Trap.
(** [?] : a Rust error returns early, with the writes made so far. *)
Definition bindM {A B} (m : M A) (f : A -> M B) : M B := fun e =>
  match m e with
  | Done (Ok a) e' => f a e'
  | Done (Err x) e' => Done (Err x) e'
  | Trap => Trap
  end.
Definition liftR {A} (r : result VaultError A) : M A := fun e => Done r e.

(** ** Host functions *)

Definition instance_get (k : DataKey) : M (option (KeyTy k)) :=
  fun e => Done (Ok (sget k (instance e))) e.
Definition instance_set (k : DataKey) (v : KeyTy k) : M unit :=
  fun e => Done (Ok tt) (with_instance (sset k v (instance e)) e).
Definition instance_remove (k : DataKey) : M unit :=
  fun e => Done (Ok tt) (with_instance (sremove k (instance e)) e).
Definition persistent_get (k : DataKey) : M (option (KeyTy k)) :=
  fun e => Done (Ok (sget k (persistent e))) e.
Definition persistent_set (k : DataKey) (v : KeyTy k) : M unit :=
  fun e => Done (Ok tt) (with_persistent (sset k v (persistent e)) e).
Definition persistent_remove (k : DataKey) : M unit :=
  fun e => Done (Ok tt) (with_persistent (sremove k (persistent e)) e).
Definition instance_extend_ttl (threshold extend_to : Z) : M unit :=
  fun e => Done (Ok tt) (with_lifetimes (extend_ttl None threshold extend_to (lifetimes e)) e).
(** Extending the lifetime of a missing entry traps. *)
Definition persistent_extend_ttl (k : DataKey) (threshold extend_to : Z) : M unit :=
  fun e => match sget k (persistent e) with
           | Some _ =>
               Done (Ok tt) (with_lifetimes (extend_ttl (Some k) threshold extend_to (lifetimes e)) e)
           | None => Trap
           end.
Definition ledger_timestamp : M Z := fun e => Done (Ok (timestamp e)) e.
Definition current_contract : M Address := fun e => Done (Ok (current_contract_address e)) e.
(** [Address::require_auth]: traps unless the invocation carries the authorization. *)
Definition require_auth (a : Address) : M unit :=
  fun e => if authorized e a then Done (Ok tt) e else Trap.
Definition publish (ev : Event) : M unit :=
  fun e => Done (Ok tt) (with_events (events e ++ [ev]) e).
(** [token::Client::transfer] and [balance]; a failing token call traps. *)
Definition transfer (token from to : Address) (amount : Z) : M unit :=
  fun e => match token_transfer token from to amount (tokens e) with
           | Some ts => Done (Ok tt) (with_tokens ts e)
           | None => Trap
           end.
Definition token_client_balance (token a : Address) : M Z :=
  fun e => Done (Ok (token_balance token a (tokens e))) e.
Definition update_current_contract_wasm (h : BytesN32) : M unit :=
  fun e => Done (Ok tt) (with_wasm (Some h) e).

(** ** Running a contract function *)

(** The host commits the environment of a call that returns [Ok]; an error or a
    trap rolls the whole invocation back. *)
Definition invoke {A} (m : M A) (e : Env) : Env :=
  match m e with
  | Done (Ok _) e' => e'
  | _ => e
  end.
End env.

Arguments Env : clear implicits.
Arguments Env {H}.
Arguments outcome {H} A.
Arguments M {H} A.

Notation "'let!' x ':=' m 'in' k" := (bindM m (fun x => k))
  (at level 10, x pattern, m at level 100, k at level 200) : vault_scope.

(** ** Inverting a run of contract code *)

Section runs.
Context `{Host}.

Lemma bindM_Ok {A B} (m : M A) (f : A -> M B) e b e' :
  bindM m f e = Done (Ok b) e' <->
  exists a e1, m e = Done (Ok a) e1 /\ f a e1 = Done (Ok b) e'.
Proof. unfold bindM. destruct (m e) as [[?|?] ?|]; naive_solver. Qed.

Lemma liftR_Ok {A} (r : result VaultError A) e a e' :
  liftR r e = Done (Ok a) e' <-> r = Ok a /\ e' = e.
Proof. unfold liftR. naive_solver. Qed.

Lemma retM_Ok {A} (x : A) e a e' : retM x e = Done (Ok a) e' <-> a = x /\ e' = e.
Proof. unfold retM. naive_solver. Qed.

Lemma require_auth_Ok a e u e' :
  require_auth a e = Done (Ok u) e' <-> authorized e a = true /\ e' = e.
Proof. unfold require_auth. destruct (authorized e a); destruct u; naive_solver. Qed.

Lemma transfer_Ok t f d amt e u e' :
  transfer t f d amt e = Done (Ok u) e' <->
  exists ts, token_transfer t f d amt (tokens e) = Some ts /\ e' = with_tokens ts e.
Proof. unfold transfer. destruct (token_transfer _ _ _ _ _); destruct u; naive_solver. Qed.

Lemma bindM_ret {A B} (a : A) (f : A -> M B) e : bindM (retM a) f e = f a e.
Proof. reflexivity. Qed.

Lemma bindM_step {A B} (m : M A) (f : A -> M B) a e e' :
  m e = Done (Ok a) e' -> bindM m f e = f a e'.
Proof. unfold bindM. by intros ->. Qed.

Lemma bindM_liftR {A B} (r : result VaultError A) (f : A -> M B) e :
  bindM (liftR r) f e = match r with Ok a => f a e | Err x => Done (Err x) e end.
Proof. reflexivity. Qed.

Lemma bindM_fail {A B} (m : M A) (f : A -> M B) x e e' :
  m e = Done (Err x) e' -> bindM m f e = Done (Err x) e'.
Proof. unfold bindM. by intros ->. Qed.
End runs.

(** Decompose a successful run into the successful runs of its parts. *)
Ltac run_inv :=
  repeat match goal with
  | H : bindM _ _ _ = Done (Ok _) _ |- _ =>
      apply bindM_Ok in H; destruct H as (? & ? & ? & H); cbn beta in H
  | H : liftR _ _ = Done (Ok _) _ |- _ => apply liftR_Ok in H; destruct H as [? ->]
  | H : retM _ _ = Done (Ok _) _ |- _ => apply retM_Ok in H; destruct H as [? ->]
  | H : require_auth _ _ = Done (Ok _) _ |- _ => apply require_auth_Ok in H; destruct H as [? ->]
  | H : transfer _ _ _ _ _ = Done (Ok _) _ |- _ =>
      apply transfer_Ok in H; destruct H as (? & ? & ->)
  | H : throwM _ _ = Done (Ok _) _ |- _ => discriminate H
  | H : trapM _ = Done (Ok _) _ |- _ => discriminate H
  | H : bindR _ _ = Ok _ |- _ => apply bindR_Ok in H; destruct H as (? & ? & H); cbn beta in H
  | H : ok_or _ _ = Ok _ |- _ => apply ok_or_Ok in H
  | H : Err _ = Ok _ |- _ => discriminate H
  | H : Ok _ = Ok _ |- _ => injection H as H
  | H : Some _ = Some _ |- _ => injection H as H
  | H : i128_checked_add _ _ = Some _ |- _ => apply i128_checked_add_Some in H as [? ?]
  | H : i128_checked_sub _ _ = Some _ |- _ => apply i128_checked_sub_Some in H as [? ?]
  | H : i128_checked_mul _ _ = Some _ |- _ => apply i128_checked_mul_Some in H as [? ?]
  | H : i128_checked_div _ _ = Some _ |- _ => apply i128_checked_div_Some in H as (? & ? & ?)
  | H : u128_checked_mul _ _ = Some _ |- _ => apply u128_checked_mul_Some in H as [? ?]
  | H : u128_checked_div _ _ = Some _ |- _ => apply u128_checked_div_Some in H as [? ?]
  | H : u64_checked_add _ _ = Some _ |- _ => apply u64_checked_add_Some in H as [? ?]
  | H : u64_checked_sub _ _ = Some _ |- _ => apply u64_checked_sub_Some in H as [? ?]
  end.

(** Case split on the tests of a successful run. *)
Ltac run_case :=
  match goal with
  | H : (if ?b then _ else _) _ = Done (Ok _) _ |- _ => destruct b eqn:?; run_inv
  | H : (if ?b then _ else _) = Ok _ |- _ => destruct b eqn:?; run_inv
  end.

#[export] Hint Rewrite @sget_sset_eq @sget_sremove_eq : vault.
