(* ===== verification/VaultMath.v ===== *)
(** Pure reward arithmetic of contracts/vault-contract/src/storage.rs: index
    increments, accrual, linear vesting and the utilization curve, on [i128],
    [u128], [u64] and [u32] values. *)
From stdpp Require Import base list strings sets sorting.
From S2P Require Import Prelude VaultErrors VaultTypes Host.

Definition PRECISION_FACTOR : Z := 1000000000.
Definition REWARD_INDEX_SCALE : Z := PRECISION_FACTOR.

Definition checked_reward_index_increment (amount total_deposits : Z) : result VaultError Z :=
  if total_deposits <=? 0 then Err (BE_NoDeposits : VaultError) else
  let? scaled := ok_or (i128_checked_mul amount REWARD_INDEX_SCALE) (AE_Overflow : VaultError) in
  let? increment := ok_or (i128_checked_div scaled total_deposits)
                          (AE_RewardCalculationFailed : VaultError) in
  if increment <=? 0 then Err (AE_ZeroRewardIncrement : VaultError) else
  Ok increment.

Definition checked_accrued_rewards (balance delta : Z) : result VaultError Z :=
  let? product := ok_or (i128_checked_mul balance delta) (AE_Overflow : VaultError) in
  ok_or (i128_checked_div product REWARD_INDEX_SCALE) (AE_RewardCalculationFailed : VaultError).

Definition calculate_vested_rewards (current_timestamp : Z) (position : UserPosition)
    (vesting_period : Z) : result VaultError Z :=
  if vesting_period =? 0 then Ok (accrued_rewards position) else
  if last_reward_timestamp position =? 0 then Ok 0 else
  let time_elapsed :=
    default 0 (u64_checked_sub current_timestamp (last_reward_timestamp position)) in
  if vesting_period <=? time_elapsed then Ok (accrued_rewards position) else
  let? product := ok_or (u128_checked_mul (as_u128 (accrued_rewards position)) time_elapsed)
                        (AE_Overflow : VaultError) in
  let? vested := ok_or (u128_checked_div product vesting_period)
                       (AE_RewardCalculationFailed : VaultError) in
  Ok (as_i128 vested).

(** The [for] loop of [calculate_utilization_multiplier]: the first point at or
    above the utilization, the initial selection when there is none. *)
Fixpoint select_multiplier (utilization : Z) (selected : Z) (points : list MultiplierPoint) : Z :=
  match points with
  | [] => selected
  | point :: rest =>
      if utilization <=? utilization_bps point then multiplier_bps point
      else select_multiplier utilization selected rest
  end.

Definition calculate_utilization_multiplier (total_deposits target_deposits : Z)
    (multipliers : list MultiplierPoint) : result VaultError Z :=
  match target_deposits <=? 0, last multipliers with
  | true, _ | _, None => Ok 10000
  | false, Some last_point =>
      let? scaled := ok_or (i128_checked_mul total_deposits 10000) (AE_Overflow : VaultError) in
      let? utilization := ok_or (i128_checked_div scaled target_deposits)
                                (AE_RewardCalculationFailed : VaultError) in
      Ok (select_multiplier (as_u32 utilization) (multiplier_bps last_point) multipliers)
  end.

(** The effective amount of [store_reward_distribution]: the amount scaled by
    the multiplier in basis points, computed in [u128]. *)
Definition effective_reward_amount (amount multiplier : Z) : result VaultError Z :=
  let? product := ok_or (u128_checked_mul (as_u128 amount) multiplier) (AE_Overflow : VaultError) in
  let? scaled := ok_or (u128_checked_div product 10000)
                       (AE_RewardCalculationFailed : VaultError) in
  Ok (as_i128 scaled).

(** [accrue_position_rewards] (and its multi-asset twin, which takes the
    asset's index): bring a position up to the global index [index] at time
    [now]. *)
Definition accrue_rewards (now index : Z) (position : UserPosition)
    : result VaultError UserPosition :=
  if (index =? pos_reward_index position) || (balance position =? 0) then
    Ok (mkPosition (balance position) index (accrued_rewards position)
                   (last_reward_timestamp position))
  else
  if balance position >? 0 then
    let? delta := ok_or (i128_checked_sub index (pos_reward_index position))
                        (AE_Overflow : VaultError) in
    let? accrued := checked_accrued_rewards (balance position) delta in
    if accrued >? 0 then
      let? total := ok_or (i128_checked_add (accrued_rewards position) accrued)
                          (AE_Overflow : VaultError) in
      Ok (mkPosition (balance position) index total now)
    else
      Ok (mkPosition (balance position) index (accrued_rewards position)
                     (last_reward_timestamp position))
  else
    Ok (mkPosition (balance position) index (accrued_rewards position)
                   (last_reward_timestamp position)).

Definition accrue_position_rewards (now : Z) (state : VaultState) (position : UserPosition)
    : result VaultError UserPosition :=
  accrue_rewards now (reward_index state) position.

Definition accrue_asset_position_rewards (now asset_reward_index : Z) (position : UserPosition)
    : result VaultError UserPosition :=
  accrue_rewards now asset_reward_index position.

(** ** Index increments *)

Lemma checked_reward_index_increment_Ok amount total inc :
  checked_reward_index_increment amount total = Ok inc <->
  0 < total /\ inc = Z.quot (amount * REWARD_INDEX_SCALE) total /\ 0 < inc /\
  i128_min <= amount * REWARD_INDEX_SCALE <= i128_max /\ inc <= i128_max.
Proof.
  unfold checked_reward_index_increment. split.
  - intros H. run_case. run_case. bool_to_prop. subst. lia.
  - intros (Ht & -> & Hi & Hr & Hm).
    destruct (total <=? 0) eqn:E; bool_to_prop; [lia|].
    assert (i128_checked_mul amount REWARD_INDEX_SCALE = Some (amount * REWARD_INDEX_SCALE)) as ->
      by (apply i128_checked_mul_Some; lia). cbn.
    set (q := Z.quot _ _) in *.
    assert (i128_checked_div (amount * REWARD_INDEX_SCALE) total = Some q) as ->
      by (apply i128_checked_div_Some; unfold i128_min in *; subst q; lia). cbn.
    destruct (q <=? 0) eqn:?; bool_to_prop; [lia|done].
Qed.

(** A successful increment never credits more than was distributed: the index
    times the deposits stays within the scaled amount, and the amount was
    positive. *)
Lemma increment_bounded amount total inc :
  checked_reward_index_increment amount total = Ok inc ->
  0 < amount /\ total * inc <= amount * REWARD_INDEX_SCALE < total * (inc + 1).
Proof.
  rewrite checked_reward_index_increment_Ok. intros (Ht & -> & Hi & Hr & Hm).
  assert (0 < amount * REWARD_INDEX_SCALE).
  { destruct (Z.lt_ge_cases 0 (amount * REWARD_INDEX_SCALE)) as [?|Hn]; [done|].
    exfalso. assert (Z.quot (amount * REWARD_INDEX_SCALE) total <= 0); [|lia].
    rewrite <- (Z.opp_involutive (amount * REWARD_INDEX_SCALE)), Z.quot_opp_l by lia.
    pose proof (quot_nonneg (- (amount * REWARD_INDEX_SCALE)) total). lia. }
  split; [unfold REWARD_INDEX_SCALE, PRECISION_FACTOR in *; lia|].
  apply quot_floor; lia.
Qed.

(** ** Accrual *)

Lemma checked_accrued_rewards_Ok bal delta r :
  checked_accrued_rewards bal delta = Ok r <->
  r = Z.quot (bal * delta) REWARD_INDEX_SCALE /\ i128_min <= bal * delta <= i128_max.
Proof.
  unfold checked_accrued_rewards. split.
  - intros H. run_inv. subst. auto.
  - intros [-> Hr].
    assert (i128_checked_mul bal delta = Some (bal * delta)) as ->
      by (by apply i128_checked_mul_Some). cbn.
    apply ok_or_Ok, i128_checked_div_Some.
    unfold REWARD_INDEX_SCALE, PRECISION_FACTOR, i128_min, i128_max in *.
    repeat split; try lia; pose proof (Z.quot_rem' (bal * delta) 1000000000);
      pose proof (Z.rem_bound_abs (bal * delta) 1000000000); lia.
Qed.

Lemma accrue_rewards_Ok now index p q :
  0 <= balance p -> pos_reward_index p <= index ->
  accrue_rewards now index p = Ok q ->
  balance q = balance p /\ pos_reward_index q = index /\
  accrued_rewards q =
    accrued_rewards p + Z.quot (balance p * (index - pos_reward_index p)) REWARD_INDEX_SCALE /\
  (last_reward_timestamp q = last_reward_timestamp p \/ last_reward_timestamp q = now).
Proof.
  intros Hb Hi H. unfold accrue_rewards in H.
  destruct ((index =? _) || _) eqn:E.
  - run_inv. subst q. cbn. repeat split; auto.
    assert (balance p * (index - pos_reward_index p) = 0) as ->
      by (apply orb_true_iff in E as [E|E]; bool_to_prop; nia). rewrite Z.quot_0_l; [lia|done].
  - bool_to_prop. destruct (balance p >? 0) eqn:E2; bool_to_prop; [|lia]. run_inv. subst.
    match goal with
    | Hc : checked_accrued_rewards _ _ = Ok _ |- _ =>
        apply checked_accrued_rewards_Ok in Hc as [-> ?]
    end.
    assert (0 <= Z.quot (balance p * (index - pos_reward_index p)) REWARD_INDEX_SCALE)
      by (apply quot_nonneg; [nia|done]).
    run_case; bool_to_prop; subst q; cbn; repeat split; auto. lia.
Qed.

Lemma accrue_rewards_range now index p q :
  accrued_rewards p <= i128_max -> accrue_rewards now index p = Ok q ->
  accrued_rewards q <= i128_max.
Proof.
  intros Ha Hq. unfold accrue_rewards in Hq. repeat run_case; run_inv; subst; cbn; lia.
Qed.

(** Accrual succeeds whenever the product of balance and index gap and the new
    total are representable. *)
Lemma accrue_rewards_total now index p :
  0 <= balance p -> i128_min <= index - pos_reward_index p <= i128_max ->
  i128_min <= balance p * (index - pos_reward_index p) <= i128_max ->
  i128_min <= accrued_rewards p +
    Z.quot (balance p * (index - pos_reward_index p)) REWARD_INDEX_SCALE <= i128_max ->
  exists q, accrue_rewards now index p = Ok q.
Proof.
  intros Hb Hd Hp Ha. unfold accrue_rewards.
  destruct (_ || _) eqn:E; [eauto|]. bool_to_prop.
  destruct (balance p >? 0); [|eauto].
  assert (i128_checked_sub index (pos_reward_index p) = Some (index - pos_reward_index p)) as ->
    by (by apply i128_checked_sub_Some). cbn.
  assert (checked_accrued_rewards (balance p) (index - pos_reward_index p) =
    Ok (Z.quot (balance p * (index - pos_reward_index p)) REWARD_INDEX_SCALE)) as ->
    by (by apply checked_accrued_rewards_Ok). cbn.
  destruct (_ >? 0); [|eauto].
  assert (i128_checked_add (accrued_rewards p)
    (Z.quot (balance p * (index - pos_reward_index p)) REWARD_INDEX_SCALE) = Some (accrued_rewards p +
    Z.quot (balance p * (index - pos_reward_index p)) REWARD_INDEX_SCALE)) as ->
    by (by apply i128_checked_add_Some). by eexists.
Qed.

(** ** Vesting *)

(** Time since the last accrual, cut off at zero, as the code computes it. *)
Definition elapsed (now : Z) (p : UserPosition) : Z :=
  default 0 (u64_checked_sub now (last_reward_timestamp p)).

Lemma elapsed_nonneg now p : 0 <= elapsed now p.
Proof.
  unfold elapsed, u64_checked_sub, checked. destruct (_ && _) eqn:E; bool_to_prop; cbn; lia.
Qed.

Lemma elapsed_mono now now' p : now <= now' <= u64_max -> 0 <= last_reward_timestamp p ->
  elapsed now p <= elapsed now' p.
Proof.
  intros ??. unfold elapsed, u64_checked_sub, checked.
  destruct (_ && _) eqn:E1, (0 <=? now' - _) eqn:E2, (now' - _ <=? _) eqn:E3;
    bool_to_prop; cbn; lia.
Qed.

Lemma elapsed_mono_le_zero now p : now <= last_reward_timestamp p -> elapsed now p = 0.
Proof.
  intros ?. unfold elapsed, u64_checked_sub, checked.
  destruct (_ && _) eqn:E1; bool_to_prop; cbn; lia.
Qed.

(** The closed form of [calculate_vested_rewards] on a position with
    non-negative accrued rewards: nothing before the first accrual, otherwise
    the elapsed fraction of the period, everything once it is over. *)
Lemma calculate_vested_rewards_Ok now p vp v :
  0 <= accrued_rewards p <= i128_max -> 0 < vp ->
  calculate_vested_rewards now p vp = Ok v ->
  v = if last_reward_timestamp p =? 0 then 0
      else Z.quot (accrued_rewards p * Z.min (elapsed now p) vp) vp.
Proof.
  intros Ha Hv H. unfold calculate_vested_rewards in H. fold (elapsed now p) in H.
  destruct (vp =? 0) eqn:?; bool_to_prop; [lia|].
  destruct (last_reward_timestamp p =? 0); [congruence|].
  pose proof (elapsed_nonneg now p).
  destruct (vp <=? elapsed now p) eqn:E; bool_to_prop.
  - rewrite Z.min_r by lia. rewrite Z.quot_mul by lia. congruence.
  - rewrite Z.min_l by lia. run_inv. subst.
    rewrite as_u128_id by (unfold i128_max, u128_max in *; lia).
    rewrite as_i128_id; [done|].
    assert (0 <= Z.quot (accrued_rewards p * elapsed now p) vp <= accrued_rewards p);
      [|unfold i128_min in *; lia].
    split; [apply quot_nonneg; nia|].
    apply Z.quot_le_upper_bound; nia.
Qed.

Lemma vested_bounds now p vp v :
  0 <= accrued_rewards p <= i128_max -> 0 <= vp ->
  calculate_vested_rewards now p vp = Ok v -> 0 <= v <= accrued_rewards p.
Proof.
  intros Ha Hvp H. destruct (Z.eq_dec vp 0) as [->|?].
  { unfold calculate_vested_rewards in H. cbn in H. run_inv. subst. lia. }
  pose proof (elapsed_nonneg now p).
  rewrite (calculate_vested_rewards_Ok now p vp v) by (done || lia).
  destruct (_ =? 0); [lia|]. split; [apply quot_nonneg; nia|].
  apply Z.quot_le_upper_bound; nia.
Qed.

(** Vesting cannot overflow as long as the scaled product fits in [u128]. *)
Lemma calculate_vested_rewards_total now p vp :
  0 <= accrued_rewards p <= i128_max -> 0 <= vp ->
  accrued_rewards p * vp <= u128_max ->
  exists v, calculate_vested_rewards now p vp = Ok v.
Proof.
  intros Ha Hv Hf. unfold calculate_vested_rewards. fold (elapsed now p).
  destruct (vp =? 0) eqn:?; [eauto|]. destruct (last_reward_timestamp p =? 0); [eauto|].
  pose proof (elapsed_nonneg now p).
  destruct (vp <=? elapsed now p) eqn:E; [eauto|]. bool_to_prop.
  rewrite as_u128_id by (unfold i128_max, u128_max in *; lia).
  assert (u128_checked_mul (accrued_rewards p) (elapsed now p) =
    Some (accrued_rewards p * elapsed now p)) as -> by (apply u128_checked_mul_Some; nia). cbn.
  unfold u128_checked_div. rewrite (proj2 (Z.eqb_neq vp 0)) by lia. cbn. eauto.
Qed.

(** ** The utilization curve *)

(** [select_multiplier] scans for the first point at or above the utilization. *)
Lemma select_multiplier_cases u d points :
  (exists l p r, points = l ++ p :: r /\ u <= utilization_bps p /\
     Forall (fun q => utilization_bps q < u) l /\ select_multiplier u d points = multiplier_bps p) \/
  (Forall (fun q => utilization_bps q < u) points /\ select_multiplier u d points = d).
Proof.
  induction points as [|p points IH]; cbn; [by right|].
  destruct (u <=? utilization_bps p) eqn:E; bool_to_prop.
  - left. exists [], p, points. auto.
  - destruct IH as [(l & q & r & -> & Hq & Hl & ->)|[Hf ->]].
    + left. exists (p :: l), q, r. repeat split; auto.
    + right. auto.
Qed.

Lemma last_elem {A} (l : list A) x : last l = Some x -> x ∈ l.
Proof. intros [l' ->]%last_Some. set_solver. Qed.

(** The multiplier is 100% or one of the configured ones. *)
Lemma multiplier_of_points total target points m :
  calculate_utilization_multiplier total target points = Ok m ->
  m = 10000 \/ exists p, p ∈ points /\ m = multiplier_bps p.
Proof.
  unfold calculate_utilization_multiplier. intros Hm.
  destruct (target <=? 0); [run_inv; auto|].
  destruct (last points) as [lp|] eqn:Hl; [|run_inv; auto]. apply last_elem in Hl.
  run_inv. subst m.
  match goal with |- context [select_multiplier ?u ?d points] =>
    destruct (select_multiplier_cases u d points) as [(l & p & r & -> & _ & _ & ->)|[_ ->]] end;
    right; [exists p|exists lp]; set_solver.
Qed.

Lemma bps_range x : 0 <= x <= u128_max -> i128_min <= x / 10000 <= i128_max.
Proof.
  intros Hx. assert (0 <= x / 10000) by (apply Z.div_pos; lia).
  assert (x / 10000 <= u128_max / 10000) as Hd by (apply Z.div_le_mono; lia).
  change (u128_max / 10000) with 34028236692093846346337460743176821 in Hd.
  unfold i128_min, i128_max. lia.
Qed.

(** The effective amount is the amount times the multiplier, rounded down; the
    casts do not lose anything. *)
Lemma effective_reward_amount_Ok amount multiplier eff :
  0 <= amount <= i128_max -> 0 <= multiplier ->
  effective_reward_amount amount multiplier = Ok eff <->
  amount * multiplier <= u128_max /\ eff = amount * multiplier / 10000.
Proof.
  intros Ha Hm. unfold effective_reward_amount.
  rewrite as_u128_id by (unfold i128_max, u128_max in *; lia).
  assert (0 <= amount * multiplier) by nia. split.
  - intros He. run_inv. subst. split; [lia|].
    rewrite Z.quot_div_nonneg by lia. by apply as_i128_id, bps_range.
  - intros [Hr ->].
    assert (u128_checked_mul amount multiplier = Some (amount * multiplier)) as ->
      by (by apply u128_checked_mul_Some). cbn.
    assert (u128_checked_div (amount * multiplier) 10000 = Some (amount * multiplier / 10000)) as ->.
    { apply u128_checked_div_Some. split; [by rewrite Z.quot_div_nonneg by lia|done]. }
    cbn. by rewrite as_i128_id by (by apply bps_range).
Qed.

Lemma effective_at_most_par amount multiplier eff :
  0 <= amount <= i128_max -> 0 <= multiplier <= 10000 ->
  effective_reward_amount amount multiplier = Ok eff -> 0 <= eff <= amount.
Proof.
  intros Ha Hm [_ ->]%effective_reward_amount_Ok; [|lia|lia].
  split; [apply Z.div_pos; nia|]. apply Z.div_le_upper_bound; nia.
Qed.
