(* ===== verification/VaultEvents.v ===== *)
(** The event emitters of contracts/vault-contract/src/events.rs: each one
    publishes its topics and payload, stamped with the ledger time. *)
From stdpp Require Import base list strings.
From S2P Require Import Prelude VaultErrors VaultTypes Host.

Definition PROTOCOL : string := "AxionVault".
Definition ACT_INIT : string := "Initialize".
Definition ACT_DEPOSIT : string := "Deposit".
Definition ACT_WITHDRAW : string := "Withdraw".
Definition ACT_DISTRIBUTE : string := "Distribute".
Definition ACT_CLAIM : string := "Claim".
Definition EVT_ADMIN_PROPOSED : string := "AdminProp".
Definition EVT_ADMIN_ACCEPTED : string := "AdminAcpt".
Definition ACT_LOCK : string := "Lock".
Definition ACT_UNLOCK : string := "Unlock".
Definition EVT_UPGRADE : string := "Upgrade".
Definition EVT_ASSET_ADDED : string := "AssetAdd".
Definition ACT_ASSET_DEPOSIT : string := "AssetDep".
Definition ACT_ASSET_WITHDRAW : string := "AssetWith".
Definition ACT_ASSET_DISTRIBUTE : string := "AssetDist".
Definition ACT_ASSET_CLAIM : string := "AssetClm".

Section emitters.
Context `{Host}.

Definition emit_initialize (admin deposit_token reward_token : Address) : M unit :=
  let! t := ledger_timestamp in
  publish (mkEvent [PROTOCOL; ACT_INIT]
    (EvInitialize (mkInitializeEvent admin deposit_token reward_token t))).

Definition emit_lock (user : Address) (amount unlock_at : Z) : M unit :=
  let! t := ledger_timestamp in
  publish (mkEvent [PROTOCOL; ACT_LOCK] (EvLock (mkLockEvent user amount unlock_at t))).

Definition emit_unlock (user : Address) (amount : Z) : M unit :=
  let! t := ledger_timestamp in
  publish (mkEvent [PROTOCOL; ACT_UNLOCK] (EvUnlock (mkUnlockEvent user amount t))).

Definition emit_deposit (user : Address) (amount : Z) : M unit :=
  let! t := ledger_timestamp in
  publish (mkEvent [PROTOCOL; ACT_DEPOSIT] (EvDeposit (mkDepositEvent user amount t))).

Definition emit_withdraw (user : Address) (amount remaining_balance : Z) : M unit :=
  let! t := ledger_timestamp in
  publish (mkEvent [PROTOCOL; ACT_WITHDRAW]
    (EvWithdraw (mkWithdrawEvent user amount remaining_balance t))).

Definition emit_distribute (caller : Address) (amount : Z) : M unit :=
  let! t := ledger_timestamp in
  publish (mkEvent [PROTOCOL; ACT_DISTRIBUTE] (EvDistribute (mkDistributeEvent caller amount t))).

Definition emit_claim_rewards (user : Address) (amount : Z) : M unit :=
  let! t := ledger_timestamp in
  publish (mkEvent [PROTOCOL; ACT_CLAIM] (EvClaim (mkClaimEvent user amount t))).

Definition emit_admin_transfer_proposed (current_admin pending_admin : Address) : M unit :=
  let! t := ledger_timestamp in
  publish (mkEvent [EVT_ADMIN_PROPOSED]
    (EvAdminTransferProposed (mkAdminTransferProposedEvent current_admin pending_admin t))).

Definition emit_admin_transfer_accepted (previous_admin new_admin : Address) : M unit :=
  let! t := ledger_timestamp in
  publish (mkEvent [EVT_ADMIN_ACCEPTED]
    (EvAdminTransferAccepted (mkAdminTransferAcceptedEvent previous_admin new_admin t))).

Definition emit_upgrade (admin : Address) (new_wasm_hash : BytesN32) : M unit :=
  let! t := ledger_timestamp in
  publish (mkEvent [EVT_UPGRADE] (EvUpgrade (mkUpgradeEvent admin new_wasm_hash t))).

Definition emit_asset_added (asset : Address) : M unit :=
  let! t := ledger_timestamp in
  publish (mkEvent [EVT_ASSET_ADDED] (EvAssetAdded (mkAssetAddedEvent asset t))).

Definition emit_asset_deposit (user asset : Address) (amount : Z) : M unit :=
  let! t := ledger_timestamp in
  publish (mkEvent [PROTOCOL; ACT_ASSET_DEPOSIT]
    (EvAssetDeposit (mkAssetDepositEvent user asset amount t))).

Definition emit_asset_withdraw (user asset : Address) (amount remaining_balance : Z) : M unit :=
  let! t := ledger_timestamp in
  publish (mkEvent [PROTOCOL; ACT_ASSET_WITHDRAW]
    (EvAssetWithdraw (mkAssetWithdrawEvent user asset amount remaining_balance t))).

Definition emit_asset_distribute (caller asset : Address) (amount : Z) : M unit :=
  let! t := ledger_timestamp in
  publish (mkEvent [PROTOCOL; ACT_ASSET_DISTRIBUTE]
    (EvAssetDistribute (mkAssetDistributeEvent caller asset amount t))).

Definition emit_asset_claim_rewards (user asset : Address) (amount : Z) : M unit :=
  let! t := ledger_timestamp in
  publish (mkEvent [PROTOCOL; ACT_ASSET_CLAIM]
    (EvAssetClaim (mkAssetClaimEvent user asset amount t))).
End emitters.
