(* ===== verification/VaultStorage.v ===== *)
(** contracts/vault-contract/src/storage.rs, lines 125-876: initialization,
    global state, the reentrancy guard, user positions, liquid balances and time
    locks, deposit, withdrawal, reward distribution, claiming and previews. *)
From stdpp Require Import base gmap list strings.
From S2P Require Import Prelude VaultErrors VaultTypes Host VaultMath.

Definition INSTANCE_TTL_THRESHOLD : Z := 518400.
Definition INSTANCE_TTL_EXTEND_TO : Z := 518400.
Definition PERSISTENT_TTL_THRESHOLD : Z := 518400.
Definition PERSISTENT_TTL_EXTEND_TO : Z := 518400.

Section storage.
Context `{Host}.

Definition bump_instance_ttl : M unit :=
  instance_extend_ttl INSTANCE_TTL_THRESHOLD INSTANCE_TTL_EXTEND_TO.

Definition bump_persistent_ttl (key : DataKey) : M unit :=
  persistent_extend_ttl key PERSISTENT_TTL_THRESHOLD PERSISTENT_TTL_EXTEND_TO.

(** *** Init *)

Definition is_initialized : M bool :=
  let! v := instance_get Initialized in
  retM (default false v).

Definition require_initialized : M unit :=
  let! b := is_initialized in
  if b then retM tt else throwM SE_NotInitialized.

Definition require_not_paused : M unit :=
  let! v := instance_get IsPaused in
  if default false v then throwM AuE_Unauthorized else retM tt.

Definition initialize_state (admin deposit_token reward_token : Address)
    (vesting_period target_deposits : Z) (utilization_multipliers : list MultiplierPoint)
    : M unit :=
  let! _ := instance_set Initialized true in
  let! _ := instance_set Admin admin in
  let! _ := instance_remove PendingAdmin in
  let! _ := instance_set DepositToken deposit_token in
  let! _ := instance_set RewardToken reward_token in
  let! _ := instance_set VestingPeriod vesting_period in
  let! _ := instance_set TotalDeposits 0 in
  let! _ := instance_set RewardIndex 0 in
  let! _ := instance_set TargetDeposits target_deposits in
  let! _ := instance_set UtilizationMultipliers utilization_multipliers in
  let! _ := instance_set ReentrancyGuard false in
  let! _ := instance_set IsPaused false in
  bump_instance_ttl.

(** *** Global state *)

Definition get_state : M VaultState :=
  let! _ := require_initialized in
  let! a := instance_get Admin in
  let! admin := liftR (ok_or a (SE_InvalidState : VaultError)) in
  let! d := instance_get DepositToken in
  let! deposit_token := liftR (ok_or d (SE_InvalidState : VaultError)) in
  let! r := instance_get RewardToken in
  let! reward_token := liftR (ok_or r (SE_InvalidState : VaultError)) in
  let! total := instance_get TotalDeposits in
  let! index := instance_get RewardIndex in
  let! vesting := instance_get VestingPeriod in
  let! target := instance_get TargetDeposits in
  let! points := instance_get UtilizationMultipliers in
  let! _ := bump_instance_ttl in
  retM (mkVaultState admin deposit_token reward_token (default 0 total) (default 0 index)
          (default 0 vesting) (default 0 target) (default [] points)).

Definition get_admin : M Address := let! s := get_state in retM (admin s).

Definition set_admin (admin : Address) : M unit :=
  let! _ := instance_set Admin admin in bump_instance_ttl.

Definition get_pending_admin : M (option Address) :=
  let! _ := require_initialized in
  let! pending := instance_get PendingAdmin in
  let! _ := bump_instance_ttl in
  retM pending.

Definition set_pending_admin (pending_admin : Address) : M unit :=
  let! _ := instance_set PendingAdmin pending_admin in bump_instance_ttl.

Definition clear_pending_admin : M unit :=
  let! _ := instance_remove PendingAdmin in bump_instance_ttl.

Definition get_deposit_token : M Address := let! s := get_state in retM (deposit_token s).
Definition get_reward_token : M Address := let! s := get_state in retM (reward_token s).
Definition get_total_deposits : M Z := let! s := get_state in retM (total_deposits s).

Definition set_total_deposits (total : Z) : M unit :=
  let! _ := instance_set TotalDeposits total in bump_instance_ttl.

Definition get_reward_index : M Z := let! s := get_state in retM (reward_index s).

Definition set_reward_index (index : Z) : M unit :=
  let! _ := instance_set RewardIndex index in bump_instance_ttl.

Definition get_vesting_period : M Z := let! s := get_state in retM (vesting_period s).

Definition set_paused (paused : bool) : M unit :=
  let! _ := instance_set IsPaused paused in bump_instance_ttl.

Definition set_target_deposits (new_target : Z) : M unit :=
  let! _ := instance_set TargetDeposits new_target in bump_instance_ttl.

Definition set_utilization_multipliers (multipliers : list MultiplierPoint) : M unit :=
  let! _ := instance_set UtilizationMultipliers multipliers in bump_instance_ttl.

(** *** Reentrancy guard *)

Definition enter_non_reentrant : M unit :=
  let! v := instance_get ReentrancyGuard in
  if default false v then throwM AuE_ReentrancyDetected else
  let! _ := instance_set ReentrancyGuard true in
  bump_instance_ttl.

Definition exit_non_reentrant : M unit :=
  let! _ := instance_set ReentrancyGuard false in bump_instance_ttl.

(** *** User positions *)

Definition get_liquid_balance_unchecked (user : Address) : M Z :=
  let key := UserLiquidBalance user in
  let! v := persistent_get key in
  let balance : Z := default 0 v in
  let! _ := if balance =? 0 then retM tt else bump_persistent_ttl key in
  retM balance.

Definition set_liquid_balance (user : Address) (amount : Z) : M unit :=
  let key := UserLiquidBalance user in
  if amount =? 0 then persistent_remove key
  else let! _ := persistent_set key amount in bump_persistent_ttl key.

Definition get_user_locks_unchecked (user : Address) : M (list Lock) :=
  let key := UserLocks user in
  let! v := persistent_get key in
  let locks : list Lock := default [] v in
  let! _ := if bool_decide (locks = []) then retM tt else bump_persistent_ttl key in
  retM locks.

Definition set_user_locks (user : Address) (locks : list Lock) : M unit :=
  let key := UserLocks user in
  let! _ := persistent_set key locks in
  if bool_decide (locks = []) then retM tt else bump_persistent_ttl key.

(** [iter().sum()] on [i128]: the release profile has no overflow checks, so
    the addition wraps. *)
Definition sum_i128 (l : list Z) : Z := fold_left (fun a b => as_i128 (a + b)) l 0.

Definition get_user_position_unchecked (user : Address) : M UserPosition :=
  let! liquid_balance := get_liquid_balance_unchecked user in
  let! locks := get_user_locks_unchecked user in
  let locked_balance := sum_i128 (map lock_amount locks) in
  let! total_balance := liftR (ok_or (i128_checked_add liquid_balance locked_balance)
                                     (AE_Overflow : VaultError)) in
  let! ri := persistent_get (UserRewardIndex user) in
  let! ar := persistent_get (UserAccruedRewards user) in
  let! lt := persistent_get (UserLastRewardTimestamp user) in
  let reward_index : Z := default 0 ri in
  let accrued : Z := default 0 ar in
  let last_ts : Z := default 0 lt in
  let! _ := if reward_index =? 0 then retM tt else bump_persistent_ttl (UserRewardIndex user) in
  let! _ := if accrued =? 0 then retM tt else bump_persistent_ttl (UserAccruedRewards user) in
  let! _ := if last_ts =? 0 then retM tt else bump_persistent_ttl (UserLastRewardTimestamp user) in
  retM (mkPosition total_balance reward_index accrued last_ts).

Definition get_user_position (user : Address) : M UserPosition :=
  let! _ := require_initialized in
  get_user_position_unchecked user.

Definition set_user_position (user : Address) (position : UserPosition) : M unit :=
  let reward_index_key := UserRewardIndex user in
  let accrued_rewards_key := UserAccruedRewards user in
  let last_reward_timestamp_key := UserLastRewardTimestamp user in
  let! _ := if pos_reward_index position =? 0 then persistent_remove reward_index_key
            else let! _ := persistent_set reward_index_key (pos_reward_index position) in
                 bump_persistent_ttl reward_index_key in
  let! _ := if accrued_rewards position =? 0 then persistent_remove accrued_rewards_key
            else let! _ := persistent_set accrued_rewards_key (accrued_rewards position) in
                 bump_persistent_ttl accrued_rewards_key in
  let! _ := persistent_set last_reward_timestamp_key (last_reward_timestamp position) in
  bump_persistent_ttl last_reward_timestamp_key.

Definition get_user_balance (user : Address) : M Z :=
  let! position := get_user_position user in
  retM (balance position).

Definition get_liquid_balance (user : Address) : M Z :=
  let! _ := require_initialized in
  get_liquid_balance_unchecked user.

Definition get_locked_balance (user : Address) : M Z :=
  let! _ := require_initialized in
  let! locks := get_user_locks_unchecked user in
  let! now := ledger_timestamp in
  retM (sum_i128 (map lock_amount (filter (fun l => unlock_timestamp l > now) locks))).

(** *** Deposit, withdrawal, locks *)

Definition with_total (total : Z) (s : VaultState) : VaultState :=
  mkVaultState (admin s) (deposit_token s) (reward_token s) total (reward_index s)
    (vesting_period s) (target_deposits s) (utilization_multipliers s).

Definition with_index (index : Z) (s : VaultState) : VaultState :=
  mkVaultState (admin s) (deposit_token s) (reward_token s) (total_deposits s) index
    (vesting_period s) (target_deposits s) (utilization_multipliers s).

Definition with_balance (b : Z) (p : UserPosition) : UserPosition :=
  mkPosition b (pos_reward_index p) (accrued_rewards p) (last_reward_timestamp p).

Definition with_accrued (a : Z) (p : UserPosition) : UserPosition :=
  mkPosition (balance p) (pos_reward_index p) a (last_reward_timestamp p).

Definition store_deposit (user : Address) (amount : Z) : M (VaultState * UserPosition) :=
  let! state := get_state in
  let! position := get_user_position_unchecked user in
  let! now := ledger_timestamp in
  let! position := liftR (accrue_position_rewards now state position) in
  let! new_balance := liftR (ok_or (i128_checked_add (balance position) amount)
                                   (AE_Overflow : VaultError)) in
  let position := with_balance new_balance position in
  let! liquid := get_liquid_balance_unchecked user in
  let! new_liquid_balance := liftR (ok_or (i128_checked_add liquid amount)
                                          (AE_Overflow : VaultError)) in
  let! next_total := liftR (ok_or (i128_checked_add (total_deposits state) amount)
                                  (AE_Overflow : VaultError)) in
  let! _ := set_liquid_balance user new_liquid_balance in
  let! _ := set_total_deposits next_total in
  let! _ := set_user_position user position in
  retM (with_total next_total state, position).

(** The [for] loop of [unlock_expired_locks]: the amount released and the locks
    kept, in order. *)
Fixpoint release_locks (now limit processed unlocked : Z) (kept : list Lock) (locks : list Lock)
    : result VaultError (Z * list Lock) :=
  match locks with
  | [] => Ok (unlocked, kept)
  | lock :: rest =>
      if (unlock_timestamp lock <=? now) && (processed <? limit) then
        let? unlocked := ok_or (i128_checked_add unlocked (lock_amount lock))
                               (AE_Overflow : VaultError) in
        release_locks now limit (processed + 1) unlocked kept rest
      else release_locks now limit processed unlocked (kept ++ [lock]) rest
  end.

Definition unlock_expired_locks (user : Address) (limit : Z) : M Z :=
  if limit =? 0 then retM 0 else
  let! now := ledger_timestamp in
  let! locks := get_user_locks_unchecked user in
  let! released := liftR (release_locks now limit 0 0 [] locks) in
  let '(unlocked_amount, new_locks) := released in
  let! _ := if unlocked_amount >? 0 then
              let! liquid_balance := get_liquid_balance_unchecked user in
              let! new_liquid_balance :=
                liftR (ok_or (i128_checked_add liquid_balance unlocked_amount)
                             (AE_Overflow : VaultError)) in
              let! _ := set_liquid_balance user new_liquid_balance in
              set_user_locks user new_locks
            else retM tt in
  retM unlocked_amount.

Definition WITHDRAW_UNLOCK_LIMIT : Z := 5.

Definition store_withdraw (user : Address) (amount : Z) : M (VaultState * UserPosition) :=
  let! state := get_state in
  let! position := get_user_position_unchecked user in
  let! now := ledger_timestamp in
  let! position := liftR (accrue_position_rewards now state position) in
  let! _ := unlock_expired_locks user WITHDRAW_UNLOCK_LIMIT in
  let! liquid_balance := get_liquid_balance_unchecked user in
  if liquid_balance <? amount then throwM BE_InsufficientBalance else
  let! new_balance := liftR (ok_or (i128_checked_sub (balance position) amount)
                                   (AE_Overflow : VaultError)) in
  let position := with_balance new_balance position in
  let! new_liquid_balance := liftR (ok_or (i128_checked_sub liquid_balance amount)
                                          (AE_Overflow : VaultError)) in
  let! next_total := liftR (ok_or (i128_checked_sub (total_deposits state) amount)
                                  (AE_Overflow : VaultError)) in
  let! _ := set_liquid_balance user new_liquid_balance in
  let! _ := set_total_deposits next_total in
  let! _ := set_user_position user position in
  retM (with_total next_total state, position).

Definition store_lock (user : Address) (amount duration : Z) : M unit :=
  let! state := get_state in
  let! position := get_user_position_unchecked user in
  let! now := ledger_timestamp in
  let! position := liftR (accrue_position_rewards now state position) in
  let! _ := set_user_position user position in
  let! liquid_balance := get_liquid_balance_unchecked user in
  if liquid_balance <? amount then throwM BE_InsufficientBalance else
  let! new_liquid_balance := liftR (ok_or (i128_checked_sub liquid_balance amount)
                                          (AE_Overflow : VaultError)) in
  let! _ := set_liquid_balance user new_liquid_balance in
  let! locks := get_user_locks_unchecked user in
  let! now := ledger_timestamp in
  let! unlock_at := liftR (ok_or (u64_checked_add now duration) (AE_Overflow : VaultError)) in
  set_user_locks user (locks ++ [mkLock amount unlock_at 0]).

(** *** Rewards *)

Definition store_reward_distribution (amount : Z) : M VaultState :=
  let! state := get_state in
  let! multiplier := liftR (calculate_utilization_multiplier (total_deposits state)
                              (target_deposits state) (utilization_multipliers state)) in
  let! effective_amount := liftR (effective_reward_amount amount multiplier) in
  let! increment := liftR (checked_reward_index_increment effective_amount
                             (total_deposits state)) in
  let! next_reward_index := liftR (ok_or (i128_checked_add (reward_index state) increment)
                                         (AE_Overflow : VaultError)) in
  let! _ := set_reward_index next_reward_index in
  retM (with_index next_reward_index state).

Definition store_claimable_rewards (user : Address) : M Z :=
  let! state := get_state in
  let! position := get_user_position_unchecked user in
  let! now := ledger_timestamp in
  let! position := liftR (accrue_position_rewards now state position) in
  let! current_timestamp := ledger_timestamp in
  let! vested := liftR (calculate_vested_rewards current_timestamp position
                          (vesting_period state)) in
  let! remaining := liftR (ok_or (i128_checked_sub (accrued_rewards position) vested)
                                 (AE_Overflow : VaultError)) in
  let! _ := set_user_position user (with_accrued remaining position) in
  retM vested.

Definition preview_user_rewards (user : Address) : M UserRewardSnapshot :=
  let! _ := require_initialized in
  let! state := get_state in
  let! position := get_user_position_unchecked user in
  let! now := ledger_timestamp in
  let! position := liftR (accrue_position_rewards now state position) in
  let! current_timestamp := ledger_timestamp in
  let! vested := liftR (calculate_vested_rewards current_timestamp position
                          (vesting_period state)) in
  retM (mkSnapshot (pos_reward_index position) (accrued_rewards position) vested).

Definition pending_user_rewards_view (user : Address) : M Z :=
  let! s := preview_user_rewards user in retM (rewards s).

Definition vested_user_rewards_view (user : Address) : M Z :=
  let! s := preview_user_rewards user in retM (vested_rewards s).
End storage.
