(* ===== verification/VaultAssets.v ===== *)
(** The multi-asset half of contracts/vault-contract/src/storage.rs (lines
    878-1221): supported assets and, per asset, the same deposit, withdrawal,
    distribution and claim bookkeeping as the legacy vault, without locks and
    without the utilization multiplier. *)
From stdpp Require Import base gmap list strings.
From S2P Require Import Prelude VaultErrors VaultTypes Host VaultMath VaultStorage.

Section assets.
Context `{Host}.

Definition get_supported_assets : M (gmap Address bool) :=
  let! v := instance_get SupportedAssets in
  retM (default ∅ v).

Definition add_supported_asset (asset : Address) : M unit :=
  let! assets := get_supported_assets in
  match assets !! asset with
  | Some _ => retM tt
  | None =>
      let! _ := instance_set SupportedAssets (<[asset := true]> assets) in
      let! _ := instance_set (AssetTotalDeposits asset) 0 in
      let! _ := instance_set (AssetRewardIndex asset) 0 in
      bump_instance_ttl
  end.

Definition is_asset_supported (asset : Address) : M bool :=
  let! assets := get_supported_assets in
  retM (bool_decide (is_Some (assets !! asset))).

Definition require_supported (asset : Address) : M unit :=
  let! ok := is_asset_supported asset in
  if ok then retM tt else throwM VE_InvalidAddress.

Definition get_asset_total_deposits (asset : Address) : M Z :=
  let! _ := require_supported asset in
  let! v := instance_get (AssetTotalDeposits asset) in
  retM (default 0 v).

Definition set_asset_total_deposits (asset : Address) (total : Z) : M unit :=
  let! _ := instance_set (AssetTotalDeposits asset) total in bump_instance_ttl.

Definition get_asset_reward_index (asset : Address) : M Z :=
  let! _ := require_supported asset in
  let! v := instance_get (AssetRewardIndex asset) in
  retM (default 0 v).

Definition set_asset_reward_index (asset : Address) (index : Z) : M unit :=
  let! _ := instance_set (AssetRewardIndex asset) index in bump_instance_ttl.

Definition get_user_asset_position_unchecked (user asset : Address) : M UserPosition :=
  let! b := persistent_get (UserAssetBalance user asset) in
  let! ri := persistent_get (UserAssetRewardIndex user asset) in
  let! ar := persistent_get (UserAssetAccruedRewards user asset) in
  let! lt := persistent_get (UserAssetLastRewardTimestamp user asset) in
  let balance : Z := default 0 b in
  let reward_index : Z := default 0 ri in
  let accrued : Z := default 0 ar in
  let last_ts : Z := default 0 lt in
  let! _ := if balance =? 0 then retM tt
            else bump_persistent_ttl (UserAssetBalance user asset) in
  let! _ := if reward_index =? 0 then retM tt
            else bump_persistent_ttl (UserAssetRewardIndex user asset) in
  let! _ := if accrued =? 0 then retM tt
            else bump_persistent_ttl (UserAssetAccruedRewards user asset) in
  let! _ := if last_ts =? 0 then retM tt
            else bump_persistent_ttl (UserAssetLastRewardTimestamp user asset) in
  retM (mkPosition balance reward_index accrued last_ts).

Definition get_user_asset_position (user asset : Address) : M UserPosition :=
  let! _ := require_initialized in
  let! _ := require_supported asset in
  get_user_asset_position_unchecked user asset.

Definition set_user_asset_position (user asset : Address) (position : UserPosition) : M unit :=
  let balance_key := UserAssetBalance user asset in
  let reward_index_key := UserAssetRewardIndex user asset in
  let accrued_rewards_key := UserAssetAccruedRewards user asset in
  let last_reward_timestamp_key := UserAssetLastRewardTimestamp user asset in
  let! _ := if balance position =? 0 then persistent_remove balance_key
            else let! _ := persistent_set balance_key (balance position) in
                 bump_persistent_ttl balance_key in
  let! _ := if pos_reward_index position =? 0 then persistent_remove reward_index_key
            else let! _ := persistent_set reward_index_key (pos_reward_index position) in
                 bump_persistent_ttl reward_index_key in
  let! _ := if accrued_rewards position =? 0 then persistent_remove accrued_rewards_key
            else let! _ := persistent_set accrued_rewards_key (accrued_rewards position) in
                 bump_persistent_ttl accrued_rewards_key in
  let! _ := persistent_set last_reward_timestamp_key (last_reward_timestamp position) in
  bump_persistent_ttl last_reward_timestamp_key.

Definition get_user_asset_balance (user asset : Address) : M Z :=
  let! position := get_user_asset_position user asset in
  retM (balance position).

Definition store_asset_deposit (user asset : Address) (amount : Z) : M UserPosition :=
  let! _ := require_supported asset in
  let! position := get_user_asset_position_unchecked user asset in
  let! asset_reward_index := get_asset_reward_index asset in
  let! asset_total := get_asset_total_deposits asset in
  let! now := ledger_timestamp in
  let! position := liftR (accrue_asset_position_rewards now asset_reward_index position) in
  let! new_balance := liftR (ok_or (i128_checked_add (balance position) amount)
                                   (AE_Overflow : VaultError)) in
  let position := with_balance new_balance position in
  let! next_total := liftR (ok_or (i128_checked_add asset_total amount)
                                  (AE_Overflow : VaultError)) in
  let! _ := set_asset_total_deposits asset next_total in
  let! _ := set_user_asset_position user asset position in
  retM position.

Definition store_asset_withdraw (user asset : Address) (amount : Z) : M UserPosition :=
  let! _ := require_supported asset in
  let! position := get_user_asset_position_unchecked user asset in
  let! asset_reward_index := get_asset_reward_index asset in
  let! asset_total := get_asset_total_deposits asset in
  let! now := ledger_timestamp in
  let! position := liftR (accrue_asset_position_rewards now asset_reward_index position) in
  if balance position <? amount then throwM BE_InsufficientBalance else
  let! new_balance := liftR (ok_or (i128_checked_sub (balance position) amount)
                                   (AE_Overflow : VaultError)) in
  let position := with_balance new_balance position in
  let! next_total := liftR (ok_or (i128_checked_sub asset_total amount)
                                  (AE_Overflow : VaultError)) in
  let! _ := set_asset_total_deposits asset next_total in
  let! _ := set_user_asset_position user asset position in
  retM position.

Definition store_asset_reward_distribution (asset : Address) (amount : Z) : M Z :=
  let! _ := require_supported asset in
  let! asset_total := get_asset_total_deposits asset in
  let! asset_reward_index := get_asset_reward_index asset in
  let! increment := liftR (checked_reward_index_increment amount asset_total) in
  let! next_reward_index := liftR (ok_or (i128_checked_add asset_reward_index increment)
                                         (AE_Overflow : VaultError)) in
  let! _ := set_asset_reward_index asset next_reward_index in
  retM next_reward_index.

Definition store_asset_claimable_rewards (user asset : Address) : M Z :=
  let! _ := require_supported asset in
  let! state := get_state in
  let! position := get_user_asset_position_unchecked user asset in
  let! asset_reward_index := get_asset_reward_index asset in
  let! now := ledger_timestamp in
  let! position := liftR (accrue_asset_position_rewards now asset_reward_index position) in
  let! current_timestamp := ledger_timestamp in
  let! vested := liftR (calculate_vested_rewards current_timestamp position
                          (vesting_period state)) in
  let! remaining := liftR (ok_or (i128_checked_sub (accrued_rewards position) vested)
                                 (AE_Overflow : VaultError)) in
  let! _ := set_user_asset_position user asset (with_accrued remaining position) in
  retM vested.

Definition preview_user_asset_rewards (user asset : Address) : M UserRewardSnapshot :=
  let! _ := require_initialized in
  let! _ := require_supported asset in
  let! state := get_state in
  let! position := get_user_asset_position_unchecked user asset in
  let! asset_reward_index := get_asset_reward_index asset in
  let! now := ledger_timestamp in
  let! position := liftR (accrue_asset_position_rewards now asset_reward_index position) in
  let! current_timestamp := ledger_timestamp in
  let! vested := liftR (calculate_vested_rewards current_timestamp position
                          (vesting_period state)) in
  retM (mkSnapshot (pos_reward_index position) (accrued_rewards position) vested).

Definition pending_user_asset_rewards_view (user asset : Address) : M Z :=
  let! s := preview_user_asset_rewards user asset in retM (rewards s).

Definition vested_user_asset_rewards_view (user asset : Address) : M Z :=
  let! s := preview_user_asset_rewards user asset in retM (vested_rewards s).
End assets.
