(* ===== verification/VaultContract.v ===== *)
(** contracts/vault-contract/src/lib.rs: the entry points of the vault
    contract, with their guards in source order, and the upgraded contract of
    contracts/vault-contract-v2 reading the same storage. *)
From stdpp Require Import base gmap list strings.
From S2P Require Import Prelude VaultErrors VaultTypes Host VaultMath VaultEvents VaultStorage VaultAssets.

Definition validate_positive_amount (amount : Z) : result VaultError unit :=
  if amount <? 0 then Err (VE_NegativeAmount : VaultError) else
  if amount =? 0 then Err (VE_InvalidAmount : VaultError) else
  Ok tt.

Definition validate_distinct_token_addresses (deposit_token reward_token : Address)
    : result VaultError unit :=
  if bool_decide (deposit_token = reward_token)
  then Err (VE_InvalidTokenConfiguration : VaultError) else Ok tt.

(** The [for] loop of [validate_utilization_multipliers]. *)
Fixpoint check_sorted (last_util_bps : Z) (points : list MultiplierPoint)
    : result VaultError unit :=
  match points with
  | [] => Ok tt
  | point :: rest =>
      if utilization_bps point <? last_util_bps
      then Err (VE_InvalidUtilizationParameters : VaultError)
      else check_sorted (utilization_bps point) rest
  end.

Definition validate_utilization_multipliers (multipliers : list MultiplierPoint)
    : result VaultError unit :=
  match multipliers with
  | [] => Ok tt
  | _ => check_sorted 0 multipliers
  end.

Definition ensure_contract_balance (balance requested_amount : Z) : result VaultError unit :=
  if balance <? requested_amount
  then Err (BE_InsufficientContractBalance : VaultError) else Ok tt.

Definition MIN_REWARD_DISTRIBUTION : Z := 100000.
Definition MAX_UNLOCK_LIMIT : Z := 50.

Section contract.
Context `{Host}.

(** Runs [f] between [enter] and [exit]; the guard is cleared when [f] returns
    an error too. *)
Definition with_non_reentrant {T : Type} (f : M T) : M T := fun e =>
  match enter_non_reentrant e with
  | Done (Ok _) e1 =>
      match f e1 with
      | Done r e2 =>
          match exit_non_reentrant e2 with
          | Done (Ok _) e3 => Done r e3
          | Done (Err x) e3 => Done (Err x) e3
          | Trap => Trap
          end
      | Trap => Trap
      end
  | Done (Err x) e1 => Done (Err x) e1
  | Trap => Trap
  end.

Definition version : Z := 1.

Definition initialize (admin deposit_token reward_token : Address)
    (vesting_period target_deposits : Z) (utilization_multipliers : list MultiplierPoint)
    : M unit :=
  let! _ := require_not_paused in
  let! already := is_initialized in
  if already then throwM SE_AlreadyInitialized else
  let! _ := liftR (validate_distinct_token_addresses deposit_token reward_token) in
  let! _ := liftR (validate_utilization_multipliers utilization_multipliers) in
  let! _ := require_auth admin in
  let! _ := initialize_state admin deposit_token reward_token vesting_period target_deposits
              utilization_multipliers in
  emit_initialize admin deposit_token reward_token.

Definition propose_new_admin (new_admin : Address) : M unit :=
  let! _ := require_initialized in
  let! admin := get_admin in
  let! _ := require_auth admin in
  let! _ := set_pending_admin new_admin in
  emit_admin_transfer_proposed admin new_admin.

Definition accept_admin (new_admin : Address) : M unit :=
  let! _ := require_initialized in
  let! _ := require_auth new_admin in
  let! previous_admin := get_admin in
  let! pending := get_pending_admin in
  let! pending_admin := liftR (ok_or pending (SE_NoPendingAdmin : VaultError)) in
  if bool_decide (pending_admin = new_admin) then
    let! _ := set_admin new_admin in
    let! _ := clear_pending_admin in
    emit_admin_transfer_accepted previous_admin new_admin
  else throwM AuE_Unauthorized.

Definition deposit (from : Address) (amount : Z) : M unit :=
  let! _ := require_not_paused in
  let! _ := require_initialized in
  let! _ := liftR (validate_positive_amount amount) in
  let! _ := require_auth from in
  with_non_reentrant (
    let! state := get_state in
    let! this := current_contract in
    let! _ := transfer (deposit_token state) from this amount in
    let! _ := store_deposit from amount in
    emit_deposit from amount).

Definition withdraw (to : Address) (amount : Z) : M unit :=
  let! _ := require_not_paused in
  let! _ := require_initialized in
  let! _ := liftR (validate_positive_amount amount) in
  let! _ := require_auth to in
  with_non_reentrant (
    let! state := get_state in
    let! stored := store_withdraw to amount in
    let! _ := emit_withdraw to amount (balance (snd stored)) in
    let! this := current_contract in
    transfer (deposit_token state) this to amount).

Definition distribute_rewards (amount : Z) : M Z :=
  let! _ := require_initialized in
  let! _ := liftR (validate_positive_amount amount) in
  if amount <? MIN_REWARD_DISTRIBUTION then throwM VE_InsufficientRewardAmount else
  let! state := get_state in
  let! _ := require_auth (admin state) in
  with_non_reentrant (
    let! this := current_contract in
    let! _ := transfer (reward_token state) (admin state) this amount in
    let! next_state := store_reward_distribution amount in
    let! _ := emit_distribute (admin state) amount in
    retM (reward_index next_state)).

Definition lock (from : Address) (amount duration_seconds : Z) : M unit :=
  let! _ := require_not_paused in
  let! _ := require_initialized in
  let! _ := liftR (validate_positive_amount amount) in
  if duration_seconds =? 0 then throwM VE_InvalidLockDuration else
  let! _ := require_auth from in
  with_non_reentrant (
    let! now := ledger_timestamp in
    let! unlock_at := liftR (ok_or (u64_checked_add now duration_seconds) MathOverflow) in
    let! _ := store_lock from amount duration_seconds in
    emit_lock from amount unlock_at).

Definition unlock_expired (user : Address) (limit : Z) : M Z :=
  let! _ := require_not_paused in
  let! _ := require_initialized in
  let! _ := require_auth user in
  if limit >? MAX_UNLOCK_LIMIT then throwM OperationLimitExceeded else
  with_non_reentrant (
    let! unlocked_amount := unlock_expired_locks user limit in
    let! _ := if unlocked_amount >? 0 then emit_unlock user unlocked_amount else retM tt in
    retM unlocked_amount).

Definition claim_rewards (user : Address) : M Z :=
  let! _ := require_not_paused in
  let! _ := require_initialized in
  let! _ := require_auth user in
  with_non_reentrant (
    let! amt := store_claimable_rewards user in
    if amt <=? 0 then retM 0 else
    let! reward_token_id := get_reward_token in
    let! this := current_contract in
    let! bal := token_client_balance reward_token_id this in
    let! _ := liftR (ensure_contract_balance bal amt) in
    let! _ := transfer reward_token_id this user amt in
    let! _ := emit_claim_rewards user amt in
    retM amt).

Definition balance_view (user : Address) : M Z := get_user_balance user.
Definition liquid_balance (user : Address) : M Z := get_liquid_balance user.
Definition locked_balance (user : Address) : M Z := get_locked_balance user.
Definition total_deposits_view : M Z := get_total_deposits.
Definition reward_index_view : M Z := get_reward_index.
Definition pending_rewards (user : Address) : M Z := pending_user_rewards_view user.
Definition vested_rewards_view (user : Address) : M Z := vested_user_rewards_view user.
Definition vesting_period_view : M Z := get_vesting_period.
Definition admin_view : M Address := get_admin.
Definition pending_admin_view : M (option Address) := get_pending_admin.
Definition deposit_token_view : M Address := get_deposit_token.
Definition reward_token_view : M Address := get_reward_token.

Definition pause_contract : M unit :=
  let! _ := require_initialized in
  let! admin := get_admin in
  let! _ := require_auth admin in
  set_paused true.

Definition unpause_contract : M unit :=
  let! _ := require_initialized in
  let! admin := get_admin in
  let! _ := require_auth admin in
  set_paused false.

Definition upgrade (new_wasm_hash : BytesN32) : M unit :=
  let! _ := require_initialized in
  let! admin := get_admin in
  let! _ := require_auth admin in
  let! _ := update_current_contract_wasm new_wasm_hash in
  emit_upgrade admin new_wasm_hash.

(** *** Multi-asset entry points *)

Definition add_asset (admin asset : Address) : M unit :=
  let! _ := require_initialized in
  let! stored_admin := get_admin in
  if bool_decide (admin = stored_admin) then
    let! _ := require_auth admin in
    let! _ := add_supported_asset asset in
    emit_asset_added asset
  else throwM AuE_Unauthorized.

Definition deposit_asset (from asset : Address) (amount : Z) : M unit :=
  let! _ := require_not_paused in
  let! _ := require_initialized in
  let! _ := liftR (validate_positive_amount amount) in
  let! _ := require_auth from in
  let! _ := require_supported asset in
  with_non_reentrant (
    let! this := current_contract in
    let! _ := transfer asset from this amount in
    let! _ := store_asset_deposit from asset amount in
    emit_asset_deposit from asset amount).

Definition withdraw_asset (to asset : Address) (amount : Z) : M unit :=
  let! _ := require_not_paused in
  let! _ := require_initialized in
  let! _ := liftR (validate_positive_amount amount) in
  let! _ := require_auth to in
  let! _ := require_supported asset in
  with_non_reentrant (
    let! position := store_asset_withdraw to asset amount in
    let! _ := emit_asset_withdraw to asset amount (balance position) in
    let! this := current_contract in
    transfer asset this to amount).

Definition distribute_rewards_for_asset (admin asset : Address) (amount : Z) : M Z :=
  let! _ := require_initialized in
  let! _ := liftR (validate_positive_amount amount) in
  if amount <? MIN_REWARD_DISTRIBUTION then throwM VE_InsufficientRewardAmount else
  let! _ := require_supported asset in
  let! state := get_state in
  if bool_decide (admin = VaultTypes.admin state) then
    let! _ := require_auth admin in
    with_non_reentrant (
      let! this := current_contract in
      let! _ := transfer (reward_token state) admin this amount in
      let! next_reward_index := store_asset_reward_distribution asset amount in
      let! _ := emit_asset_distribute admin asset amount in
      retM next_reward_index)
  else throwM AuE_Unauthorized.

Definition claim_rewards_for_asset (user asset : Address) : M Z :=
  let! _ := require_not_paused in
  let! _ := require_initialized in
  let! _ := require_auth user in
  let! _ := require_supported asset in
  with_non_reentrant (
    let! amt := store_asset_claimable_rewards user asset in
    if amt <=? 0 then retM 0 else
    let! reward_token_id := get_reward_token in
    let! this := current_contract in
    let! bal := token_client_balance reward_token_id this in
    let! _ := liftR (ensure_contract_balance bal amt) in
    let! _ := transfer reward_token_id this user amt in
    let! _ := emit_asset_claim_rewards user asset amt in
    retM amt).

Definition balance_of_asset (user asset : Address) : M Z := get_user_asset_balance user asset.
Definition total_deposits_of_asset (asset : Address) : M Z := get_asset_total_deposits asset.
Definition reward_index_of_asset (asset : Address) : M Z := get_asset_reward_index asset.
Definition pending_rewards_for_asset (user asset : Address) : M Z :=
  pending_user_asset_rewards_view user asset.
Definition vested_rewards_for_asset (user asset : Address) : M Z :=
  vested_user_asset_rewards_view user asset.

(** *** contracts/vault-contract-v2: the same storage after an upgrade *)

Definition v2_version : Z := 2.

(** [get(..).unwrap()] traps when the key is missing. *)
Definition v2_admin : M Address :=
  let! v := instance_get Admin in
  match v with Some a => retM a | None => trapM end.

Definition v2_balance (user : Address) : M Z :=
  let! v := persistent_get (UserBalance user) in retM (default 0 v).

Definition v2_total_deposits : M Z :=
  let! v := instance_get TotalDeposits in retM (default 0 v).

Definition v2_greeting : string := "hello".

Definition v2_upgrade (admin : Address) (new_wasm_hash : BytesN32) : M unit :=
  let! _ := require_auth admin in
  update_current_contract_wasm new_wasm_hash.
End contract.
