(* ===== verification/HostModel.v ===== *)
(** A concrete host: typed key-value stores as functions updated by decidable
    equality, and a token ledger as a finite map of balances whose transfers
    check funds and range.  It satisfies [HostLaws], so the laws are
    consistent, and the witnesses run the contract on it. *)
From stdpp Require Import base gmap list strings.
From S2P Require Import Prelude VaultErrors VaultTypes Host.

Definition KV : Type := forall k : DataKey, option (KeyTy k).

Definition kv_empty : KV := fun _ => None.

Definition kv_set (k : DataKey) (v : KeyTy k) (s : KV) : KV := fun k' =>
  match decide (k = k') with
  | left E => Some (eq_rect k KeyTy v k' E)
  | right _ => s k'
  end.

Definition kv_remove (k : DataKey) (s : KV) : KV := fun k' =>
  if decide (k = k') then None else s k'.

(** Balances by token and holder; entries outside the legal range read as 0. *)
Abbreviation Ledger := (gmap (Address * Address) Z).

Definition ledger_balance (t a : Address) (l : Ledger) : Z :=
  match l !! (t, a) with
  | Some z => if (0 <=? z) && (z <=? i128_max) then z else 0
  | None => 0
  end.

Definition ledger_transfer (t f d : Address) (amt : Z) (l : Ledger) : option Ledger :=
  if (amt <? 0) || (ledger_balance t f l <? amt) then None else
  if bool_decide (f = d) then Some l else
  if i128_max <? ledger_balance t d l + amt then None else
  Some (<[(t, d) := ledger_balance t d l + amt]>
         (<[(t, f) := ledger_balance t f l - amt]> l)).

#[global] Instance model_host : Host := {|
  Store := KV;
  sget := fun k s => s k;
  sset := kv_set;
  sremove := kv_remove;
  Tokens := Ledger;
  token_balance := ledger_balance;
  token_transfer := ledger_transfer;
  Lifetimes := list (option DataKey * Z);
  extend_ttl := fun k _ to l => (k, to) :: l;
|}.

Lemma ledger_balance_range t a l : 0 <= ledger_balance t a l <= i128_max.
Proof.
  unfold ledger_balance. destruct (l !! _) as [z|]; [|unfold i128_max; lia].
  destruct (_ && _) eqn:E; bool_to_prop; unfold i128_max in *; lia.
Qed.

Lemma ledger_balance_insert t a z l :
  0 <= z <= i128_max -> ledger_balance t a (<[(t, a) := z]> l) = z.
Proof.
  intros Hz. unfold ledger_balance. rewrite lookup_insert_eq.
  destruct (_ && _) eqn:E; bool_to_prop; [done|lia].
Qed.

Lemma ledger_balance_insert_ne t a t' a' z l :
  (t', a') <> (t, a) -> ledger_balance t' a' (<[(t, a) := z]> l) = ledger_balance t' a' l.
Proof. intros. unfold ledger_balance. by rewrite lookup_insert_ne. Qed.

Lemma ledger_transfer_Some t f d amt l l' :
  ledger_transfer t f d amt l = Some l' ->
  0 <= amt <= ledger_balance t f l /\
  (f = d /\ l' = l \/
   f <> d /\ ledger_balance t d l + amt <= i128_max /\
   l' = <[(t, d) := ledger_balance t d l + amt]>
         (<[(t, f) := ledger_balance t f l - amt]> l)).
Proof.
  unfold ledger_transfer. intros Ht.
  destruct (_ || _) eqn:E1; [done|]. bool_to_prop.
  case_bool_decide; [naive_solver lia|].
  destruct (_ <? _) eqn:E2; [done|]. bool_to_prop. naive_solver lia.
Qed.

#[global] Instance model_host_laws : HostLaws.
Proof.
  split; cbn.
  - intros k v s. unfold kv_set. destruct (decide (k = k)) as [E|]; [|done].
    by rewrite (proof_irrel E eq_refl).
  - intros k k' v s Hne. unfold kv_set. destruct (decide (k = k')); done.
  - intros k s. unfold kv_remove. by rewrite decide_True.
  - intros k k' s Hne. unfold kv_remove. by rewrite decide_False.
  - intros. apply ledger_balance_range.
  - intros * Ht. by apply ledger_transfer_Some in Ht as [? _].
  - intros t f d amt l l' Ht Hne.
    pose proof (ledger_balance_range t f l). pose proof (ledger_balance_range t d l).
    apply ledger_transfer_Some in Ht as [? [[? _]|(_ & ? & ->)]]; [done|]. split.
    + rewrite ledger_balance_insert_ne by congruence. apply ledger_balance_insert. lia.
    + apply ledger_balance_insert. lia.
  - intros t f d amt l l' t' a Ht Hne.
    apply ledger_transfer_Some in Ht as [? [[-> ->]|(? & ? & ->)]]; [done|].
    rewrite !ledger_balance_insert_ne by naive_solver. done.
Qed.

(** A freshly deployed contract: empty stores, nobody authorized yet. *)
Definition deployed (this : Address) (ledger : Ledger) (now : Z) : Env :=
  mkEnv (H := model_host) kv_empty kv_empty [] ledger now this (fun _ => false) [] None.
