(* ===== verification/RewardPool.v ===== *)
(** The abstract contract of one reward pool: a total, a global index, and per
    user a balance, an index snapshot and accrued rewards.  The legacy vault and
    every asset of the multi-asset vault implement it.  [pool_step] is the
    abstract transition system and [pool_ok F] its invariant, in which [F] is
    the reward amount credited and not yet paid out. *)
From stdpp Require Import base list sets.
From S2P Require Import Prelude VaultErrors VaultTypes VaultMath.

Record pool : Type := mkPool {
  p_total : Z;
  p_index : Z;
  p_bal : Address -> Z;
  p_idx : Address -> Z;
  p_acc : Address -> Z }.

(** What user [u] gains when synchronized with the index. *)
Definition gain (p : pool) (u : Address) : Z :=
  Z.quot (p_bal p u * (p_index p - p_idx p u)) REWARD_INDEX_SCALE.

(** [q] is [p] with the total [t] and the entry [(b, i, a)] for user [u]. *)
Record pool_upd (p : pool) (u : Address) (t b i a : Z) (q : pool) : Prop := mkPoolUpd {
  pu_total : p_total q = t;
  pu_index : p_index q = p_index p;
  pu_bal : p_bal q u = b;
  pu_idx : p_idx q u = i;
  pu_acc : p_acc q u = a;
  pu_frame : forall v, v <> u ->
    p_bal q v = p_bal p v /\ p_idx q v = p_idx p v /\ p_acc q v = p_acc p v }.

(** Two pools with the same observable content. *)
Record pool_eq (p q : pool) : Prop := mkPoolEq {
  pe_total : p_total q = p_total p;
  pe_index : p_index q = p_index p;
  pe_user : forall v, p_bal q v = p_bal p v /\ p_idx q v = p_idx p v /\ p_acc q v = p_acc p v }.

Inductive label : Type :=
| LDeposit (u : Address) (amount : Z)
| LWithdraw (u : Address) (amount : Z)
| LSync (u : Address)
| LDistribute (effective : Z)
| LClaim (u : Address) (paid : Z)
| LIdle.

(** The change of the outstanding rewards a transition accounts for. *)
Definition funding (l : label) : Z :=
  match l with
  | LDistribute x => x
  | LClaim _ v => - v
  | _ => 0
  end.

Inductive pool_step (p : pool) : label -> pool -> Prop :=
| step_deposit u amount q :
    0 < amount -> p_total p + amount <= i128_max ->
    pool_upd p u (p_total p + amount) (p_bal p u + amount) (p_index p) (p_acc p u + gain p u) q ->
    pool_step p (LDeposit u amount) q
| step_withdraw u amount q :
    0 < amount -> amount <= p_bal p u ->
    pool_upd p u (p_total p - amount) (p_bal p u - amount) (p_index p) (p_acc p u + gain p u) q ->
    pool_step p (LWithdraw u amount) q
| step_sync u q :
    pool_upd p u (p_total p) (p_bal p u) (p_index p) (p_acc p u + gain p u) q ->
    pool_step p (LSync u) q
| step_distribute effective increment q :
    checked_reward_index_increment effective (p_total p) = Ok increment ->
    p_total q = p_total p -> p_index q = p_index p + increment ->
    (forall v, p_bal q v = p_bal p v /\ p_idx q v = p_idx p v /\ p_acc q v = p_acc p v) ->
    pool_step p (LDistribute effective) q
| step_claim u paid q :
    0 <= paid <= p_acc p u + gain p u ->
    pool_upd p u (p_total p) (p_bal p u) (p_index p) (p_acc p u + gain p u - paid) q ->
    pool_step p (LClaim u paid) q
| step_idle q : pool_eq p q -> pool_step p LIdle q.

(** One user's scaled claim on the pool: accrued rewards and the rewards still
    pending in the index. *)
Definition claim_of (p : pool) (u : Address) : Z :=
  p_acc p u * REWARD_INDEX_SCALE + p_bal p u * (p_index p - p_idx p u).

Record pool_ok_at (us : list Address) (F : Z) (p : pool) : Prop := mkPoolOk {
  po_nodup : NoDup us;
  po_cover : forall u, u ∉ us -> p_bal p u = 0 /\ p_acc p u = 0;
  po_bal : forall u, 0 <= p_bal p u;
  po_acc : forall u, 0 <= p_acc p u;
  po_idx : forall u, 0 <= p_idx p u <= p_index p;
  po_total : p_total p = sumZ (p_bal p) us;
  po_max : p_total p <= i128_max;
  po_funded : sumZ (claim_of p) us <= REWARD_INDEX_SCALE * F }.

(** Some finite set of users carries all balances and rewards. *)
Definition pool_ok (F : Z) (p : pool) : Prop := exists us, pool_ok_at us F p.

Definition empty_pool : pool := mkPool 0 0 (fun _ => 0) (fun _ => 0) (fun _ => 0).

(** ** The invariant *)

Lemma gain_bounds p u : 0 <= p_bal p u -> p_idx p u <= p_index p ->
  0 <= gain p u /\
  gain p u * REWARD_INDEX_SCALE <= p_bal p u * (p_index p - p_idx p u).
Proof.
  intros Hb Hi. unfold gain.
  assert (0 <= p_bal p u * (p_index p - p_idx p u)) by nia.
  pose proof (quot_floor (p_bal p u * (p_index p - p_idx p u)) REWARD_INDEX_SCALE).
  pose proof (quot_nonneg (p_bal p u * (p_index p - p_idx p u)) REWARD_INDEX_SCALE).
  unfold REWARD_INDEX_SCALE, PRECISION_FACTOR in *. lia.
Qed.

Lemma pool_ok_bal_le_total F p u : pool_ok F p -> p_bal p u <= p_total p.
Proof.
  intros [us Hok]. destruct Hok. destruct (decide (u ∈ us)) as [Hin|Hin].
  - rewrite po_total0. apply sumZ_elem; auto.
  - destruct (po_cover0 u Hin) as [-> _]. rewrite po_total0. apply sumZ_nonneg; auto.
Qed.

Lemma pool_ok_bal F p u : pool_ok F p -> 0 <= p_bal p u <= i128_max.
Proof.
  intros Hok. pose proof (pool_ok_bal_le_total F p u Hok).
  destruct Hok as [us []]. specialize (po_bal0 u). lia.
Qed.

Lemma pool_ok_idx F p u : pool_ok F p -> 0 <= p_idx p u <= p_index p.
Proof. intros [us Hok]. apply (po_idx _ _ _ Hok). Qed.

Lemma pool_ok_acc F p u : pool_ok F p -> 0 <= p_acc p u.
Proof. intros [us Hok]. apply (po_acc _ _ _ Hok). Qed.

Lemma pool_ok_total F p : pool_ok F p -> 0 <= p_total p <= i128_max.
Proof.
  intros [us Hok]. split; [|apply (po_max _ _ _ Hok)]. rewrite (po_total _ _ _ Hok).
  apply sumZ_nonneg. intros. apply (po_bal _ _ _ Hok).
Qed.

Lemma claim_of_nonneg us F p u : pool_ok_at us F p -> 0 <= claim_of p u.
Proof.
  intros []. unfold claim_of. specialize (po_bal0 u). specialize (po_acc0 u).
  specialize (po_idx0 u). unfold REWARD_INDEX_SCALE, PRECISION_FACTOR. nia.
Qed.

(** A user's accrued and pending rewards never exceed what is outstanding. *)
Lemma pool_ok_claimable F p u : pool_ok F p -> p_acc p u + gain p u <= F.
Proof.
  intros [us Hok]. pose proof (claim_of_nonneg us F p) as Hnn.
  assert (claim_of p u <= REWARD_INDEX_SCALE * F) as Hc.
  { etransitivity; [|apply (po_funded _ _ _ Hok)].
    destruct (decide (u ∈ us)) as [Hin|Hin]; [by apply sumZ_elem; auto|].
    destruct (po_cover _ _ _ Hok u Hin) as [Hb Ha]. unfold claim_of at 1. rewrite Hb, Ha.
    etransitivity; [|apply sumZ_nonneg; auto]. lia. }
  pose proof (gain_bounds p u (po_bal _ _ _ Hok u)) as Hg.
  destruct (po_idx _ _ _ Hok u) as [_ Hi]. specialize (Hg Hi).
  unfold claim_of in Hc. unfold REWARD_INDEX_SCALE, PRECISION_FACTOR in *. lia.
Qed.

(** Summing a non-negative function over more elements gives more; outside
    [l2] it vanishes. *)
Lemma sumZ_cover {A} `{EqDecision A} (f : A -> Z) l1 l2 :
  NoDup l1 -> NoDup l2 -> (forall x, 0 <= f x) -> (forall x, x ∉ l2 -> f x = 0) ->
  sumZ f l1 <= sumZ f l2.
Proof.
  revert f l2. induction l1 as [|x l1 IH]; intros f l2 Hd1 Hd2 Hnn Hz.
  { apply sumZ_nonneg. auto. }
  apply NoDup_cons in Hd1 as [Hx Hd1]. rewrite sumZ_cons.
  destruct (decide (x ∈ l2)) as [Hin|Hin].
  - apply list_elem_of_split in Hin as (k1 & k2 & ->).
    assert (NoDup (k1 ++ k2)) as Hd by (apply NoDup_app in Hd2 as (? & ? & [_ ?]%NoDup_cons);
      apply NoDup_app; set_solver).
    assert (sumZ (fun y => if decide (y = x) then 0 else f y) l1 <=
            sumZ (fun y => if decide (y = x) then 0 else f y) (k1 ++ k2)) as Hle.
    { apply IH; auto; intros y; destruct (decide (y = x)); try done. intros. apply Hz. set_solver. }
    assert (x ∉ k1 ++ k2) as Hxk by (apply NoDup_app in Hd2 as (? & ? & [? ?]%NoDup_cons); set_solver).
    rewrite (sumZ_ext _ f l1), (sumZ_ext _ f (k1 ++ k2)) in Hle
      by (intros y Hy; destruct (decide (y = x)); [by subst|done]).
    rewrite !sumZ_app, ?sumZ_cons in *. lia.
  - rewrite (Hz x Hin). rewrite Z.add_0_l. by apply IH.
Qed.

(** The rewards of any users together are outstanding rewards. *)
Lemma pool_ok_claims F p us :
  pool_ok F p -> NoDup us -> sumZ (fun u => p_acc p u + gain p u) us <= F.
Proof.
  intros [us0 Hok] Hd. pose proof (claim_of_nonneg us0 F p) as Hnn.
  assert (sumZ (claim_of p) us <= REWARD_INDEX_SCALE * F) as Hc.
  { etransitivity; [|apply (po_funded _ _ _ Hok)].
    apply sumZ_cover; [done|apply (po_nodup _ _ _ Hok)|auto|].
    intros u Hu. destruct (po_cover _ _ _ Hok u Hu) as [Hb Ha]. unfold claim_of. by rewrite Hb, Ha. }
  assert (REWARD_INDEX_SCALE * sumZ (fun u => p_acc p u + gain p u) us <= sumZ (claim_of p) us) as Hs.
  { rewrite <- sumZ_scale. apply sumZ_le. intros u _.
    destruct (gain_bounds p u) as [_ Hg]; [apply (po_bal _ _ _ Hok)|apply (po_idx _ _ _ Hok)|].
    unfold claim_of. lia. }
  unfold REWARD_INDEX_SCALE, PRECISION_FACTOR in *. lia.
Qed.

Lemma pool_ok_funds_nonneg F p : pool_ok F p -> 0 <= F.
Proof.
  intros [us Hok]. pose proof (po_funded _ _ _ Hok).
  pose proof (sumZ_nonneg (claim_of p) us) as Hs.
  assert (0 <= sumZ (claim_of p) us) by (apply Hs; intros; by eapply claim_of_nonneg).
  unfold REWARD_INDEX_SCALE, PRECISION_FACTOR in *. lia.
Qed.

(** Any user can be added to the finite set of a valid pool. *)
Lemma pool_ok_cover F p u : pool_ok F p -> exists us, u ∈ us /\ pool_ok_at us F p.
Proof.
  intros [us Hok]. destruct (decide (u ∈ us)) as [?|Hin]; [eauto|].
  exists (u :: us). split; [set_solver|]. destruct Hok.
  destruct (po_cover0 u Hin) as [Hb Ha]. split; auto.
  - by constructor.
  - intros v Hv. apply po_cover0. set_solver.
  - rewrite sumZ_cons. lia.
  - rewrite sumZ_cons. unfold claim_of at 1. rewrite Hb, Ha. lia.
Qed.

Lemma pool_ok_eq F p q : pool_eq p q -> pool_ok F p -> pool_ok F q.
Proof.
  intros [Ht Hi Hu] [us []]. exists us. split; auto.
  - intros u Hin. destruct (Hu u) as (-> & _ & ->). auto.
  - intros u. destruct (Hu u) as (-> & _ & _). auto.
  - intros u. destruct (Hu u) as (_ & _ & ->). auto.
  - intros u. destruct (Hu u) as (_ & -> & _). rewrite Hi. auto.
  - rewrite Ht, po_total0. apply sumZ_ext. intros u _. by destruct (Hu u) as (-> & _ & _).
  - lia.
  - rewrite (sumZ_ext (claim_of q) (claim_of p)); [done|]. intros u _. unfold claim_of.
    by destruct (Hu u) as (-> & -> & ->); rewrite Hi.
Qed.

#[global] Instance pool_eq_equivalence : Equivalence pool_eq.
Proof.
  split.
  - by intros p.
  - intros p q [Ht Hi Hu]. split; auto. intros v. destruct (Hu v) as (? & ? & ?). auto.
  - intros p q r [Ht Hi Hu] [Ht' Hi' Hu']. split; [congruence|congruence|]. intros v.
    destruct (Hu v) as (? & ? & ?), (Hu' v) as (? & ? & ?). repeat split; congruence.
Qed.

#[global] Instance gain_proper : Proper (pool_eq ==> eq ==> eq) gain.
Proof.
  intros p q [_ Hi Hu] u ? <-. unfold gain. by destruct (Hu u) as (-> & -> & _); rewrite Hi.
Qed.

Lemma pool_upd_eq p p' u t b i a q q' :
  pool_eq p p' -> pool_eq q q' -> pool_upd p u t b i a q -> pool_upd p' u t b i a q'.
Proof.
  intros [Ht Hi Hu] [Ht' Hi' Hu'] [Hqt Hqi Hb Hx Ha Hf].
  destruct (Hu' u) as (Eb & Ex & Ea). split; try congruence. intros v Hne.
  destruct (Hu v) as (? & ? & ?), (Hu' v) as (? & ? & ?), (Hf v Hne) as (? & ? & ?).
  repeat split; congruence.
Qed.

#[global] Instance pool_upd_proper :
  Proper (pool_eq ==> eq ==> eq ==> eq ==> eq ==> eq ==> pool_eq ==> iff) pool_upd.
Proof.
  intros p p' Hp u ? <- t ? <- b ? <- i ? <- a ? <- q q' Hq.
  split; apply pool_upd_eq; done || by symmetry.
Qed.

Lemma pool_step_eq p p' l q q' :
  pool_eq p p' -> pool_eq q q' -> pool_step p l q -> pool_step p' l q'.
Proof.
  intros Hp Hq Hs. pose proof Hp as [Et Ei Eu].
  destruct Hs as [u amt q H1 H2 Hs|u amt q H1 H2 Hs|u q Hs|eff inc q H1 Ht Hi Hf|u v q H1 Hs|q Hs].
  - destruct (Eu u) as (Eb & _ & Ea). apply step_deposit; [done|lia|].
    by rewrite Et, Ei, Eb, Ea, <- Hp, <- Hq.
  - destruct (Eu u) as (Eb & _ & Ea). apply step_withdraw; [done|lia|].
    by rewrite Et, Ei, Eb, Ea, <- Hp, <- Hq.
  - destruct (Eu u) as (Eb & _ & Ea). apply step_sync.
    by rewrite Et, Ei, Eb, Ea, <- Hp, <- Hq.
  - destruct Hq as [Et' Ei' Eu']. apply (step_distribute _ _ inc); [congruence..|].
    intros v. destruct (Eu v) as (? & ? & ?), (Eu' v) as (? & ? & ?), (Hf v) as (? & ? & ?).
    repeat split; congruence.
  - destruct (Eu u) as (Eb & _ & Ea). apply step_claim; [by rewrite Ea, <- Hp|].
    by rewrite Et, Ei, Eb, Ea, <- Hp, <- Hq.
  - apply step_idle. by rewrite <- Hp, <- Hq.
Qed.

#[global] Instance pool_step_proper : Proper (pool_eq ==> eq ==> pool_eq ==> iff) pool_step.
Proof.
  intros p p' Hp l ? <- q q' Hq.
  split; apply pool_step_eq; done || by symmetry.
Qed.

(** Replacing one user's entry: the new entry is legal, the total follows the
    balance, and the user's claim grows by no more than the funding. *)
Lemma pool_ok_update F F' p u t b a q :
  pool_ok F p -> pool_upd p u t b (p_index p) a q ->
  0 <= b -> 0 <= a -> t = p_total p - p_bal p u + b -> t <= i128_max ->
  a * REWARD_INDEX_SCALE <= claim_of p u + REWARD_INDEX_SCALE * (F' - F) ->
  pool_ok F' q.
Proof.
  intros Hok [Ht Hi Hb Hx Ha Hf] Hb0 Ha0 Hteq Htmax Hc.
  destruct (pool_ok_cover F p u Hok) as (us & Hin & Hok').
  exists us. destruct Hok'. 
  assert (Hsplit : forall (Q : Address -> Prop), Q u -> (forall v, v <> u -> Q v) -> forall v, Q v)
    by (intros Q ?? v; destruct (decide (v = u)) as [->|]; auto).
  split; auto.
  - intros v Hv. assert (v <> u) as Hne by congruence. destruct (Hf v Hne) as (-> & _ & ->). auto.
  - apply Hsplit; [lia|]. intros v Hne. destruct (Hf v Hne) as (-> & _ & _). auto.
  - apply Hsplit; [lia|]. intros v Hne. destruct (Hf v Hne) as (_ & _ & ->). auto.
  - rewrite Hi. apply Hsplit; [specialize (po_idx0 u); lia|].
    intros v Hne. destruct (Hf v Hne) as (_ & -> & _). auto.
  - rewrite (sumZ_change (p_bal p) (p_bal q) us u); auto; [lia|].
    intros v Hne. by destruct (Hf v Hne) as (-> & _ & _).
  - lia.
  - rewrite (sumZ_change (claim_of p) (claim_of q) us u); auto.
    + unfold claim_of at 3. rewrite Hb, Ha, Hx, Hi. lia.
    + intros v Hne. unfold claim_of. by destruct (Hf v Hne) as (-> & -> & ->); rewrite Hi.
Qed.

(** Distributing [effective] raises the claims by at most [effective]. *)
Lemma pool_ok_distribute F p effective inc q :
  pool_ok F p -> checked_reward_index_increment effective (p_total p) = Ok inc ->
  p_total q = p_total p -> p_index q = p_index p + inc ->
  (forall v, p_bal q v = p_bal p v /\ p_idx q v = p_idx p v /\ p_acc q v = p_acc p v) ->
  pool_ok (F + effective) q.
Proof.
  intros [us []] Hinc Ht Hi Hf. destruct (increment_bounded _ _ _ Hinc) as [? [Hle _]].
  apply checked_reward_index_increment_Ok in Hinc as (Hpos & _ & Hincpos & _).
  exists us. split; auto.
  - intros u Hu. destruct (Hf u) as (-> & _ & ->). auto.
  - intros u. destruct (Hf u) as (-> & _ & _). auto.
  - intros u. destruct (Hf u) as (_ & _ & ->). auto.
  - intros u. destruct (Hf u) as (_ & -> & _). specialize (po_idx0 u). lia.
  - rewrite Ht, po_total0. apply sumZ_ext. intros u _. by destruct (Hf u) as (-> & _ & _).
  - lia.
  - rewrite (sumZ_ext (claim_of q) (fun u => claim_of p u + inc * p_bal p u)).
    + rewrite sumZ_plus, sumZ_scale. lia.
    + intros u _. unfold claim_of. destruct (Hf u) as (-> & -> & ->). rewrite Hi. lia.
Qed.

Lemma pool_step_preserves F p l q :
  pool_ok F p -> pool_step p l q -> pool_ok (F + funding l) q.
Proof.
  intros Hok Hs.
  assert (forall u, 0 <= p_bal p u <= p_total p /\ p_total p <= i128_max /\
    0 <= p_acc p u /\ 0 <= gain p u /\
    (p_acc p u + gain p u) * REWARD_INDEX_SCALE <= claim_of p u) as Hu.
  { intros u. pose proof (pool_ok_bal_le_total F p u Hok). destruct Hok as [us []].
    specialize (po_bal0 u). specialize (po_acc0 u). specialize (po_idx0 u).
    destruct (gain_bounds p u) as [? ?]; [lia|lia|]. unfold claim_of. lia. }
  destruct Hs as [u amt q ?? Hq|u amt q ?? Hq|u q Hq|eff inc q Hinc ? ? ?|u v q ? Hq|q Hq];
    cbn [funding]; try (pose proof (Hu u) as (? & ? & ? & ? & ?));
    try (eapply (pool_ok_update F); [done|exact Hq|..]; unfold REWARD_INDEX_SCALE, PRECISION_FACTOR in *; lia).
  - by eapply pool_ok_distribute.
  - rewrite Z.add_0_r. by eapply pool_ok_eq.
Qed.

Lemma empty_pool_ok p :
  p_total p = 0 -> 0 <= p_index p ->
  (forall u, p_bal p u = 0 /\ p_idx p u = 0 /\ p_acc p u = 0) -> pool_ok 0 p.
Proof.
  intros Ht Hi Hu. exists []. split; cbn; try lia;
    try (intros u; intros; destruct (Hu u) as (Hb & Hx & Ha); lia).
  - constructor.
  - rewrite Ht. unfold i128_max. lia.
Qed.

(** ** What a transition does to one user *)

(** The rewards of [u], accrued and pending. *)
Definition earned (p : pool) (u : Address) : Z := p_acc p u + gain p u.

Lemma synced_gain p u : p_idx p u = p_index p -> gain p u = 0.
Proof. intros He. unfold gain. by rewrite He, Z.sub_diag, Z.mul_0_r. Qed.

Lemma gain_upd_other p u t b i a q v :
  pool_upd p u t b i a q -> v <> u -> earned q v = earned p v.
Proof.
  intros [_ Hi _ _ _ Hf] Hne. unfold earned, gain.
  by destruct (Hf v Hne) as (-> & -> & ->); rewrite Hi.
Qed.

Lemma earned_upd p u t b a q : pool_upd p u t b (p_index p) a q -> earned q u = a.
Proof.
  intros [_ Hi _ Hx Ha _]. unfold earned. rewrite synced_gain, Ha by congruence. lia.
Qed.

(** Rewards only shrink by a claim of their owner, by the amount paid. *)
Lemma pool_step_earned F p lb q v :
  pool_ok F p -> pool_step p lb q ->
  (exists paid, lb = LClaim v paid /\ earned q v = earned p v - paid) \/
  (forall u paid, lb = LClaim u paid -> u <> v) /\ earned p v <= earned q v.
Proof.
  intros Hok Hs.
  destruct Hs as [u x q _ _ Hq|u x q _ _ Hq|u q Hq|x inc q Hinc _ Hi Hf|u x q _ Hq|q Hq].
  1,2,3: right; split; [done|]; destruct (decide (v = u)) as [->|Hne];
    [rewrite (earned_upd _ _ _ _ _ _ Hq); done | rewrite (gain_upd_other _ _ _ _ _ _ _ _ Hq Hne); done].
  - right. split; [done|]. unfold earned, gain. destruct (Hf v) as (-> & -> & ->). rewrite Hi.
    pose proof (pool_ok_bal F p v Hok). pose proof (pool_ok_idx F p v Hok).
    apply checked_reward_index_increment_Ok in Hinc as (_ & _ & Hpos & _).
    assert (Z.quot (p_bal p v * (p_index p - p_idx p v)) REWARD_INDEX_SCALE <=
            Z.quot (p_bal p v * (p_index p + inc - p_idx p v)) REWARD_INDEX_SCALE); [|lia].
    apply Z.quot_le_mono; [unfold REWARD_INDEX_SCALE, PRECISION_FACTOR; lia|nia].
  - destruct (decide (v = u)) as [->|Hne].
    + left. exists x. split; [done|]. by rewrite (earned_upd _ _ _ _ _ _ Hq).
    + right. split; [congruence|]. by rewrite (gain_upd_other _ _ _ _ _ _ _ _ Hq Hne).
  - right. split; [done|]. destruct Hq as [_ Hi Hu]. unfold earned, gain.
    by destruct (Hu v) as (-> & -> & ->); rewrite Hi.
Qed.

(** Balances only shrink by a withdrawal of their owner. *)
Lemma pool_step_balance p lb q v :
  pool_step p lb q ->
  p_bal q v = p_bal p v + match lb with
    | LDeposit u x => if decide (u = v) then x else 0
    | LWithdraw u x => if decide (u = v) then - x else 0
    | _ => 0 end.
Proof.
  intros Hs.
  destruct Hs as [u x q _ _ Hq|u x q _ _ Hq|u q Hq|x inc q _ _ _ Hf|u x q _ Hq|q Hq].
  1,2,3,5: destruct Hq as [_ _ Hb _ _ Hfr]; destruct (decide (u = v)) as [->|Hne];
    [lia | by destruct (Hfr v (not_eq_sym Hne)) as (-> & _); lia].
  - destruct (Hf v) as (-> & _). lia.
  - destruct (pe_user _ _ Hq v) as (-> & _). lia.
Qed.

Lemma pool_step_index p lb q : pool_step p lb q -> p_index p <= p_index q.
Proof.
  intros [u x q' _ _ []|u x q' _ _ []|u q' []|x i q' Hinc _ ? _|u x q' _ []|q' []]; try lia.
  apply checked_reward_index_increment_Ok in Hinc as (_ & _ & Hpos & _). lia.
Qed.

(** Deposits, withdrawals and locks only move rewards from pending to accrued. *)
Lemma pool_step_earned_same p lb q v :
  pool_step p lb q ->
  match lb with LDeposit _ _ | LWithdraw _ _ | LSync _ | LIdle => True | _ => False end ->
  earned q v = earned p v.
Proof.
  intros Hs Hl.
  destruct Hs as [u x q _ _ Hq|u x q _ _ Hq|u q Hq|x inc q _ _ _ _|u x q _ _|q Hq]; try done.
  1,2,3: destruct (decide (v = u)) as [->|Hne];
    [by rewrite (earned_upd _ _ _ _ _ _ Hq) | by rewrite (gain_upd_other _ _ _ _ _ _ _ _ Hq Hne)].
  destruct Hq as [_ Hi Hu]. unfold earned, gain. by destruct (Hu v) as (-> & -> & ->); rewrite Hi.
Qed.
