(* ===== verification/VaultFacts.v ===== *)
(** What the storage routines of the legacy vault read and write: observers of
    the environment, the readers they describe exactly ([reads]: total, never
    trapping, changing nothing but entry lifetimes), and the environment each
    successful writer leaves. *)
From stdpp Require Import base gmap list strings sets.
From S2P Require Import Prelude VaultErrors VaultTypes Host VaultMath VaultStorage.

Section observers.
Context `{Host}.
Implicit Types (e : Env) (u : Address).

Definition inited e : bool := default false (sget Initialized (instance e)).
Definition paused e : bool := default false (sget IsPaused (instance e)).
Definition guarded e : bool := default false (sget ReentrancyGuard (instance e)).
Definition total e : Z := default 0 (sget TotalDeposits (instance e)).
Definition gindex e : Z := default 0 (sget RewardIndex (instance e)).
Definition vesting e : Z := default 0 (sget VestingPeriod (instance e)).
Definition target e : Z := default 0 (sget TargetDeposits (instance e)).
Definition points e : list MultiplierPoint := default [] (sget UtilizationMultipliers (instance e)).

Definition liquid e u : Z := default 0 (sget (UserLiquidBalance u) (persistent e)).
Definition locks_of e u : list Lock := default [] (sget (UserLocks u) (persistent e)).
Definition uindex e u : Z := default 0 (sget (UserRewardIndex u) (persistent e)).
Definition uaccrued e u : Z := default 0 (sget (UserAccruedRewards u) (persistent e)).
Definition ulast e u : Z := default 0 (sget (UserLastRewardTimestamp u) (persistent e)).

(** The exact, unbounded balance of a user: liquid funds and all locks. *)
Definition user_balance e u : Z := liquid e u + sumZ lock_amount (locks_of e u).

Definition state_of e : result VaultError VaultState :=
  if inited e then
    let? a := ok_or (sget Admin (instance e)) InvalidState in
    let? d := ok_or (sget DepositToken (instance e)) InvalidState in
    let? r := ok_or (sget RewardToken (instance e)) InvalidState in
    Ok (mkVaultState a d r (total e) (gindex e) (vesting e) (target e) (points e))
  else Err NotInitialized.

Definition position_of e u : result VaultError UserPosition :=
  let? b := ok_or (i128_checked_add (liquid e u) (sum_i128 (map lock_amount (locks_of e u))))
                  MathOverflow in
  Ok (mkPosition b (uindex e u) (uaccrued e u) (ulast e u)).

(** [m] only reads: it returns [o e] and changes nothing but lifetimes. *)
Definition reads {A} (m : M A) (o : Env -> result VaultError A) : Prop :=
  forall e, exists l, m e = Done (o e) (with_lifetimes l e).

(** Writing a number the way the contract does: zero removes the entry. *)
Definition put_liquid u (v : Z) (s : Store) : Store :=
  if v =? 0 then sremove (UserLiquidBalance u) s else sset (UserLiquidBalance u) v s.
Definition put_uindex u (v : Z) (s : Store) : Store :=
  if v =? 0 then sremove (UserRewardIndex u) s else sset (UserRewardIndex u) v s.
Definition put_uaccrued u (v : Z) (s : Store) : Store :=
  if v =? 0 then sremove (UserAccruedRewards u) s else sset (UserAccruedRewards u) v s.
Definition put_position u (p : UserPosition) (s : Store) : Store :=
  sset (UserLastRewardTimestamp u) (last_reward_timestamp p)
    (put_uaccrued u (accrued_rewards p) (put_uindex u (pos_reward_index p) s)).
End observers.

Section facts.
Context `{HL : HostLaws}.
Implicit Types (e : Env) (u : Address).

(** *** Readers *)

Lemma reads_inv {A} (m : M A) o e r e' :
  reads m o -> m e = Done r e' -> r = o e /\ exists l, e' = with_lifetimes l e.
Proof. intros Hm He. destruct (Hm e) as [l Hl]. rewrite Hl in He. injection He as <- <-. eauto. Qed.

Lemma reads_Ok {A} (m : M A) o e a e' :
  reads m o -> m e = Done (Ok a) e' -> o e = Ok a /\ exists l, e' = with_lifetimes l e.
Proof. intros Hm He. by apply (reads_inv m o) in He as [<- ?]. Qed.

Lemma reads_total {A} (m : M A) o e : reads m o -> m e <> Trap.
Proof. intros Hm He. destruct (Hm e) as [l Hl]. congruence. Qed.

Lemma reads_bind {A B} (m : M A) (f : A -> M B) o g :
  reads m o -> (forall a, reads (f a) (g a)) ->
  (forall a e l, g a (with_lifetimes l e) = g a e) ->
  reads (bindM m f) (fun e => bindR (o e) (fun a => g a e)).
Proof.
  intros Hm Hf Hg e. destruct (Hm e) as [l Hl]. unfold bindM. rewrite Hl.
  destruct (o e) as [a|x]; cbn; [|eauto].
  destruct (Hf a (with_lifetimes l e)) as [l' Hl']. exists l'. rewrite Hl', Hg. done.
Qed.

Lemma reads_ret {A} (a : A) : reads (retM a) (fun _ => Ok a).
Proof. intros e. exists (lifetimes e). by destruct e. Qed.

Lemma reads_lift {A} (r : result VaultError A) : reads (liftR r) (fun _ => r).
Proof. intros e. exists (lifetimes e). by destruct e. Qed.

Lemma reads_timestamp : reads ledger_timestamp (fun e => Ok (timestamp e)).
Proof. intros e. exists (lifetimes e). by destruct e. Qed.

Lemma is_initialized_reads : reads is_initialized (fun e => Ok (inited e)).
Proof. intros e. exists (lifetimes e). by destruct e. Qed.

Lemma require_initialized_reads :
  reads require_initialized (fun e => if inited e then Ok tt else Err NotInitialized).
Proof.
  intros e. exists (lifetimes e). cbn. unfold require_initialized, bindM, is_initialized.
  cbn. fold (inited e). by destruct (inited e), e.
Qed.

Lemma require_not_paused_reads :
  reads require_not_paused (fun e => if paused e then Err Unauthorized else Ok tt).
Proof.
  intros e. exists (lifetimes e). unfold require_not_paused, bindM. cbn. fold (paused e).
  by destruct (paused e), e.
Qed.

Lemma get_state_reads : reads get_state state_of.
Proof.
  intros e. unfold get_state, state_of.
  destruct (require_initialized_reads e) as [l Hl]. unfold bindM at 1. rewrite Hl. cbn.
  destruct (inited e); [|by eexists]. cbn. unfold bindM, liftR. cbn.
  destruct (sget Admin (instance e)); cbn; [|by eexists].
  destruct (sget DepositToken (instance e)); cbn; [|by eexists].
  destruct (sget RewardToken (instance e)); cbn; by eexists.
Qed.

Lemma get_liquid_balance_reads u :
  reads (get_liquid_balance_unchecked u) (fun e => Ok (liquid e u)).
Proof.
  intros e. unfold get_liquid_balance_unchecked, liquid, bindM. cbn.
  destruct (sget (UserLiquidBalance u) (persistent e)) as [v|] eqn:E; cbn;
    [|exists (lifetimes e); by destruct e].
  destruct (v =? 0); cbn; [exists (lifetimes e); by destruct e|].
  unfold bump_persistent_ttl, persistent_extend_ttl. cbn. rewrite ?E. by eexists.
Qed.

Lemma get_user_locks_reads u : reads (get_user_locks_unchecked u) (fun e => Ok (locks_of e u)).
Proof.
  intros e. unfold get_user_locks_unchecked, locks_of, bindM. cbn.
  destruct (sget (UserLocks u) (persistent e)) as [v|] eqn:E; cbn;
    [|exists (lifetimes e); by destruct e].
  case_bool_decide; cbn; [exists (lifetimes e); by destruct e|].
  unfold bump_persistent_ttl, persistent_extend_ttl. cbn. rewrite ?E. by eexists.
Qed.

(** Bumping an entry whose value was read as non-zero never traps. *)
Lemma bump_nonzero_reads k (o : Env -> Z) :
  (forall e, o e <> 0 -> is_Some (sget k (persistent e))) ->
  forall e, exists l,
    (if o e =? 0 then retM tt else bump_persistent_ttl k) e = Done (Ok tt) (with_lifetimes l e).
Proof.
  intros Hk e. destruct (o e =? 0) eqn:E; [exists (lifetimes e); by destruct e|].
  bool_to_prop. destruct (Hk e E) as [v Hv].
  unfold bump_persistent_ttl, persistent_extend_ttl. rewrite Hv. by eexists.
Qed.

Lemma uindex_present e u : uindex e u <> 0 -> is_Some (sget (UserRewardIndex u) (persistent e)).
Proof. unfold uindex. destruct (sget _ _); cbn; [by eexists|done]. Qed.
Lemma uaccrued_present e u : uaccrued e u <> 0 -> is_Some (sget (UserAccruedRewards u) (persistent e)).
Proof. unfold uaccrued. destruct (sget _ _); cbn; [by eexists|done]. Qed.
Lemma ulast_present e u : ulast e u <> 0 -> is_Some (sget (UserLastRewardTimestamp u) (persistent e)).
Proof. unfold ulast. destruct (sget _ _); cbn; [by eexists|done]. Qed.

Lemma get_user_position_reads u :
  reads (get_user_position_unchecked u) (fun e => position_of e u).
Proof.
  intros e. unfold get_user_position_unchecked, position_of.
  destruct (get_liquid_balance_reads u e) as [l1 H1]. erewrite bindM_step by exact H1.
  destruct (get_user_locks_reads u (with_lifetimes l1 e)) as [l2 H2].
  erewrite bindM_step by exact H2. rewrite bindM_liftR.
  change (locks_of (with_lifetimes l1 e) u) with (locks_of e u).
  destruct (ok_or _ _) as [b|x]; [|by eexists].
  do 3 erewrite bindM_step by reflexivity.
  destruct (bump_nonzero_reads (UserRewardIndex u) (fun e => uindex e u)
    (fun e => uindex_present e u) (with_lifetimes l2 (with_lifetimes l1 e))) as [l3 H3].
  erewrite bindM_step by exact H3.
  destruct (bump_nonzero_reads (UserAccruedRewards u) (fun e => uaccrued e u)
    (fun e => uaccrued_present e u) (with_lifetimes l3 (with_lifetimes l2 (with_lifetimes l1 e))))
    as [l4 H4].
  erewrite bindM_step by exact H4.
  destruct (bump_nonzero_reads (UserLastRewardTimestamp u) (fun e => ulast e u)
    (fun e => ulast_present e u)
    (with_lifetimes l4 (with_lifetimes l3 (with_lifetimes l2 (with_lifetimes l1 e))))) as [l5 H5].
  erewrite bindM_step by exact H5. by eexists.
Qed.

(** *** Writers *)

Lemma bump_present k e : is_Some (sget k (persistent e)) ->
  exists l, bump_persistent_ttl k e = Done (Ok tt) (with_lifetimes l e).
Proof. intros [v Hv]. unfold bump_persistent_ttl, persistent_extend_ttl. rewrite Hv. eauto. Qed.

Lemma set_liquid_balance_run u v e : exists l,
  set_liquid_balance u v e =
  Done (Ok tt) (with_lifetimes l (with_persistent (put_liquid u v (persistent e)) e)).
Proof.
  unfold set_liquid_balance, put_liquid. destruct (v =? 0).
  - exists (lifetimes e). by destruct e.
  - erewrite bindM_step by reflexivity. apply bump_present. cbn. rewrite sget_sset_eq. eauto.
Qed.

Lemma set_user_locks_run u ls e : exists l,
  set_user_locks u ls e =
  Done (Ok tt) (with_lifetimes l (with_persistent (sset (UserLocks u) ls (persistent e)) e)).
Proof.
  unfold set_user_locks. erewrite bindM_step by reflexivity. case_bool_decide.
  - exists (lifetimes e). by destruct e.
  - apply bump_present. cbn. rewrite sget_sset_eq. eauto.
Qed.

(** One conditional write of [set_user_position]. *)
Lemma write_or_remove_run k (v : Z) (w : KeyTy k) e : exists l,
  (if v =? 0 then persistent_remove k
   else let! _ := persistent_set k w in bump_persistent_ttl k) e =
  Done (Ok tt) (with_lifetimes l (with_persistent
    (if v =? 0 then sremove k (persistent e) else sset k w (persistent e)) e)).
Proof.
  destruct (v =? 0).
  - exists (lifetimes e). by destruct e.
  - erewrite bindM_step by reflexivity. apply bump_present. cbn. rewrite sget_sset_eq. eauto.
Qed.

Lemma set_user_position_run u p e : exists l,
  set_user_position u p e =
  Done (Ok tt) (with_lifetimes l (with_persistent (put_position u p (persistent e)) e)).
Proof.
  unfold set_user_position.
  destruct (write_or_remove_run (UserRewardIndex u) (pos_reward_index p) (pos_reward_index p) e)
    as [l1 H1]. erewrite bindM_step by exact H1.
  destruct (write_or_remove_run (UserAccruedRewards u) (accrued_rewards p) (accrued_rewards p)
    (with_lifetimes l1 (with_persistent (put_uindex u (pos_reward_index p) (persistent e)) e)))
    as [l2 H2]. erewrite bindM_step by exact H2.
  erewrite bindM_step by reflexivity. edestruct bump_present as [l Hl]; [|exists l; exact Hl].
  cbn. rewrite sget_sset_eq. eauto.
Qed.
End facts.

(** Turn the reads and writes of a successful run into equations. *)
Ltac apply_reads H R :=
  eapply reads_Ok in H; [|eapply R]; destruct H as [H [? ->]]; cbn beta in H.
Ltac apply_run H R :=
  let l := fresh "l" in let E := fresh "E" in
  destruct R as [l E]; rewrite E in H; clear E; injection H as ? ?; subst.
(** Observers do not see lifetimes. *)
Ltac ttl_simpl :=
  repeat match goal with
  | H : context [liquid (with_lifetimes ?l ?e)] |- _ =>
      change (liquid (with_lifetimes l e)) with (liquid e) in H
  | H : context [locks_of (with_lifetimes ?l ?e)] |- _ =>
      change (locks_of (with_lifetimes l e)) with (locks_of e) in H
  | H : context [position_of (with_lifetimes ?l ?e)] |- _ =>
      change (position_of (with_lifetimes l e)) with (position_of e) in H
  | H : context [state_of (with_lifetimes ?l ?e)] |- _ =>
      change (state_of (with_lifetimes l e)) with (state_of e) in H
  | H : context [inited (with_lifetimes ?l ?e)] |- _ =>
      change (inited (with_lifetimes l e)) with (inited e) in H
  | H : context [timestamp (with_lifetimes ?l ?e)] |- _ =>
      change (timestamp (with_lifetimes l e)) with (timestamp e) in H
  end.
Ltac storage_inv :=
  repeat (run_inv; match goal with
  | H : is_initialized _ = Done (Ok _) _ |- _ => apply_reads H is_initialized_reads
  | H : require_initialized _ = Done (Ok _) _ |- _ => apply_reads H require_initialized_reads
  | H : require_not_paused _ = Done (Ok _) _ |- _ => apply_reads H require_not_paused_reads
  | H : get_state _ = Done (Ok _) _ |- _ => apply_reads H get_state_reads
  | H : get_liquid_balance_unchecked ?u _ = Done (Ok _) _ |- _ =>
      apply_reads H (get_liquid_balance_reads u)
  | H : get_user_locks_unchecked ?u _ = Done (Ok _) _ |- _ =>
      apply_reads H (get_user_locks_reads u)
  | H : get_user_position_unchecked ?u _ = Done (Ok _) _ |- _ =>
      apply_reads H (get_user_position_reads u)
  | H : ledger_timestamp _ = Done (Ok _) _ |- _ => apply_reads H reads_timestamp
  | H : set_liquid_balance ?u ?v ?e = Done (Ok _) _ |- _ => apply_run H (set_liquid_balance_run u v e)
  | H : set_user_locks ?u ?v ?e = Done (Ok _) _ |- _ => apply_run H (set_user_locks_run u v e)
  | H : set_user_position ?u ?v ?e = Done (Ok _) _ |- _ => apply_run H (set_user_position_run u v e)
  | H : set_total_deposits _ _ = Done (Ok _) _ |- _ => injection H as ? ?; subst
  | H : set_reward_index _ _ = Done (Ok _) _ |- _ => injection H as ? ?; subst
  end); run_inv; ttl_simpl.

Section effects.
Context `{HL : HostLaws}.
Implicit Types (e : Env) (u : Address).

(** *** What the writes change *)

Lemma put_liquid_eq u v s : default 0 (sget (UserLiquidBalance u) (put_liquid u v s)) = v.
Proof.
  unfold put_liquid. destruct (v =? 0) eqn:E; bool_to_prop;
    [by rewrite sget_sremove_eq | by rewrite sget_sset_eq].
Qed.

Lemma put_liquid_frame k u v s :
  k <> UserLiquidBalance u -> sget k (put_liquid u v s) = sget k s.
Proof.
  intros Hk. unfold put_liquid.
  destruct (v =? 0); [by apply sget_sremove_ne | by apply sget_sset_ne].
Qed.

Lemma put_uindex_frame k u v s :
  k <> UserRewardIndex u -> sget k (put_uindex u v s) = sget k s.
Proof.
  intros Hk. unfold put_uindex.
  destruct (v =? 0); [by apply sget_sremove_ne | by apply sget_sset_ne].
Qed.

Lemma put_uaccrued_frame k u v s :
  k <> UserAccruedRewards u -> sget k (put_uaccrued u v s) = sget k s.
Proof.
  intros Hk. unfold put_uaccrued.
  destruct (v =? 0); [by apply sget_sremove_ne | by apply sget_sset_ne].
Qed.

Lemma put_position_frame k u p s :
  k <> UserRewardIndex u -> k <> UserAccruedRewards u -> k <> UserLastRewardTimestamp u ->
  sget k (put_position u p s) = sget k s.
Proof.
  intros ???. unfold put_position.
  by rewrite sget_sset_ne, put_uaccrued_frame, put_uindex_frame by congruence.
Qed.

Lemma put_position_uindex u p s :
  default 0 (sget (UserRewardIndex u) (put_position u p s)) = pos_reward_index p.
Proof.
  unfold put_position. rewrite sget_sset_ne, put_uaccrued_frame by congruence.
  unfold put_uindex. destruct (_ =? 0) eqn:E; bool_to_prop;
    [by rewrite sget_sremove_eq | by rewrite sget_sset_eq].
Qed.

Lemma put_position_uaccrued u p s :
  default 0 (sget (UserAccruedRewards u) (put_position u p s)) = accrued_rewards p.
Proof.
  unfold put_position. rewrite sget_sset_ne by congruence.
  unfold put_uaccrued. destruct (_ =? 0) eqn:E; bool_to_prop;
    [by rewrite sget_sremove_eq | by rewrite sget_sset_eq].
Qed.

Lemma put_position_ulast u p s :
  default 0 (sget (UserLastRewardTimestamp u) (put_position u p s)) = last_reward_timestamp p.
Proof. unfold put_position. by rewrite sget_sset_eq. Qed.

(** The fields of a successfully read state. *)
Lemma state_of_Ok e st : state_of e = Ok st ->
  inited e = true /\ sget Admin (instance e) = Some (admin st) /\
  sget DepositToken (instance e) = Some (deposit_token st) /\
  sget RewardToken (instance e) = Some (reward_token st) /\
  total_deposits st = total e /\ reward_index st = gindex e /\ vesting_period st = vesting e /\
  target_deposits st = target e /\ utilization_multipliers st = points e.
Proof. unfold state_of. intros Hs. destruct (inited e); run_inv. by subst. Qed.

Lemma store_deposit_Ok u amt e r e' :
  store_deposit u amt e = Done (Ok r) e' ->
  exists l st p q,
    state_of e = Ok st /\ position_of e u = Ok p /\
    accrue_position_rewards (timestamp e) st p = Ok q /\
    r = (with_total (total_deposits st + amt) st, with_balance (balance q + amt) q) /\
    i128_min <= total_deposits st + amt <= i128_max /\
    i128_min <= liquid e u + amt <= i128_max /\
    e' = with_lifetimes l
      (with_instance (sset TotalDeposits (total_deposits st + amt) (instance e))
        (with_persistent (put_position u (with_balance (balance q + amt) q)
          (put_liquid u (liquid e u + amt) (persistent e))) e)).
Proof.
  intros Hr. unfold store_deposit in Hr. storage_inv. subst.
  eexists _, _, _, _. repeat split; try eassumption; try lia.
Qed.
(** *** Locks *)

(** The loop keeps locks in order: what it releases and what it keeps add up,
    at most [limit - processed] locks are released, all of them expired. *)
Lemma release_locks_Ok now limit processed unlocked kept locks total_unlocked new_locks :
  release_locks now limit processed unlocked kept locks = Ok (total_unlocked, new_locks) ->
  exists released rest,
    new_locks = kept ++ rest /\
    total_unlocked = unlocked + sumZ lock_amount released /\
    Permutation locks (released ++ rest) /\
    Forall (fun l => unlock_timestamp l <= now) released /\
    Z.of_nat (length released) <= Z.max 0 (limit - processed).
Proof.
  revert processed unlocked kept.
  induction locks as [|lk locks IH]; intros processed unlocked kept Hr; cbn in Hr.
  - run_inv. subst. exists [], []. rewrite app_nil_r. cbn.
    repeat split; [lia|done|done|lia].
  - destruct (_ && _) eqn:E; run_inv; bool_to_prop.
    + apply IH in Hr as (rel & rest & -> & -> & Hp & Hf & Hn). subst.
      exists (lk :: rel), rest. repeat split; auto.
      * rewrite sumZ_cons. lia.
      * by rewrite Hp.
      * cbn [length]. lia.
    + apply IH in Hr as (rel & rest & -> & -> & Hp & Hf & Hn).
      exists rel, (lk :: rest). repeat split; auto.
      * by rewrite <- app_assoc.
      * rewrite Hp. apply Permutation_middle.
Qed.

Lemma unlock_expired_locks_Ok u limit e r e' :
  unlock_expired_locks u limit e = Done (Ok r) e' ->
  exists l, (r = 0 /\ limit = 0 \/ exists new_locks,
    release_locks (timestamp e) limit 0 0 [] (locks_of e u) = Ok (r, new_locks) /\
    (0 < r -> i128_min <= liquid e u + r <= i128_max /\
       e' = with_lifetimes l (with_persistent (sset (UserLocks u) new_locks
              (put_liquid u (liquid e u + r) (persistent e))) e))) /\
    (r <= 0 -> e' = with_lifetimes l e).
Proof.
  intros Hr. unfold unlock_expired_locks in Hr.
  destruct (limit =? 0) eqn:E0; bool_to_prop.
  { run_inv. subst. exists (lifetimes e). destruct e. auto. }
  storage_inv.
  match goal with Hl : release_locks _ _ _ _ _ _ = Ok ?x |- _ => destruct x as [amount new_locks] end.
  storage_inv. subst.
  match goal with Hc : (if _ then _ else _) _ = Done _ _ |- _ => rename Hc into Hw end.
  destruct (amount >? 0) eqn:E; storage_inv; bool_to_prop; subst; eexists; split.
  - right. eexists. split; [eassumption|]. intros _. split; [lia|]. reflexivity.
  - lia.
  - right. eexists. split; [eassumption|]. lia.
  - intros _. reflexivity.
Qed.
Lemma store_withdraw_Ok u amt e r e' :
  store_withdraw u amt e = Done (Ok r) e' ->
  exists l l0 st p q released e1,
    state_of e = Ok st /\ position_of e u = Ok p /\
    accrue_position_rewards (timestamp e) st p = Ok q /\
    unlock_expired_locks u WITHDRAW_UNLOCK_LIMIT (with_lifetimes l0 e) = Done (Ok released) e1 /\
    amt <= liquid e1 u /\
    r = (with_total (total_deposits st - amt) st, with_balance (balance q - amt) q) /\
    i128_min <= total_deposits st - amt <= i128_max /\
    e' = with_lifetimes l
      (with_instance (sset TotalDeposits (total_deposits st - amt) (instance e1))
        (with_persistent (put_position u (with_balance (balance q - amt) q)
          (put_liquid u (liquid e1 u - amt) (persistent e1))) e1)).
Proof.
  intros Hr. unfold store_withdraw in Hr. storage_inv.
  match goal with Hc : (if ?b then _ else _) _ = Done _ _ |- _ => destruct b eqn:? end; storage_inv.
  bool_to_prop. subst.
  eexists _, _, _, _, _, _, _. repeat split; try eassumption; try lia; reflexivity.
Qed.

Lemma store_lock_Ok u amt duration e r e' :
  store_lock u amt duration e = Done (Ok r) e' ->
  exists l st p q,
    state_of e = Ok st /\ position_of e u = Ok p /\
    accrue_position_rewards (timestamp e) st p = Ok q /\
    amt <= liquid e u /\ timestamp e + duration <= u64_max /\
    e' = with_lifetimes l (with_persistent
      (sset (UserLocks u) (locks_of e u ++ [mkLock amt (timestamp e + duration) 0])
        (put_liquid u (liquid e u - amt) (put_position u q (persistent e)))) e).
Proof.
  intros Hr. unfold store_lock in Hr. storage_inv.
  match goal with Hc : (if ?b then _ else _) _ = Done _ _ |- _ => destruct b eqn:? end; storage_inv.
  bool_to_prop. subst.
  unfold liquid, locks_of in *. cbn [persistent with_persistent with_lifetimes timestamp] in *.
  rewrite ?put_liquid_frame, ?put_position_frame in * by congruence.
  eexists _, _, _, _. repeat split; try eassumption; try lia; reflexivity.
Qed.

Lemma store_reward_distribution_Ok amt e r e' :
  store_reward_distribution amt e = Done (Ok r) e' ->
  exists l st multiplier effective increment,
    state_of e = Ok st /\
    calculate_utilization_multiplier (total e) (target e) (points e) = Ok multiplier /\
    effective_reward_amount amt multiplier = Ok effective /\
    checked_reward_index_increment effective (total e) = Ok increment /\
    r = with_index (gindex e + increment) st /\
    gindex e + increment <= i128_max /\
    e' = with_lifetimes l
           (with_instance (sset RewardIndex (gindex e + increment) (instance e)) e).
Proof.
  intros Hr. unfold store_reward_distribution in Hr. storage_inv. subst.
  match goal with Hs : state_of e = Ok _ |- _ =>
    pose proof (state_of_Ok _ _ Hs) as (_ & _ & _ & _ & Ht & Hi & _ & Htg & Hp)
  end.
  rewrite Ht, Hi, ?Htg, ?Hp in *.
  eexists _, _, _, _, _. repeat split; try eassumption; try lia; reflexivity.
Qed.

Lemma store_claimable_rewards_Ok u e r e' :
  store_claimable_rewards u e = Done (Ok r) e' ->
  exists l st p q,
    state_of e = Ok st /\ position_of e u = Ok p /\
    accrue_position_rewards (timestamp e) st p = Ok q /\
    calculate_vested_rewards (timestamp e) q (vesting_period st) = Ok r /\
    e' = with_lifetimes l (with_persistent
      (put_position u (with_accrued (accrued_rewards q - r) q) (persistent e)) e).
Proof.
  intros Hr. unfold store_claimable_rewards in Hr. storage_inv. subst.
  eexists _, _, _, _. repeat split; try eassumption; try lia; reflexivity.
Qed.

Lemma position_of_Ok e u p : position_of e u = Ok p ->
  balance p = liquid e u + sum_i128 (map lock_amount (locks_of e u)) /\
  pos_reward_index p = uindex e u /\ accrued_rewards p = uaccrued e u /\
  last_reward_timestamp p = ulast e u.
Proof. unfold position_of. intros Hp. run_inv. by subst. Qed.
End effects.
