(* ===== verification/VaultRefine.v ===== *)
(** Refinement: the storage routines of the legacy vault implement the abstract
    reward pool.  Under the invariant [legacy_inv] the wrapping [sum] of lock
    amounts is exact, so every successful routine is a [pool_step] on the pool
    the storage represents, touches only the keys of the legacy vault
    ([frame]), and keeps balances and locks non-negative. *)
From stdpp Require Import base gmap list strings sets.
From S2P Require Import Prelude VaultErrors VaultTypes Host VaultMath VaultStorage RewardPool VaultFacts.

Section refine.
Context `{HL : HostLaws}.
Implicit Types (e : Env) (u : Address).

(** The abstract pool the legacy keys represent. *)
Definition legacy_pool e : pool :=
  mkPool (total e) (gindex e) (user_balance e) (uindex e) (uaccrued e).

Definition legacy_wf e : Prop :=
  forall u, 0 <= liquid e u /\ uaccrued e u <= i128_max /\
    Forall (fun l => 0 < lock_amount l) (locks_of e u).

Definition legacy_inv (F : Z) e : Prop := pool_ok F (legacy_pool e) /\ legacy_wf e.

(** The keys of the legacy vault's accounting. *)
Definition legacy_key (k : DataKey) : bool :=
  match k with
  | TotalDeposits | RewardIndex => true
  | UserRewardIndex _ | UserAccruedRewards _ | UserLastRewardTimestamp _ => true
  | UserLiquidBalance _ | UserLocks _ => true
  | _ => false
  end.

(** [e'] agrees with [e] outside the keys [K], in everything but lifetimes. *)
Record frame (K : DataKey -> bool) e e' : Prop := mkFrame {
  fr_inst : forall k, K k = false -> sget k (instance e') = sget k (instance e);
  fr_pers : forall k, K k = false -> sget k (persistent e') = sget k (persistent e);
  fr_tokens : tokens e' = tokens e;
  fr_time : timestamp e' = timestamp e;
  fr_this : current_contract_address e' = current_contract_address e;
  fr_auth : authorized e' = authorized e;
  fr_events : events e' = events e;
  fr_wasm : wasm e' = wasm e }.

Lemma lock_sum_nonneg l : Forall (fun x => 0 < lock_amount x) l -> 0 <= sumZ lock_amount l.
Proof. induction 1; rewrite ?sumZ_cons; cbn; lia. Qed.

Lemma sum_i128_from_exact l a :
  Forall (fun x => 0 < lock_amount x) l -> 0 <= a -> a + sumZ lock_amount l <= i128_max ->
  fold_left (fun a b => as_i128 (a + b)) (map lock_amount l) a = a + sumZ lock_amount l.
Proof.
  intros Hl. revert a. induction Hl as [|x l Hx Hl IH]; intros a Ha Hs; cbn; [lia|].
  rewrite sumZ_cons in Hs. fold (sumZ lock_amount l).
  pose proof (lock_sum_nonneg l Hl).
  rewrite as_i128_id by (unfold i128_min; lia). rewrite IH; lia.
Qed.

Lemma sum_i128_exact l :
  Forall (fun x => 0 < lock_amount x) l -> sumZ lock_amount l <= i128_max ->
  sum_i128 (map lock_amount l) = sumZ lock_amount l.
Proof. intros. unfold sum_i128. by rewrite sum_i128_from_exact by (done || lia). Qed.

Lemma locks_sum_nonneg e u : legacy_wf e -> 0 <= sumZ lock_amount (locks_of e u).
Proof.
  intros Hwf. destruct (Hwf u) as (_ & _ & Hl). by apply lock_sum_nonneg.
Qed.

(** In a valid state the position a user reads has the exact balance. *)
Lemma position_of_exact F e u : legacy_inv F e ->
  position_of e u = Ok (mkPosition (user_balance e u) (uindex e u) (uaccrued e u) (ulast e u)).
Proof.
  intros [Hok Hwf]. pose proof (pool_ok_bal F _ u Hok) as Hb. cbn in Hb.
  pose proof (locks_sum_nonneg e u Hwf). destruct (Hwf u) as (Hlq & _ & Hl).
  unfold position_of. rewrite sum_i128_exact; [|done|unfold user_balance in *; lia].
  assert (i128_checked_add (liquid e u) (sumZ lock_amount (locks_of e u)) = Some (user_balance e u))
    as -> by (apply i128_checked_add_Some; unfold user_balance, i128_min in *; lia).
  done.
Qed.

(** Accrual on the stored position is the abstract gain. *)
Lemma accrue_sim F e u st p q :
  legacy_inv F e -> state_of e = Ok st -> position_of e u = Ok p ->
  accrue_position_rewards (timestamp e) st p = Ok q ->
  balance q = user_balance e u /\ pos_reward_index q = gindex e /\
  accrued_rewards q = uaccrued e u + gain (legacy_pool e) u /\ accrued_rewards q <= i128_max.
Proof.
  intros Hinv Hst Hp Hq. rewrite (position_of_exact F) in Hp by done. run_inv. subst p.
  apply state_of_Ok in Hst as (_ & _ & _ & _ & _ & Hi & _).
  unfold accrue_position_rewards in Hq. rewrite Hi in Hq.
  destruct Hinv as [Hok Hwf]. pose proof (pool_ok_bal F _ u Hok) as Hb.
  pose proof (pool_ok_idx F _ u Hok) as Hx. cbn in *.
  pose proof Hq as Hmax. apply accrue_rewards_range in Hmax; [|apply Hwf].
  apply accrue_rewards_Ok in Hq as (-> & -> & Hac & _); cbn; auto; lia.
Qed.

Lemma frame_refl K e : frame K e e.
Proof. by split. Qed.

Lemma frame_trans K e1 e2 e3 : frame K e1 e2 -> frame K e2 e3 -> frame K e1 e3.
Proof.
  intros [I1 P1 ? ? ? ? ? ?] [I2 P2 ? ? ? ? ? ?]. split; try congruence; intros k Hk.
  - by rewrite I2, I1.
  - by rewrite P2, P1.
Qed.

Lemma frame_lifetimes K e e' l : frame K e e' -> frame K e (with_lifetimes l e').
Proof. by intros []. Qed.

Lemma frame_of_lifetimes K e e' l : frame K (with_lifetimes l e) e' -> frame K e e'.
Proof. by intros []. Qed.
End refine.

(** Prove that writes to known keys stay inside a frame. *)
Ltac frame_tac :=
  split; try reflexivity; intros ? ?;
  cbn [instance persistent with_instance with_persistent with_lifetimes with_tokens with_events];
  repeat first
    [ reflexivity
    | rewrite put_position_frame by (intros ->; discriminate)
    | rewrite put_liquid_frame by (intros ->; discriminate)
    | rewrite sget_sset_ne by (intros <-; discriminate)
    | rewrite sget_sremove_ne by (intros <-; discriminate) ].

(** Evaluate the observers of an updated environment; case on the user. *)
Ltac obs_unfold :=
  unfold user_balance, liquid, locks_of, uindex, uaccrued, ulast, total, gindex, vesting, target,
    points, inited, paused, guarded in *;
  cbn [instance persistent with_instance with_persistent with_lifetimes with_tokens with_events
       tokens timestamp current_contract_address authorized events
       with_balance with_accrued balance pos_reward_index accrued_rewards last_reward_timestamp] in *.
Ltac obs_simpl :=
  repeat first
    [ rewrite put_position_uindex | rewrite put_position_uaccrued | rewrite put_position_ulast
    | rewrite put_liquid_eq | rewrite sget_sset_eq | rewrite sget_sremove_eq
    | rewrite put_position_frame by congruence
    | rewrite put_liquid_frame by congruence
    | rewrite sget_sset_ne by congruence
    | rewrite sget_sremove_ne by congruence ].
Ltac obs_tac := obs_unfold; obs_simpl;
  cbn [default from_option id with_balance with_accrued balance pos_reward_index accrued_rewards
       last_reward_timestamp].

Section simulation.
Context `{HL : HostLaws}.
Implicit Types (e : Env) (u : Address).

Lemma store_deposit_sim F u amt e r e' :
  legacy_inv F e -> 0 < amt -> store_deposit u amt e = Done (Ok r) e' ->
  pool_step (legacy_pool e) (LDeposit u amt) (legacy_pool e') /\ legacy_wf e' /\
  frame legacy_key e e' /\ balance (snd r) = user_balance e' u.
Proof.
  intros Hinv Ha Hr.
  apply store_deposit_Ok in Hr as (l & st & p & q & Hst & Hp & Hq & -> & Ht & Hl & ->).
  destruct (accrue_sim F e u st p q Hinv Hst Hp Hq) as (Hb & Hi & Hac & Hmx).
  apply state_of_Ok in Hst as (_ & _ & _ & _ & Htot & _). rewrite Htot in *.
  destruct Hinv as [Hok Hwf]. split; [|split; [|split]].
  - apply step_deposit; [done|cbn; lia|]. split; cbn [legacy_pool p_total p_index p_bal p_idx p_acc].
    + by obs_tac.
    + by obs_tac.
    + obs_tac. lia.
    + obs_tac. done.
    + obs_tac. done.
    + intros v Hv. obs_tac. done.
  - intros v. specialize (Hwf v). destruct (decide (v = u)) as [->|Hne]; obs_tac; [|done].
    split; [lia|split; [lia|apply Hwf]].
  - frame_tac.
  - cbn. obs_tac. lia.
Qed.
(** Releasing expired locks moves funds from locks to the liquid balance: the
    pool is unchanged, at most [limit] locks go, all of them expired. *)
Record unlocked (e : Env) (u : Address) (limit r : Z) (released : list Lock) (e' : Env) : Prop :=
  mkUnlocked {
  un_frame : frame legacy_key e e';
  un_wf : legacy_wf e';
  un_amount : r = sumZ lock_amount released;
  un_liquid : liquid e' u = liquid e u + r;
  un_locks : Permutation (locks_of e u) (released ++ locks_of e' u);
  un_expired : Forall (fun l => unlock_timestamp l <= timestamp e) released;
  un_limit : Z.of_nat (length released) <= Z.max 0 limit;
  un_total : total e' = total e /\ gindex e' = gindex e;
  un_user : uindex e' u = uindex e u /\ uaccrued e' u = uaccrued e u /\ ulast e' u = ulast e u;
  un_others : forall v, v <> u -> liquid e' v = liquid e v /\ locks_of e' v = locks_of e v /\
    uindex e' v = uindex e v /\ uaccrued e' v = uaccrued e v }.

Lemma unlock_sim u limit e r e' :
  legacy_wf e -> unlock_expired_locks u limit e = Done (Ok r) e' ->
  exists released, unlocked e u limit r released e'.
Proof.
  intros Hwf Hr. apply unlock_expired_locks_Ok in Hr as (l & Hcase & Hle).
  assert (r <= 0 -> r = 0 -> exists released, unlocked e u limit r released e') as Hidle.
  { intros Hr0 Hr1. rewrite (Hle Hr0). exists []. split; try done; cbn; obs_tac; lia. }
  destruct Hcase as [[-> _]|(new_locks & Hrel & Hpos)]; [by apply Hidle|].
  apply release_locks_Ok in Hrel as (released & rest & Hn & -> & Hperm & Hexp & Hlen).
  cbn in Hn. subst new_locks. rewrite Z.sub_0_r in Hlen.
  destruct (Hwf u) as (Hl & Hacc & Hpos'). rewrite Hperm in Hpos'.
  apply Forall_app in Hpos' as [Hrelpos Hrest].
  pose proof (lock_sum_nonneg _ Hrelpos) as Hnn. rewrite Z.add_0_l in *.
  destruct (Z.eq_dec (sumZ lock_amount released) 0) as [Hz|Hz]; [apply Hidle; lia|].
  destruct Hpos as [Hrange ->]; [lia|]. exists released. split; auto.
  - frame_tac.
  - intros v. specialize (Hwf v). destruct (decide (v = u)) as [->|Hne]; obs_tac; [|done].
    split; [lia|split; [lia|done]].
  - by obs_tac.
  - obs_tac. done.
  - by obs_tac.
  - intros v Hv. by obs_tac.
Qed.

Lemma unlocked_of_lifetimes l e u limit r released e' :
  unlocked (with_lifetimes l e) u limit r released e' -> unlocked e u limit r released e'.
Proof. intros []. split; try done. by eapply frame_of_lifetimes. Qed.

Lemma unlocked_balance e u limit r released e' v :
  unlocked e u limit r released e' -> user_balance e' v = user_balance e v.
Proof.
  intros []. unfold user_balance. destruct (decide (v = u)) as [->|Hne].
  - rewrite un_liquid0, (sumZ_perm _ _ _ un_locks0), sumZ_app. lia.
  - by destruct (un_others0 v Hne) as (-> & -> & _).
Qed.

Lemma unlocked_idle e u limit r released e' :
  unlocked e u limit r released e' -> pool_eq (legacy_pool e) (legacy_pool e').
Proof.
  intros Hu. pose proof (fun v => unlocked_balance _ _ _ _ _ _ v Hu) as Hb. destruct Hu.
  destruct un_total0 as [Ht Hi]. split; cbn; auto. intros v. rewrite Hb.
  destruct (decide (v = u)) as [->|Hne]; [tauto|].
  by destruct (un_others0 v Hne) as (_ & _ & -> & ->).
Qed.

Lemma store_withdraw_sim F u amt e r e' :
  legacy_inv F e -> 0 < amt -> store_withdraw u amt e = Done (Ok r) e' ->
  pool_step (legacy_pool e) (LWithdraw u amt) (legacy_pool e') /\ legacy_wf e' /\
  frame legacy_key e e' /\ balance (snd r) = user_balance e' u /\
  exists released e1, unlocked e u WITHDRAW_UNLOCK_LIMIT (sumZ lock_amount released) released e1 /\
    amt <= liquid e u + sumZ lock_amount released /\
    liquid e' u = liquid e u + sumZ lock_amount released - amt /\ locks_of e' u = locks_of e1 u.
Proof.
  intros Hinv Ha Hr.
  apply store_withdraw_Ok in Hr
    as (l & l0 & st & p & q & rel & e1 & Hst & Hp & Hq & Hun & Hamt & -> & Ht & ->).
  destruct (accrue_sim F e u st p q Hinv Hst Hp Hq) as (Hb & Hi & Hac & Hmx).
  apply state_of_Ok in Hst as (_ & _ & _ & _ & Htot & _). rewrite Htot in *.
  destruct Hinv as [Hok Hwf].
  apply unlock_sim in Hun as [released Hu%unlocked_of_lifetimes]; [|done].
  pose proof (fun v => unlocked_balance _ _ _ _ _ _ v Hu) as Hbal.
  pose proof Hu as [Hfr Hwf1 Hrel Hliq Hlk _ _ [Ht1 Hg1] Hus Hot].
  pose proof (locks_sum_nonneg e1 u Hwf1) as Hnn.
  assert (amt <= user_balance e u) by (rewrite <- Hbal; unfold user_balance; lia).
  split; [|split; [|split; [|split]]].
  - apply step_withdraw; [done|done|]. split; cbn [legacy_pool p_total p_index p_bal p_idx p_acc].
    + by obs_tac.
    + rewrite <- Hg1. by obs_tac.
    + rewrite <- Hbal. obs_tac. lia.
    + obs_tac. done.
    + obs_tac. done.
    + intros v Hv. destruct (Hot v Hv) as (? & ? & ? & ?). rewrite <- Hbal.
      by obs_tac.
  - intros v. specialize (Hwf1 v). destruct (decide (v = u)) as [->|Hne]; obs_tac; [|done].
    split; [lia|split; [lia|apply Hwf1]].
  - eapply frame_trans; [exact Hfr|]. frame_tac.
  - cbn. rewrite Hb, <- Hbal. obs_tac. lia.
  - exists released, e1. rewrite <- Hrel. split; [|split; [lia|split]].
    + done.
    + obs_tac. lia.
    + by obs_tac.
Qed.
Lemma store_lock_sim F u amt duration e r e' :
  legacy_inv F e -> 0 < amt -> store_lock u amt duration e = Done (Ok r) e' ->
  pool_step (legacy_pool e) (LSync u) (legacy_pool e') /\ legacy_wf e' /\
  frame legacy_key e e' /\
  amt <= liquid e u /\ liquid e' u = liquid e u - amt /\
  locks_of e' u = locks_of e u ++ [mkLock amt (timestamp e + duration) 0].
Proof.
  intros Hinv Ha Hr.
  apply store_lock_Ok in Hr as (l & st & p & q & Hst & Hp & Hq & Hamt & _ & ->).
  destruct (accrue_sim F e u st p q Hinv Hst Hp Hq) as (Hb & Hi & Hac & Hmx).
  destruct Hinv as [Hok Hwf]. split; [|split; [|split; [|split; [|split]]]].
  - apply step_sync. split; cbn [legacy_pool p_total p_index p_bal p_idx p_acc].
    + by obs_tac.
    + by obs_tac.
    + obs_tac. rewrite sumZ_app. cbn. lia.
    + obs_tac. done.
    + obs_tac. done.
    + intros v Hv. by obs_tac.
  - intros v. specialize (Hwf v). destruct (decide (v = u)) as [->|Hne]; obs_tac; [|done].
    split; [lia|split; [lia|]]. apply Forall_app; split; [apply Hwf|]. by repeat constructor.
  - frame_tac.
  - done.
  - by obs_tac.
  - by obs_tac.
Qed.

Lemma store_reward_distribution_sim amt e r e' :
  store_reward_distribution amt e = Done (Ok r) e' ->
  exists multiplier effective,
    calculate_utilization_multiplier (total e) (target e) (points e) = Ok multiplier /\
    effective_reward_amount amt multiplier = Ok effective /\
    pool_step (legacy_pool e) (LDistribute effective) (legacy_pool e') /\
    (legacy_wf e -> legacy_wf e') /\ frame legacy_key e e' /\ reward_index r = gindex e'.
Proof.
  intros Hr.
  apply store_reward_distribution_Ok in Hr
    as (l & st & multiplier & effective & inc & Hst & Hm & Heff & Hinc & -> & Hmax & ->).
  exists multiplier, effective. split; [done|]. split; [done|]. split; [|split; [|split]].
  - apply (step_distribute _ _ inc); cbn [legacy_pool p_total p_index p_bal p_idx p_acc]; [done|..].
    + by obs_tac.
    + by obs_tac.
    + intros v. by obs_tac.
  - done.
  - frame_tac.
  - cbn. by obs_tac.
Qed.

Lemma store_claimable_rewards_sim F u e r e' :
  legacy_inv F e -> 0 <= vesting e ->
  store_claimable_rewards u e = Done (Ok r) e' ->
  pool_step (legacy_pool e) (LClaim u r) (legacy_pool e') /\ legacy_wf e' /\
  frame legacy_key e e' /\ 0 <= r <= uaccrued e u + gain (legacy_pool e) u /\
  user_balance e' u = user_balance e u.
Proof.
  intros Hinv Hv Hr.
  apply store_claimable_rewards_Ok in Hr as (l & st & p & q & Hst & Hp & Hq & Hvest & ->).
  destruct (accrue_sim F e u st p q Hinv Hst Hp Hq) as (Hb & Hi & Hac & Hmx).
  apply state_of_Ok in Hst as (_ & _ & _ & _ & _ & _ & Hvp & _). rewrite Hvp in *.
  destruct Hinv as [Hok Hwf].
  pose proof (pool_ok_claimable F _ u Hok) as Hcl. pose proof (pool_ok_acc F _ u Hok) as Ha.
  pose proof (gain_bounds (legacy_pool e) u ltac:(apply (pool_ok_bal F); done)
    ltac:(apply (pool_ok_idx F); done)) as [Hg _]. cbn in Hcl, Ha.
  apply vested_bounds in Hvest; [|lia|done]. rewrite Hac in Hvest.
  split; [|split; [|split; [|split]]].
  - apply step_claim; [done|]. split; cbn [legacy_pool p_total p_index p_bal p_idx p_acc].
    + by obs_tac.
    + by obs_tac.
    + by obs_tac.
    + obs_tac. done.
    + obs_tac. unfold legacy_pool in *. obs_unfold. lia.
    + intros v Hne. by obs_tac.
  - intros v. specialize (Hwf v). destruct (decide (v = u)) as [->|Hne]; obs_tac; [|done].
    split; [|split; [lia|]]; apply Hwf.
  - frame_tac.
  - done.
  - by obs_tac.
Qed.

(** The invariant through a simulated step. *)
Lemma legacy_inv_step F e e' lb :
  legacy_inv F e -> pool_step (legacy_pool e) lb (legacy_pool e') -> legacy_wf e' ->
  legacy_inv (F + funding lb) e'.
Proof. intros [Hok _] Hs Hwf. split; [by eapply pool_step_preserves|done]. Qed.
End simulation.
