(* ===== verification/VaultAssetRefine.v ===== *)
(** The multi-asset storage routines implement the abstract reward pool, one
    pool per asset: observers, exact readers, the writes of each routine, and
    the simulation lemmas.  A routine on asset [a] touches only keys of [a]. *)
From stdpp Require Import base gmap list strings sets.
From S2P Require Import Prelude VaultErrors VaultTypes Host VaultMath VaultStorage VaultAssets RewardPool VaultFacts VaultRefine.

Section observers.
Context `{Host}.
Implicit Types (e : Env) (u a : Address).

Definition assets_of e : gmap Address bool := default ∅ (sget SupportedAssets (instance e)).
Definition supported e a : bool := bool_decide (is_Some (assets_of e !! a)).
Definition atotal e a : Z := default 0 (sget (AssetTotalDeposits a) (instance e)).
Definition aindex e a : Z := default 0 (sget (AssetRewardIndex a) (instance e)).
Definition abal e a u : Z := default 0 (sget (UserAssetBalance u a) (persistent e)).
Definition auindex e a u : Z := default 0 (sget (UserAssetRewardIndex u a) (persistent e)).
Definition aaccrued e a u : Z := default 0 (sget (UserAssetAccruedRewards u a) (persistent e)).
Definition alast e a u : Z := default 0 (sget (UserAssetLastRewardTimestamp u a) (persistent e)).

Definition asset_pool e a : pool :=
  mkPool (atotal e a) (aindex e a) (abal e a) (auindex e a) (aaccrued e a).

Definition asset_wf e a : Prop := forall u, aaccrued e a u <= i128_max.
Definition asset_inv (F : Z) e a : Prop := pool_ok F (asset_pool e a) /\ asset_wf e a.

Definition asset_position_of e a u : UserPosition :=
  mkPosition (abal e a u) (auindex e a u) (aaccrued e a u) (alast e a u).

(** The accounting keys of asset [a]. *)
Definition asset_key a (k : DataKey) : bool :=
  match k with
  | AssetTotalDeposits a' | AssetRewardIndex a' => bool_decide (a' = a)
  | UserAssetBalance _ a' | UserAssetRewardIndex _ a' | UserAssetAccruedRewards _ a'
  | UserAssetLastRewardTimestamp _ a' => bool_decide (a' = a)
  | _ => false
  end.

Definition put_abal u a (v : Z) (s : Store) : Store :=
  if v =? 0 then sremove (UserAssetBalance u a) s else sset (UserAssetBalance u a) v s.
Definition put_auindex u a (v : Z) (s : Store) : Store :=
  if v =? 0 then sremove (UserAssetRewardIndex u a) s else sset (UserAssetRewardIndex u a) v s.
Definition put_aaccrued u a (v : Z) (s : Store) : Store :=
  if v =? 0 then sremove (UserAssetAccruedRewards u a) s
  else sset (UserAssetAccruedRewards u a) v s.
Definition put_asset_position u a (p : UserPosition) (s : Store) : Store :=
  sset (UserAssetLastRewardTimestamp u a) (last_reward_timestamp p)
    (put_aaccrued u a (accrued_rewards p)
      (put_auindex u a (pos_reward_index p) (put_abal u a (balance p) s))).
End observers.

Section facts.
Context `{HL : HostLaws}.
Implicit Types (e : Env) (u a : Address).

Lemma is_asset_supported_reads a : reads (is_asset_supported a) (fun e => Ok (supported e a)).
Proof. intros e. exists (lifetimes e). by destruct e. Qed.

Lemma require_supported_reads a :
  reads (require_supported a) (fun e => if supported e a then Ok tt else Err InvalidAddress).
Proof.
  intros e. exists (lifetimes e). unfold require_supported.
  erewrite bindM_step by reflexivity. fold (assets_of e). fold (supported e a).
  by destruct (supported e a), e.
Qed.

Lemma get_asset_total_reads a :
  reads (get_asset_total_deposits a)
    (fun e => if supported e a then Ok (atotal e a) else Err InvalidAddress).
Proof.
  intros e. unfold get_asset_total_deposits. destruct (require_supported_reads a e) as [l Hl].
  unfold bindM at 1. rewrite Hl. destruct (supported e a); by eexists.
Qed.

Lemma get_asset_index_reads a :
  reads (get_asset_reward_index a)
    (fun e => if supported e a then Ok (aindex e a) else Err InvalidAddress).
Proof.
  intros e. unfold get_asset_reward_index. destruct (require_supported_reads a e) as [l Hl].
  unfold bindM at 1. rewrite Hl. destruct (supported e a); by eexists.
Qed.

Lemma default_present (o : option Z) : default 0 o <> 0 -> is_Some o.
Proof. destruct o; cbn; [by eexists|done]. Qed.

Lemma get_user_asset_position_reads u a :
  reads (get_user_asset_position_unchecked u a) (fun e => Ok (asset_position_of e a u)).
Proof.
  intros e. unfold get_user_asset_position_unchecked. do 4 erewrite bindM_step by reflexivity.
  destruct (bump_nonzero_reads (UserAssetBalance u a) (fun e => abal e a u)
    (fun e He => default_present _ He) e) as [l1 H1].
  erewrite bindM_step by exact H1.
  destruct (bump_nonzero_reads (UserAssetRewardIndex u a) (fun e => auindex e a u)
    (fun e He => default_present _ He) (with_lifetimes l1 e))
    as [l2 H2].
  erewrite bindM_step by exact H2.
  destruct (bump_nonzero_reads (UserAssetAccruedRewards u a) (fun e => aaccrued e a u)
    (fun e He => default_present _ He)
    (with_lifetimes l2 (with_lifetimes l1 e))) as [l3 H3].
  erewrite bindM_step by exact H3.
  destruct (bump_nonzero_reads (UserAssetLastRewardTimestamp u a) (fun e => alast e a u)
    (fun e He => default_present _ He)
    (with_lifetimes l3 (with_lifetimes l2 (with_lifetimes l1 e)))) as [l4 H4].
  erewrite bindM_step by exact H4. by eexists.
Qed.

Lemma set_user_asset_position_run u a p e : exists l,
  set_user_asset_position u a p e =
  Done (Ok tt) (with_lifetimes l (with_persistent (put_asset_position u a p (persistent e)) e)).
Proof.
  unfold set_user_asset_position.
  destruct (write_or_remove_run (UserAssetBalance u a) (balance p) (balance p) e) as [l1 H1].
  erewrite bindM_step by exact H1.
  destruct (write_or_remove_run (UserAssetRewardIndex u a) (pos_reward_index p)
    (pos_reward_index p)
    (with_lifetimes l1 (with_persistent (put_abal u a (balance p) (persistent e)) e))) as [l2 H2].
  erewrite bindM_step by exact H2.
  destruct (write_or_remove_run (UserAssetAccruedRewards u a) (accrued_rewards p)
    (accrued_rewards p)
    (with_lifetimes l2 (with_persistent (put_auindex u a (pos_reward_index p)
      (put_abal u a (balance p) (persistent e))) e))) as [l3 H3].
  erewrite bindM_step by exact H3.
  erewrite bindM_step by reflexivity. edestruct bump_present as [l Hl]; [|exists l; exact Hl].
  cbn. rewrite sget_sset_eq. eauto.
Qed.

Lemma put_asset_position_frame k u a p s :
  k <> UserAssetBalance u a -> k <> UserAssetRewardIndex u a ->
  k <> UserAssetAccruedRewards u a -> k <> UserAssetLastRewardTimestamp u a ->
  sget k (put_asset_position u a p s) = sget k s.
Proof.
  intros ????. unfold put_asset_position, put_aaccrued, put_auindex, put_abal.
  rewrite sget_sset_ne by congruence.
  repeat (destruct (_ =? 0); [rewrite sget_sremove_ne by congruence
                             | rewrite sget_sset_ne by congruence]); done.
Qed.

Lemma put_asset_position_get u a p s :
  default 0 (sget (UserAssetBalance u a) (put_asset_position u a p s)) = balance p /\
  default 0 (sget (UserAssetRewardIndex u a) (put_asset_position u a p s)) = pos_reward_index p /\
  default 0 (sget (UserAssetAccruedRewards u a) (put_asset_position u a p s)) = accrued_rewards p /\
  default 0 (sget (UserAssetLastRewardTimestamp u a) (put_asset_position u a p s)) =
    last_reward_timestamp p.
Proof.
  unfold put_asset_position, put_aaccrued, put_auindex, put_abal.
  destruct (balance p =? 0) eqn:E1, (pos_reward_index p =? 0) eqn:E2,
    (accrued_rewards p =? 0) eqn:E3; bool_to_prop; repeat split;
    repeat first [ rewrite sget_sset_eq | rewrite sget_sremove_eq
                 | rewrite sget_sset_ne by congruence | rewrite sget_sremove_ne by congruence ];
    done.
Qed.
End facts.

Ltac asset_inv :=
  repeat (storage_inv; match goal with
  | H : require_supported ?a _ = Done (Ok _) _ |- _ => apply_reads H (require_supported_reads a)
  | H : get_asset_total_deposits ?a _ = Done (Ok _) _ |- _ => apply_reads H (get_asset_total_reads a)
  | H : get_asset_reward_index ?a _ = Done (Ok _) _ |- _ => apply_reads H (get_asset_index_reads a)
  | H : get_user_asset_position_unchecked ?u ?a _ = Done (Ok _) _ |- _ =>
      apply_reads H (get_user_asset_position_reads u a)
  | H : set_user_asset_position ?u ?a ?p ?e = Done (Ok _) _ |- _ =>
      apply_run H (set_user_asset_position_run u a p e)
  | H : set_asset_total_deposits _ _ _ = Done (Ok _) _ |- _ => injection H as ? ?; subst
  | H : set_asset_reward_index _ _ _ = Done (Ok _) _ |- _ => injection H as ? ?; subst
  end); storage_inv;
  repeat match goal with
  | H : context [supported (with_lifetimes ?l ?e)] |- _ =>
      change (supported (with_lifetimes l e)) with (supported e) in H
  | H : context [atotal (with_lifetimes ?l ?e)] |- _ =>
      change (atotal (with_lifetimes l e)) with (atotal e) in H
  | H : context [aindex (with_lifetimes ?l ?e)] |- _ =>
      change (aindex (with_lifetimes l e)) with (aindex e) in H
  | H : context [asset_position_of (with_lifetimes ?l ?e)] |- _ =>
      change (asset_position_of (with_lifetimes l e)) with (asset_position_of e) in H
  end;
  repeat match goal with
  | H : (if supported ?e ?a then _ else _) = Ok _ |- _ =>
      destruct (supported e a) eqn:?; [|discriminate H]
  end; run_inv.

Section effects.
Context `{HL : HostLaws}.
Implicit Types (e : Env) (u a : Address).

Lemma store_asset_deposit_Ok u a amt e r e' :
  store_asset_deposit u a amt e = Done (Ok r) e' ->
  exists l q,
    supported e a = true /\
    accrue_rewards (timestamp e) (aindex e a) (asset_position_of e a u) = Ok q /\
    r = with_balance (balance q + amt) q /\
    i128_min <= atotal e a + amt <= i128_max /\
    e' = with_lifetimes l
      (with_instance (sset (AssetTotalDeposits a) (atotal e a + amt) (instance e))
        (with_persistent (put_asset_position u a r (persistent e)) e)).
Proof.
  intros Hr. unfold store_asset_deposit in Hr. asset_inv. subst.
  eexists _, _. repeat split; try eassumption; try lia; reflexivity.
Qed.

Lemma store_asset_withdraw_Ok u a amt e r e' :
  store_asset_withdraw u a amt e = Done (Ok r) e' ->
  exists l q,
    supported e a = true /\
    accrue_rewards (timestamp e) (aindex e a) (asset_position_of e a u) = Ok q /\
    amt <= balance q /\ r = with_balance (balance q - amt) q /\
    i128_min <= atotal e a - amt <= i128_max /\
    e' = with_lifetimes l
      (with_instance (sset (AssetTotalDeposits a) (atotal e a - amt) (instance e))
        (with_persistent (put_asset_position u a r (persistent e)) e)).
Proof.
  intros Hr. unfold store_asset_withdraw in Hr. asset_inv.
  match goal with Hc : (if ?b then _ else _) _ = Done _ _ |- _ => destruct b eqn:? end; asset_inv.
  bool_to_prop. subst.
  eexists _, _. repeat split; try eassumption; try lia; reflexivity.
Qed.

Lemma store_asset_reward_distribution_Ok a amt e r e' :
  store_asset_reward_distribution a amt e = Done (Ok r) e' ->
  exists l inc,
    supported e a = true /\ checked_reward_index_increment amt (atotal e a) = Ok inc /\
    r = aindex e a + inc /\ r <= i128_max /\
    e' = with_lifetimes l (with_instance (sset (AssetRewardIndex a) r (instance e)) e).
Proof.
  intros Hr. unfold store_asset_reward_distribution in Hr. asset_inv. subst.
  eexists _, _. repeat split; try eassumption; try lia; reflexivity.
Qed.

Lemma store_asset_claimable_rewards_Ok u a e r e' :
  store_asset_claimable_rewards u a e = Done (Ok r) e' ->
  exists l st q,
    supported e a = true /\ state_of e = Ok st /\
    accrue_rewards (timestamp e) (aindex e a) (asset_position_of e a u) = Ok q /\
    calculate_vested_rewards (timestamp e) q (vesting e) = Ok r /\
    e' = with_lifetimes l (with_persistent
      (put_asset_position u a (with_accrued (accrued_rewards q - r) q) (persistent e)) e).
Proof.
  intros Hr. unfold store_asset_claimable_rewards in Hr. asset_inv. subst.
  match goal with Hs : state_of e = Ok _ |- _ =>
    pose proof (state_of_Ok _ _ Hs) as (_ & _ & _ & _ & _ & _ & Hv & _) end.
  rewrite Hv in *.
  eexists _, _, _. repeat split; try eassumption; try lia; reflexivity.
Qed.
End effects.

(** Evaluate the asset observers of an updated environment. *)
Ltac aobs_tac :=
  unfold abal, auindex, aaccrued, alast, atotal, aindex, assets_of in *;
  cbn [instance persistent with_instance with_persistent with_lifetimes with_balance with_accrued
       balance pos_reward_index accrued_rewards last_reward_timestamp] in *;
  repeat first
    [ rewrite (proj1 (put_asset_position_get _ _ _ _))
    | rewrite (proj1 (proj2 (put_asset_position_get _ _ _ _)))
    | rewrite (proj1 (proj2 (proj2 (put_asset_position_get _ _ _ _))))
    | rewrite (proj2 (proj2 (proj2 (put_asset_position_get _ _ _ _))))
    | rewrite sget_sset_eq
    | rewrite put_asset_position_frame by congruence
    | rewrite sget_sset_ne by congruence ];
  cbn [default from_option id with_balance with_accrued balance pos_reward_index accrued_rewards
       last_reward_timestamp].

Ltac aframe_tac :=
  split; try reflexivity; intros k Hk;
  cbn [instance persistent with_instance with_persistent with_lifetimes];
  repeat first
    [ reflexivity
    | rewrite put_asset_position_frame
        by (intros ->; cbn in Hk; rewrite bool_decide_eq_true_2 in Hk by done; discriminate)
    | rewrite sget_sset_ne
        by (intros <-; cbn in Hk; rewrite bool_decide_eq_true_2 in Hk by done; discriminate) ].

Section simulation.
Context `{HL : HostLaws}.
Implicit Types (e : Env) (u a : Address).

Lemma asset_accrue_sim F e a u q :
  asset_inv F e a ->
  accrue_rewards (timestamp e) (aindex e a) (asset_position_of e a u) = Ok q ->
  balance q = abal e a u /\ pos_reward_index q = aindex e a /\
  accrued_rewards q = aaccrued e a u + gain (asset_pool e a) u /\ accrued_rewards q <= i128_max.
Proof.
  intros [Hok Hwf] Hq. pose proof (pool_ok_bal F _ u Hok) as Hb.
  pose proof (pool_ok_idx F _ u Hok) as Hx. cbn in *.
  pose proof Hq as Hmax. apply accrue_rewards_range in Hmax; [|apply Hwf].
  apply accrue_rewards_Ok in Hq as (-> & -> & Hac & _); cbn; auto; lia.
Qed.

Lemma store_asset_deposit_sim F u a amt e r e' :
  asset_inv F e a -> 0 < amt -> store_asset_deposit u a amt e = Done (Ok r) e' ->
  pool_step (asset_pool e a) (LDeposit u amt) (asset_pool e' a) /\ asset_wf e' a /\
  frame (asset_key a) e e' /\ supported e a = true.
Proof.
  intros Hinv Ha Hr. apply store_asset_deposit_Ok in Hr as (l & q & Hs & Hq & -> & Ht & ->).
  destruct (asset_accrue_sim F e a u q Hinv Hq) as (Hb & Hi & Hac & Hmx).
  destruct Hinv as [Hok Hwf]. split; [|split; [|split; [|done]]].
  - apply step_deposit; [done|cbn; lia|]. split; cbn [asset_pool p_total p_index p_bal p_idx p_acc].
    + by aobs_tac.
    + by aobs_tac.
    + aobs_tac. lia.
    + by aobs_tac.
    + by aobs_tac.
    + intros v Hv. by aobs_tac.
  - intros v. specialize (Hwf v). destruct (decide (v = u)) as [->|Hne]; by aobs_tac.
  - aframe_tac.
Qed.

Lemma store_asset_withdraw_sim F u a amt e r e' :
  asset_inv F e a -> 0 < amt -> store_asset_withdraw u a amt e = Done (Ok r) e' ->
  pool_step (asset_pool e a) (LWithdraw u amt) (asset_pool e' a) /\ asset_wf e' a /\
  frame (asset_key a) e e' /\ supported e a = true /\ balance r = abal e' a u.
Proof.
  intros Hinv Ha Hr. apply store_asset_withdraw_Ok in Hr as (l & q & Hs & Hq & Hle & -> & Ht & ->).
  destruct (asset_accrue_sim F e a u q Hinv Hq) as (Hb & Hi & Hac & Hmx).
  destruct Hinv as [Hok Hwf]. split; [|split; [|split; [|split; [done|]]]].
  - apply step_withdraw; [done|cbn; lia|]. split; cbn [asset_pool p_total p_index p_bal p_idx p_acc].
    + by aobs_tac.
    + by aobs_tac.
    + aobs_tac. lia.
    + by aobs_tac.
    + by aobs_tac.
    + intros v Hv. by aobs_tac.
  - intros v. specialize (Hwf v). destruct (decide (v = u)) as [->|Hne]; by aobs_tac.
  - aframe_tac.
  - by aobs_tac.
Qed.

Lemma store_asset_reward_distribution_sim a amt e r e' :
  store_asset_reward_distribution a amt e = Done (Ok r) e' ->
  pool_step (asset_pool e a) (LDistribute amt) (asset_pool e' a) /\
  (asset_wf e a -> asset_wf e' a) /\ frame (asset_key a) e e' /\ supported e a = true /\
  r = aindex e' a.
Proof.
  intros Hr. apply store_asset_reward_distribution_Ok in Hr as (l & inc & Hs & Hinc & -> & _ & ->).
  split; [|split; [|split; [|split; [done|]]]].
  - apply (step_distribute _ _ inc); cbn [asset_pool p_total p_index p_bal p_idx p_acc]; [done|..].
    + by aobs_tac.
    + by aobs_tac.
    + intros v. by aobs_tac.
  - done.
  - aframe_tac.
  - by aobs_tac.
Qed.

Lemma store_asset_claimable_rewards_sim F u a e r e' :
  asset_inv F e a -> 0 <= vesting e -> store_asset_claimable_rewards u a e = Done (Ok r) e' ->
  pool_step (asset_pool e a) (LClaim u r) (asset_pool e' a) /\ asset_wf e' a /\
  frame (asset_key a) e e' /\ supported e a = true /\
  0 <= r <= aaccrued e a u + gain (asset_pool e a) u.
Proof.
  intros Hinv Hv Hr.
  apply store_asset_claimable_rewards_Ok in Hr as (l & st & q & Hs & _ & Hq & Hvest & ->).
  destruct (asset_accrue_sim F e a u q Hinv Hq) as (Hb & Hi & Hac & Hmx).
  destruct Hinv as [Hok Hwf]. pose proof (pool_ok_acc F _ u Hok) as Ha. cbn in Ha.
  pose proof (gain_bounds (asset_pool e a) u ltac:(apply (pool_ok_bal F); done)
    ltac:(apply (pool_ok_idx F); done)) as [Hg _].
  apply vested_bounds in Hvest; [|lia|done]. rewrite Hac in Hvest.
  split; [|split; [|split; [|split; [done|done]]]].
  - apply step_claim; [done|]. split; cbn [asset_pool p_total p_index p_bal p_idx p_acc].
    + by aobs_tac.
    + by aobs_tac.
    + by aobs_tac.
    + by aobs_tac.
    + aobs_tac. rewrite Hac. done.
    + intros v Hne. by aobs_tac.
  - intros v. specialize (Hwf v). destruct (decide (v = u)) as [->|Hne]; aobs_tac; lia.
  - aframe_tac.
Qed.

Lemma asset_inv_step F e e' a lb :
  asset_inv F e a -> pool_step (asset_pool e a) lb (asset_pool e' a) -> asset_wf e' a ->
  asset_inv (F + funding lb) e' a.
Proof. intros [Hok _] Hs Hwf. split; [by eapply pool_step_preserves|done]. Qed.
End simulation.
