(* ===== verification/VaultCalls.v ===== *)
(** What a committed call of each entry point did: which guards it passed, which
    storage routine it ran, which token moved and in which direction.  These
    lemmas connect the entry points of lib.rs with the refinement of the storage
    routines. *)
From stdpp Require Import base gmap list strings sets.
From S2P Require Import Prelude VaultErrors VaultTypes Host VaultMath VaultEvents VaultStorage VaultAssets VaultContract RewardPool VaultFacts VaultRefine VaultAssetRefine.

Section calls.
Context `{HL : HostLaws}.
Implicit Types (e : Env) (u a : Address) (K : DataKey -> bool).

(** Storage, clock and identity agree outside the keys [K]. *)
Record kframe K e e' : Prop := mkKframe {
  kf_inst : forall k, K k = false -> sget k (instance e') = sget k (instance e);
  kf_pers : forall k, K k = false -> sget k (persistent e') = sget k (persistent e);
  kf_time : timestamp e' = timestamp e;
  kf_this : current_contract_address e' = current_contract_address e }.

Definition guard_key (k : DataKey) : bool :=
  match k with ReentrancyGuard => true | _ => false end.
Definition or_guard K (k : DataKey) : bool := K k || guard_key k.

(** The vault's own balance of token [t] changed by [d], no other token's did. *)
Definition vault_delta e e' (t : Address) (d : Z) : Prop :=
  let this := current_contract_address e in
  token_balance t this (tokens e') = token_balance t this (tokens e) + d /\
  forall t', t' <> t -> token_balance t' this (tokens e') = token_balance t' this (tokens e).

Definition deposit_token_of e : option Address := sget DepositToken (instance e).
Definition reward_token_of e : option Address := sget RewardToken (instance e).
Definition admin_of e : option Address := sget Admin (instance e).
Definition pending_of e : option Address := sget PendingAdmin (instance e).

Lemma kframe_refl K e : kframe K e e.
Proof. by split. Qed.

Lemma kframe_trans K e1 e2 e3 : kframe K e1 e2 -> kframe K e2 e3 -> kframe K e1 e3.
Proof.
  intros [I1 P1 ? ?] [I2 P2 ? ?]. split; try congruence; intros k Hk.
  - by rewrite I2, I1.
  - by rewrite P2, P1.
Qed.

Lemma kframe_mono K K' e e' :
  (forall k, K' k = false -> K k = false) -> kframe K e e' -> kframe K' e e'.
Proof. intros HK []. split; auto. Qed.

Lemma frame_kframe K e e' : frame K e e' -> kframe K e e'.
Proof. by intros []. Qed.

Lemma kframe_or_guard_l K e e' : kframe K e e' -> kframe (or_guard K) e e'.
Proof. apply kframe_mono. unfold or_guard. intros k. by destruct (K k). Qed.

Lemma kframe_or_guard_r K e e' : kframe guard_key e e' -> kframe (or_guard K) e e'.
Proof. apply kframe_mono. unfold or_guard. intros k. by destruct (K k). Qed.

(** *** Transfers seen from the vault *)

Lemma transfer_in e e' t f amt :
  f <> current_contract_address e ->
  token_transfer t f (current_contract_address e) amt (tokens e) = Some (tokens e') ->
  vault_delta e e' t amt.
Proof.
  intros Hf Ht. split.
  - by destruct (transfer_moves _ _ _ _ _ _ Ht Hf) as [_ ->].
  - intros t' Hne. by eapply transfer_frame; eauto.
Qed.

Lemma transfer_out e e' t d amt :
  d <> current_contract_address e ->
  token_transfer t (current_contract_address e) d amt (tokens e) = Some (tokens e') ->
  vault_delta e e' t (- amt).
Proof.
  intros Hd Ht. split.
  - destruct (transfer_moves _ _ _ _ _ _ Ht) as [-> _]; [congruence|lia].
  - intros t' Hne. by eapply transfer_frame; eauto.
Qed.

(** *** Guards *)

Lemma validate_positive_amount_Ok amt x : validate_positive_amount amt = Ok x <-> 0 < amt.
Proof.
  unfold validate_positive_amount. destruct x.
  destruct (amt <? 0) eqn:E1; bool_to_prop; [naive_solver lia|].
  destruct (amt =? 0) eqn:E2; bool_to_prop; naive_solver lia.
Qed.

(** A body run under the guard starts with the guard set and ends with it
    cleared; nothing else changes around it. *)
Lemma with_non_reentrant_Ok {T} (f : M T) e r e' :
  with_non_reentrant f e = Done (Ok r) e' ->
  guarded e = false /\ exists e1 e2,
    kframe guard_key e e1 /\ tokens e1 = tokens e /\ events e1 = events e /\
    guarded e1 = true /\ f e1 = Done (Ok r) e2 /\
    kframe guard_key e2 e' /\ tokens e' = tokens e2 /\ events e' = events e2 /\
    guarded e' = false.
Proof.
  intros Hr. unfold with_non_reentrant, enter_non_reentrant, bindM in Hr. cbn in Hr.
  fold (guarded e) in Hr. destruct (guarded e) eqn:Hg; cbn in Hr; [done|].
  match type of Hr with match f ?x with _ => _ end = _ => destruct (f x) as [r2 e2|] eqn:Hf; [|done] end.
  injection Hr as <- <-. split; [done|]. eexists _, e2. split; [|split; [|split; [|split; [|split; [exact Hf|split; [|split; [|split]]]]]]].
  - split; try done. intros k Hk. cbn. rewrite sget_sset_ne; [done|]. by intros <-.
  - done.
  - done.
  - unfold guarded. cbn. by rewrite sget_sset_eq.
  - split; try done. intros k Hk. cbn. rewrite sget_sset_ne; [done|]. by intros <-.
  - done.
  - done.
  - unfold guarded. cbn. by rewrite sget_sset_eq.
Qed.

Lemma state_of_kframe e e1 : kframe guard_key e e1 -> state_of e1 = state_of e.
Proof.
  intros [Hi _ _ _]. unfold state_of, inited, total, gindex, vesting, target, points.
  by rewrite !Hi by done.
Qed.

Lemma publish_Ok ev e r e' :
  publish ev e = Done (Ok r) e' <-> r = tt /\ e' = with_events (events e ++ [ev]) e.
Proof. unfold publish. destruct r. naive_solver. Qed.

(** The part of a guarded call between entering and leaving the guard: the call
    [e -> e'] ran a storage routine from [e1] to [e2]. *)
Record guarded_run e e1 e2 e' : Prop := mkGuardedRun {
  gr_before : guarded e = false;
  gr_after : guarded e' = false;
  gr_enter : kframe guard_key e e1;
  gr_exit : kframe guard_key e2 e' }.
End calls.

Ltac emit_inv H :=
  progress unfold emit_deposit, emit_withdraw, emit_distribute, emit_claim_rewards, emit_lock,
    emit_unlock, emit_initialize, emit_admin_transfer_proposed, emit_admin_transfer_accepted,
    emit_upgrade, emit_asset_added, emit_asset_deposit, emit_asset_withdraw,
    emit_asset_distribute, emit_asset_claim_rewards in H.

Ltac call_inv :=
  repeat (asset_inv; match goal with
  | H : with_non_reentrant _ _ = Done (Ok _) _ |- _ =>
      let e1 := fresh "e1" in let e2 := fresh "e2" in
      let K := fresh "Kin" in let Tk := fresh "Tk" in let Ev := fresh "Ev" in
      apply with_non_reentrant_Ok in H;
      destruct H as (? & e1 & e2 & K & Tk & Ev & ? & H & ? & ? & ? & ?);
      pose proof (state_of_kframe _ _ K); pose proof (kf_this _ _ _ K)
  | H : publish _ _ = Done (Ok _) _ |- _ => apply publish_Ok in H; destruct H as [? ->]
  | H : current_contract _ = Done (Ok _) _ |- _ => injection H as ? ?; subst
  | H : token_client_balance _ _ _ = Done (Ok _) _ |- _ => injection H as ? ?; subst
  | H : validate_positive_amount _ = Ok _ |- _ => apply validate_positive_amount_Ok in H
  | H : _ = Done (Ok _) _ |- _ => emit_inv H
  | H : get_reward_token _ = Done (Ok _) _ |- _ => unfold get_reward_token in H
  | H : get_admin _ = Done (Ok _) _ |- _ => unfold get_admin in H
  | H : (if ?b then Err _ else Ok _) = Ok _ |- _ => destruct b eqn:?; [discriminate H|]
  | H : (if ?b then Ok _ else Err _) = Ok _ |- _ => destruct b eqn:?; [|discriminate H]
  end); asset_inv;
  cbn [with_lifetimes with_tokens with_events with_instance with_persistent tokens events authorized
       timestamp current_contract_address state_of] in *.

(** [kframe] only looks at storage, clock and identity. *)
Ltac kframe_conv :=
  match goal with
  | K : kframe ?k _ ?e |- kframe ?k _ ?e => destruct K; by split
  | K : kframe ?k ?e _ |- kframe ?k ?e _ => destruct K; by split
  | K : kframe ?k _ _ |- kframe ?k _ _ => destruct K; by split
  end.

Ltac finish_call :=
  split; [eassumption|]; split; [split; [done|done|kframe_conv|kframe_conv]|];
  cbn [tokens events timestamp current_contract_address with_tokens with_lifetimes with_events];
  repeat match goal with
  | Hs : state_of ?e1 = state_of ?e, Ho : state_of ?e1 = Ok _ |- _ => rewrite Hs in Ho
  | Hs : state_of (with_lifetimes _ ?e) = _ |- _ => change (state_of e = Ok _) in Hs
  end;
  repeat split; try eassumption; try done; try congruence.

Section entry.
Context `{HL : HostLaws}.
Implicit Types (e : Env) (u a : Address).

Lemma deposit_Ok u amt e x e' :
  deposit u amt e = Done (Ok x) e' ->
  paused e = false /\ 0 < amt /\ authorized e u = true /\
  exists st e1 e2 r,
    store_deposit u amt e1 = Done (Ok r) e2 /\ guarded_run e e1 e2 e' /\ state_of e = Ok st /\
    token_transfer (deposit_token st) u (current_contract_address e) amt (tokens e) =
      Some (tokens e1) /\ tokens e' = tokens e2 /\
    events e1 = events e /\ events e' = events e2 ++
      [mkEvent [PROTOCOL; ACT_DEPOSIT] (EvDeposit (mkDepositEvent u amt (timestamp e2)))].
Proof.
  intros Hr. unfold deposit in Hr. call_inv. subst. split; [done|]. split; [done|]. split; [done|].
  eexists _, _, _, _. finish_call.
Qed.

Lemma withdraw_Ok u amt e x e' :
  withdraw u amt e = Done (Ok x) e' ->
  paused e = false /\ 0 < amt /\ authorized e u = true /\
  exists st e1 e2 r,
    store_withdraw u amt e1 = Done (Ok r) e2 /\ guarded_run e e1 e2 e' /\ state_of e = Ok st /\
    token_transfer (deposit_token st) (current_contract_address e2) u amt (tokens e2) =
      Some (tokens e') /\ tokens e1 = tokens e /\
    events e1 = events e /\ events e' = events e2 ++
      [mkEvent [PROTOCOL; ACT_WITHDRAW]
        (EvWithdraw (mkWithdrawEvent u amt (balance (snd r)) (timestamp e2)))].
Proof.
  intros Hr. unfold withdraw in Hr. call_inv. subst. split; [done|]. split; [done|]. split; [done|].
  eexists _, _, _, _. finish_call.
Qed.

Lemma distribute_rewards_Ok amt e x e' :
  distribute_rewards amt e = Done (Ok x) e' ->
  MIN_REWARD_DISTRIBUTION <= amt /\
  exists st e1 e2 r,
    store_reward_distribution amt e1 = Done (Ok r) e2 /\ guarded_run e e1 e2 e' /\
    state_of e = Ok st /\ authorized e (admin st) = true /\
    token_transfer (reward_token st) (admin st) (current_contract_address e) amt (tokens e) =
      Some (tokens e1) /\ tokens e' = tokens e2 /\ x = reward_index r.
Proof.
  intros Hr. unfold distribute_rewards in Hr. call_inv.
  match goal with Hc : (if ?b then _ else _) _ = Done _ _ |- _ => destruct b eqn:? end; call_inv.
  subst. bool_to_prop. split; [done|]. eexists _, _, _, _. finish_call.
Qed.

Lemma lock_Ok u amt duration e x e' :
  lock u amt duration e = Done (Ok x) e' ->
  paused e = false /\ inited e = true /\ 0 < amt /\ duration <> 0 /\ authorized e u = true /\
  exists e1 e2 r,
    store_lock u amt duration e1 = Done (Ok r) e2 /\ guarded_run e e1 e2 e' /\
    tokens e1 = tokens e /\ tokens e' = tokens e2.
Proof.
  intros Hr. unfold lock in Hr. call_inv.
  match goal with Hc : (if ?b then _ else _) _ = Done _ _ |- _ => destruct b eqn:? end; call_inv.
  subst. bool_to_prop. do 5 (split; [done|]). eexists _, _, _. finish_call.
Qed.

Lemma unlock_expired_Ok u limit e x e' :
  unlock_expired u limit e = Done (Ok x) e' ->
  paused e = false /\ inited e = true /\ limit <= MAX_UNLOCK_LIMIT /\ authorized e u = true /\
  exists e1 e2,
    unlock_expired_locks u limit e1 = Done (Ok x) e2 /\ guarded_run e e1 e2 e' /\
    tokens e1 = tokens e /\ tokens e' = tokens e2.
Proof.
  intros Hr. unfold unlock_expired in Hr. call_inv.
  match goal with Hc : (if ?b then _ else _) _ = Done _ _ |- _ => destruct b eqn:? end; call_inv.
  match goal with Hc : (if ?b then _ else _) _ = Done _ _ |- _ => destruct b eqn:? end; call_inv;
    subst; bool_to_prop; do 4 (split; [done|]); eexists _, _; finish_call.
Qed.

Lemma claim_rewards_Ok u e x e' :
  claim_rewards u e = Done (Ok x) e' ->
  paused e = false /\ authorized e u = true /\
  exists e1 e2 r,
    store_claimable_rewards u e1 = Done (Ok r) e2 /\ guarded_run e e1 e2 e' /\
    tokens e1 = tokens e /\
    (r <= 0 /\ x = 0 /\ tokens e' = tokens e2 \/
     0 < r /\ x = r /\ exists st, state_of e2 = Ok st /\
       token_transfer (reward_token st) (current_contract_address e2) u r (tokens e2) =
         Some (tokens e')).
Proof.
  intros Hr. unfold claim_rewards in Hr. call_inv.
  match goal with Hc : (if ?b then _ else _) _ = Done _ _ |- _ => destruct b eqn:? end; call_inv;
    subst; bool_to_prop; do 2 (split; [done|]).
  - eexists _, _, _. split; [eassumption|]. split; [split; [done|done|kframe_conv|kframe_conv]|].
    split; [done|]. by left.
  - eexists _, _, _. split; [eassumption|]. split; [split; [done|done|kframe_conv|kframe_conv]|].
    split; [done|]. right. split; [done|]. split; [done|]. eexists. split; [eassumption|]. congruence.
Qed.

Lemma deposit_asset_Ok u a amt e x e' :
  deposit_asset u a amt e = Done (Ok x) e' ->
  paused e = false /\ inited e = true /\ 0 < amt /\ authorized e u = true /\
  exists e1 e2 r,
    store_asset_deposit u a amt e1 = Done (Ok r) e2 /\ guarded_run e e1 e2 e' /\
    token_transfer a u (current_contract_address e) amt (tokens e) = Some (tokens e1) /\
    tokens e' = tokens e2.
Proof.
  intros Hr. unfold deposit_asset in Hr. call_inv. subst. do 4 (split; [done|]).
  eexists _, _, _. finish_call.
Qed.

Lemma withdraw_asset_Ok u a amt e x e' :
  withdraw_asset u a amt e = Done (Ok x) e' ->
  paused e = false /\ inited e = true /\ 0 < amt /\ authorized e u = true /\
  exists e1 e2 r,
    store_asset_withdraw u a amt e1 = Done (Ok r) e2 /\ guarded_run e e1 e2 e' /\
    token_transfer a (current_contract_address e2) u amt (tokens e2) = Some (tokens e') /\
    tokens e1 = tokens e.
Proof.
  intros Hr. unfold withdraw_asset in Hr. call_inv. subst. do 4 (split; [done|]).
  eexists _, _, _. finish_call.
Qed.

Lemma distribute_rewards_for_asset_Ok adm a amt e x e' :
  distribute_rewards_for_asset adm a amt e = Done (Ok x) e' ->
  MIN_REWARD_DISTRIBUTION <= amt /\ authorized e adm = true /\
  exists st e1 e2,
    store_asset_reward_distribution a amt e1 = Done (Ok x) e2 /\ guarded_run e e1 e2 e' /\
    state_of e = Ok st /\ adm = admin st /\
    token_transfer (reward_token st) adm (current_contract_address e) amt (tokens e) =
      Some (tokens e1) /\ tokens e' = tokens e2.
Proof.
  intros Hr. unfold distribute_rewards_for_asset in Hr. call_inv.
  match goal with Hc : (if ?b then _ else _) _ = Done _ _ |- _ => destruct b eqn:? end; call_inv.
  match goal with Hc : (if ?b then _ else _) _ = Done _ _ |- _ => destruct b eqn:? end; call_inv.
  subst. bool_to_prop. split; [done|]. split; [done|]. eexists _, _, _. finish_call.
Qed.

Lemma claim_rewards_for_asset_Ok u a e x e' :
  claim_rewards_for_asset u a e = Done (Ok x) e' ->
  paused e = false /\ authorized e u = true /\
  exists e1 e2 r,
    store_asset_claimable_rewards u a e1 = Done (Ok r) e2 /\ guarded_run e e1 e2 e' /\
    tokens e1 = tokens e /\
    (r <= 0 /\ x = 0 /\ tokens e' = tokens e2 \/
     0 < r /\ x = r /\ exists st, state_of e2 = Ok st /\
       token_transfer (reward_token st) (current_contract_address e2) u r (tokens e2) =
         Some (tokens e')).
Proof.
  intros Hr. unfold claim_rewards_for_asset in Hr. call_inv.
  match goal with Hc : (if ?b then _ else _) _ = Done _ _ |- _ => destruct b eqn:? end; call_inv;
    subst; bool_to_prop; do 2 (split; [done|]).
  - eexists _, _, _. split; [eassumption|]. split; [split; [done|done|kframe_conv|kframe_conv]|].
    split; [done|]. by left.
  - eexists _, _, _. split; [eassumption|]. split; [split; [done|done|kframe_conv|kframe_conv]|].
    split; [done|]. right. split; [done|]. split; [done|]. eexists. split; [eassumption|]. congruence.
Qed.
End entry.
