(* ===== verification/VaultAdmin.v ===== *)
(** The configuration calls of the vault: initialization, the two-step admin
    transfer, pausing, upgrading and adding assets.  Each lemma gives the guards
    a committed call passed and the instance storage it left. *)
From stdpp Require Import base gmap list strings sets.
From S2P Require Import Prelude VaultErrors VaultTypes Host VaultMath VaultEvents VaultStorage VaultAssets VaultContract RewardPool VaultFacts VaultRefine VaultAssetRefine VaultCalls.

Section admin.
Context `{HL : HostLaws}.
Implicit Types (e : Env) (u a : Address).

(** The call left the instance storage [s] and no other storage or token change. *)
Record config_call e (s : Store) e' : Prop := mkConfigCall {
  cc_inst : instance e' = s;
  cc_pers : persistent e' = persistent e;
  cc_tokens : tokens e' = tokens e;
  cc_time : timestamp e' = timestamp e;
  cc_this : current_contract_address e' = current_contract_address e }.

(** The instance storage [initialize] writes. *)
Definition initial_store (adm d r : Address) (v t : Z) (m : list MultiplierPoint) (s : Store) : Store :=
  sset IsPaused false (sset ReentrancyGuard false (sset UtilizationMultipliers m
    (sset TargetDeposits t (sset RewardIndex 0 (sset TotalDeposits 0 (sset VestingPeriod v
      (sset RewardToken r (sset DepositToken d (sremove PendingAdmin (sset Admin adm
        (sset Initialized true s))))))))))).

Definition init_key (k : DataKey) : bool :=
  match k with
  | IsPaused | ReentrancyGuard | UtilizationMultipliers | TargetDeposits | RewardIndex
  | TotalDeposits | VestingPeriod | RewardToken | DepositToken | PendingAdmin | Admin
  | Initialized => true
  | _ => false
  end.

Lemma initial_store_frame adm d r v t m s k :
  init_key k = false -> sget k (initial_store adm d r v t m s) = sget k s.
Proof.
  intros Hk. unfold initial_store.
  repeat first [ rewrite sget_sset_ne by (intros <-; discriminate)
               | rewrite sget_sremove_ne by (intros <-; discriminate) ]. done.
Qed.

Lemma initialize_state_run adm d r v t m e : exists l,
  initialize_state adm d r v t m e =
  Done (Ok tt) (with_lifetimes l (with_instance (initial_store adm d r v t m (instance e)) e)).
Proof.
  unfold initialize_state. do 12 erewrite bindM_step by reflexivity.
  unfold bump_instance_ttl, instance_extend_ttl. by eexists.
Qed.

Lemma initialize_Ok adm d r v t m e x e' :
  initialize adm d r v t m e = Done (Ok x) e' ->
  paused e = false /\ inited e = false /\ d <> r /\
  validate_utilization_multipliers m = Ok tt /\ authorized e adm = true /\
  config_call e (initial_store adm d r v t m (instance e)) e' /\ wasm e' = wasm e.
Proof.
  intros Hr. unfold initialize in Hr. call_inv.
  match goal with Hc : (if ?b then _ else _) _ = Done _ _ |- _ => destruct b eqn:? end; call_inv.
  unfold validate_distinct_token_addresses in *. call_inv. bool_to_prop.
  match goal with Hi : initialize_state _ _ _ _ _ _ ?e0 = _ |- _ =>
    apply_run Hi (initialize_state_run adm d r v t m e0) end.
  repeat match goal with y : unit |- _ => destruct y end. by repeat split.
Qed.

Lemma propose_new_admin_Ok new e x e' :
  propose_new_admin new e = Done (Ok x) e' ->
  exists st, state_of e = Ok st /\ authorized e (admin st) = true /\
    config_call e (sset PendingAdmin new (instance e)) e' /\ wasm e' = wasm e.
Proof.
  intros Hr. unfold propose_new_admin in Hr. call_inv.
  match goal with Hi : set_pending_admin _ _ = _ |- _ => injection Hi as ? ? end. subst.
  eexists. split; [eassumption|]. by repeat split.
Qed.

Lemma accept_admin_Ok new e x e' :
  accept_admin new e = Done (Ok x) e' ->
  exists st, state_of e = Ok st /\ authorized e new = true /\ pending_of e = Some new /\
    config_call e (sremove PendingAdmin (sset Admin new (instance e))) e' /\ wasm e' = wasm e.
Proof.
  intros Hr. unfold accept_admin in Hr. call_inv.
  match goal with Hc : (if ?b then _ else _) _ = Done _ _ |- _ => destruct b eqn:? end; call_inv.
  unfold get_pending_admin in *. call_inv. bool_to_prop. subst.
  repeat match goal with
  | Hi : set_admin _ _ = _ |- _ => injection Hi as ? ?; subst
  | Hi : clear_pending_admin _ = _ |- _ => injection Hi as ? ?; subst
  | Hi : instance_get _ _ = _ |- _ => injection Hi as ? ?; subst
  | Hi : bump_instance_ttl _ = _ |- _ => injection Hi as ? ?; subst
  end.
  eexists. split; [eassumption|]. by repeat split.
Qed.

Lemma pause_contract_Ok e x e' :
  pause_contract e = Done (Ok x) e' ->
  exists st, state_of e = Ok st /\ authorized e (admin st) = true /\
    config_call e (sset IsPaused true (instance e)) e' /\ wasm e' = wasm e.
Proof.
  intros Hr. unfold pause_contract in Hr. call_inv. injection Hr as ? ?. subst.
  eexists. split; [eassumption|]. by repeat split.
Qed.

Lemma unpause_contract_Ok e x e' :
  unpause_contract e = Done (Ok x) e' ->
  exists st, state_of e = Ok st /\ authorized e (admin st) = true /\
    config_call e (sset IsPaused false (instance e)) e' /\ wasm e' = wasm e.
Proof.
  intros Hr. unfold unpause_contract in Hr. call_inv. injection Hr as ? ?. subst.
  eexists. split; [eassumption|]. by repeat split.
Qed.

Lemma upgrade_Ok h e x e' :
  upgrade h e = Done (Ok x) e' ->
  exists st, state_of e = Ok st /\ authorized e (admin st) = true /\
    config_call e (instance e) e' /\ wasm e' = Some h.
Proof.
  intros Hr. unfold upgrade in Hr. call_inv.
  match goal with Hi : update_current_contract_wasm _ _ = _ |- _ => injection Hi as ? ? end. subst.
  eexists. split; [eassumption|]. by repeat split.
Qed.

(** Adding a known asset changes nothing; a new one starts with an empty pool. *)
Lemma add_asset_Ok adm a e x e' :
  add_asset adm a e = Done (Ok x) e' ->
  exists st, state_of e = Ok st /\ adm = admin st /\ authorized e adm = true /\
    config_call e
      (if supported e a then instance e
       else sset (AssetRewardIndex a) 0 (sset (AssetTotalDeposits a) 0
              (sset SupportedAssets (<[a := true]> (assets_of e)) (instance e)))) e' /\
    wasm e' = wasm e.
Proof.
  intros Hr. unfold add_asset in Hr. call_inv.
  match goal with Hc : (if ?b then _ else _) _ = Done _ _ |- _ => destruct b eqn:? end; call_inv.
  bool_to_prop. subst. eexists. split; [eassumption|]. split; [done|]. split; [done|].
  match goal with Ha : add_supported_asset _ ?s = _ |- _ =>
    unfold add_supported_asset in Ha; erewrite bindM_step in Ha by reflexivity;
    fold (assets_of s) in Ha; change (assets_of s) with (assets_of e) in Ha end.
  unfold supported. destruct (assets_of e !! a) eqn:Es.
  - call_inv. by repeat split.
  - rewrite bool_decide_eq_false_2 by (by apply eq_None_not_Some).
    match goal with Ha : _ = Done (Ok _) _ |- _ => injection Ha as ? ? end. subst. by repeat split.
Qed.
End admin.
