(* ===== verification/VaultSystem.v ===== *)
(** The contract as a transition system: the calls a transaction can make, the
    passing of ledger time and token movements outside the contract.  The file
    lifts the simulations of the storage routines to whole calls, one lemma per
    entry point. *)
From stdpp Require Import base gmap list strings sets relations.
From S2P Require Import Prelude VaultErrors VaultTypes Host VaultMath VaultEvents VaultStorage VaultAssets VaultContract RewardPool VaultFacts VaultRefine VaultAssetRefine VaultCalls.

(** The state-changing entry points of lib.rs with their arguments. *)
Inductive call : Type :=
| CInitialize (admin deposit_token reward_token : Address) (vesting_period target_deposits : Z)
    (utilization_multipliers : list MultiplierPoint)
| CProposeNewAdmin (new_admin : Address)
| CAcceptAdmin (new_admin : Address)
| CDeposit (from : Address) (amount : Z)
| CWithdraw (to : Address) (amount : Z)
| CDistributeRewards (amount : Z)
| CLock (from : Address) (amount duration_seconds : Z)
| CUnlockExpired (user : Address) (limit : Z)
| CClaimRewards (user : Address)
| CPause
| CUnpause
| CUpgrade (new_wasm_hash : BytesN32)
| CAddAsset (admin asset : Address)
| CDepositAsset (from asset : Address) (amount : Z)
| CWithdrawAsset (to asset : Address) (amount : Z)
| CDistributeRewardsForAsset (admin asset : Address) (amount : Z)
| CClaimRewardsForAsset (user asset : Address).

Section system.
Context `{Host}.

Definition run_call (c : call) : M unit :=
  match c with
  | CInitialize a d r v t m => initialize a d r v t m
  | CProposeNewAdmin a => propose_new_admin a
  | CAcceptAdmin a => accept_admin a
  | CDeposit u x => deposit u x
  | CWithdraw u x => withdraw u x
  | CDistributeRewards x => let! _ := distribute_rewards x in retM tt
  | CLock u x d => lock u x d
  | CUnlockExpired u l => let! _ := unlock_expired u l in retM tt
  | CClaimRewards u => let! _ := claim_rewards u in retM tt
  | CPause => pause_contract
  | CUnpause => unpause_contract
  | CUpgrade h => upgrade h
  | CAddAsset a x => add_asset a x
  | CDepositAsset u a x => deposit_asset u a x
  | CWithdrawAsset u a x => withdraw_asset u a x
  | CDistributeRewardsForAsset s a x => let! _ := distribute_rewards_for_asset s a x in retM tt
  | CClaimRewardsForAsset u a => let! _ := claim_rewards_for_asset u a in retM tt
  end.

(** Arguments are machine integers; what matters below: [vesting_period] is a
    [u64] and [multiplier_bps] a [u32]. *)
Definition call_in_range (c : call) : Prop :=
  match c with
  | CInitialize _ _ _ v _ m =>
      0 <= v <= u64_max /\ Forall (fun p => 0 <= multiplier_bps p <= u32_max) m
  | _ => True
  end.

(** One step of the ledger seen from the contract: a transaction brings its
    signatures, a call runs, time passes, tokens move outside the contract. *)
Inductive vstep (e : Env) : Env -> Prop :=
| vstep_sign auth : vstep e (with_authorized auth e)
| vstep_call c :
    (* the contract never signs an invocation of itself, and its own code is installed *)
    authorized e (current_contract_address e) = false -> wasm e = None -> call_in_range c ->
    vstep e (invoke (run_call c) e)
| vstep_time t : timestamp e <= t <= u64_max -> vstep e (with_timestamp t e)
| vstep_tokens ts :
    (forall t, token_balance t (current_contract_address e) (tokens e) <=
               token_balance t (current_contract_address e) ts) ->
    vstep e (with_tokens ts e).

(** A contract that has just been deployed. *)
Definition fresh (e : Env) : Prop :=
  (forall k, sget k (instance e) = None) /\ (forall k, sget k (persistent e) = None) /\
  0 <= timestamp e <= u64_max.

Definition reachable (e : Env) : Prop := exists e0, fresh e0 /\ rtc vstep e0 e.
End system.

Section lifting.
Context `{HL : HostLaws}.
Implicit Types (e : Env) (u a : Address) (K : DataKey -> bool).

(** *** Pools depend only on their own keys *)

Lemma legacy_pool_kframe K e e' :
  (forall k, legacy_key k = true -> K k = false) -> kframe K e e' ->
  pool_eq (legacy_pool e) (legacy_pool e').
Proof.
  intros HK [Hi Hp _ _]. split; cbn; unfold total, gindex; rewrite ?Hi by auto; auto.
  intros v. unfold user_balance, liquid, locks_of, uindex, uaccrued. by rewrite !Hp by auto.
Qed.

Lemma legacy_wf_kframe K e e' :
  (forall k, legacy_key k = true -> K k = false) -> kframe K e e' -> legacy_wf e -> legacy_wf e'.
Proof.
  intros HK [_ Hp _ _] Hwf u. specialize (Hwf u). unfold liquid, uaccrued, locks_of in *.
  by rewrite !Hp by auto.
Qed.

Lemma legacy_inv_kframe K F e e' :
  (forall k, legacy_key k = true -> K k = false) -> kframe K e e' ->
  legacy_inv F e -> legacy_inv F e'.
Proof.
  intros HK Hk [Hok Hwf]. split; [|by eapply legacy_wf_kframe].
  eapply pool_ok_eq; [|done]. by eapply legacy_pool_kframe.
Qed.

Lemma asset_pool_kframe K e e' a :
  (forall k, asset_key a k = true -> K k = false) -> kframe K e e' ->
  pool_eq (asset_pool e a) (asset_pool e' a).
Proof.
  intros HK [Hi Hp _ _].
  assert (forall k, asset_key a k = true -> K k = false) as HK' by auto.
  split; cbn; unfold atotal, aindex; rewrite ?Hi by (apply HK; cbn; by case_bool_decide); auto.
  intros v. unfold abal, auindex, aaccrued. by rewrite !Hp by (apply HK; cbn; by case_bool_decide).
Qed.

Lemma asset_inv_kframe K F e e' a :
  (forall k, asset_key a k = true -> K k = false) -> kframe K e e' ->
  asset_inv F e a -> asset_inv F e' a.
Proof.
  intros HK Hk [Hok Hwf]. split.
  - eapply pool_ok_eq; [|done]. by eapply asset_pool_kframe.
  - intros u. specialize (Hwf u). unfold aaccrued in *. destruct Hk as [_ Hp _ _].
    by rewrite Hp by (apply HK; cbn; by case_bool_decide).
Qed.

Lemma guard_not_legacy k : legacy_key k = true -> guard_key k = false.
Proof. by destruct k. Qed.
Lemma guard_not_asset a k : asset_key a k = true -> guard_key k = false.
Proof. by destruct k. Qed.

(** *** A guarded run is a step of the pool *)

Lemma guarded_frame K e e1 e2 e' :
  guarded_run e e1 e2 e' -> frame K e1 e2 -> kframe (or_guard K) e e'.
Proof.
  intros [_ _ Hin Hout] Hf. eapply kframe_trans; [by apply kframe_or_guard_r|].
  eapply kframe_trans; [by apply kframe_or_guard_l, frame_kframe|by apply kframe_or_guard_r].
Qed.

Lemma guarded_legacy_step e e1 e2 e' lb :
  guarded_run e e1 e2 e' -> pool_step (legacy_pool e1) lb (legacy_pool e2) ->
  pool_step (legacy_pool e) lb (legacy_pool e').
Proof.
  intros [_ _ Hin Hout]. apply pool_step_eq.
  - symmetry. exact (legacy_pool_kframe _ _ _ guard_not_legacy Hin).
  - exact (legacy_pool_kframe _ _ _ guard_not_legacy Hout).
Qed.

Lemma guarded_asset_step e e1 e2 e' a lb :
  guarded_run e e1 e2 e' -> pool_step (asset_pool e1 a) lb (asset_pool e2 a) ->
  pool_step (asset_pool e a) lb (asset_pool e' a).
Proof.
  intros [_ _ Hin Hout]. apply pool_step_eq.
  - symmetry. exact (asset_pool_kframe _ _ _ _ (guard_not_asset a) Hin).
  - exact (asset_pool_kframe _ _ _ _ (guard_not_asset a) Hout).
Qed.

(** A committed call that runs a storage routine on the legacy pool. *)
Record legacy_call e (lb : label) e' : Prop := mkLegacyCall {
  lc_inited : inited e = true;
  lc_before : guarded e = false;
  lc_after : guarded e' = false;
  lc_step : pool_step (legacy_pool e) lb (legacy_pool e');
  lc_wf : legacy_wf e';
  lc_frame : kframe (or_guard legacy_key) e e' }.

(** The same for the pool of asset [a], which the call found supported. *)
Record asset_call e a (lb : label) e' : Prop := mkAssetCall {
  ac_inited : inited e = true;
  ac_before : guarded e = false;
  ac_after : guarded e' = false;
  ac_supported : supported e a = true;
  ac_step : pool_step (asset_pool e a) lb (asset_pool e' a);
  ac_wf : asset_wf e' a;
  ac_frame : kframe (or_guard (asset_key a)) e e' }.

Lemma state_of_inited e st : state_of e = Ok st -> inited e = true.
Proof. by intros [? _]%state_of_Ok. Qed.

Lemma legacy_call_intro e e1 e2 e' lb :
  inited e = true -> guarded_run e e1 e2 e' -> pool_step (legacy_pool e1) lb (legacy_pool e2) -> legacy_wf e2 ->
  frame legacy_key e1 e2 -> legacy_call e lb e'.
Proof.
  intros Hi Hg Hs Hwf Hf. pose proof Hg as [? ? _ Hout]. split; [done|done|done|..].
  - by eapply guarded_legacy_step.
  - by eapply (legacy_wf_kframe guard_key); [apply guard_not_legacy|..].
  - by eapply guarded_frame.
Qed.

Lemma supported_kframe K e e' a : K SupportedAssets = false -> kframe K e e' ->
  supported e' a = supported e a.
Proof. intros HK [Hi _ _ _]. unfold supported, assets_of. by rewrite Hi. Qed.

Lemma asset_call_intro e e1 e2 e' a lb :
  inited e = true -> guarded_run e e1 e2 e' -> pool_step (asset_pool e1 a) lb (asset_pool e2 a) -> asset_wf e2 a ->
  frame (asset_key a) e1 e2 -> supported e1 a = true -> asset_call e a lb e'.
Proof.
  intros Hi Hg Hs Hwf Hf Hsup. pose proof Hg as [? ? Hin Hout]. split; [done|done|done|..].
  - by rewrite <- (supported_kframe guard_key e e1 a).
  - by eapply guarded_asset_step.
  - intros u. specialize (Hwf u). unfold aaccrued in *. by rewrite (kf_pers _ _ _ Hout) by done.
  - by eapply guarded_frame.
Qed.

Lemma guarded_legacy_inv F e e1 e2 e' :
  guarded_run e e1 e2 e' -> legacy_inv F e -> legacy_inv F e1.
Proof. intros [_ _ Hin _]. apply (legacy_inv_kframe guard_key); [apply guard_not_legacy|done]. Qed.

Lemma guarded_asset_inv F e e1 e2 e' a :
  guarded_run e e1 e2 e' -> asset_inv F e a -> asset_inv F e1 a.
Proof. intros [_ _ Hin _]. apply (asset_inv_kframe guard_key); [apply guard_not_asset|done]. Qed.

Lemma guarded_vesting e e1 e2 e' : guarded_run e e1 e2 e' -> vesting e1 = vesting e.
Proof. intros [_ _ Hin _]. unfold vesting. by rewrite (kf_inst _ _ _ Hin). Qed.

Lemma signer_not_this e u :
  authorized e (current_contract_address e) = false -> authorized e u = true ->
  u <> current_contract_address e.
Proof. intros ? ? ->. congruence. Qed.
End lifting.

Section calls.
Context `{HL : HostLaws}.
Implicit Types (e : Env) (u a : Address).
Variable e : Env.
Hypothesis not_self : authorized e (current_contract_address e) = false.

Lemma deposit_sim F u amt x e' :
  legacy_inv F e -> deposit u amt e = Done (Ok x) e' ->
  0 < amt /\ legacy_call e (LDeposit u amt) e' /\
  exists st, state_of e = Ok st /\ vault_delta e e' (deposit_token st) amt.
Proof using HL not_self.
  intros Hinv Hr.
  apply deposit_Ok in Hr as (_ & Ha & Hau & st & e1 & e2 & r & Hs & Hg & Hst & Ht & Htk & _).
  apply (store_deposit_sim F) in Hs as (Hstep & Hwf & Hf & _);
    [|by eapply guarded_legacy_inv|done].
  split; [done|]. split; [by eapply legacy_call_intro; eauto using state_of_inited|]. exists st. split; [done|].
  eapply transfer_in; [by apply signer_not_this|]. by rewrite Htk, (fr_tokens _ _ _ Hf).
Qed.

Lemma withdraw_sim F u amt x e' :
  legacy_inv F e -> withdraw u amt e = Done (Ok x) e' ->
  0 < amt /\ legacy_call e (LWithdraw u amt) e' /\
  exists st, state_of e = Ok st /\ vault_delta e e' (deposit_token st) (- amt).
Proof using HL not_self.
  intros Hinv Hr.
  apply withdraw_Ok in Hr as (_ & Ha & Hau & st & e1 & e2 & r & Hs & Hg & Hst & Ht & Htk & _).
  apply (store_withdraw_sim F) in Hs as (Hstep & Hwf & Hf & _);
    [|by eapply guarded_legacy_inv|done].
  split; [done|]. split; [by eapply legacy_call_intro; eauto using state_of_inited|]. exists st. split; [done|].
  pose proof (kf_this _ _ _ (gr_enter _ _ _ _ Hg)) as Hth.
  eapply transfer_out; [by apply signer_not_this|].
  by rewrite <- Htk, <- (fr_tokens _ _ _ Hf), <- Hth, <- (fr_this _ _ _ Hf).
Qed.

Lemma distribute_rewards_sim F amt x e' :
  legacy_inv F e -> distribute_rewards amt e = Done (Ok x) e' ->
  0 < amt <= i128_max /\ exists multiplier effective,
    calculate_utilization_multiplier (total e) (target e) (points e) = Ok multiplier /\
    effective_reward_amount amt multiplier = Ok effective /\
    legacy_call e (LDistribute effective) e' /\ x = gindex e' /\
    exists st, state_of e = Ok st /\ authorized e (admin st) = true /\
      vault_delta e e' (reward_token st) amt.
Proof using HL not_self.
  intros Hinv Hr.
  apply distribute_rewards_Ok in Hr as (Ha & st & e1 & e2 & r & Hs & Hg & Hst & Hau & Ht & Htk & ->).
  apply store_reward_distribution_sim in Hs as (m & eff & Hm & Heff & Hstep & Hwf & Hf & Hidx).
  pose proof (gr_enter _ _ _ _ Hg) as Hin. pose proof (gr_exit _ _ _ _ Hg) as Hout.
  pose proof (transfer_covered _ _ _ _ _ _ Ht).
  pose proof (token_balance_range (reward_token st) (admin st) (tokens e)).
  split; [unfold MIN_REWARD_DISTRIBUTION in Ha; lia|]. exists m, eff.
  unfold total, target, points in *. rewrite !(kf_inst _ _ _ Hin) in Hm by done.
  split; [done|]. split; [done|]. split.
  { eapply legacy_call_intro; eauto using state_of_inited. apply Hwf. by eapply guarded_legacy_inv. }
  split; [unfold gindex in *; by rewrite (kf_inst _ _ _ Hout)|].
  exists st. split; [done|]. split; [done|].
  eapply transfer_in; [by apply signer_not_this|]. by rewrite Htk, (fr_tokens _ _ _ Hf).
Qed.

Lemma lock_sim F u amt duration x e' :
  legacy_inv F e -> lock u amt duration e = Done (Ok x) e' ->
  legacy_call e (LSync u) e' /\ tokens e' = tokens e.
Proof using HL.
  intros Hinv Hr. apply lock_Ok in Hr as (_ & Hi & Ha & _ & Hau & e1 & e2 & r & Hs & Hg & Ht1 & Ht2).
  apply (store_lock_sim F) in Hs as (Hstep & Hwf & Hf & _); [|by eapply guarded_legacy_inv|done].
  split; [by eapply legacy_call_intro; eauto using state_of_inited|]. by rewrite Ht2, (fr_tokens _ _ _ Hf).
Qed.

Lemma unlock_expired_sim F u limit x e' :
  legacy_inv F e -> unlock_expired u limit e = Done (Ok x) e' ->
  legacy_call e LIdle e' /\ tokens e' = tokens e.
Proof using HL.
  intros Hinv Hr.
  apply unlock_expired_Ok in Hr as (_ & Hi & _ & Hau & e1 & e2 & Hs & Hg & Ht1 & Ht2).
  pose proof (guarded_legacy_inv _ _ _ _ _ Hg Hinv) as [_ Hwf].
  apply unlock_sim in Hs as [released Hun]; [|done]. pose proof (un_frame _ _ _ _ _ _ Hun) as Hf.
  split; [|by rewrite Ht2, (fr_tokens _ _ _ Hf)].
  eapply legacy_call_intro; try done; [|by eapply un_wf].
  apply step_idle. by eapply unlocked_idle.
Qed.

(** The payment at the end of a claim. *)
Lemma payout_delta K e1 e2 e' st u r x :
  guarded_run e e1 e2 e' -> frame K e1 e2 -> K RewardToken = false -> state_of e = Ok st ->
  0 <= r -> authorized e u = true -> tokens e1 = tokens e ->
  (r <= 0 /\ x = 0 /\ tokens e' = tokens e2 \/
   0 < r /\ x = r /\ exists st', state_of e2 = Ok st' /\
     token_transfer (reward_token st') (current_contract_address e2) u r (tokens e2) =
       Some (tokens e')) ->
  x = r /\ vault_delta e e' (reward_token st) (- r).
Proof using HL not_self.
  intros Hg Hf HK Hst Hr0 Hau Ht1 Hcase. pose proof (gr_enter _ _ _ _ Hg) as Hin.
  destruct Hcase as [(? & ? & Htk)|(_ & -> & st' & Hst' & Htk)].
  - assert (r = 0) as -> by lia. split; [done|].
    by split; rewrite Htk, (fr_tokens _ _ _ Hf), Ht1; [lia|].
  - split; [done|].
    apply state_of_Ok in Hst as (_ & _ & _ & Hrt & _), Hst' as (_ & _ & _ & Hrt' & _).
    rewrite (fr_inst _ _ _ Hf), (kf_inst _ _ _ Hin) in Hrt' by done.
    assert (reward_token st' = reward_token st) as Heq by congruence. rewrite Heq in Htk.
    eapply transfer_out; [by apply signer_not_this|].
    by rewrite <- Ht1, <- (fr_tokens _ _ _ Hf), <- (kf_this _ _ _ Hin), <- (fr_this _ _ _ Hf).
Qed.

Lemma claim_rewards_sim F u x e' :
  legacy_inv F e -> 0 <= vesting e -> claim_rewards u e = Done (Ok x) e' ->
  legacy_call e (LClaim u x) e' /\
  exists st, state_of e = Ok st /\ vault_delta e e' (reward_token st) (- x).
Proof using HL not_self.
  intros Hinv Hv Hr.
  apply claim_rewards_Ok in Hr as (_ & Hau & e1 & e2 & r & Hs & Hg & Ht1 & Hcase).
  pose proof Hs as Hst. apply store_claimable_rewards_Ok in Hst as (_ & st & _ & _ & Hst & _).
  pose proof (gr_enter _ _ _ _ Hg) as Hin.
  rewrite (state_of_kframe _ _ Hin) in Hst.
  apply (store_claimable_rewards_sim F) in Hs as (Hstep & Hwf & Hf & Hr0 & _);
    [|by eapply guarded_legacy_inv|by erewrite guarded_vesting].
  destruct (payout_delta _ _ _ _ _ _ _ _ Hg Hf eq_refl Hst (proj1 Hr0) Hau Ht1 Hcase) as [-> Hd].
  split; [by eapply legacy_call_intro; eauto using state_of_inited|]. by exists st.
Qed.

(** *** The multi-asset calls *)

Lemma deposit_asset_sim F u a amt x e' :
  asset_inv F e a -> deposit_asset u a amt e = Done (Ok x) e' ->
  inited e = true /\ asset_call e a (LDeposit u amt) e' /\ vault_delta e e' a amt.
Proof using HL not_self.
  intros Hinv Hr.
  apply deposit_asset_Ok in Hr as (_ & Hi & Ha & Hau & e1 & e2 & r & Hs & Hg & Ht & Htk).
  apply (store_asset_deposit_sim F) in Hs as (Hstep & Hwf & Hf & Hsup);
    [|by eapply guarded_asset_inv|done].
  split; [done|]. split; [by eapply asset_call_intro; eauto using state_of_inited|].
  eapply transfer_in; [by apply signer_not_this|]. by rewrite Htk, (fr_tokens _ _ _ Hf).
Qed.

Lemma withdraw_asset_sim F u a amt x e' :
  asset_inv F e a -> withdraw_asset u a amt e = Done (Ok x) e' ->
  inited e = true /\ asset_call e a (LWithdraw u amt) e' /\ vault_delta e e' a (- amt).
Proof using HL not_self.
  intros Hinv Hr.
  apply withdraw_asset_Ok in Hr as (_ & Hi & Ha & Hau & e1 & e2 & r & Hs & Hg & Ht & Htk).
  apply (store_asset_withdraw_sim F) in Hs as (Hstep & Hwf & Hf & Hsup & _);
    [|by eapply guarded_asset_inv|done].
  split; [done|]. split; [by eapply asset_call_intro; eauto using state_of_inited|].
  eapply transfer_out; [by apply signer_not_this|].
  by rewrite <- Htk, <- (fr_tokens _ _ _ Hf), <- (kf_this _ _ _ (gr_enter _ _ _ _ Hg)),
    <- (fr_this _ _ _ Hf).
Qed.

Lemma distribute_rewards_for_asset_sim F adm a amt x e' :
  asset_inv F e a -> distribute_rewards_for_asset adm a amt e = Done (Ok x) e' ->
  asset_call e a (LDistribute amt) e' /\
  exists st, state_of e = Ok st /\ adm = admin st /\ vault_delta e e' (reward_token st) amt.
Proof using HL not_self.
  intros Hinv Hr.
  apply distribute_rewards_for_asset_Ok in Hr
    as (Ha & Hau & st & e1 & e2 & Hs & Hg & Hst & Hadm & Ht & Htk).
  apply store_asset_reward_distribution_sim in Hs as (Hstep & Hwf & Hf & Hsup & _).
  pose proof (guarded_asset_inv _ _ _ _ _ _ Hg Hinv) as [_ Hwf1].
  split; [by eapply asset_call_intro; eauto using state_of_inited|]. exists st. split; [done|]. split; [done|].
  eapply transfer_in; [by apply signer_not_this|]. by rewrite Htk, (fr_tokens _ _ _ Hf).
Qed.

Lemma claim_rewards_for_asset_sim F u a x e' :
  asset_inv F e a -> 0 <= vesting e -> claim_rewards_for_asset u a e = Done (Ok x) e' ->
  asset_call e a (LClaim u x) e' /\
  exists st, state_of e = Ok st /\ vault_delta e e' (reward_token st) (- x).
Proof using HL not_self.
  intros Hinv Hv Hr.
  apply claim_rewards_for_asset_Ok in Hr as (_ & Hau & e1 & e2 & r & Hs & Hg & Ht1 & Hcase).
  pose proof Hs as Hst. apply store_asset_claimable_rewards_Ok in Hst as (_ & st & _ & _ & Hst & _).
  pose proof (gr_enter _ _ _ _ Hg) as Hin.
  rewrite (state_of_kframe _ _ Hin) in Hst.
  apply (store_asset_claimable_rewards_sim F) in Hs as (Hstep & Hwf & Hf & Hsup & Hr0);
    [|by eapply guarded_asset_inv|by erewrite guarded_vesting].
  destruct (payout_delta _ _ _ _ _ _ _ _ Hg Hf eq_refl Hst (proj1 Hr0) Hau Ht1 Hcase) as [-> Hd].
  split; [by eapply asset_call_intro; eauto using state_of_inited|]. by exists st.
Qed.
End calls.
