(* ===== verification/VaultInvariant.v ===== *)
(** The global invariant of the vault and its preservation by every step.

    [vault_inv F0 Fa S e] accounts for all reward money: [F0] is credited and
    unpaid in the legacy pool, [Fa a] in the pool of asset [a], and [S] is what
    utilization multipliers above 100% credited beyond the rewards received. *)
From stdpp Require Import base gmap list strings sets relations.
From S2P Require Import Prelude VaultErrors VaultTypes Host VaultMath VaultEvents VaultStorage VaultAssets VaultContract RewardPool VaultFacts VaultRefine VaultAssetRefine VaultCalls VaultAdmin VaultSystem.

Definition label_total (l : label) : Z :=
  match l with LDeposit _ x => x | LWithdraw _ x => - x | _ => 0 end.

Lemma pool_step_total p l q : pool_step p l q -> p_total q = p_total p + label_total l.
Proof.
  intros [u x q' _ _ []|u x q' _ _ []|u q' []|x i q' _ ? _ _|u x q' _ []|q' []];
    cbn [label_total] in *; lia.
Qed.

Definition multipliers_at_most_par (m : list MultiplierPoint) : Prop :=
  Forall (fun p => multiplier_bps p <= 10000) m.

Section invariant.
Context `{Host}.
Implicit Types (e : Env) (u a t : Address).

Definition rewards_owed (F0 : Z) (Fa : Address -> Z) e : Z :=
  F0 + sumZ Fa (elements (dom (assets_of e))).

Definition when (b : bool) (z : Z) : Z := if b then z else 0.
Definition is_deposit_token e t : bool := bool_decide (deposit_token_of e = Some t).
Definition is_reward_token e t : bool := bool_decide (reward_token_of e = Some t).

(** What the vault owes in token [t]: deposits, asset deposits, rewards. *)
Definition owed (F0 : Z) (Fa : Address -> Z) e t : Z :=
  when (is_deposit_token e t) (total e) + atotal e t +
  when (is_reward_token e t) (rewards_owed F0 Fa e).

Definition holds e t : Z := token_balance t (current_contract_address e) (tokens e).

Record vault_inv (F0 : Z) (Fa : Address -> Z) (S : Z) e : Prop := mkVaultInv {
  vi_guard : guarded e = false;
  vi_legacy : legacy_inv F0 e;
  vi_assets : forall a, asset_inv (Fa a) e a;
  vi_unsupported : forall a, supported e a = false ->
    atotal e a = 0 /\ aindex e a = 0 /\ Fa a = 0;
  vi_fresh : inited e = false ->
    total e = 0 /\ gindex e = 0 /\ F0 = 0 /\ S = 0 /\ assets_of e = ∅ /\
    deposit_token_of e = None /\ reward_token_of e = None;
  vi_config : inited e = true ->
    is_Some (admin_of e) /\ exists d r, deposit_token_of e = Some d /\
      reward_token_of e = Some r /\ d <> r;
  vi_vesting : 0 <= vesting e <= u64_max;
  vi_points : Forall (fun p => 0 <= multiplier_bps p <= u32_max) (points e);
  vi_excess : 0 <= S /\ (multipliers_at_most_par (points e) -> S = 0);
  vi_solvent : forall t, owed F0 Fa e t <= holds e t + when (is_reward_token e t) S }.
End invariant.

Section preservation.
Context `{HL : HostLaws}.
Implicit Types (e : Env) (u a t : Address).

Definition config_key (k : DataKey) : bool :=
  match k with Admin | PendingAdmin | IsPaused => true | _ => false end.

(** What the invariant reads besides the pools is outside [K]. *)
Lemma observers_kframe K e e' :
  kframe K e e' -> (forall k, K k = true -> legacy_key k = true \/ guard_key k = true \/
    config_key k = true \/ exists a, asset_key a k = true) ->
  inited e' = inited e /\ assets_of e' = assets_of e /\ deposit_token_of e' = deposit_token_of e /\
  reward_token_of e' = reward_token_of e /\ vesting e' = vesting e /\ points e' = points e.
Proof.
  intros [Hi _ _ _] HK.
  assert (forall k, legacy_key k = false -> guard_key k = false -> config_key k = false ->
    (forall a, asset_key a k = false) -> sget k (instance e') = sget k (instance e)) as He.
  { intros k Hl Hg Hc Ha. apply Hi. destruct (K k) eqn:E; [|done].
    apply HK in E as [?|[?|[?|[a ?]]]]; congruence. }
  unfold inited, assets_of, deposit_token_of, reward_token_of, vesting, points.
  by rewrite !He by done.
Qed.

Lemma atotal_kframe K e e' a :
  kframe K e e' -> K (AssetTotalDeposits a) = false -> K (AssetRewardIndex a) = false ->
  atotal e' a = atotal e a /\ aindex e' a = aindex e a.
Proof. intros [Hi _ _ _] H1 H2. unfold atotal, aindex. by rewrite !Hi. Qed.

Lemma total_kframe K e e' :
  kframe K e e' -> K TotalDeposits = false -> K RewardIndex = false ->
  total e' = total e /\ gindex e' = gindex e.
Proof. intros [Hi _ _ _] H1 H2. unfold total, gindex. by rewrite !Hi. Qed.

(** A call on the legacy pool; the tokens received cover what it added to the
    deposits and to the rewards, up to the growth of the excess. *)
Lemma vault_inv_legacy F0 Fa S S' e lb e' :
  vault_inv F0 Fa S e -> legacy_call e lb e' ->
  S <= S' -> (multipliers_at_most_par (points e) -> S' = 0) ->
  (forall t, when (is_deposit_token e t) (label_total lb) +
             when (is_reward_token e t) (funding lb - (S' - S)) <= holds e' t - holds e t) ->
  vault_inv (F0 + funding lb) Fa S' e'.
Proof.
  intros [] [Hi _ Hg Hstep Hwf Hf] HS Hpar Hd.
  destruct (observers_kframe _ _ _ Hf) as (Oi & Oa & Od & Or & Ov & Op).
  { intros k. unfold or_guard. destruct (legacy_key k); auto. }
  assert (forall a, atotal e' a = atotal e a /\ aindex e' a = aindex e a) as Ha
    by (intros a; by eapply atotal_kframe).
  pose proof (pool_step_total _ _ _ Hstep) as Ht. cbn in Ht.
  split; rewrite ?Oi, ?Ov, ?Op; try done.
  - by eapply legacy_inv_step.
  - intros a. eapply asset_inv_kframe; [|exact Hf|done]. by intros [].
  - intros a. destruct (Ha a) as [-> ->]. unfold supported. rewrite Oa. apply vi_unsupported0.
  - congruence.
  - intros _. destruct vi_config0 as [Had Htok]; [done|]. split; [|by rewrite Od, Or].
    unfold admin_of in *. by rewrite (kf_inst _ _ _ Hf) by done.
  - split; [lia|done].
  - intros t. specialize (vi_solvent0 t). specialize (Hd t). revert vi_solvent0 Hd.
    unfold owed, rewards_owed, is_deposit_token, is_reward_token. rewrite Oa, Od, Or, Ht.
    destruct (Ha t) as [-> _]. unfold when.
    destruct (bool_decide (deposit_token_of e = Some t)), (bool_decide (reward_token_of e = Some t)); lia.
Qed.

(** A call on the pool of asset [a]. *)
Lemma vault_inv_asset F0 Fa S e a lb e' :
  vault_inv F0 Fa S e -> asset_call e a lb e' ->
  (forall t, when (bool_decide (t = a)) (label_total lb) +
             when (is_reward_token e t) (funding lb) <= holds e' t - holds e t) ->
  vault_inv F0 (upd Fa a (Fa a + funding lb)) S e'.
Proof.
  intros [] [Hi _ Hg Hsup Hstep Hwf Hf] Hd.
  destruct (observers_kframe _ _ _ Hf) as (Oi & Oa & Od & Or & Ov & Op).
  { intros k. unfold or_guard. destruct (asset_key a k) eqn:E; eauto. }
  assert (forall b, b <> a -> forall k, asset_key b k = true -> or_guard (asset_key a) k = false)
    as Hdisj.
  { intros b Hb k Hk. unfold or_guard. rewrite (guard_not_asset b k Hk).
    destruct k; cbn in *; try done; apply bool_decide_eq_true in Hk as ->;
      by rewrite bool_decide_eq_false_2. }
  pose proof (pool_step_total _ _ _ Hstep) as Ht. cbn in Ht.
  destruct (total_kframe _ _ _ Hf) as [Ot Og]; [done|done|].
  split; rewrite ?Oi, ?Ov, ?Op, ?Ot, ?Og; try done.
  - eapply legacy_inv_kframe; [|exact Hf|done]. by intros [].
  - intros b. destruct (decide (b = a)) as [->|Hne].
    + rewrite upd_eq. by eapply asset_inv_step.
    + rewrite upd_ne by done. by eapply asset_inv_kframe; [apply Hdisj|..].
  - intros b Hb. unfold supported in Hb. rewrite Oa in Hb. fold (supported e b) in Hb.
    assert (b <> a) as Hne by congruence. rewrite upd_ne by done.
    destruct (atotal_kframe _ _ _ b Hf) as [-> ->]; [apply (Hdisj b); [done|]; cbn; by case_bool_decide..|].
    by apply vi_unsupported0.
  - congruence.
  - intros _. destruct vi_config0 as [Had Htok]; [done|]. split; [|by rewrite Od, Or].
    unfold admin_of in *. by rewrite (kf_inst _ _ _ Hf) by done.
  - intros t. specialize (vi_solvent0 t). specialize (Hd t). revert vi_solvent0 Hd.
    assert (rewards_owed F0 (upd Fa a (Fa a + funding lb)) e' = rewards_owed F0 Fa e + funding lb) as Hr.
    { unfold rewards_owed. rewrite Oa, (sumZ_change Fa _ _ a), upd_eq; [lia|..].
      - apply NoDup_elements.
      - apply elem_of_elements, elem_of_dom. unfold supported in Hsup. by apply bool_decide_eq_true in Hsup.
      - intros x Hx. by rewrite upd_ne. }
    assert (atotal e' t = atotal e t + when (bool_decide (t = a)) (label_total lb)) as Hat.
    { case_bool_decide as E; [subst; done|]. cbn.
      destruct (atotal_kframe _ _ _ t Hf) as [-> _]; [apply (Hdisj t); [done|]; cbn; by case_bool_decide..|lia]. }
    unfold owed. rewrite Hr, Hat. unfold is_deposit_token, is_reward_token. rewrite Od, Or, Ot.
    unfold when. destruct (bool_decide (reward_token_of e = Some t)); lia.
Qed.

(** Configuration changes and steps that only add tokens to the vault. *)
Lemma vault_inv_config F0 Fa S e e' :
  vault_inv F0 Fa S e -> kframe config_key e e' ->
  (inited e = true -> is_Some (admin_of e')) -> (forall t, holds e t <= holds e' t) ->
  vault_inv F0 Fa S e'.
Proof.
  intros [] Hf Hadm Hd.
  destruct (observers_kframe _ _ _ Hf) as (Oi & Oa & Od & Or & Ov & Op); [auto|].
  assert (forall a, atotal e' a = atotal e a /\ aindex e' a = aindex e a) as Ha
    by (intros a; by eapply atotal_kframe).
  destruct (total_kframe _ _ _ Hf) as [Ot Og]; [done|done|].
  split; rewrite ?Oi, ?Ov, ?Op, ?Ot, ?Og, ?Oa, ?Od, ?Or; try done.
  - unfold guarded in *. by rewrite (kf_inst _ _ _ Hf).
  - eapply legacy_inv_kframe; [|exact Hf|done]. by intros [].
  - intros a. eapply asset_inv_kframe; [|exact Hf|done]. by intros [].
  - intros a. destruct (Ha a) as [-> ->]. unfold supported. rewrite Oa. apply vi_unsupported0.
  - intros Hi. split; [auto|]. by apply vi_config0.
  - intros t. specialize (vi_solvent0 t). specialize (Hd t). revert vi_solvent0 Hd.
    unfold owed, rewards_owed, is_deposit_token, is_reward_token. rewrite Oa, Od, Or, Ot.
    destruct (Ha t) as [-> _]. lia.
Qed.

Lemma vault_inv_same F0 Fa S e e' :
  vault_inv F0 Fa S e -> instance e' = instance e -> persistent e' = persistent e ->
  (forall t, holds e t <= holds e' t) ->
  timestamp e' = timestamp e -> current_contract_address e' = current_contract_address e ->
  vault_inv F0 Fa S e'.
Proof.
  intros Hv Hi Hp Hh Ht Hc. eapply vault_inv_config; [done| |..|done].
  - by split; rewrite ?Hi, ?Hp.
  - intros Hin. unfold admin_of. rewrite Hi. by apply Hv.
Qed.

Lemma config_holds e s e' : config_call e s e' -> forall t, holds e' t = holds e t.
Proof. intros [_ _ Ht _ Hc] t. unfold holds. by rewrite Ht, Hc. Qed.

(** A configuration call that writes only configuration keys. *)
Lemma vault_inv_config_call F0 Fa S e s e' :
  vault_inv F0 Fa S e -> config_call e s e' ->
  (forall k, config_key k = false -> sget k s = sget k (instance e)) ->
  is_Some (sget Admin s) -> vault_inv F0 Fa S e'.
Proof.
  intros Hv Hc Hs Had. pose proof (config_holds _ _ _ Hc) as Hh. destruct Hc.
  eapply vault_inv_config; [done| | |intros t; by rewrite Hh].
  - split; try done.
    + intros k Hk. rewrite cc_inst. auto.
    + intros k _. by rewrite cc_pers.
  - intros _. unfold admin_of. by rewrite cc_inst.
Qed.

(** Initialization starts from empty pools and leaves them empty. *)
Lemma vault_inv_initialize F0 Fa S e adm d r v tg m e' :
  vault_inv F0 Fa S e -> inited e = false -> d <> r ->
  0 <= v <= u64_max -> Forall (fun p => 0 <= multiplier_bps p <= u32_max) m ->
  config_call e (initial_store adm d r v tg m (instance e)) e' ->
  vault_inv F0 Fa S e'.
Proof.
  intros [] Hi Hne Hv Hm Hc. pose proof (config_holds _ _ _ Hc) as Hh.
  destruct Hc as [Ci Cp _ _ _].
  destruct (vi_fresh0 Hi) as (Ht & Hg & HF & HS & Has & Hd & Hr). subst F0 S.
  assert (forall a, asset_pool e' a = asset_pool e a) as Hap.
  { intros a. unfold asset_pool, atotal, aindex, abal, auindex, aaccrued. 
    by rewrite Ci, Cp, !initial_store_frame. }
  assert (assets_of e' = ∅) as Has'.
  { rewrite <- Has. unfold assets_of. by rewrite Ci, initial_store_frame. }
  assert (forall a, atotal e' a = 0 /\ aindex e' a = 0 /\ Fa a = 0) as Hun.
  { intros a. specialize (Hap a). injection Hap as -> ->. apply vi_unsupported0.
    unfold supported. rewrite Has. apply bool_decide_eq_false_2. rewrite lookup_empty. by intros []. }
  assert (total e' = 0 /\ gindex e' = 0) as [Ht' Hg'].
  { unfold total, gindex. rewrite Ci. unfold initial_store. by obs_simpl. }
  split; rewrite ?Ht', ?Hg'.
  - unfold guarded. rewrite Ci. unfold initial_store. by obs_simpl.
  - destruct vi_legacy0 as [Hok Hwf]. split.
    + eapply pool_ok_eq; [|exact Hok]. split; cbn; [congruence..|].
      intros u. unfold user_balance, liquid, locks_of, uindex, uaccrued. by rewrite Cp.
    + intros u. specialize (Hwf u). unfold liquid, uaccrued, locks_of in *. by rewrite Cp.
  - intros a. destruct (vi_assets0 a) as [Hok Hwf]. split; [by rewrite Hap|].
    intros u. specialize (Hwf u). unfold aaccrued in *. by rewrite Cp.
  - intros a _. apply Hun.
  - unfold inited. rewrite Ci. unfold initial_store. by obs_simpl.
  - intros _. unfold admin_of, deposit_token_of, reward_token_of. rewrite Ci. unfold initial_store.
    obs_simpl. split; [by eexists|]. by exists d, r.
  - unfold vesting. rewrite Ci. unfold initial_store. by obs_simpl.
  - unfold points. rewrite Ci. unfold initial_store. by obs_simpl.
  - split; [done|auto].
  - intros t. specialize (vi_solvent0 t). unfold owed, rewards_owed in *. rewrite Ht', Has', Hh.
    destruct (Hun t) as [-> _]. pose proof (token_balance_range t (current_contract_address e) (tokens e)).
    unfold holds, when in *. rewrite dom_empty_L, elements_empty. cbn.
    destruct (is_deposit_token e' t), (is_reward_token e' t); lia.
Qed.

(** Adding an asset: its pool was empty and stays so. *)
Lemma vault_inv_add_asset F0 Fa S e a e' :
  vault_inv F0 Fa S e -> inited e = true -> supported e a = false ->
  config_call e (sset (AssetRewardIndex a) 0 (sset (AssetTotalDeposits a) 0
    (sset SupportedAssets (<[a := true]> (assets_of e)) (instance e)))) e' ->
  vault_inv F0 Fa S e'.
Proof.
  intros [] Hi Hsup Hc. pose proof (config_holds _ _ _ Hc) as Hh.
  destruct Hc as [Ci Cp _ _ _]. destruct (vi_unsupported0 a Hsup) as (Hat & Hai & HFa).
  assert (assets_of e !! a = None) as Hnone
    by (unfold supported in Hsup; apply bool_decide_eq_false in Hsup; by apply eq_None_not_Some).
  assert (forall b, atotal e' b = atotal e b /\ aindex e' b = aindex e b) as Hab.
  { intros b. destruct (decide (b = a)) as [->|Hne]; [rewrite Hat, Hai|];
      unfold atotal, aindex; rewrite Ci; by obs_simpl. }
  assert (assets_of e' = <[a := true]> (assets_of e)) as Has
    by (unfold assets_of at 1; rewrite Ci; by obs_simpl).
  assert (forall k, k <> SupportedAssets -> k <> AssetTotalDeposits a -> k <> AssetRewardIndex a ->
    sget k (instance e') = sget k (instance e)) as Hk by (intros; rewrite Ci; by obs_simpl).
  assert (forall b, pool_eq (asset_pool e b) (asset_pool e' b)) as Hpe.
  { intros b. destruct (Hab b). split; cbn; [congruence..|].
    intros u. unfold abal, auindex, aaccrued. by rewrite Cp. }
  split; try (unfold guarded, inited, vesting, points in *; by rewrite !Hk).
  - destruct vi_legacy0 as [Hok Hwf]. split.
    + eapply pool_ok_eq; [|exact Hok]. split; cbn; unfold total, gindex; rewrite ?Hk; try done.
      intros u. unfold user_balance, liquid, locks_of, uindex, uaccrued. by rewrite Cp.
    + intros u. specialize (Hwf u). unfold liquid, uaccrued, locks_of in *. by rewrite Cp.
  - intros b. destruct (vi_assets0 b) as [Hok Hwf]. split; [by eapply pool_ok_eq; [apply Hpe|]|].
    intros u. specialize (Hwf u). unfold aaccrued in *. by rewrite Cp.
  - intros b Hb. destruct (Hab b) as [-> ->]. apply vi_unsupported0. unfold supported in *.
    rewrite Has in Hb. apply bool_decide_eq_false in Hb. apply bool_decide_eq_false_2.
    intros Hs. apply Hb. destruct (decide (b = a)) as [->|Hne].
    + by rewrite lookup_insert_eq.
    + by rewrite lookup_insert_ne.
  - unfold inited in *. rewrite Hk by done. congruence.
  - unfold inited, admin_of, deposit_token_of, reward_token_of in *. by rewrite !Hk.
  - intros t. specialize (vi_solvent0 t). revert vi_solvent0.
    assert (rewards_owed F0 Fa e' = rewards_owed F0 Fa e) as Hr.
    { unfold rewards_owed. rewrite Has, dom_insert_L, (sumZ_perm _ _ _ (elements_union_singleton _ _
        (not_elem_of_dom_2 _ _ Hnone))), sumZ_cons. lia. }
    unfold owed, is_deposit_token, is_reward_token, deposit_token_of, reward_token_of, total.
    rewrite Hr, Hh, !Hk by done. by destruct (Hab t) as [-> _].
Qed.

(** *** Every committed call *)

Lemma delta_holds e e' t0 d :
  current_contract_address e' = current_contract_address e -> vault_delta e e' t0 d ->
  forall t, holds e' t = holds e t + when (bool_decide (t = t0)) d.
Proof.
  intros Hc [H1 H2] t. unfold holds. rewrite Hc. case_bool_decide as E; cbn; [by subst|].
  rewrite H2 by done. lia.
Qed.

Lemma state_tokens e st : state_of e = Ok st ->
  deposit_token_of e = Some (deposit_token st) /\ reward_token_of e = Some (reward_token st) /\
  admin_of e = Some (admin st).
Proof. intros (_ & Ha & Hd & Hr & _)%state_of_Ok. done. Qed.

(** The effective amount beyond the rewards received. *)
Definition excess (amount effective : Z) : Z := Z.max 0 (effective - amount).

Lemma excess_par e amt m eff :
  Forall (fun p => 0 <= multiplier_bps p <= u32_max) (points e) -> 0 < amt <= i128_max ->
  calculate_utilization_multiplier (total e) (target e) (points e) = Ok m ->
  effective_reward_amount amt m = Ok eff -> multipliers_at_most_par (points e) ->
  excess amt eff = 0.
Proof.
  intros Hp Ha Hm Heff Hpar. apply multiplier_of_points in Hm as Hcase.
  apply effective_at_most_par in Heff; [unfold excess; lia|lia|].
  destruct Hcase as [->|(p & Hin & ->)]; [lia|].
  unfold multipliers_at_most_par in Hpar. rewrite Forall_forall in Hp, Hpar.
  specialize (Hp p Hin). specialize (Hpar p Hin). cbn in *. lia.
Qed.

(** The token flow of a legacy call as the invariant needs it. *)
Ltac flow_tac st :=
  let t := fresh "t" in intros t; erewrite delta_holds by (eassumption || by eapply kf_this);
  unfold is_deposit_token, is_reward_token;
  match goal with Hst : state_of _ = Ok st |- _ =>
    destruct (state_tokens _ _ Hst) as (-> & -> & _) end;
  unfold when; cbn [label_total funding]; repeat case_bool_decide; subst; try lia; congruence.

Section one_call.
Variables (F0 : Z) (Fa : Address -> Z) (S : Z) (e e' : Env).
Hypothesis inv : vault_inv F0 Fa S e.
Hypothesis not_self : authorized e (current_contract_address e) = false.

Definition inv_after : Prop := exists F0' Fa' S', vault_inv F0' Fa' S' e'.

Lemma tokens_differ st : state_of e = Ok st -> deposit_token st <> reward_token st.
Proof using inv HL.
  intros Hst. pose proof (state_tokens _ _ Hst) as (Hd & Hr & _).
  destruct (vi_config _ _ _ _ inv (state_of_inited _ _ Hst)) as (_ & d & r & Hd' & Hr' & Hne).
  congruence.
Qed.

Lemma excess_zero : multipliers_at_most_par (points e) -> S = 0.
Proof using inv HL. apply (vi_excess _ _ _ _ inv). Qed.

Lemma deposit_preserves u x : deposit u x e = Done (Ok tt) e' -> inv_after.
Proof using inv not_self HL.
  intros Hr. apply (deposit_sim _ not_self F0) in Hr as (Hx & Hc & st & Hst & Hd);
    [|by eapply vi_legacy]. pose proof (tokens_differ _ Hst).
  exists (F0 + funding (LDeposit u x)), Fa, S.
  eapply vault_inv_legacy; [done|done|lia|apply excess_zero|]. pose proof (kf_this _ _ _ (lc_frame _ _ _ Hc)).
  flow_tac st.
Qed.

Lemma withdraw_preserves u x : withdraw u x e = Done (Ok tt) e' -> inv_after.
Proof using inv not_self HL.
  intros Hr. apply (withdraw_sim _ not_self F0) in Hr as (Hx & Hc & st & Hst & Hd);
    [|by eapply vi_legacy]. pose proof (tokens_differ _ Hst).
  exists (F0 + funding (LWithdraw u x)), Fa, S.
  eapply vault_inv_legacy; [done|done|lia|apply excess_zero|]. pose proof (kf_this _ _ _ (lc_frame _ _ _ Hc)).
  flow_tac st.
Qed.

Lemma claim_rewards_preserves u x : claim_rewards u e = Done (Ok x) e' -> inv_after.
Proof using inv not_self HL.
  intros Hr. apply (claim_rewards_sim _ not_self F0) in Hr as (Hc & st & Hst & Hd);
    [|by eapply vi_legacy|by eapply vi_vesting]. pose proof (tokens_differ _ Hst).
  exists (F0 + funding (LClaim u x)), Fa, S.
  eapply vault_inv_legacy; [done|done|lia|apply excess_zero|]. pose proof (kf_this _ _ _ (lc_frame _ _ _ Hc)).
  flow_tac st.
Qed.

Lemma distribute_rewards_preserves x r : distribute_rewards x e = Done (Ok r) e' -> inv_after.
Proof using inv not_self HL.
  intros Hr. apply (distribute_rewards_sim _ not_self F0) in Hr
    as (Hx & m & eff & Hm & Heff & Hc & _ & st & Hst & _ & Hd); [|by eapply vi_legacy].
  pose proof (tokens_differ _ Hst).
  exists (F0 + funding (LDistribute eff)), Fa, (S + excess x eff).
  eapply vault_inv_legacy; [done|done|unfold excess; lia| |].
  - intros Hpar. rewrite excess_zero by done.
    rewrite (excess_par e x m eff); [done|by eapply vi_points|done..].
  - pose proof (kf_this _ _ _ (lc_frame _ _ _ Hc)). unfold excess. flow_tac st.
Qed.

Lemma idle_preserves lb :
  legacy_call e lb e' -> label_total lb = 0 -> funding lb = 0 -> tokens e' = tokens e -> inv_after.
Proof using inv HL.
  intros Hc Hl Hf Ht. exists (F0 + funding lb), Fa, S.
  eapply vault_inv_legacy; [done|done|lia|apply excess_zero|].
  intros t. unfold holds. rewrite Ht, (kf_this _ _ _ (lc_frame _ _ _ Hc)), Hl, Hf.
  unfold when. destruct (is_deposit_token e t), (is_reward_token e t); lia.
Qed.

Lemma asset_preserves a lb x :
  asset_call e a lb e' ->
  (label_total lb = x /\ funding lb = 0 /\ vault_delta e e' a x \/
   label_total lb = 0 /\ funding lb = x /\
     exists st, state_of e = Ok st /\ vault_delta e e' (reward_token st) x) -> inv_after.
Proof using inv HL.
  intros Hc Hcase. exists F0, (upd Fa a (Fa a + funding lb)), S.
  eapply vault_inv_asset; [done|done|]. pose proof (kf_this _ _ _ (ac_frame _ _ _ _ Hc)) as Hth.
  intros t. destruct Hcase as [(-> & -> & Hd)|(-> & -> & st & Hst & Hd)];
    rewrite (delta_holds _ _ _ _ Hth Hd); unfold is_reward_token.
  - unfold when. repeat case_bool_decide; lia.
  - destruct (state_tokens _ _ Hst) as (_ & -> & _). unfold when.
    repeat case_bool_decide; try lia; congruence.
Qed.

Lemma config_preserves s :
  config_call e s e' -> (forall k, config_key k = false -> sget k s = sget k (instance e)) ->
  is_Some (sget Admin s) -> inv_after.
Proof using inv HL. intros. exists F0, Fa, S. by eapply vault_inv_config_call. Qed.

Lemma admin_calls_preserve c :
  match c with CProposeNewAdmin _ | CAcceptAdmin _ | CPause | CUnpause | CUpgrade _ => True
             | _ => False end ->
  run_call c e = Done (Ok tt) e' -> inv_after.
Proof using inv HL.
  intros Hc Hr. destruct c; try done; cbn [run_call] in Hr.
  - apply propose_new_admin_Ok in Hr as (st & Hst & _ & Hcc & _).
    eapply config_preserves; [done|intros k Hk; rewrite sget_sset_ne; [done|by intros <-]|].
    rewrite sget_sset_ne by done. destruct (state_tokens _ _ Hst) as (_ & _ & Ha). by eexists.
  - apply accept_admin_Ok in Hr as (st & Hst & _ & _ & Hcc & _).
    eapply config_preserves; [done| |].
    + intros k Hk. rewrite sget_sremove_ne, sget_sset_ne; [done|by intros <-..].
    + rewrite sget_sremove_ne, sget_sset_eq by done. by eexists.
  - apply pause_contract_Ok in Hr as (st & Hst & _ & Hcc & _).
    eapply config_preserves; [done|intros k Hk; rewrite sget_sset_ne; [done|by intros <-]|].
    rewrite sget_sset_ne by done. destruct (state_tokens _ _ Hst) as (_ & _ & Ha). by eexists.
  - apply unpause_contract_Ok in Hr as (st & Hst & _ & Hcc & _).
    eapply config_preserves; [done|intros k Hk; rewrite sget_sset_ne; [done|by intros <-]|].
    rewrite sget_sset_ne by done. destruct (state_tokens _ _ Hst) as (_ & _ & Ha). by eexists.
  - apply upgrade_Ok in Hr as (st & Hst & _ & Hcc & _).
    eapply config_preserves; [done|done|].
    destruct (state_tokens _ _ Hst) as (_ & _ & Ha). by eexists.
Qed.

Lemma add_asset_preserves adm a : add_asset adm a e = Done (Ok tt) e' -> inv_after.
Proof using inv HL.
  intros Hr. apply add_asset_Ok in Hr as (st & Hst & _ & _ & Hcc & _).
  destruct (supported e a) eqn:Hs.
  - eapply config_preserves; [done|done|].
    destruct (state_tokens _ _ Hst) as (_ & _ & Ha). by eexists.
  - exists F0, Fa, S. eapply vault_inv_add_asset; [done|by eapply state_of_inited|done|done].
Qed.

Lemma initialize_preserves adm d r v tg m :
  call_in_range (CInitialize adm d r v tg m) ->
  initialize adm d r v tg m e = Done (Ok tt) e' -> inv_after.
Proof using inv HL.
  intros [Hv Hm] Hr. apply initialize_Ok in Hr as (_ & Hi & Hne & _ & _ & Hcc & _).
  exists F0, Fa, S. by eapply vault_inv_initialize.
Qed.

(** Every committed call keeps the invariant. *)
Lemma call_preserves c :
  call_in_range c -> run_call c e = Done (Ok tt) e' -> inv_after.
Proof using inv not_self HL.
  intros Hc Hr. destruct c as [adm d r v t m|a|a|u x|u x|x|u x du|u l|u| | |h|adm a|u a x|u a x|adm a x|u a];
    try (by (eapply admin_calls_preserve; [|exact Hr])); cbn [run_call] in Hr;
    try (apply bindM_Ok in Hr as (res & e1 & Hr & Heq%retM_Ok); destruct Heq as [_ <-]).
  - by eapply initialize_preserves.
  - by eapply deposit_preserves.
  - by eapply withdraw_preserves.
  - by eapply distribute_rewards_preserves.
  - apply (lock_sim _ F0) in Hr as [Hl Ht]; [|by eapply vi_legacy]. by eapply idle_preserves.
  - apply (unlock_expired_sim _ F0) in Hr as [Hl Ht]; [|by eapply vi_legacy].
    by eapply idle_preserves.
  - by eapply claim_rewards_preserves.
  - by eapply add_asset_preserves.
  - apply (deposit_asset_sim _ not_self (Fa a)) in Hr as (_ & Ha & Hd); [|by eapply vi_assets].
    eapply asset_preserves; [done|]. left. cbn. eauto.
  - apply (withdraw_asset_sim _ not_self (Fa a)) in Hr as (_ & Ha & Hd); [|by eapply vi_assets].
    eapply asset_preserves; [done|]. left. cbn. eauto.
  - apply (distribute_rewards_for_asset_sim _ not_self (Fa a)) in Hr
      as (Ha & st & Hst & _ & Hd); [|by eapply vi_assets].
    eapply asset_preserves; [done|]. right. cbn. eauto.
  - apply (claim_rewards_for_asset_sim _ not_self (Fa a)) in Hr as (Ha & st & Hst & Hd);
      [|by eapply vi_assets|by eapply vi_vesting].
    eapply asset_preserves; [done|]. right. cbn. eauto.
Qed.
End one_call.

(** *** Steps and reachable states *)

Lemma fresh_inv e : fresh e -> vault_inv 0 (fun _ => 0) 0 e.
Proof.
  intros (Hi & Hp & _).
  assert (assets_of e = ∅) as Has by (unfold assets_of; by rewrite Hi).
  split; unfold guarded, total, gindex, inited, deposit_token_of, reward_token_of, vesting, points;
    rewrite ?Hi; try done.
  - split; [apply empty_pool_ok|]; cbn; unfold total, gindex; rewrite ?Hi; try done.
    + intros u. unfold user_balance, liquid, locks_of, uindex, uaccrued. by rewrite !Hp.
    + intros u. unfold liquid, locks_of, uaccrued. rewrite !Hp. split; [done|]. by split.
  - intros a. split; [apply empty_pool_ok|]; cbn; unfold atotal, aindex; rewrite ?Hi; try done.
    + intros u. unfold abal, auindex, aaccrued. by rewrite !Hp.
    + intros u. unfold aaccrued. by rewrite !Hp.
  - intros a _. unfold atotal, aindex. by rewrite !Hi.
  - intros t. unfold owed, rewards_owed, atotal, total, holds. rewrite !Hi, Has.
    rewrite dom_empty_L, elements_empty. pose proof (token_balance_range t (current_contract_address e) (tokens e)).
    unfold when. cbn. destruct (is_deposit_token e t), (is_reward_token e t); lia.
Qed.

Lemma vstep_preserves F0 Fa S e e' :
  vault_inv F0 Fa S e -> vstep e e' -> exists F0' Fa' S', vault_inv F0' Fa' S' e'.
Proof.
  intros Hv Hs. destruct Hs as [auth|c Ha Hw Hc|t Ht|ts Hts].
  - exists F0, Fa, S. by eapply vault_inv_same.
  - unfold invoke. destruct (run_call c e) as [[[]|?] e'|] eqn:Hr; eauto.
    by eapply call_preserves.
  - destruct Hv. exists F0, Fa, S. by split.
  - exists F0, Fa, S. by eapply vault_inv_same.
Qed.

Lemma reachable_inv e : reachable e -> exists F0 Fa S, vault_inv F0 Fa S e.
Proof.
  intros (e0 & Hf & Hr). assert (exists F0 Fa S, vault_inv F0 Fa S e0) as He0
    by (eexists _, _, _; by apply fresh_inv).
  clear Hf. induction Hr as [|e1 e2 e3 Hs Hr IH]; [done|].
  destruct He0 as (F0 & Fa & S & Hv). apply IH. by eapply vstep_preserves.
Qed.
End preservation.
