(* ===== verification/VaultSpec.v ===== *)
(** What each call means for the abstract pools, and which keys it may touch:
    the refinement of the abstract reward pools by the whole contract. *)
From stdpp Require Import base gmap list strings sets relations.
From S2P Require Import Prelude VaultErrors VaultTypes Host VaultMath VaultEvents VaultStorage VaultAssets VaultContract RewardPool VaultFacts VaultRefine VaultAssetRefine VaultCalls VaultAdmin VaultSystem VaultInvariant.

Section spec.
Context `{HL : HostLaws}.
Implicit Types (e : Env) (u a t : Address).

(** The abstract transition of the legacy pool a call stands for, before
    calling in environment [e]. *)
Inductive legacy_label e : call -> label -> Prop :=
| ll_deposit u x : legacy_label e (CDeposit u x) (LDeposit u x)
| ll_withdraw u x : legacy_label e (CWithdraw u x) (LWithdraw u x)
| ll_lock u x d : legacy_label e (CLock u x d) (LSync u)
| ll_claim u v : legacy_label e (CClaimRewards u) (LClaim u v)
| ll_distribute x m eff :
    calculate_utilization_multiplier (total e) (target e) (points e) = Ok m ->
    effective_reward_amount x m = Ok eff ->
    legacy_label e (CDistributeRewards x) (LDistribute eff)
| ll_idle c :
    match c with
    | CDeposit _ _ | CWithdraw _ _ | CLock _ _ _ | CClaimRewards _ | CDistributeRewards _ => False
    | _ => True
    end -> legacy_label e c LIdle.

(** The transition of the pool of asset [a]. *)
Inductive asset_label a : call -> label -> Prop :=
| al_deposit u x : asset_label a (CDepositAsset u a x) (LDeposit u x)
| al_withdraw u x : asset_label a (CWithdrawAsset u a x) (LWithdraw u x)
| al_claim u v : asset_label a (CClaimRewardsForAsset u a) (LClaim u v)
| al_distribute adm x : asset_label a (CDistributeRewardsForAsset adm a x) (LDistribute x)
| al_idle c :
    match c with
    | CDepositAsset _ b _ | CWithdrawAsset _ b _ | CClaimRewardsForAsset _ b
    | CDistributeRewardsForAsset _ b _ => b <> a
    | _ => True
    end -> asset_label a c LIdle.

(** The storage keys a committed call may write. *)
Definition touched (c : call) (k : DataKey) : bool :=
  match c with
  | CInitialize _ _ _ _ _ _ => init_key k
  | CProposeNewAdmin _ => match k with PendingAdmin => true | _ => false end
  | CAcceptAdmin _ => match k with Admin | PendingAdmin => true | _ => false end
  | CPause | CUnpause => match k with IsPaused => true | _ => false end
  | CUpgrade _ => false
  | CAddAsset _ a =>
      match k with
      | SupportedAssets => true
      | AssetTotalDeposits b | AssetRewardIndex b => bool_decide (b = a)
      | _ => false
      end
  | CDeposit _ _ | CWithdraw _ _ | CDistributeRewards _ | CLock _ _ _ | CUnlockExpired _ _
  | CClaimRewards _ => or_guard legacy_key k
  | CDepositAsset _ a _ | CWithdrawAsset _ a _ | CDistributeRewardsForAsset _ a _
  | CClaimRewardsForAsset _ a => or_guard (asset_key a) k
  end.

Lemma config_kframe K e s e' :
  config_call e s e' -> (forall k, K k = false -> sget k s = sget k (instance e)) -> kframe K e e'.
Proof.
  intros [] Hs. split; try done.
  - intros k Hk. rewrite cc_inst. auto.
  - intros k _. by rewrite cc_pers.
Qed.

(** The calls that run a pool routine, by the pool they act on. *)
Definition legacy_op (c : call) : bool :=
  match c with
  | CDeposit _ _ | CWithdraw _ _ | CDistributeRewards _ | CLock _ _ _ | CUnlockExpired _ _
  | CClaimRewards _ => true
  | _ => false
  end.
Definition asset_op (c : call) : option Address :=
  match c with
  | CDepositAsset _ a _ | CWithdrawAsset _ a _ | CDistributeRewardsForAsset _ a _
  | CClaimRewardsForAsset _ a => Some a
  | _ => None
  end.

Section one_call.
Variables (F0 : Z) (Fa : Address -> Z) (S : Z) (e e' : Env).
Hypothesis inv : vault_inv F0 Fa S e.
Hypothesis not_self : authorized e (current_contract_address e) = false.

Lemma legacy_op_call c :
  legacy_op c = true -> run_call c e = Done (Ok tt) e' ->
  exists lb, legacy_label e c lb /\ legacy_call e lb e'.
Proof using inv not_self HL.
  intros Hc Hr. pose proof (vi_legacy _ _ _ _ inv) as Hl. pose proof (vi_vesting _ _ _ _ inv) as [Hv _].
  destruct c as [| | |u x|u x|x|u x du|u l|u| | | | | | | |]; try done; cbn [run_call] in Hr;
    try (apply bindM_Ok in Hr as (res & e1 & Hr & Heq%retM_Ok); destruct Heq as [_ <-]).
  - apply (deposit_sim _ not_self F0) in Hr as (_ & Hlc & _); [|done]. eexists. by split; [constructor|].
  - apply (withdraw_sim _ not_self F0) in Hr as (_ & Hlc & _); [|done]. eexists. by split; [constructor|].
  - apply (distribute_rewards_sim _ not_self F0) in Hr as (_ & m & eff & Hm & Heff & Hlc & _); [|done].
    eexists. by split; [econstructor|].
  - apply (lock_sim _ F0) in Hr as [Hlc _]; [|done]. eexists. by split; [constructor|].
  - apply (unlock_expired_sim _ F0) in Hr as [Hlc _]; [|done]. eexists. by split; [by constructor|].
  - apply (claim_rewards_sim _ not_self F0) in Hr as [Hlc _]; [|done|done]. eexists. by split; [constructor|].
Qed.

Lemma asset_op_call c a :
  asset_op c = Some a -> run_call c e = Done (Ok tt) e' ->
  exists lb, asset_label a c lb /\ asset_call e a lb e'.
Proof using inv not_self HL.
  intros Hc Hr. pose proof (vi_assets _ _ _ _ inv a) as Hl. pose proof (vi_vesting _ _ _ _ inv) as [Hv _].
  destruct c as [| | | | | | | | | | | | |u b x|u b x|adm b x|u b]; try done; injection Hc as ->;
    cbn [run_call] in Hr;
    try (apply bindM_Ok in Hr as (res & e1 & Hr & Heq%retM_Ok); destruct Heq as [_ <-]).
  - apply (deposit_asset_sim _ not_self (Fa a)) in Hr as (_ & Hac & _); [|done]. eexists. by split; [constructor|].
  - apply (withdraw_asset_sim _ not_self (Fa a)) in Hr as (_ & Hac & _); [|done]. eexists. by split; [constructor|].
  - apply (distribute_rewards_for_asset_sim _ not_self (Fa a)) in Hr as (Hac & _); [|done].
    eexists. by split; [constructor|].
  - apply (claim_rewards_for_asset_sim _ not_self (Fa a)) in Hr as (Hac & _); [|done|done].
    eexists. by split; [constructor|].
Qed.

(** A committed call writes only the keys it may touch. *)
Lemma call_frame c : run_call c e = Done (Ok tt) e' -> kframe (touched c) e e'.
Proof using inv not_self HL.
  intros Hr. destruct (legacy_op c) eqn:Hl.
  { destruct (legacy_op_call c Hl Hr) as (lb & _ & []). by destruct c. }
  destruct (asset_op c) as [a|] eqn:Ha.
  { destruct (asset_op_call c a Ha Hr) as (lb & _ & []). destruct c; try done; by injection Ha as ->. }
  destruct c; try done; cbn [run_call] in Hr.
  - apply initialize_Ok in Hr as (_ & _ & _ & _ & _ & Hc & _).
    eapply config_kframe; [exact Hc|]. intros k. apply initial_store_frame.
  - apply propose_new_admin_Ok in Hr as (st & _ & _ & Hc & _). eapply config_kframe; [exact Hc|].
    intros k Hk. rewrite sget_sset_ne; [done|by intros <-].
  - apply accept_admin_Ok in Hr as (st & _ & _ & _ & Hc & _). eapply config_kframe; [exact Hc|].
    intros k Hk. rewrite sget_sremove_ne, sget_sset_ne; [done|by intros <-..].
  - apply pause_contract_Ok in Hr as (st & _ & _ & Hc & _). eapply config_kframe; [exact Hc|].
    intros k Hk. rewrite sget_sset_ne; [done|by intros <-].
  - apply unpause_contract_Ok in Hr as (st & _ & _ & Hc & _). eapply config_kframe; [exact Hc|].
    intros k Hk. rewrite sget_sset_ne; [done|by intros <-].
  - apply upgrade_Ok in Hr as (st & _ & _ & Hc & _). by eapply config_kframe; [exact Hc|].
  - apply add_asset_Ok in Hr as (st & _ & _ & _ & Hc & _). eapply config_kframe; [exact Hc|].
    intros k Hk. destruct (supported e asset); [done|].
    rewrite !sget_sset_ne; [done|intros <-; cbn in Hk; try rewrite bool_decide_eq_true_2 in Hk by done; done..].
Qed.

(** Every committed call is a transition of the legacy pool ... *)
Lemma call_legacy_step c :
  run_call c e = Done (Ok tt) e' ->
  exists lb, legacy_label e c lb /\ pool_step (legacy_pool e) lb (legacy_pool e').
Proof using inv not_self HL.
  intros Hr. destruct (legacy_op c) eqn:Hl.
  { destruct (legacy_op_call c Hl Hr) as (lb & Hlb & []). eauto. }
  exists LIdle. split; [constructor; by destruct c|]. apply step_idle.
  destruct c as [adm d r v tg m| | | | | | | | | | | | | | | |]; try done;
    try (eapply legacy_pool_kframe; [|eapply call_frame, Hr]; by intros []).
  apply initialize_Ok in Hr as (_ & Hi & _ & _ & _ & [Ci Cp _ _ _] & _).
  destruct (vi_fresh _ _ _ _ inv Hi) as (Ht & Hg & _). split; cbn.
  - rewrite Ht. unfold total. rewrite Ci. unfold initial_store. by obs_simpl.
  - rewrite Hg. unfold gindex. rewrite Ci. unfold initial_store. by obs_simpl.
  - intros w. unfold user_balance, liquid, locks_of, uindex, uaccrued. by rewrite Cp.
Qed.

(** ... and of the pool of every asset. *)
Lemma call_asset_step c a :
  run_call c e = Done (Ok tt) e' ->
  exists lb, asset_label a c lb /\ pool_step (asset_pool e a) lb (asset_pool e' a).
Proof using inv not_self HL.
  intros Hr. pose proof (call_frame c Hr) as Hf.
  assert (asset_op c = Some a \/ forall b, asset_op c = Some b -> b <> a) as [Ha|Ha].
  { destruct (asset_op c) as [b|]; [|by right]. destruct (decide (b = a)) as [->|]; [by left|].
    right. by intros ? [= <-]. }
  { destruct (asset_op_call c a Ha Hr) as (lb & Hlb & []). eauto. }
  exists LIdle. split; [constructor; destruct c; auto|]. apply step_idle.
  assert ((exists adm, c = CAddAsset adm a) \/ ~ exists adm, c = CAddAsset adm a) as [[adm ->]|Hadd].
  { destruct c as [| | | | | | | | | | | |adm b| | | |]; try (right; by intros [? ?]).
    destruct (decide (b = a)) as [->|]; [left; eauto|right; by intros [? [= ? ?]]]. }
  - apply add_asset_Ok in Hr as (st & _ & _ & _ & [Ci Cp _ _ _] & _).
    destruct (supported e a) eqn:Hs.
    + split; cbn; unfold atotal, aindex, abal, auindex, aaccrued; by rewrite ?Ci, ?Cp.
    + destruct (vi_unsupported _ _ _ _ inv a Hs) as (Ht & Hi & _). split; cbn.
      * rewrite Ht. unfold atotal. rewrite Ci. by obs_simpl.
      * rewrite Hi. unfold aindex. rewrite Ci. by obs_simpl.
      * intros v. unfold abal, auindex, aaccrued. by rewrite Cp.
  - eapply asset_pool_kframe; [|exact Hf]. intros k Hk. pose proof (guard_not_asset a k Hk).
    destruct c; cbn in *; unfold or_guard; destruct k; cbn in *; try done;
      apply bool_decide_eq_true in Hk as ->; rewrite bool_decide_eq_false_2; try done;
      try (by apply not_eq_sym, Ha); intros <-; eauto.
Qed.
End one_call.
End spec.
