(* ===== verification/VaultScenario.v ===== *)
(** A concrete run of the vault on the model host: the scenarios in which the
    general theorems are instantiated. *)
From stdpp Require Import base gmap list strings sets relations.
From S2P Require Import Prelude VaultErrors VaultTypes Host HostModel VaultMath VaultStorage VaultContract VaultSystem.

(** What a run returned, without the environment it left. *)
Definition result_of {A} (m : M A) (e : Env) : option A :=
  match m e with Done (Ok a) _ => Some a | _ => None end.

Lemma result_of_run {A} (m : M A) e a : result_of m e = Some a -> m e = Done (Ok a) (invoke m e).
Proof. unfold result_of, invoke. destruct (m e) as [[?|?] ?|]; naive_solver. Qed.

(** One action of a scenario. *)
Inductive act : Type := ASign (signers : list Address) | ATime (t : Z) | ACall (c : call).

Definition do_act (x : act) (e : Env) : Env :=
  match x with
  | ASign l => with_authorized (fun a => bool_decide (a ∈ l)) e
  | ATime t => with_timestamp t e
  | ACall c => invoke (run_call c) e
  end.

Definition play (l : list act) (e : Env) : Env := fold_left (fun e x => do_act x e) l e.

(** The side conditions of a scenario's steps, decided. *)
Definition call_in_range_b (c : call) : bool :=
  match c with
  | CInitialize _ _ _ v _ m =>
      (0 <=? v) && (v <=? u64_max) &&
      forallb (fun p => (0 <=? multiplier_bps p) && (multiplier_bps p <=? u32_max)) m
  | _ => true
  end.

Definition act_ok (x : act) (e : Env) : bool :=
  match x with
  | ASign _ => true
  | ATime t => (timestamp e <=? t) && (t <=? u64_max)
  | ACall c =>
      negb (authorized e (current_contract_address e)) && bool_decide (wasm e = None) &&
      call_in_range_b c
  end.

Fixpoint play_ok (l : list act) (e : Env) : bool :=
  match l with
  | [] => true
  | x :: l => act_ok x e && play_ok l (do_act x e)
  end.

Lemma call_in_range_spec c : call_in_range_b c = true -> call_in_range c.
Proof.
  destruct c as [? ? ? v ? m| | | | | | | | | | | | | | | |]; try done. cbn. intros Hc. bool_to_prop.
  split; [lia|]. apply Forall_forall. intros p Hp.
  match goal with Hf : forallb _ _ = true |- _ => rewrite forallb_forall in Hf; specialize (Hf p) end.
  assert (In p m) as Hin by (by apply list_elem_of_In). naive_solver (bool_to_prop; lia).
Qed.

Lemma act_step x e : act_ok x e = true -> vstep e (do_act x e).
Proof.
  destruct x as [l|t|c]; cbn; intros Hx.
  - apply vstep_sign.
  - bool_to_prop. apply vstep_time. lia.
  - bool_to_prop. apply vstep_call.
    + by destruct (authorized e _).
    + done.
    + by apply call_in_range_spec.
Qed.

Lemma play_reachable l e : reachable e -> play_ok l e = true -> reachable (play l e).
Proof.
  revert e. induction l as [|x l IH]; intros e He Hl; [done|]. cbn in *. bool_to_prop.
  apply IH; [|done]. destruct He as (e0 & Hf & Hr). exists e0. split; [done|].
  eapply rtc_r; [done|]. by apply act_step.
Qed.

(** *** The scenario *)

Definition VAULT : Address := 100%N.
Definition ADMIN : Address := 1%N.
Definition ALICE : Address := 2%N.
Definition BOB : Address := 3%N.
Definition DEP : Address := 10%N.
Definition REW : Address := 11%N.
Definition GOLD : Address := 12%N.

Definition genesis_ledger : Ledger :=
  {[ (DEP, ALICE) := 1000000; (DEP, BOB) := 1000000; (REW, ADMIN) := 1000000000;
     (GOLD, ALICE) := 500000 ]}.

Definition genesis : Env := deployed VAULT genesis_ledger 1000.

(** Full rewards above half of the target, 80% below it; vesting in 100 s. *)
Definition tiers : list MultiplierPoint := [mkPoint 5000 8000; mkPoint 10000 10000].

Definition setup : list act :=
  [ ASign [ADMIN; ALICE; BOB];
    ACall (CInitialize ADMIN DEP REW 100 1000000 tiers) ].

Definition funded : list act :=
  setup ++ [ ACall (CDeposit ALICE 600000); ACall (CDeposit BOB 200000);
             ACall (CDistributeRewards 800000) ].

Definition staked : list act :=
  funded ++ [ ATime 1010; ACall (CLock ALICE 100000 500); ACall (CAddAsset ADMIN GOLD);
              ACall (CDepositAsset ALICE GOLD 400000);
              ACall (CDistributeRewardsForAsset ADMIN GOLD 400000); ATime 1060 ].

Definition at_setup : Env := play setup genesis.
Definition at_funded : Env := play funded genesis.
Definition at_staked : Env := play staked genesis.

Lemma genesis_reachable : reachable genesis.
Proof. exists genesis. split; [|apply rtc_refl]. repeat split; cbn; unfold u64_max; lia. Qed.

Lemma at_setup_reachable : reachable at_setup.
Proof. apply play_reachable; [apply genesis_reachable|]. vm_compute. reflexivity. Qed.

Lemma at_funded_reachable : reachable at_funded.
Proof. apply play_reachable; [apply genesis_reachable|]. vm_compute. reflexivity. Qed.

Lemma at_staked_reachable : reachable at_staked.
Proof. apply play_reachable; [apply genesis_reachable|]. vm_compute. reflexivity. Qed.
