(* ===== verification/VaultSafety.v ===== *)
(** Safety of the vault's money: deposits and rewards are backed by tokens the
    vault holds, totals add up, claims are always covered, and the contract
    refines the abstract reward pools. *)
From stdpp Require Import base gmap list strings sets relations.
From S2P Require Import Prelude VaultErrors VaultTypes Host HostModel VaultMath VaultEvents VaultStorage VaultAssets VaultContract RewardPool VaultFacts VaultRefine VaultAssetRefine VaultCalls VaultAdmin VaultSystem VaultInvariant VaultSpec VaultScenario.

(** *** Failing runs *)

Section errors.
Context `{HL : HostLaws}.
Implicit Types (e : Env) (u a : Address).

Lemma bindM_Err {A B} (m : M A) (f : A -> M B) e x e' :
  bindM m f e = Done (Err x) e' ->
  m e = Done (Err x) e' \/ exists r e1, m e = Done (Ok r) e1 /\ f r e1 = Done (Err x) e'.
Proof. unfold bindM. destruct (m e) as [[?|?] ?|]; naive_solver. Qed.

Lemma ok_or_error {A} (o : option A) (y x : VaultError) : ok_or o y = Err x -> x = y.
Proof. destruct o; cbn; naive_solver. Qed.

Lemma reads_Err {A} (m : M A) o e x e' : reads m o -> m e = Done (Err x) e' -> o e = Err x.
Proof. intros Hm He. by apply (reads_inv m o) in He as [<- ?]. Qed.

(** Failures of the contract's own bookkeeping: an inconsistent or missing
    state, or arithmetic out of range. *)
Definition bookkeeping_error (x : VaultError) : Prop := category x = State \/ category x = Math.

Lemma state_of_err e x : state_of e = Err x -> bookkeeping_error x.
Proof.
  unfold state_of. destruct (inited e); [|intros [= <-]; by left].
  intros Hs. repeat (apply bindR_Err in Hs as [Hs%ok_or_error|(? & _ & Hs)]; [subst; by left|]). done.
Qed.

Lemma position_of_err e u x : position_of e u = Err x -> bookkeeping_error x.
Proof. intros [->%ok_or_error|(? & _ & ?)]%bindR_Err; [by right|done]. Qed.

Lemma accrue_rewards_err now i p x : accrue_rewards now i p = Err x -> bookkeeping_error x.
Proof.
  unfold accrue_rewards, checked_accrued_rewards. intros Hx.
  destruct (_ || _); [done|]. destruct (_ >? 0); [|done].
  apply bindR_Err in Hx as [->%ok_or_error|(? & _ & Hx)]; [by right|].
  apply bindR_Err in Hx as [Hx|(? & _ & Hx)].
  - apply bindR_Err in Hx as [->%ok_or_error|(? & _ & ->%ok_or_error)]; by right.
  - destruct (_ >? 0); [|done]. apply bindR_Err in Hx as [->%ok_or_error|(? & _ & Hx)]; [by right|done].
Qed.

Lemma calculate_vested_rewards_err now p vp x :
  calculate_vested_rewards now p vp = Err x -> bookkeeping_error x.
Proof.
  unfold calculate_vested_rewards. intros Hx. repeat (destruct (_ : bool) in Hx; [done|]).
  repeat (apply bindR_Err in Hx as [->%ok_or_error|(? & _ & Hx)]; [by right|]). done.
Qed.

Lemma require_supported_err a e x e' :
  require_supported a e = Done (Err x) e' -> supported e a = false /\ x = InvalidAddress.
Proof.
  intros Hx. apply (reads_Err _ _ _ _ _ (require_supported_reads a)) in Hx.
  destruct (supported e a); [done|]. by injection Hx as <-.
Qed.

Lemma guard_fails e x e' :
  enter_non_reentrant e = Done (Err x) e' -> x = ReentrancyDetected.
Proof.
  unfold enter_non_reentrant, bindM. cbn. fold (guarded e).
  destruct (guarded e); cbn; [|done]. by intros [= <- _].
Qed.

(** A guarded body that fails left the guard with the same error. *)
Lemma with_non_reentrant_Err {T} (f : M T) e x e' :
  with_non_reentrant f e = Done (Err x) e' ->
  x = ReentrancyDetected \/ exists e1 e2, kframe guard_key e e1 /\ tokens e1 = tokens e /\
    f e1 = Done (Err x) e2.
Proof.
  intros Hr. unfold with_non_reentrant in Hr.
  destruct (enter_non_reentrant e) as [[[]|y] e1|] eqn:He; [|injection Hr as -> ->; left; by eapply guard_fails|done].
  unfold enter_non_reentrant, bindM in He. cbn in He. fold (guarded e) in He.
  destruct (guarded e); [done|]. injection He as <-. right.
  match type of Hr with match f ?x with _ => _ end = _ => destruct (f x) as [r2 e2|] eqn:Hf; [|done] end.
  injection Hr as -> <-. eexists _, e2. split; [|split; [|exact Hf]]; [|done].
  split; try done. intros k Hk. cbn. rewrite sget_sset_ne; [done|]. by intros <-.
Qed.
End errors.

(** Peel one bind off a failing run: either it fails here or later. *)
Ltac err_step H := apply bindM_Err in H as [H|(? & ? & ? & H)].

Section claims.
Context `{HL : HostLaws}.
Implicit Types (e : Env) (u a : Address).

Lemma store_claimable_rewards_err u e x e' :
  store_claimable_rewards u e = Done (Err x) e' -> bookkeeping_error x.
Proof.
  intros Hx. unfold store_claimable_rewards in Hx.
  err_step Hx; [apply (reads_Err _ _ _ _ _ get_state_reads) in Hx; by eapply state_of_err|].
  err_step Hx; [apply (reads_Err _ _ _ _ _ (get_user_position_reads u)) in Hx; by eapply position_of_err|].
  err_step Hx; [done|]. err_step Hx; [injection Hx as Hx _; by eapply accrue_rewards_err|].
  err_step Hx; [done|]. err_step Hx; [injection Hx as Hx _; by eapply calculate_vested_rewards_err|].
  err_step Hx; [injection Hx as ->%ok_or_error _; by right|]. err_step Hx; [|done].
  match goal with Hs : set_user_position ?v ?p ?s = _ |- _ =>
    destruct (set_user_position_run v p s) as [l E] end. congruence.
Qed.

Lemma store_asset_claimable_rewards_err u a e x e' :
  supported e a = true ->
  store_asset_claimable_rewards u a e = Done (Err x) e' -> bookkeeping_error x.
Proof.
  intros Hs Hx. unfold store_asset_claimable_rewards in Hx.
  err_step Hx; [apply require_supported_err in Hx as [? _]; congruence|]. asset_inv.
  err_step Hx; [apply (reads_Err _ _ _ _ _ get_state_reads) in Hx; by eapply state_of_err|].
  err_step Hx; [by apply (reads_Err _ _ _ _ _ (get_user_asset_position_reads u a)) in Hx|]. asset_inv.
  err_step Hx; [apply (reads_Err _ _ _ _ _ (get_asset_index_reads a)) in Hx|].
  { change (supported (with_lifetimes _ _) a) with (supported e a) in Hx.
    by destruct (supported e a). }
  err_step Hx; [done|]. err_step Hx; [injection Hx as Hx _; by eapply accrue_rewards_err|].
  err_step Hx; [done|]. err_step Hx; [injection Hx as Hx _; by eapply calculate_vested_rewards_err|].
  err_step Hx; [injection Hx as ->%ok_or_error _; by right|]. err_step Hx; [|done].
  match goal with Hw : set_user_asset_position ?v ?b ?p ?s = _ |- _ =>
    destruct (set_user_asset_position_run v b p s) as [l E] end. congruence.
Qed.
End claims.

Section safety.
Context `{HL : HostLaws}.
Implicit Types (e : Env) (u a t : Address).

(** What user [u] has earned and not been paid, vested or not. *)
Definition rewards_of e u : Z := earned (legacy_pool e) u.
Definition asset_rewards_of e a u : Z := earned (asset_pool e a) u.

Lemma funds_nonneg F0 Fa S e a : vault_inv F0 Fa S e -> 0 <= F0 /\ 0 <= Fa a /\ 0 <= atotal e a /\ 0 <= total e.
Proof.
  intros Hv. destruct (vi_legacy _ _ _ _ Hv) as [Hok _]. destruct (vi_assets _ _ _ _ Hv a) as [Hoka _].
  pose proof (pool_ok_funds_nonneg _ _ Hok). pose proof (pool_ok_funds_nonneg _ _ Hoka).
  pose proof (pool_ok_total _ _ Hok). pose proof (pool_ok_total _ _ Hoka). cbn in *. lia.
Qed.

Lemma asset_funds_le F0 Fa S e (f : Address -> Z) l :
  vault_inv F0 Fa S e -> NoDup l -> (forall a, f a <= Fa a) ->
  sumZ f l <= sumZ Fa (elements (dom (assets_of e))).
Proof.
  intros Hv Hl Hf. etransitivity; [apply sumZ_le; intros; apply Hf|].
  apply sumZ_cover; [done|apply NoDup_elements|intros; by apply (funds_nonneg F0 _ S e)|].
  intros a Ha. apply (vi_unsupported _ _ _ _ Hv). unfold supported. apply bool_decide_eq_false_2.
  intros Hs. apply Ha, elem_of_elements, elem_of_dom. done.
Qed.

Lemma rewards_held F0 Fa S e r :
  vault_inv F0 Fa S e -> multipliers_at_most_par (points e) -> reward_token_of e = Some r ->
  atotal e r + F0 + sumZ Fa (elements (dom (assets_of e))) <= holds e r.
Proof.
  intros Hv Hp Hr. pose proof (vi_solvent _ _ _ _ Hv r) as Hs.
  pose proof (proj2 (vi_excess _ _ _ _ Hv) Hp) as ->. revert Hs.
  unfold owed, is_reward_token, rewards_owed, when. rewrite Hr, bool_decide_eq_true_2 by done.
  pose proof (funds_nonneg _ _ _ _ r Hv). destruct (is_deposit_token e r); lia.
Qed.

(** C1. The vault holds every deposit: in any state the contract can reach, its
    balance of a token other than the reward token covers the legacy deposits
    (when it is the deposit token) and the asset deposits made in it. *)
Theorem deposits_backed e t :
  reachable e -> reward_token_of e <> Some t ->
  when (is_deposit_token e t) (total e) + atotal e t <= holds e t.
Proof.
  intros (F0 & Fa & S & Hv)%reachable_inv Hne. pose proof (vi_solvent _ _ _ _ Hv t) as Hs. revert Hs.
  unfold owed, is_reward_token. rewrite (bool_decide_eq_false_2 (reward_token_of e = Some t)) by done.
  cbn. lia.
Qed.

(** C2. The vault holds every reward it has credited: when no utilization
    multiplier exceeds 100%, its balance of the reward token covers the deposits
    made in that token and the unpaid rewards of all users, vested or not, in
    the legacy vault and in every asset. *)
Theorem rewards_backed e r us assets :
  reachable e -> multipliers_at_most_par (points e) -> reward_token_of e = Some r ->
  NoDup us -> NoDup assets ->
  atotal e r + sumZ (rewards_of e) us +
    sumZ (fun a => sumZ (asset_rewards_of e a) us) assets <= holds e r.
Proof.
  intros (F0 & Fa & S & Hv)%reachable_inv Hp Hr Hus Has.
  pose proof (rewards_held _ _ _ _ _ Hv Hp Hr) as Hh.
  destruct (vi_legacy _ _ _ _ Hv) as [Hok _]. pose proof (pool_ok_claims _ _ us Hok Hus) as Hl.
  assert (sumZ (fun a => sumZ (asset_rewards_of e a) us) assets <=
    sumZ Fa (elements (dom (assets_of e)))) as Ha.
  { eapply asset_funds_le; [done|done|]. intros a. destruct (vi_assets _ _ _ _ Hv a) as [Hoka _].
    apply (pool_ok_claims _ _ us Hoka Hus). }
  change (sumZ (rewards_of e) us <= F0) in Hl. lia.
Qed.

(** The amount a claim pays, computed in the guarded state [e1], is covered by
    the vault's reward tokens. *)
Lemma claim_covered F0 Fa S e e1 u v e' r :
  vault_inv F0 Fa S e -> multipliers_at_most_par (points e) -> reward_token_of e = Some r ->
  kframe guard_key e e1 -> store_claimable_rewards u e1 = Done (Ok v) e' -> v <= holds e r.
Proof.
  intros Hv Hp Hr Hk Hs. pose proof (rewards_held _ _ _ _ _ Hv Hp Hr) as Hh.
  assert (legacy_inv F0 e1) as Hl
    by (eapply legacy_inv_kframe; [apply guard_not_legacy|done|by eapply vi_legacy]).
  apply (store_claimable_rewards_sim F0) in Hs as (_ & _ & _ & Hvr & _);
    [|done|unfold vesting; rewrite (kf_inst _ _ _ Hk) by done; by eapply vi_vesting].
  pose proof (pool_ok_claimable _ _ u (proj1 Hl)) as Hc.
  pose proof (asset_funds_le _ _ _ _ (fun _ => 0) [] Hv ltac:(constructor)
    (fun a => proj1 (proj2 (funds_nonneg _ _ _ _ a Hv)))) as Hz.
  pose proof (funds_nonneg _ _ _ _ r Hv). cbn in *. lia.
Qed.

Lemma asset_claim_covered F0 Fa S e e1 u a v e' r :
  vault_inv F0 Fa S e -> multipliers_at_most_par (points e) -> reward_token_of e = Some r ->
  kframe guard_key e e1 -> store_asset_claimable_rewards u a e1 = Done (Ok v) e' -> v <= holds e r.
Proof.
  intros Hv Hp Hr Hk Hs. pose proof (rewards_held _ _ _ _ _ Hv Hp Hr) as Hh.
  assert (asset_inv (Fa a) e1 a) as Hl
    by (eapply asset_inv_kframe; [apply guard_not_asset|done|by eapply vi_assets]).
  apply (store_asset_claimable_rewards_sim (Fa a)) in Hs as (_ & _ & _ & _ & Hvr);
    [|done|unfold vesting; rewrite (kf_inst _ _ _ Hk) by done; by eapply vi_vesting].
  pose proof (pool_ok_claimable _ _ u (proj1 Hl)) as Hc.
  pose proof (asset_funds_le _ _ _ _ (fun b => when (bool_decide (b = a)) (Fa a)) [a] Hv
    ltac:(apply NoDup_singleton)
    ltac:(intros b; destruct (decide (b = a)) as [->|Hb];
      [rewrite bool_decide_eq_true_2 by done; done
      |rewrite bool_decide_eq_false_2 by done; by apply (funds_nonneg F0 _ S e)])) as Hz.
  pose proof (funds_nonneg _ _ _ _ r Hv). cbn in *.
  rewrite bool_decide_eq_true_2 in Hz by done. cbn in Hz. lia.
Qed.

(** The payment tail shared by the two claim entry points. *)
Lemma payout_err (amt : Z) u (emit : M unit) e x e' :
  (forall s y s', emit s <> Done (Err y) s') ->
  (forall r, reward_token_of e = Some r -> amt <= holds e r) ->
  (if amt <=? 0 then retM 0 else
   let! reward_token_id := get_reward_token in
   let! this := current_contract in
   let! bal := token_client_balance reward_token_id this in
   let! _ := liftR (ensure_contract_balance bal amt) in
   let! _ := transfer reward_token_id this u amt in
   let! _ := emit in
   retM amt) e = Done (Err x) e' -> bookkeeping_error x.
Proof.
  intros Hemit Hcov Hx. destruct (amt <=? 0); [done|].
  err_step Hx.
  { unfold get_reward_token in Hx. err_step Hx; [|done].
    apply (reads_Err _ _ _ _ _ get_state_reads) in Hx. by eapply state_of_err. }
  call_inv. match goal with Hs : state_of e = Ok _ |- _ =>
    pose proof (state_tokens _ _ Hs) as (_ & Hrt & _) end. subst.
  err_step Hx; [done|]. call_inv. err_step Hx; [done|]. call_inv.
  err_step Hx.
  { exfalso. injection Hx as Hx _. unfold ensure_contract_balance in Hx.
    specialize (Hcov _ Hrt). unfold holds in Hcov.
    destruct (_ <? amt) eqn:E in Hx; [|done]. bool_to_prop. lia. }
  call_inv. err_step Hx.
  { unfold transfer in Hx. by destruct (token_transfer _ _ _ _ _). }
  err_step Hx; [by apply Hemit in Hx|done].
Qed.

Lemma claim_rewards_err F0 Fa S u e x e' :
  vault_inv F0 Fa S e -> multipliers_at_most_par (points e) ->
  claim_rewards u e = Done (Err x) e' -> bookkeeping_error x \/ category x = Authorization.
Proof.
  intros Hv Hp Hx. unfold claim_rewards in Hx.
  err_step Hx. { apply (reads_Err _ _ _ _ _ require_not_paused_reads) in Hx.
    destruct (paused e); [injection Hx as <-; by right|done]. }
  err_step Hx. { apply (reads_Err _ _ _ _ _ require_initialized_reads) in Hx.
    destruct (inited _); [done|injection Hx as <-; by left; left]. }
  err_step Hx. { unfold require_auth in Hx. by destruct (authorized _ _). }
  call_inv. apply with_non_reentrant_Err in Hx as [->|(e1 & e2 & Hk & Ht & Hx)]; [by right|].
  left. err_step Hx; [by eapply store_claimable_rewards_err|].
  assert (kframe guard_key e e1) as Hk' by (destruct Hk; by split).
  match goal with Hs : store_claimable_rewards _ _ = Done (Ok ?v) ?s |- _ =>
    assert (frame legacy_key e1 s) as Hf end.
  { eapply (store_claimable_rewards_sim F0); [..|eassumption].
    - eapply legacy_inv_kframe; [apply guard_not_legacy|done|by eapply vi_legacy].
    - unfold vesting. rewrite (kf_inst _ _ _ Hk') by done. by eapply vi_vesting. }
  eapply payout_err; [| |exact Hx]; [by intros ? ? ? ?|].
  intros r. unfold reward_token_of. rewrite (fr_inst _ _ _ Hf), (kf_inst _ _ _ Hk') by done.
  intros Hr. unfold holds. rewrite (fr_tokens _ _ _ Hf), (fr_this _ _ _ Hf), (kf_this _ _ _ Hk'), Ht.
  by eapply (claim_covered F0 Fa S e e1).
Qed.

Lemma claim_rewards_for_asset_err F0 Fa S u a e x e' :
  vault_inv F0 Fa S e -> multipliers_at_most_par (points e) ->
  claim_rewards_for_asset u a e = Done (Err x) e' ->
  bookkeeping_error x \/ category x = Authorization \/ x = InvalidAddress.
Proof.
  intros Hv Hp Hx. unfold claim_rewards_for_asset in Hx.
  err_step Hx. { apply (reads_Err _ _ _ _ _ require_not_paused_reads) in Hx.
    destruct (paused e); [injection Hx as <-; by right; left|done]. }
  err_step Hx. { apply (reads_Err _ _ _ _ _ require_initialized_reads) in Hx.
    destruct (inited _); [done|injection Hx as <-; by left; left]. }
  err_step Hx. { unfold require_auth in Hx. by destruct (authorized _ _). }
  call_inv. err_step Hx; [apply require_supported_err in Hx as [_ ->]; by right; right|]. call_inv.
  apply with_non_reentrant_Err in Hx as [->|(e1 & e2 & Hk & Ht & Hx)]; [by right; left|].
  left. assert (kframe guard_key e e1) as Hk' by (destruct Hk; by split).
  assert (supported e1 a = true) as Hsup by (by rewrite (supported_kframe guard_key e e1)).
  err_step Hx; [by eapply store_asset_claimable_rewards_err|].
  match goal with Hs : store_asset_claimable_rewards _ _ _ = Done (Ok ?v) ?s |- _ =>
    assert (frame (asset_key a) e1 s) as Hf end.
  { eapply (store_asset_claimable_rewards_sim (Fa a)); [..|eassumption].
    - eapply asset_inv_kframe; [apply guard_not_asset|done|by eapply vi_assets].
    - unfold vesting. rewrite (kf_inst _ _ _ Hk') by done. by eapply vi_vesting. }
  eapply payout_err; [| |exact Hx]; [by intros ? ? ? ?|].
  intros r. unfold reward_token_of. rewrite (fr_inst _ _ _ Hf), (kf_inst _ _ _ Hk') by done.
  intros Hr. unfold holds. rewrite (fr_tokens _ _ _ Hf), (fr_this _ _ _ Hf), (kf_this _ _ _ Hk'), Ht.
  by eapply (asset_claim_covered F0 Fa S e e1).
Qed.

(** C3. A claim is never refused for lack of funds: with multipliers of at most
    100%, neither claim entry point ever returns InsufficientContractBalance in
    a reachable state. *)
Theorem claims_funded e u :
  reachable e -> multipliers_at_most_par (points e) ->
  (forall e', claim_rewards u e <> Done (Err InsufficientContractBalance) e') /\
  (forall a e', claim_rewards_for_asset u a e <> Done (Err InsufficientContractBalance) e').
Proof.
  intros (F0 & Fa & S & Hv)%reachable_inv Hp. split.
  - intros e' Hx. apply (claim_rewards_err F0 Fa S) in Hx as [[?|?]|?]; done.
  - intros a e' Hx. apply (claim_rewards_for_asset_err F0 Fa S) in Hx as [[?|?]|[?|Hs]]; done.
Qed.
End safety.

(** *** Witnesses *)

Lemma tiers_par : multipliers_at_most_par (points at_staked).
Proof.
  assert (points at_staked = tiers) as -> by (vm_compute; reflexivity).
  repeat (apply Forall_cons_2; [cbn; lia|]). apply Forall_nil_2.
Qed.

Lemma deposits_backed_witness :
  total at_staked = 800000 /\
  when (is_deposit_token at_staked DEP) (total at_staked) + atotal at_staked DEP <=
    holds at_staked DEP.
Proof.
  split; [vm_compute; reflexivity|].
  apply (deposits_backed at_staked DEP at_staked_reachable). vm_compute. discriminate.
Defined.

Lemma rewards_backed_witness :
  rewards_of at_staked ALICE = 600000 /\
  atotal at_staked REW + sumZ (rewards_of at_staked) [ALICE; BOB] +
    sumZ (fun a => sumZ (asset_rewards_of at_staked a) [ALICE; BOB]) [GOLD] <= holds at_staked REW.
Proof.
  split; [vm_compute; reflexivity|].
  apply (rewards_backed at_staked REW [ALICE; BOB] [GOLD] at_staked_reachable tiers_par).
  - vm_compute. reflexivity.
  - apply (bool_decide_unpack _). vm_compute. exact I.
  - apply (bool_decide_unpack _). vm_compute. exact I.
Defined.

Lemma claims_funded_witness :
  result_of (claim_rewards ALICE) at_staked = Some 300000 /\
  (forall e', claim_rewards ALICE at_staked <> Done (Err InsufficientContractBalance) e') /\
  (forall a e', claim_rewards_for_asset ALICE a at_staked <>
     Done (Err InsufficientContractBalance) e').
Proof.
  split; [vm_compute; reflexivity|]. exact (claims_funded at_staked ALICE at_staked_reachable tiers_par).
Defined.
