(* ===== verification/VaultAccounts.v ===== *)
(** The accounts of the vault: totals are sums of balances, views report exact
    balances, each call is one transition of the abstract pools, locked funds
    stay, and only the owner's signature takes money out of an account. *)
From stdpp Require Import base gmap list strings sets relations.
From S2P Require Import Prelude VaultErrors VaultTypes Host HostModel VaultMath VaultEvents VaultStorage VaultAssets VaultContract RewardPool VaultFacts VaultRefine VaultAssetRefine VaultCalls VaultAdmin VaultSystem VaultInvariant VaultSpec VaultScenario VaultSafety.

Section accounts.
Context `{HL : HostLaws}.
Implicit Types (e : Env) (u a t v : Address).

(** C4. The books add up: in every reachable state finitely many users hold all
    deposits and the stored totals are exactly their sums, for the legacy vault
    and for each asset; no liquid balance is negative and every lock is
    positive. *)
Theorem totals_are_sums e :
  reachable e ->
  (exists us, NoDup us /\ (forall u, u ∉ us -> user_balance e u = 0) /\
     total e = sumZ (user_balance e) us) /\
  (forall u, 0 <= liquid e u /\ Forall (fun l => 0 < lock_amount l) (locks_of e u)) /\
  (forall a, exists us, NoDup us /\ (forall u, u ∉ us -> abal e a u = 0) /\
     atotal e a = sumZ (abal e a) us).
Proof.
  intros (F0 & Fa & S & Hv)%reachable_inv. destruct (vi_legacy _ _ _ _ Hv) as [[us Hok] Hwf].
  split; [|split].
  - exists us. split; [apply Hok|]. split; [intros u Hu; by apply (po_cover _ _ _ Hok)|apply Hok].
  - intros u. destruct (Hwf u) as (? & _ & ?). done.
  - intros a. destruct (vi_assets _ _ _ _ Hv a) as [[us' Hok'] _]. exists us'.
    split; [apply Hok'|]. split; [intros u Hu; by apply (po_cover _ _ _ Hok')|apply Hok'].
Qed.

Lemma legacy_inv_lifetimes F l e : legacy_inv F e -> legacy_inv F (with_lifetimes l e).
Proof. by apply (legacy_inv_kframe (fun _ => false)). Qed.

(** The views are exact: once initialized, in every reachable state the
    balance, liquid balance and total views succeed, return the stored amounts
    without overflow or wrap-around, and change nothing but entry lifetimes. *)
Theorem views_exact e u :
  reachable e -> inited e = true ->
  (exists l, balance_view u e = Done (Ok (user_balance e u)) (with_lifetimes l e)) /\
  (exists l, liquid_balance u e = Done (Ok (liquid e u)) (with_lifetimes l e)) /\
  (exists l, total_deposits_view e = Done (Ok (total e)) (with_lifetimes l e)).
Proof.
  intros (F0 & Fa & S & Hv)%reachable_inv Hi. split; [|split].
  - unfold balance_view, get_user_balance, get_user_position.
    destruct (require_initialized_reads e) as [l1 H1]. rewrite Hi in H1.
    destruct (get_user_position_reads u (with_lifetimes l1 e)) as [l2 H2].
    rewrite (position_of_exact F0) in H2 by (by apply legacy_inv_lifetimes; eapply vi_legacy).
    exists l2. erewrite bindM_step; [|erewrite bindM_step by exact H1; exact H2]. done.
  - unfold liquid_balance, get_liquid_balance. destruct (require_initialized_reads e) as [l1 H1].
    rewrite Hi in H1. destruct (get_liquid_balance_reads u (with_lifetimes l1 e)) as [l2 H2].
    exists l2. by erewrite bindM_step by exact H1.
  - unfold total_deposits_view, get_total_deposits. destruct (get_state_reads e) as [l H1].
    destruct (vi_config _ _ _ _ Hv Hi) as ([adm Ha] & d & r & Hd & Hr & _).
    unfold admin_of, deposit_token_of, reward_token_of in *.
    unfold state_of in H1. rewrite Hi, Ha, Hd, Hr in H1. cbn in H1. exists l.
    by erewrite bindM_step by exact H1.
Qed.

(** C5. The contract refines the abstract reward pools: every committed call is
    the transition of the legacy pool its label names, and for each asset the
    transition of that asset's pool - in particular a call on one asset leaves
    every other asset and the legacy vault as they were. *)
Theorem calls_refine_pools e c e' :
  reachable e -> authorized e (current_contract_address e) = false ->
  run_call c e = Done (Ok tt) e' ->
  (exists lb, legacy_label e c lb /\ pool_step (legacy_pool e) lb (legacy_pool e')) /\
  (forall a, exists lb, asset_label a c lb /\ pool_step (asset_pool e a) lb (asset_pool e' a)).
Proof.
  intros (F0 & Fa & S & Hv)%reachable_inv Hn Hr. split.
  - by eapply call_legacy_step.
  - intros a. by eapply call_asset_step.
Qed.

(** *** Locks *)

Definition still_locked e u : Z :=
  sumZ lock_amount (filter (fun l => timestamp e < unlock_timestamp l) (locks_of e u)).

Lemma locked_part_le (now : Z) (ls released kept : list Lock) :
  Permutation ls (released ++ kept) ->
  Forall (fun l => unlock_timestamp l <= now) released -> Forall (fun l => 0 < lock_amount l) kept ->
  sumZ lock_amount (filter (fun l => now < unlock_timestamp l) ls) <= sumZ lock_amount kept.
Proof.
  intros Hp Hexp Hpos. rewrite (sumZ_perm _ _ _ (filter_Permutation _ _ _ Hp)), filter_app, sumZ_app.
  assert (filter (fun l => now < unlock_timestamp l) released = []) as ->.
  { clear Hp. induction Hexp as [|l ls' Hl _ IH]; [done|]. rewrite filter_cons_False by lia. done. }
  clear Hp. cbn. induction Hpos as [|l ls' Hl _ IH]; [done|].
  destruct (decide (now < unlock_timestamp l)).
  - rewrite filter_cons_True by done. rewrite !sumZ_cons. lia.
  - rewrite filter_cons_False by done. rewrite sumZ_cons. lia.
Qed.

(** C6. Locked funds stay: a withdrawal takes the amount from the user's own
    balance and leaves at least everything still locked; nobody else's balance
    changes. *)
Theorem withdraw_respects_locks e u x r e' :
  reachable e -> authorized e (current_contract_address e) = false ->
  withdraw u x e = Done (Ok r) e' ->
  0 < x /\ x + still_locked e u <= user_balance e u /\
  user_balance e' u = user_balance e u - x /\
  (forall v, v <> u -> user_balance e' v = user_balance e v).
Proof.
  intros (F0 & Fa & S & Hv)%reachable_inv Hn Hr. pose proof (vi_legacy _ _ _ _ Hv) as Hl.
  pose proof Hr as Hr'. apply (withdraw_sim _ Hn F0) in Hr' as (Hx & Hc & _); [|done].
  pose proof (fun v => pool_step_balance _ _ _ v (lc_step _ _ _ Hc)) as Hbal.
  cbn in Hbal. split; [done|]. split; [|split].
  - apply withdraw_Ok in Hr as (_ & _ & _ & st & e1 & e2 & rr & Hs & Hg & _).
    apply (store_withdraw_sim F0) in Hs as (_ & _ & _ & _ & released & e3 & Hun & Hamt & _);
      [|by eapply guarded_legacy_inv|done].
    pose proof (gr_enter _ _ _ _ Hg) as Hin. unfold still_locked.
    assert (locks_of e1 u = locks_of e u /\ liquid e1 u = liquid e u) as [Hlk Hlq]
      by (unfold locks_of, liquid; by rewrite !(kf_pers _ _ _ Hin) by done).
    pose proof (locked_part_le (timestamp e) _ _ _ (un_locks _ _ _ _ _ _ Hun)) as Hle.
    pose proof (un_expired _ _ _ _ _ _ Hun) as Hexp. rewrite (kf_time _ _ _ Hin) in Hexp.
    specialize (Hle Hexp (proj2 (proj2 (un_wf _ _ _ _ _ _ Hun u)))). rewrite Hlk in Hle.
    unfold user_balance. rewrite <- Hlk, (sumZ_perm _ _ _ (un_locks _ _ _ _ _ _ Hun)), sumZ_app.
    rewrite Hlk. lia.
  - rewrite Hbal. rewrite decide_True by done. lia.
  - intros v Hne. rewrite Hbal. rewrite decide_False by congruence. lia.
Qed.

(** *** Deposits and withdrawals as token movements *)

Lemma deposit_moves F u x e r e' :
  legacy_inv F e -> deposit u x e = Done (Ok r) e' ->
  authorized e u = true /\ exists st, state_of e = Ok st /\
    token_transfer (deposit_token st) u (current_contract_address e) x (tokens e) = Some (tokens e').
Proof.
  intros Hinv Hr.
  apply deposit_Ok in Hr as (_ & Hx & Hau & st & e1 & e2 & rr & Hs & Hg & Hst & Ht & Htk & _).
  apply (store_deposit_sim F) in Hs as (_ & _ & Hf & _); [|by eapply guarded_legacy_inv|done].
  split; [done|]. exists st. split; [done|]. by rewrite Htk, (fr_tokens _ _ _ Hf).
Qed.

Lemma withdraw_moves F u x e r e' :
  legacy_inv F e -> withdraw u x e = Done (Ok r) e' ->
  authorized e u = true /\ exists st, state_of e = Ok st /\
    token_transfer (deposit_token st) (current_contract_address e) u x (tokens e) = Some (tokens e').
Proof.
  intros Hinv Hr.
  apply withdraw_Ok in Hr as (_ & Hx & Hau & st & e1 & e2 & rr & Hs & Hg & Hst & Ht & Htk & _).
  apply (store_withdraw_sim F) in Hs as (_ & _ & Hf & _); [|by eapply guarded_legacy_inv|done].
  split; [done|]. exists st. split; [done|].
  by rewrite <- Htk, <- (fr_tokens _ _ _ Hf), <- (kf_this _ _ _ (gr_enter _ _ _ _ Hg)),
    <- (fr_this _ _ _ Hf).
Qed.

Lemma transfer_back t a b x ts ts1 ts2 :
  a <> b -> token_transfer t a b x ts = Some ts1 -> token_transfer t b a x ts1 = Some ts2 ->
  forall t' c, token_balance t' c ts2 = token_balance t' c ts.
Proof.
  intros Hab H1 H2 t' c.
  destruct (transfer_moves _ _ _ _ _ _ H1 Hab) as [Ha1 Hb1].
  destruct (transfer_moves _ _ _ _ _ _ H2 (not_eq_sym Hab)) as [Hb2 Ha2].
  destruct (decide (t' = t)) as [->|Ht].
  - destruct (decide (c = a)) as [->|Hca]; [lia|]. destruct (decide (c = b)) as [->|Hcb]; [lia|].
    rewrite (transfer_frame _ _ _ _ _ _ t c H2) by auto. by apply (transfer_frame _ _ _ _ _ _ _ _ H1); auto.
  - rewrite (transfer_frame _ _ _ _ _ _ t' c H2) by auto. by apply (transfer_frame _ _ _ _ _ _ _ _ H1); auto.
Qed.

(** C7. Deposit and withdraw are inverse: withdrawing what was just deposited
    restores every user's balance and unpaid rewards, the total, and every
    token balance of every account. *)
Theorem deposit_withdraw_roundtrip e u x r1 e1 r2 e2 :
  reachable e -> authorized e (current_contract_address e) = false ->
  deposit u x e = Done (Ok r1) e1 ->
  authorized e1 (current_contract_address e1) = false ->
  withdraw u x e1 = Done (Ok r2) e2 ->
  (forall v, user_balance e2 v = user_balance e v /\ rewards_of e2 v = rewards_of e v) /\
  total e2 = total e /\
  (forall t v, token_balance t v (tokens e2) = token_balance t v (tokens e)).
Proof.
  intros (F0 & Fa & S & Hv)%reachable_inv Hn Hd Hn1 Hw. pose proof (vi_legacy _ _ _ _ Hv) as Hl.
  destruct (deposit_moves _ _ _ _ _ _ Hl Hd) as (Hau & st & Hst & Ht1). destruct r1.
  destruct (deposit_preserves _ _ _ _ _ Hv Hn _ _ Hd) as (F1 & Fa1 & S1 & Hv1).
  pose proof (vi_legacy _ _ _ _ Hv1) as Hl1.
  destruct (withdraw_moves _ _ _ _ _ _ Hl1 Hw) as (_ & st1 & Hst1 & Ht2).
  apply (deposit_sim _ Hn F0) in Hd as (_ & [_ _ _ Hs1 _ Hf1] & _); [|done].
  apply (withdraw_sim _ Hn1 F1) in Hw as (_ & [_ _ _ Hs2 _ Hf2] & _); [|done].
  split; [|split].
  - intros v. split.
    + pose proof (pool_step_balance _ _ _ v Hs1) as B1. pose proof (pool_step_balance _ _ _ v Hs2) as B2.
      cbn in *. destruct (decide (u = v)); lia.
    + unfold rewards_of. rewrite (pool_step_earned_same _ _ _ _ Hs2) by done.
      by apply (pool_step_earned_same _ _ _ _ Hs1).
  - pose proof (pool_step_total _ _ _ Hs1). pose proof (pool_step_total _ _ _ Hs2). cbn in *. lia.
  - pose proof (state_tokens _ _ Hst) as (Ed & _). pose proof (state_tokens _ _ Hst1) as (Ed1 & _).
    unfold deposit_token_of in *. rewrite (kf_inst _ _ _ Hf1) in Ed1 by done.
    assert (deposit_token st1 = deposit_token st) as E by congruence.
    rewrite E, (kf_this _ _ _ Hf1) in Ht2. eapply transfer_back; [|exact Ht1|exact Ht2].
    by apply signer_not_this.
Qed.

(** *** Who takes money out *)

Lemma lower_balance_withdraw p lb q v :
  pool_step p lb q -> p_bal q v < p_bal p v -> exists x, lb = LWithdraw v x.
Proof.
  intros Hs Hlt. pose proof (pool_step_balance _ _ _ v Hs) as Hb.
  destruct Hs as [u x q Hx _ Hq|u x q _ _ Hq|u q Hq|x inc q Hinc _ Hi Hf|u x q _ Hq|q Hq]; cbn in Hb; try lia.
  - destruct (decide (u = v)); lia.
  - destruct (decide (u = v)) as [->|]; [eauto|lia].
Qed.

Lemma lower_earned_claim F p lb q v :
  pool_ok F p -> pool_step p lb q -> earned q v < earned p v -> exists paid, lb = LClaim v paid.
Proof.
  intros Hok Hs Hlt. destruct (pool_step_earned F _ _ _ v Hok Hs) as [(paid & -> & _)|[_ ?]]; [eauto|lia].
Qed.

(** C8. Only the owner takes money out: if a committed call lowers a user's
    balance, of the legacy vault or of an asset, it is that user's own withdrawal
    from it; if it lowers a user's unpaid rewards, of the legacy vault or of an
    asset, it is that user's own claim on it - and in each case the user signed. *)
Theorem only_owner_takes_out e c e' v :
  reachable e -> authorized e (current_contract_address e) = false ->
  run_call c e = Done (Ok tt) e' ->
  (user_balance e' v < user_balance e v -> (exists x, c = CWithdraw v x) /\ authorized e v = true) /\
  (rewards_of e' v < rewards_of e v -> c = CClaimRewards v /\ authorized e v = true) /\
  (forall a, abal e' a v < abal e a v -> (exists x, c = CWithdrawAsset v a x) /\ authorized e v = true) /\
  (forall a, asset_rewards_of e' a v < asset_rewards_of e a v ->
     c = CClaimRewardsForAsset v a /\ authorized e v = true).
Proof.
  intros (F0 & Fa & S & Hv)%reachable_inv Hn Hr.
  destruct (call_legacy_step _ _ _ _ _ Hv Hn _ Hr) as (lb & Hlb & Hs).
  pose proof (fun a => call_asset_step _ _ _ _ _ Hv Hn _ a Hr) as Ha.
  pose proof (vi_legacy _ _ _ _ Hv) as [Hok _]. split_and!; [intros Hlt..|intros a Hlt|intros a Hlt].
  - destruct (lower_balance_withdraw _ _ _ _ Hs Hlt) as [x ->]. inversion Hlb; subst. split; [eauto|].
    by apply withdraw_Ok in Hr as (_ & _ & ? & _).
  - destruct (lower_earned_claim _ _ _ _ _ Hok Hs Hlt) as [x ->]. inversion Hlb; subst. split; [done|].
    apply bindM_Ok in Hr as (? & ? & Hr & _). by apply claim_rewards_Ok in Hr as (_ & ? & _).
  - destruct (Ha a) as (lb' & Hlb' & Hs'). destruct (lower_balance_withdraw _ _ _ _ Hs' Hlt) as [x ->].
    inversion Hlb'; subst. split; [eauto|]. by apply withdraw_asset_Ok in Hr as (_ & _ & _ & ? & _).
  - destruct (Ha a) as (lb' & Hlb' & Hs'). pose proof (vi_assets _ _ _ _ Hv a) as [Hoka _].
    destruct (lower_earned_claim _ _ _ _ _ Hoka Hs' Hlt) as [x ->]. inversion Hlb'; subst. split; [done|].
    apply bindM_Ok in Hr as (? & ? & Hr & _). by apply claim_rewards_for_asset_Ok in Hr as (_ & ? & _).
Qed.

(** The reward index never decreases, whatever step the ledger takes. *)
Theorem reward_index_monotone e e' :
  reachable e -> vstep e e' -> gindex e <= gindex e' /\ forall a, aindex e a <= aindex e' a.
Proof.
  intros (F0 & Fa & S & Hv)%reachable_inv [auth|c Hn _ _|t _|ts _]; try done.
  unfold invoke. destruct (run_call c e) as [[[]|?] e1|] eqn:Hr; try done.
  destruct (call_legacy_step _ _ _ _ _ Hv Hn _ Hr) as (lb & _ & Hs). split.
  - exact (pool_step_index _ _ _ Hs).
  - intros a. destruct (call_asset_step _ _ _ _ _ Hv Hn _ a Hr) as (lb' & _ & Hs').
    exact (pool_step_index _ _ _ Hs').
Qed.
End accounts.

(** *** Witnesses *)

Lemma totals_are_sums_witness :
  total at_staked = 800000 /\ atotal at_staked GOLD = 400000 /\
  (exists us, NoDup us /\ (forall u, u ∉ us -> user_balance at_staked u = 0) /\
     total at_staked = sumZ (user_balance at_staked) us).
Proof.
  split; [vm_compute; reflexivity|]. split; [vm_compute; reflexivity|].
  exact (proj1 (totals_are_sums at_staked at_staked_reachable)).
Defined.

Lemma views_exact_witness :
  user_balance at_staked ALICE = 600000 /\
  (exists l, balance_view ALICE at_staked =
     Done (Ok (user_balance at_staked ALICE)) (with_lifetimes l at_staked)).
Proof.
  split; [vm_compute; reflexivity|].
  refine (proj1 (views_exact at_staked ALICE at_staked_reachable _)). vm_compute. reflexivity.
Defined.

Lemma calls_refine_pools_witness :
  (exists lb, legacy_label at_staked (CWithdraw ALICE 500000) lb /\
     pool_step (legacy_pool at_staked) lb
       (legacy_pool (invoke (run_call (CWithdraw ALICE 500000)) at_staked))).
Proof.
  refine (proj1 (calls_refine_pools at_staked (CWithdraw ALICE 500000) _ at_staked_reachable _ _)).
  - vm_compute. reflexivity.
  - apply result_of_run. vm_compute. reflexivity.
Defined.

Lemma withdraw_respects_locks_witness :
  still_locked at_staked ALICE = 100000 /\
  500000 + still_locked at_staked ALICE <= user_balance at_staked ALICE.
Proof.
  split; [vm_compute; reflexivity|].
  refine (proj1 (proj2 (withdraw_respects_locks at_staked ALICE 500000 tt _ at_staked_reachable _ _))).
  - vm_compute. reflexivity.
  - apply result_of_run. vm_compute. reflexivity.
Defined.

Lemma deposit_withdraw_roundtrip_witness :
  let e1 := invoke (deposit ALICE 1000) at_staked in
  total (invoke (withdraw ALICE 1000) e1) = total at_staked.
Proof.
  refine (proj1 (proj2 (deposit_withdraw_roundtrip at_staked ALICE 1000 tt
    (invoke (deposit ALICE 1000) at_staked) tt
    (invoke (withdraw ALICE 1000) (invoke (deposit ALICE 1000) at_staked))
    at_staked_reachable _ _ _ _))).
  - vm_compute. reflexivity.
  - apply result_of_run. vm_compute. reflexivity.
  - vm_compute. reflexivity.
  - apply result_of_run. vm_compute. reflexivity.
Defined.

Lemma only_owner_takes_out_witness :
  let e' := invoke (run_call (CWithdraw ALICE 500000)) at_staked in
  let e2 := invoke (run_call (CWithdrawAsset ALICE GOLD 1000)) at_staked in
  (user_balance e' ALICE < user_balance at_staked ALICE /\ authorized at_staked ALICE = true) /\
  (abal e2 GOLD ALICE < abal at_staked GOLD ALICE /\
   exists x, CWithdrawAsset ALICE GOLD 1000 = CWithdrawAsset ALICE GOLD x).
Proof.
  split; (split; [vm_compute; reflexivity|]).
  - refine (proj2 (proj1 (only_owner_takes_out at_staked (CWithdraw ALICE 500000) _ ALICE
      at_staked_reachable _ _) _)); [|apply result_of_run|]; vm_compute; reflexivity.
  - refine (proj1 (proj1 (proj2 (proj2 (only_owner_takes_out at_staked (CWithdrawAsset ALICE GOLD 1000) _ ALICE
      at_staked_reachable _ _))) GOLD _)); [|apply result_of_run|]; vm_compute; reflexivity.
Defined.

Lemma reward_index_monotone_witness :
  gindex at_setup <= gindex (do_act (ACall (CDeposit ALICE 600000)) at_setup).
Proof.
  refine (proj1 (reward_index_monotone at_setup _ at_setup_reachable _)).
  apply act_step. vm_compute. reflexivity.
Defined.
