(* ===== verification/VaultAccess.v ===== *)
(** Who may do what: pausing, the two-step admin transfer, initialization and
    the fixed configuration, the reentrancy guard, upgrades and the storage the
    upgraded contract reads. *)
From stdpp Require Import base gmap list strings sets relations.
From S2P Require Import Prelude VaultErrors VaultTypes Host HostModel VaultMath VaultEvents VaultStorage VaultAssets VaultContract RewardPool VaultFacts VaultRefine VaultAssetRefine VaultCalls VaultAdmin VaultSystem VaultInvariant VaultSpec VaultScenario VaultSafety.

(** The entry points that check [require_not_paused]. *)
Definition pausable (c : call) : bool :=
  match c with
  | CInitialize _ _ _ _ _ _ | CDeposit _ _ | CWithdraw _ _ | CLock _ _ _ | CUnlockExpired _ _
  | CClaimRewards _ | CDepositAsset _ _ _ | CWithdrawAsset _ _ _ | CClaimRewardsForAsset _ _ => true
  | _ => false
  end.

Section access.
Context `{HL : HostLaws}.
Implicit Types (e : Env) (u a t v : Address).

Lemma require_not_paused_blocks {A} (k : M A) e :
  paused e = true -> bindM require_not_paused (fun _ => k) e = Done (Err Unauthorized) e.
Proof.
  intros Hp. unfold require_not_paused, bindM. cbn. fold (paused e). by rewrite Hp.
Qed.

(** While the contract is paused every user operation is refused with
    Unauthorized and leaves the environment as it was. *)
Theorem pause_blocks_users e c :
  paused e = true -> pausable c = true -> run_call c e = Done (Err Unauthorized) e.
Proof.
  intros Hp Hc. destruct c; try done; cbn [run_call]; try (by apply require_not_paused_blocks);
    unfold unlock_expired, claim_rewards, claim_rewards_for_asset;
    erewrite bindM_fail; [done| |done| |done|]; by apply require_not_paused_blocks.
Qed.

(** C9. The admin changes only by the two-step transfer: a committed call that
    changes the admin of an initialized vault is the acceptance, signed by the
    address the previous admin had proposed; and only a call signed by the
    admin proposes one. *)
Theorem admin_two_step e c e' :
  reachable e -> authorized e (current_contract_address e) = false -> inited e = true ->
  run_call c e = Done (Ok tt) e' ->
  (admin_of e' <> admin_of e -> exists new, c = CAcceptAdmin new /\ pending_of e = Some new /\
     authorized e new = true /\ admin_of e' = Some new /\ pending_of e' = None) /\
  (forall new, pending_of e' = Some new -> pending_of e <> Some new ->
     c = CProposeNewAdmin new /\ exists adm, admin_of e = Some adm /\ authorized e adm = true).
Proof.
  intros (F0 & Fa & S & Hv)%reachable_inv Hn Hi Hr. pose proof (call_frame _ _ _ _ _ Hv Hn c Hr) as Hf.
  unfold admin_of, pending_of. split.
  - intros Hne. destruct c; try (exfalso; apply Hne; exact (kf_inst _ _ _ Hf Admin eq_refl));
      cbn [run_call] in Hr.
    + by apply initialize_Ok in Hr as (_ & Hi' & _); congruence.
    + apply accept_admin_Ok in Hr as (st & _ & Hau & Hp & [Ci _ _ _ _] & _). eexists.
      split; [done|]. rewrite Ci. split; [done|]. split; [done|].
      by rewrite sget_sremove_ne, sget_sset_eq, sget_sremove_eq.
  - intros new Hp Hold. destruct c; try (exfalso; apply Hold; rewrite <- Hp; symmetry;
      exact (kf_inst _ _ _ Hf PendingAdmin eq_refl)); cbn [run_call] in Hr.
    + by apply initialize_Ok in Hr as (_ & Hi' & _); congruence.
    + apply propose_new_admin_Ok in Hr as (st & Hst & Hau & [Ci _ _ _ _] & _).
      rewrite Ci, sget_sset_eq in Hp. injection Hp as ->. split; [done|].
      exists (admin st). split; [|done]. by apply state_of_Ok in Hst as (_ & ? & _).
    + apply accept_admin_Ok in Hr as (st & _ & _ & _ & [Ci _ _ _ _] & _).
      by rewrite Ci, sget_sremove_eq in Hp.
Qed.

(** The configuration [initialize] writes once. *)
Definition config_of e :=
  (inited e, deposit_token_of e, reward_token_of e, vesting e, target e, points e).

Lemma config_step F0 Fa S e e' :
  vault_inv F0 Fa S e -> inited e = true -> vstep e e' -> config_of e' = config_of e.
Proof.
  intros Hv Hi [auth|c Hn _ _|t _|ts _]; try done.
  unfold invoke. destruct (run_call c e) as [[[]|?] e1|] eqn:Hr; try done.
  pose proof (call_frame _ _ _ _ _ Hv Hn c Hr) as Hf.
  unfold config_of, inited, deposit_token_of, reward_token_of, vesting, target, points.
  destruct c; try (by rewrite !(kf_inst _ _ _ Hf) by done).
  apply initialize_Ok in Hr as (_ & Hi' & _). congruence.
Qed.

(** Initialization happens once and fixes the configuration: from an
    initialized state, no sequence of steps changes the tokens, the vesting
    period, the target or the multipliers, and a second initialize of a vault
    that is not paused returns AlreadyInitialized and changes nothing. *)
Theorem configuration_fixed e e' adm d r vp tg m :
  reachable e -> inited e = true -> rtc vstep e e' ->
  config_of e' = config_of e /\
  (paused e' = false ->
   initialize adm d r vp tg m e' = Done (Err AlreadyInitialized) e').
Proof.
  intros Hre Hi Hs. assert (config_of e' = config_of e /\ inited e' = true) as [Hc Hi'].
  { apply reachable_inv in Hre. revert Hi Hre.
    induction Hs as [|e0 e1 e2 Hst _ IH]; [done|]. intros Hi (F0 & Fa & S & Hv).
    pose proof (config_step _ _ _ _ _ Hv Hi Hst) as Hc.
    assert (inited e1 = true) as Hi1 by (unfold config_of in Hc; congruence).
    destruct (IH Hi1 (vstep_preserves _ _ _ _ _ Hv Hst)) as [Hc2 Hi2]. split; [congruence|done]. }
  split; [done|]. intros Hp. unfold initialize, require_not_paused, is_initialized, bindM. cbn.
  fold (paused e'). rewrite Hp. cbn. fold (inited e'). by rewrite Hi'.
Qed.

(** The calls that move tokens or balances. *)
Definition moves_funds (c : call) : bool :=
  match c with
  | CDeposit _ _ | CWithdraw _ _ | CDistributeRewards _ | CLock _ _ _ | CUnlockExpired _ _ | CClaimRewards _
  | CDepositAsset _ _ _ | CWithdrawAsset _ _ _ | CDistributeRewardsForAsset _ _ _ | CClaimRewardsForAsset _ _ => true
  | _ => false
  end.

Lemma moves_funds_guarded c e e' :
  moves_funds c = true -> run_call c e = Done (Ok tt) e' -> guarded e = false /\ guarded e' = false.
Proof.
  assert (forall e1 e2, guarded_run e e1 e2 e' -> guarded e = false /\ guarded e' = false) as Hg
    by (by intros e1 e2 []).
  intros Hc Hr. destruct c; try discriminate Hc; cbn [run_call] in Hr;
    try (apply bindM_Ok in Hr as (? & ? & Hr & [_ <-]%retM_Ok));
    match type of Hr with
    | deposit _ _ _ = _ => apply deposit_Ok in Hr
    | withdraw _ _ _ = _ => apply withdraw_Ok in Hr
    | distribute_rewards _ _ = _ => apply distribute_rewards_Ok in Hr
    | lock _ _ _ _ = _ => apply lock_Ok in Hr
    | unlock_expired _ _ _ = _ => apply unlock_expired_Ok in Hr
    | claim_rewards _ _ = _ => apply claim_rewards_Ok in Hr
    | deposit_asset _ _ _ _ = _ => apply deposit_asset_Ok in Hr
    | withdraw_asset _ _ _ _ = _ => apply withdraw_asset_Ok in Hr
    | distribute_rewards_for_asset _ _ _ _ = _ => apply distribute_rewards_for_asset_Ok in Hr
    | claim_rewards_for_asset _ _ _ = _ => apply claim_rewards_for_asset_Ok in Hr
    end;
    repeat match goal with H : _ /\ _ |- _ => destruct H | H : exists _, _ |- _ => destruct H end; eauto.
Qed.

(** C10. The reentrancy guard.  A guarded body runs with the guard set, on storage
    and tokens that are otherwise those of the call, and its outcome is the outcome
    of the call; while the guard is set no guarded body runs: the nested call
    returns ReentrancyDetected and changes nothing, and no call that moves funds
    succeeds.  The guard is released whether the body succeeds or fails, and
    between calls it is always clear. *)
Theorem guard_sound {T} (f : M T) e :
  (guarded e = true ->
     with_non_reentrant f e = Done (Err ReentrancyDetected) e /\
     forall c e', moves_funds c = true -> run_call c e <> Done (Ok tt) e') /\
  (guarded e = false ->
     exists e1, guarded e1 = true /\ kframe guard_key e e1 /\ tokens e1 = tokens e /\
     match f e1 with
     | Done r e2 =>
         exists e', with_non_reentrant f e = Done r e' /\ guarded e' = false /\ kframe guard_key e2 e' /\
           tokens e' = tokens e2
     | Trap => with_non_reentrant f e = Trap
     end) /\
  (reachable e -> guarded e = false).
Proof.
  split_and!.
  - intros Hg. split.
    + unfold with_non_reentrant, enter_non_reentrant, bindM. cbn. fold (guarded e). by rewrite Hg.
    + intros c e' Hc Hr. apply moves_funds_guarded in Hr as [? _]; [congruence|done].
  - intros Hg. unfold with_non_reentrant, enter_non_reentrant, bindM. cbn. fold (guarded e). rewrite Hg. cbn.
    match goal with |- context [f ?x] => exists x end. split_and!.
    + unfold guarded. cbn. by rewrite sget_sset_eq.
    + split; try done. intros k Hk. cbn. rewrite sget_sset_ne; [done|by intros <-].
    + done.
    + destruct (f _) as [r e2|]; [|done]. eexists.
      split_and!; [done|unfold guarded; cbn; by rewrite sget_sset_eq| |done].
      split; try done. intros k Hk. cbn. rewrite sget_sset_ne; [done|by intros <-].
  - intros (F0 & Fa & S & Hv)%reachable_inv. by eapply vi_guard.
Qed.

(** An upgrade is the admin's decision and keeps the data: a committed
    upgrade was signed by the stored admin, installs exactly the given code, and
    leaves storage and tokens as they were. *)
Theorem upgrade_by_admin e h r e' :
  upgrade h e = Done (Ok r) e' ->
  (exists adm, admin_of e = Some adm /\ authorized e adm = true) /\ wasm e' = Some h /\
  instance e' = instance e /\ persistent e' = persistent e /\ tokens e' = tokens e.
Proof.
  intros Hr. apply upgrade_Ok in Hr as (st & Hst & Hau & [] & Hw). repeat split; try done.
  exists (admin st). split; [|done]. by apply state_of_Ok in Hst as (_ & ? & _).
Qed.

Lemma user_balance_key_unused e u : reachable e -> sget (UserBalance u) (persistent e) = None.
Proof.
  intros (e0 & (Hi0 & Hp0 & Ht0) & Hs). assert (exists F0 Fa S, vault_inv F0 Fa S e0) as Hv
    by (eexists _, _, _; by apply fresh_inv).
  specialize (Hp0 (UserBalance u)). clear Hi0 Ht0.
  induction Hs as [|e0 e1 e2 Hst _ IH]; [done|]. destruct Hv as (F0 & Fa & S & Hv).
  apply IH; [|by eapply vstep_preserves]. destruct Hst as [auth|c Hn _ _|t _|ts _]; try done.
  unfold invoke. destruct (run_call c e0) as [[[]|?] e1|] eqn:Hr; try done.
  pose proof (call_frame _ _ _ _ _ Hv Hn c Hr) as Hf.
  rewrite <- Hp0. apply (kf_pers _ _ _ Hf). by destruct c.
Qed.

(** What the upgraded contract reads of a vault's storage: the total and
    the admin are the ones the vault stored, but every user balance reads as
    zero, because the key it uses is never written by the vault. *)
Theorem v2_reads_v1_storage e u :
  reachable e ->
  v2_total_deposits e = Done (Ok (total e)) e /\
  (inited e = true -> exists adm, admin_of e = Some adm /\ v2_admin e = Done (Ok adm) e) /\
  v2_balance u e = Done (Ok 0) e.
Proof.
  intros Hre. pose proof (user_balance_key_unused e u Hre) as Hu.
  apply reachable_inv in Hre as (F0 & Fa & S & Hv). split; [done|]. split.
  - intros Hi. destruct (vi_config _ _ _ _ Hv Hi) as [[adm Ha] _]. exists adm. split; [done|].
    unfold v2_admin, bindM. cbn. unfold admin_of in Ha. by rewrite Ha.
  - unfold v2_balance, bindM. cbn. by rewrite Hu.
Qed.

(** The upgraded contract installs new code for any address that signs: it never
    compares the caller with the stored admin. *)
Lemma v2_upgrade_any_signer e signer h :
  authorized e signer = true ->
  v2_upgrade signer h e = Done (Ok tt) (with_wasm (Some h) e).
Proof. intros Ha. unfold v2_upgrade, require_auth, bindM. by rewrite Ha. Qed.
End access.

(** *** Witnesses *)

Definition at_paused : Env := play (staked ++ [ACall CPause]) genesis.

Lemma pause_blocks_users_witness :
  run_call (CDeposit ALICE 1000) at_paused = Done (Err Unauthorized) at_paused.
Proof.
  apply (pause_blocks_users at_paused (CDeposit ALICE 1000)); vm_compute; reflexivity.
Defined.

Definition at_proposed : Env := play (staked ++ [ACall (CProposeNewAdmin BOB)]) genesis.

Lemma at_proposed_reachable : reachable at_proposed.
Proof. apply play_reachable; [apply genesis_reachable|]. vm_compute. reflexivity. Qed.

Lemma admin_two_step_witness :
  let e' := invoke (run_call (CAcceptAdmin BOB)) at_proposed in
  exists new, CAcceptAdmin BOB = CAcceptAdmin new /\ pending_of at_proposed = Some new /\
    authorized at_proposed new = true /\ admin_of e' = Some new /\ pending_of e' = None.
Proof.
  refine (proj1 (admin_two_step at_proposed (CAcceptAdmin BOB) _ at_proposed_reachable _ _ _) _).
  - vm_compute. reflexivity.
  - vm_compute. reflexivity.
  - apply result_of_run. vm_compute. reflexivity.
  - vm_compute. discriminate.
Defined.

Lemma configuration_fixed_witness :
  inited at_setup = true /\
  config_of (do_act (ACall (CDeposit ALICE 600000)) at_setup) = config_of at_setup.
Proof.
  split; [vm_compute; reflexivity|].
  refine (proj1 (configuration_fixed at_setup _ ADMIN DEP REW 0 0 [] at_setup_reachable _ _)).
  - vm_compute. reflexivity.
  - apply rtc_once. apply act_step. vm_compute. reflexivity.
Defined.

(** A deposit that calls back into the vault. *)
Lemma guard_sound_witness :
  guarded at_staked = false /\
  exists e1, guarded e1 = true /\ with_non_reentrant (deposit ALICE 1000) e1 = Done (Err ReentrancyDetected) e1.
Proof.
  split; [exact (proj2 (proj2 (guard_sound (deposit ALICE 1000) at_staked)) at_staked_reachable)|].
  destruct (proj1 (proj2 (guard_sound (deposit ALICE 1000) at_staked))) as (e1 & Hg & _);
    [vm_compute; reflexivity|].
  exists e1. split; [exact Hg|]. exact (proj1 (proj1 (guard_sound (deposit ALICE 1000) e1) Hg)).
Defined.

Lemma upgrade_by_admin_witness :
  wasm (invoke (upgrade (replicate 32 7)) at_staked) = Some (replicate 32 7).
Proof.
  refine (proj1 (proj2 (upgrade_by_admin at_staked (replicate 32 7) tt _ _))).
  apply result_of_run. vm_compute. reflexivity.
Defined.

Lemma v2_reads_v1_storage_witness :
  user_balance at_staked ALICE = 600000 /\ v2_balance ALICE at_staked = Done (Ok 0) at_staked.
Proof.
  split; [vm_compute; reflexivity|].
  exact (proj2 (proj2 (v2_reads_v1_storage at_staked ALICE at_staked_reachable))).
Defined.
