(* ===== verification/VaultRewards.v ===== *)
(** Rewards and locks in numbers: what a deposit, a distribution, a claim, a
    lock and an unlock change, the vesting schedule, and the choice of the
    utilization multiplier. *)
From stdpp Require Import base gmap list strings sets relations sorting.
From S2P Require Import Prelude VaultErrors VaultTypes Host HostModel VaultMath VaultEvents VaultStorage VaultAssets VaultContract RewardPool VaultFacts VaultRefine VaultAssetRefine VaultCalls VaultAdmin VaultSystem VaultInvariant VaultSpec VaultScenario VaultSafety.

(** *** Vesting *)

(** C11. Linear vesting: with rewards small enough for the product to fit in
    128 bits, the vested part is exactly the elapsed fraction of the vesting
    period, rounded down and capped at the whole; it never decreases with time. *)
Theorem vesting_schedule now p vp :
  0 <= accrued_rewards p <= i128_max -> 0 < vp -> accrued_rewards p * vp <= u128_max ->
  0 < last_reward_timestamp p <= now -> now <= u64_max ->
  calculate_vested_rewards now p vp =
    Ok (accrued_rewards p * Z.min (now - last_reward_timestamp p) vp / vp) /\
  (forall later, now <= later <= u64_max -> exists v v',
     calculate_vested_rewards now p vp = Ok v /\ calculate_vested_rewards later p vp = Ok v' /\
     v <= v' <= accrued_rewards p).
Proof.
  intros Ha Hv Hm Hl Hn.
  assert (forall t, last_reward_timestamp p <= t <= u64_max -> calculate_vested_rewards t p vp =
    Ok (accrued_rewards p * Z.min (t - last_reward_timestamp p) vp / vp)) as Hex.
  { intros t Ht. destruct (calculate_vested_rewards_total t p vp) as [v Hc]; [lia..|].
    pose proof Hc as Hc'. apply calculate_vested_rewards_Ok in Hc'; [|lia|lia].
    destruct (last_reward_timestamp p =? 0) eqn:E; bool_to_prop; [lia|].
    assert (elapsed t p = t - last_reward_timestamp p) as He.
    { unfold elapsed, u64_checked_sub, checked.
      destruct (_ && _) eqn:E2; bool_to_prop; cbn; lia. }
    rewrite Hc, Hc', He, Z.quot_div_nonneg; [done|nia|lia]. }
  split; [apply Hex; lia|]. intros later Hlt. eexists _, _.
  split; [apply Hex; lia|]. split; [apply Hex; lia|]. split.
  - apply Z.div_le_mono; [lia|]. nia.
  - apply Z.div_le_upper_bound; nia.
Qed.

Lemma vesting_schedule_witness :
  calculate_vested_rewards 1060 (mkPosition 600000 1 600000 1010) 100 = Ok (600000 * 50 / 100).
Proof.
  refine (proj1 (vesting_schedule 1060 (mkPosition 600000 1 600000 1010) 100 _ _ _ _ _));
    cbn; unfold i128_max, u128_max, u64_max; lia.
Defined.

(** *** The utilization multiplier *)

Lemma check_sorted_Sorted last pts :
  check_sorted last pts = Ok tt ->
  Forall (fun p => last <= utilization_bps p) pts /\
  forall i j p q, pts !! i = Some p -> pts !! j = Some q -> (i <= j)%nat ->
    utilization_bps p <= utilization_bps q.
Proof.
  revert last. induction pts as [|x pts IH]; intros last Hs; [split; [done|]; by intros [] ?|].
  cbn in Hs. destruct (utilization_bps x <? last) eqn:E; [done|]. bool_to_prop.
  destruct (IH _ Hs) as [Hf Ho]. split.
  - constructor; [lia|]. eapply Forall_impl; [exact Hf|]. cbn. lia.
  - intros [|i] [|j] p q Hp Hq Hij; cbn in *; try lia; [| |].
    + assert (p = q) as -> by congruence. lia.
    + injection Hp as ->. rewrite Forall_forall in Hf. apply Hf.
      by eapply list_elem_of_lookup_2.
    + eapply (Ho i j); [done|done|lia].
Qed.

(** The multiplier of a validated curve: below or at some point of the
    curve it is the one of the least point at or above the utilization, above
    all points the one of the last point. *)
Theorem multiplier_selected total target pts lastp :
  validate_utilization_multipliers pts = Ok tt -> last pts = Some lastp ->
  0 < target -> 0 <= total -> total * 10000 <= i128_max -> total * 10000 / target <= u32_max ->
  let u := total * 10000 / target in
  exists p, p ∈ pts /\ calculate_utilization_multiplier total target pts = Ok (multiplier_bps p) /\
    (u <= utilization_bps p /\
       (forall q, q ∈ pts -> u <= utilization_bps q -> utilization_bps p <= utilization_bps q) \/
     p = lastp /\ forall q, q ∈ pts -> utilization_bps q < u).
Proof.
  intros Hval Hlast Ht Hd Hm Hu. cbn zeta. set (u := total * 10000 / target) in *.
  assert (0 <= u) by (apply Z.div_pos; lia).
  assert (calculate_utilization_multiplier total target pts =
    Ok (select_multiplier u (multiplier_bps lastp) pts)) as ->.
  { unfold calculate_utilization_multiplier. destruct (target <=? 0) eqn:E; bool_to_prop; [lia|].
    rewrite Hlast. assert (i128_checked_mul total 10000 = Some (total * 10000)) as ->
      by (apply i128_checked_mul_Some; unfold i128_min; lia). cbn.
    assert (i128_checked_div (total * 10000) target = Some u) as ->.
    { apply i128_checked_div_Some. rewrite Z.quot_div_nonneg by lia. fold u.
      unfold i128_min, i128_max, u32_max in *. lia. }
    cbn. by rewrite as_u32_id. }
  assert (check_sorted 0 pts = Ok tt) as Hs by (by destruct pts).
  apply check_sorted_Sorted in Hs as [_ Ho].
  destruct (select_multiplier_cases u (multiplier_bps lastp) pts)
    as [(l & p & r & -> & Hp & Hl & ->)|[Hall ->]].
  - exists p. split; [set_solver|]. split; [done|]. left. split; [done|]. intros q Hq Hqu.
    rewrite Forall_forall in Hl. apply elem_of_app in Hq as [Hq|Hq]; [specialize (Hl q Hq); cbn in Hl; lia|].
    apply elem_of_cons in Hq as [->|Hq]; [lia|]. apply list_elem_of_lookup in Hq as [i Hi].
    apply (Ho (length l) (length l + S i)%nat); [by apply list_lookup_middle| |lia].
    rewrite lookup_app_r by lia. by replace (length l + S i - length l)%nat with (S i) by lia.
  - exists lastp. split; [by apply last_elem|]. split; [done|]. right. split; [done|].
    by rewrite Forall_forall in Hall.
Qed.

Lemma multiplier_selected_witness :
  exists p, p ∈ tiers /\ calculate_utilization_multiplier 300000 1000000 tiers = Ok (multiplier_bps p).
Proof.
  destruct (multiplier_selected 300000 1000000 tiers (mkPoint 10000 10000)) as (p & Hp & Hc & _);
    try (vm_compute; reflexivity); try (unfold i128_max, u32_max; lia); [vm_compute; discriminate|].
  exists p. split; [exact Hp|exact Hc].
Defined.

Section rewards.
Context `{HL : HostLaws}.
Implicit Types (e : Env) (u a t v : Address).

(** *** Deposits, locks, unlocks *)

(** A deposit credits exactly the amount: the user's balance and liquid
    balance and the total grow by it, unpaid rewards are kept, the tokens move
    from the user to the vault, and one Deposit event is published. *)
Theorem deposit_exact e u x r e' :
  reachable e -> deposit u x e = Done (Ok r) e' ->
  user_balance e' u = user_balance e u + x /\ liquid e' u = liquid e u + x /\
  total e' = total e + x /\ rewards_of e' u = rewards_of e u /\
  events e' = events e ++ [mkEvent [PROTOCOL; ACT_DEPOSIT] (EvDeposit (mkDepositEvent u x (timestamp e)))] /\
  exists d, deposit_token_of e = Some d /\
    token_transfer d u (current_contract_address e) x (tokens e) = Some (tokens e').
Proof.
  intros (F0 & Fa & S & Hv)%reachable_inv Hr. pose proof (vi_legacy _ _ _ _ Hv) as Hl.
  apply deposit_Ok in Hr as (_ & Hx & _ & st & e1 & e2 & rr & Hs & Hg & Hst & Ht & Htk & Hev1 & Hev2).
  pose proof (store_deposit_Ok _ _ _ _ _ Hs) as (l & st' & p & q & _ & _ & _ & _ & _ & _ & He2).
  apply (store_deposit_sim F0) in Hs as (Hstep & _ & Hf & _); [|by eapply guarded_legacy_inv|done].
  pose proof (gr_enter _ _ _ _ Hg) as Hin. pose proof (gr_exit _ _ _ _ Hg) as Hout.
  pose proof (guarded_legacy_step _ _ _ _ _ Hg Hstep) as Hst'.
  pose proof (pool_step_balance _ _ _ u Hst') as Hb.
  cbn in Hb. rewrite decide_True in Hb by done.
  split; [done|]. split.
  { transitivity (liquid e2 u); [unfold liquid; by rewrite (kf_pers _ _ _ Hout)|].
    rewrite He2. transitivity (liquid e1 u + x); [by obs_tac|].
    unfold liquid. by rewrite (kf_pers _ _ _ Hin). }
  split; [exact (pool_step_total _ _ _ Hst')|].
  split; [by apply (pool_step_earned_same _ _ _ _ Hst')|]. split.
  - rewrite Hev2, (fr_events _ _ _ Hf), Hev1, (fr_time _ _ _ Hf), (kf_time _ _ _ Hin). done.
  - exists (deposit_token st). split; [by apply state_tokens|]. by rewrite Htk, (fr_tokens _ _ _ Hf).
Qed.

(** Locking and unlocking only move a user's own money between liquid and
    locked: a lock takes the amount from the liquid balance and appends one lock
    that ends after the duration; unlocking releases only expired locks, at most
    [limit] of them, and adds exactly their amounts to the liquid balance. *)
Theorem lock_and_unlock e u :
  reachable e ->
  (forall x d r e', lock u x d e = Done (Ok r) e' ->
     x <= liquid e u /\ liquid e' u = liquid e u - x /\
     locks_of e' u = locks_of e u ++ [mkLock x (timestamp e + d) 0] /\
     user_balance e' u = user_balance e u) /\
  (forall limit r e', 0 <= limit -> unlock_expired u limit e = Done (Ok r) e' ->
     exists released, Permutation (locks_of e u) (released ++ locks_of e' u) /\
       Forall (fun l => unlock_timestamp l <= timestamp e) released /\
       Z.of_nat (length released) <= limit <= 50 /\ r = sumZ lock_amount released /\
       liquid e' u = liquid e u + r /\ user_balance e' u = user_balance e u).
Proof.
  intros (F0 & Fa & S & Hv)%reachable_inv. pose proof (vi_legacy _ _ _ _ Hv) as Hl. split.
  - intros x d r e' Hr. pose proof (lock_sim _ F0 _ _ _ _ _ Hl Hr) as [[_ _ _ Hst _ _] _].
    apply lock_Ok in Hr as (_ & _ & Hx & _ & _ & e1 & e2 & rr & Hs & Hg & _ & _).
    apply (store_lock_sim F0) in Hs as (_ & _ & _ & Hle & Hq & Hlk); [|by eapply guarded_legacy_inv|done].
    pose proof (gr_enter _ _ _ _ Hg) as [_ Hin Htm _]. pose proof (gr_exit _ _ _ _ Hg) as [_ Hout _ _].
    unfold liquid, locks_of in *. rewrite !Hout, Hlk, Hq, !Hin, Htm by done. rewrite Hin in Hle by done.
    split; [done|]. split; [done|]. split; [done|]. 
    pose proof (pool_step_balance _ _ _ u Hst) as Hb. cbn in Hb. lia.
  - intros limit r e' Hlim Hr. pose proof (unlock_expired_sim _ F0 _ _ _ _ Hl Hr) as [[_ _ _ Hst _ _] _].
    apply unlock_expired_Ok in Hr as (_ & _ & Hmax & _ & e1 & e2 & Hs & Hg & _ & _).
    pose proof (guarded_legacy_inv _ _ _ _ _ Hg Hl) as [_ Hwf].
    apply unlock_sim in Hs as [released Hun]; [|done]. exists released.
    pose proof (gr_enter _ _ _ _ Hg) as [_ Hin Htm _]. pose proof (gr_exit _ _ _ _ Hg) as [_ Hout _ _].
    destruct Hun as [_ _ Hr Hliq Hperm Hexp Hlen _ _ _]. unfold liquid, locks_of in *.
    rewrite !Hin in * by done. rewrite !Hout by done. rewrite Htm in Hexp.
    unfold MAX_UNLOCK_LIMIT in Hmax. rewrite Z.max_r in Hlen by done.
    repeat split; try done. pose proof (pool_step_balance _ _ _ u Hst) as Hb. cbn in Hb. lia.
Qed.

(** *** Distribution and claims *)

(** C12. A distribution: at least 100000 reward tokens arrive from the admin,
    who signed, and the index grows by the effective amount (scaled by the
    multiplier) per deposited unit, rounded down; nobody's rewards shrink. *)
Theorem distribute_exact e x i e' :
  reachable e -> authorized e (current_contract_address e) = false ->
  distribute_rewards x e = Done (Ok i) e' ->
  exists m adm r,
    calculate_utilization_multiplier (total e) (target e) (points e) = Ok m /\
    admin_of e = Some adm /\ reward_token_of e = Some r /\ authorized e adm = true /\
    100000 <= x /\ 0 < total e /\ i = gindex e' /\
    gindex e' = gindex e + x * m / 10000 * 1000000000 / total e /\
    holds e' r = holds e r + x /\ forall v, rewards_of e v <= rewards_of e' v.
Proof.
  intros (F0 & Fa & S & Hv)%reachable_inv Hn Hr. pose proof (vi_legacy _ _ _ _ Hv) as [Hok Hwf].
  pose proof Hr as Hmin. apply distribute_rewards_Ok in Hmin as [Hmin _].
  apply (distribute_rewards_sim _ Hn F0) in Hr
    as (Hx & m & eff & Hm & Heff & [_ _ _ Hs _ Hf] & Hi & st & Hst & Hau & Hd); [|done].
  assert (0 <= m) as Hm0.
  { destruct (multiplier_of_points _ _ _ _ Hm) as [->|(p & Hin & ->)]; [lia|].
    pose proof (vi_points _ _ _ _ Hv) as Hp. rewrite Forall_forall in Hp. apply Hp, Hin. }
  apply effective_reward_amount_Ok in Heff as [_ ->]; [|lia|done].
  destruct (state_tokens _ _ Hst) as (_ & Hrt & Had). exists m, (admin st), (reward_token st).
  pose proof (fun v => pool_step_earned F0 _ _ _ v Hok Hs) as Hearn.
  inversion Hs as [| | |? inc ? Hinc Ht Hi' Hu| |]; subst. cbn in Hi', Ht, Hinc.
  apply checked_reward_index_increment_Ok in Hinc as (Htot & -> & _ & _ & _).
  assert (0 <= x * m / 10000) by (apply Z.div_pos; nia).
  rewrite Z.quot_div_nonneg in Hi' by (unfold REWARD_INDEX_SCALE, PRECISION_FACTOR; lia).
  repeat split; try done.
  - rewrite (delta_holds _ _ _ _ (kf_this _ _ _ Hf) Hd). by rewrite bool_decide_eq_true_2.
  - intros v. destruct (Hearn v) as [(? & ? & _)|[_ ?]]; done.
Qed.

(** What the preview computes from the stored state. *)
Definition preview_of e u : result VaultError UserRewardSnapshot :=
  let? st := state_of e in
  let? p := position_of e u in
  let? q := accrue_position_rewards (timestamp e) st p in
  let? w := calculate_vested_rewards (timestamp e) q (vesting_period st) in
  Ok (mkSnapshot (pos_reward_index q) (accrued_rewards q) w).

Lemma preview_reads u e : inited e = true ->
  exists l, preview_user_rewards u e = Done (preview_of e u) (with_lifetimes l e).
Proof.
  intros Hi. unfold preview_user_rewards, preview_of.
  destruct (require_initialized_reads e) as [l1 H1]. rewrite Hi in H1. erewrite bindM_step by exact H1.
  destruct (get_state_reads (with_lifetimes l1 e)) as [l2 H2].
  change (state_of (with_lifetimes l1 e)) with (state_of e) in H2. unfold bindM at 1. rewrite H2.
  destruct (state_of e) as [st|x]; [cbn|by eexists].
  destruct (get_user_position_reads u (with_lifetimes l2 (with_lifetimes l1 e))) as [l3 H3].
  change (position_of (with_lifetimes l2 (with_lifetimes l1 e)) u) with (position_of e u) in H3.
  unfold bindM at 1. rewrite H3. destruct (position_of e u) as [p|x]; [cbn|by eexists].
  unfold bindM, ledger_timestamp, liftR. cbn.
  destruct (accrue_position_rewards (timestamp e) st p) as [q|x]; [cbn|by eexists].
  destruct (calculate_vested_rewards (timestamp e) q (vesting_period st)) as [v|x]; by eexists.
Qed.

(** C13. A claim pays exactly what the views promised: the vested amount the
    preview showed just before, out of the pending rewards it showed; the unpaid
    rewards shrink by it - what has not vested stays recorded, it is not reset to
    0 as the contract's documentation says - and the tokens leave the vault. *)
Theorem claim_matches_preview e u x e' :
  reachable e -> authorized e (current_contract_address e) = false ->
  claim_rewards u e = Done (Ok x) e' ->
  (exists l, vested_rewards_view u e = Done (Ok x) (with_lifetimes l e)) /\
  (exists l, pending_rewards u e = Done (Ok (rewards_of e u)) (with_lifetimes l e)) /\
  0 <= x <= rewards_of e u /\ rewards_of e' u = rewards_of e u - x /\
  exists r, reward_token_of e = Some r /\ holds e' r = holds e r - x.
Proof.
  intros (F0 & Fa & S & Hv)%reachable_inv Hn Hr. pose proof (vi_legacy _ _ _ _ Hv) as Hl.
  pose proof (vi_vesting _ _ _ _ Hv) as [Hvs _].
  pose proof (claim_rewards_sim _ Hn F0 _ _ _ Hl Hvs Hr) as ([Hi _ _ Hs _ Hf] & st0 & Hst0 & Hd).
  apply claim_rewards_Ok in Hr as (_ & _ & e1 & e2 & rr & Hsc & Hg & _ & Hcase).
  pose proof (store_claimable_rewards_sim F0 _ _ _ _ (guarded_legacy_inv _ _ _ _ _ Hg Hl)
    ltac:(by erewrite guarded_vesting) Hsc) as (_ & _ & _ & Hr0 & _).
  assert (x = rr) as -> by (destruct Hcase as [(? & ? & _)|(? & ? & _)]; lia). clear Hcase.
  pose proof (gr_enter _ _ _ _ Hg) as Hin.
  apply store_claimable_rewards_Ok in Hsc as (l & st & p & q & Hst & Hp & Hq & Hvst & _).
  rewrite (state_of_kframe _ _ Hin) in Hst.
  assert (position_of e1 u = position_of e u) as Hpe.
  { unfold position_of, liquid, locks_of, uindex, uaccrued, ulast.
    by rewrite !(kf_pers _ _ _ Hin) by done. }
  rewrite Hpe in Hp. rewrite (kf_time _ _ _ Hin) in *.
  destruct (accrue_sim F0 e u st p q Hl Hst Hp Hq) as (_ & _ & Hac & _).
  destruct (preview_reads u e Hi) as [l' Hpv].
  unfold preview_of in Hpv. rewrite Hst, Hp in Hpv. cbn in Hpv. rewrite Hq in Hpv. cbn in Hpv.
  rewrite Hvst in Hpv. cbn in Hpv. split; [|split; [|split; [|split]]].
  - exists l'. unfold vested_rewards_view, vested_user_rewards_view. by erewrite bindM_step by exact Hpv.
  - exists l'. unfold pending_rewards, pending_user_rewards_view. erewrite bindM_step by exact Hpv.
    cbn. unfold rewards_of, earned. by rewrite Hac.
  - inversion Hs; subst. done.
  - destruct (pool_step_earned F0 _ _ _ u (proj1 Hl) Hs) as [(? & [= <-] & ?)|[Hno _]]; [done|].
    by destruct (Hno u rr).
  - exists (reward_token st0). split; [by apply state_tokens|].
    rewrite (delta_holds _ _ _ _ (kf_this _ _ _ Hf) Hd). rewrite bool_decide_eq_true_2 by done.
    cbn. lia.
Qed.

(** A claim of a user whose position is up to date with the index. *)
Lemma synced_claim F e u x e' :
  legacy_inv F e -> 0 < vesting e -> uindex e u = gindex e ->
  0 < ulast e u <= timestamp e -> timestamp e <= u64_max ->
  claim_rewards u e = Done (Ok x) e' ->
  x = uaccrued e u * Z.min (timestamp e - ulast e u) (vesting e) / vesting e /\
  uaccrued e' u = uaccrued e u - x /\ uindex e' u = gindex e' /\ gindex e' = gindex e /\
  ulast e' u = ulast e u /\ vesting e' = vesting e /\ timestamp e' = timestamp e.
Proof.
  intros Hl Hvp Hidx Hlast Hnow Hr. pose proof (pool_ok_acc _ _ u (proj1 Hl)) as Ha0.
  destruct (proj2 Hl u) as (_ & Ha & _). cbn in Ha0.
  apply claim_rewards_Ok in Hr as (_ & _ & e1 & e2 & rr & Hsc & Hg & _ & Hcase).
  pose proof (store_claimable_rewards_sim F _ _ _ _ (guarded_legacy_inv _ _ _ _ _ Hg Hl)
    ltac:(erewrite guarded_vesting; [|done]; lia) Hsc) as (_ & _ & _ & Hr0 & _).
  assert (x = rr) as -> by (destruct Hcase as [(? & ? & _)|(? & ? & _)]; lia). clear Hcase.
  pose proof (gr_enter _ _ _ _ Hg) as [Hin1 Hin2 Hin3 _]. pose proof (gr_exit _ _ _ _ Hg) as [Ho1 Ho2 Ho3 _].
  apply store_claimable_rewards_Ok in Hsc as (l & st & p & q & Hst & Hp & Hq & Hvst & He2).
  rewrite (position_of_exact F) in Hp by (by eapply guarded_legacy_inv).
  apply state_of_Ok in Hst as (_ & _ & _ & _ & _ & Hgi & Hve & _).
  unfold uindex, uaccrued, ulast, vesting, gindex in *.
  rewrite ?Hin1 in Hgi, Hve by done. rewrite !Hin2 in Hp by done. injection Hp as <-.
  unfold accrue_position_rewards, accrue_rewards in Hq. cbn in Hq.
  rewrite Hgi, <- Hidx, Z.eqb_refl in Hq. injection Hq as <-.
  rewrite Hin3, Hve in Hvst. apply calculate_vested_rewards_Ok in Hvst; cbn in *; [|lia|lia].
  set (la := default 0 (sget (UserLastRewardTimestamp u) (persistent e))) in *.
  destruct (la =? 0) eqn:E; bool_to_prop; [lia|].
  assert (forall b i c, elapsed (timestamp e) (mkPosition b i c la) = timestamp e - la) as Hel.
  { intros. unfold elapsed, u64_checked_sub, checked. cbn.
    destruct (_ && _) eqn:E2; bool_to_prop; cbn; lia. }
  rewrite Hel, Z.quot_div_nonneg in Hvst by nia. split; [done|].
  rewrite !Ho2, !Ho1 by done. rewrite Ho3, He2. cbn.
  rewrite put_position_uaccrued, put_position_uindex, put_position_ulast. cbn.
  by rewrite !Hin1, Hin3 by done.
Qed.

End rewards.

(** *** Witnesses *)

Lemma deposit_exact_witness :
  total (invoke (deposit BOB 5000) at_staked) = total at_staked + 5000.
Proof.
  refine (proj1 (proj2 (proj2 (deposit_exact at_staked BOB 5000 tt _ at_staked_reachable _)))).
  apply result_of_run. vm_compute. reflexivity.
Defined.

Lemma lock_and_unlock_witness :
  liquid (invoke (lock BOB 5000 60) at_staked) BOB = liquid at_staked BOB - 5000.
Proof.
  refine (proj1 (proj2 (proj1 (lock_and_unlock at_staked BOB at_staked_reachable) 5000 60 tt _ _))).
  apply result_of_run. vm_compute. reflexivity.
Defined.

Lemma distribute_exact_witness :
  exists m, calculate_utilization_multiplier 800000 1000000 tiers = Ok m /\
    gindex (invoke (distribute_rewards 400000) at_staked) =
      gindex at_staked + 400000 * m / 10000 * 1000000000 / 800000.
Proof.
  destruct (distribute_exact at_staked 400000 1500000000 (invoke (distribute_rewards 400000) at_staked))
    as (m & adm & r & Hm & _ & _ & _ & _ & _ & _ & Hi & _).
  - exact at_staked_reachable.
  - vm_compute. reflexivity.
  - apply result_of_run. vm_compute. reflexivity.
  - exists m. split; [|exact Hi]. rewrite <- Hm. vm_compute. reflexivity.
Defined.

Lemma claim_matches_preview_witness :
  exists l, vested_rewards_view ALICE at_staked = Done (Ok 300000) (with_lifetimes l at_staked).
Proof.
  refine (proj1 (claim_matches_preview at_staked ALICE 300000 _ at_staked_reachable _ _)).
  - vm_compute. reflexivity.
  - apply result_of_run. vm_compute. reflexivity.
Defined.

