(* ===== verification/ChainParams.v ===== *)
(** network-node/src/chain_params.rs: network parameters from genesis, roles,
    scheduled parameter upgrades and their activation heights.

    Strings are lists of Unicode scalar values.  The registry is passed
    explicitly; an operation that fails returns an error and no new registry.
    The random part of a transaction id ([Uuid::new_v4]) is an argument. *)
From stdpp Require Import base gmap list strings sets sorting.
From S2P Require Import Prelude.

Abbreviation Str := (list Z).

(** An ASCII literal as a string of scalar values. *)
Definition lit (s : string) : Str :=
  map (fun a => Z.of_N (Ascii.N_of_ascii a)) (String.list_ascii_of_string s).

(** Unicode [White_Space], as [str::trim] uses it. *)
Definition is_whitespace (c : Z) : bool :=
  ((9 <=? c) && (c <=? 13)) || (c =? 32) || (c =? 133) || (c =? 160) || (c =? 5760) ||
  ((8192 <=? c) && (c <=? 8202)) || (c =? 8232) || (c =? 8233) || (c =? 8239) ||
  (c =? 8287) || (c =? 12288).

Fixpoint trim_start (s : Str) : Str :=
  match s with
  | [] => []
  | c :: s' => if is_whitespace c then trim_start s' else s
  end.

Definition trim (s : Str) : Str := rev (trim_start (rev (trim_start s))).

Definition ascii_lowercase (c : Z) : Z := if (65 <=? c) && (c <=? 90) then c + 32 else c.

Definition normalize_id (s : Str) : Str := map ascii_lowercase (trim s).

(** ** Data *)

Record NetworkParameters : Type := mkParams {
  max_block_body_bytes : Z;
  min_base_fee : Z;
  max_transactions_per_block : Z }.

Record NetworkParametersPatch : Type := mkPatch {
  patch_max_block_body_bytes : option Z;
  patch_min_base_fee : option Z;
  patch_max_transactions_per_block : option Z }.

Definition default_patch : NetworkParametersPatch := mkPatch None None None.

Definition apply_patch (p : NetworkParameters) (patch : NetworkParametersPatch) : NetworkParameters :=
  mkParams (default (max_block_body_bytes p) (patch_max_block_body_bytes patch))
    (default (min_base_fee p) (patch_min_base_fee patch))
    (default (max_transactions_per_block p) (patch_max_transactions_per_block patch)).

Definition merge_patches (into add : NetworkParametersPatch) : NetworkParametersPatch :=
  let over (o n : option Z) := match n with Some _ => n | None => o end in
  mkPatch (over (patch_max_block_body_bytes into) (patch_max_block_body_bytes add))
    (over (patch_min_base_fee into) (patch_min_base_fee add))
    (over (patch_max_transactions_per_block into) (patch_max_transactions_per_block add)).

Definition patch_has_changes (p : NetworkParametersPatch) : bool :=
  bool_decide (is_Some (patch_max_block_body_bytes p)) ||
  bool_decide (is_Some (patch_min_base_fee p)) ||
  bool_decide (is_Some (patch_max_transactions_per_block p)).

Inductive GovernanceConfig : Type :=
| AdminKeys (keys : list Str)
| Dao (members : list Str) (min_approvals : Z).

Record ScheduledUpgradeRecord : Type := mkUpgrade {
  transaction_id : Str;
  announced_at_height : Z;
  activation_epoch_height : Z;
  patch : NetworkParametersPatch }.

Inductive Role : Type := RoleAdmin | RoleOperator.

#[global] Instance Role_eq_dec : EqDecision Role.
Proof. solve_decision. Defined.

Record GenesisDocument : Type := mkGenesis {
  schema_version : Z;
  doc_chain_id : Str;
  genesis_time_rfc3339 : option Str;
  network_parameters : NetworkParameters;
  parameter_upgrade_governance : GovernanceConfig;
  doc_min_activation_delay_blocks : Z }.

Definition default_schema_version : Z := 1.
Definition default_min_activation_delay_blocks : Z := 100.

(** A [BTreeMap<u64, _>] as the list of its entries in key order. *)
Section btree.
Context {V : Type}.

(** [entry(k).and_modify(f).or_insert(v)] *)
Fixpoint bt_entry (k : Z) (f : V -> V) (v : V) (m : list (Z * V)) : list (Z * V) :=
  match m with
  | [] => [(k, v)]
  | (k', v') :: m' =>
      if k <? k' then (k, v) :: m
      else if k =? k' then (k', f v') :: m'
      else (k', v') :: bt_entry k f v m'
  end.

Fixpoint bt_get (k : Z) (m : list (Z * V)) : option V :=
  match m with
  | [] => None
  | (k', v') :: m' => if k =? k' then Some v' else bt_get k m'
  end.
End btree.

Record ChainParameterRegistry : Type := mkRegistry {
  chain_id : Str;
  governance : GovernanceConfig;
  min_activation_delay_blocks : Z;
  current_height : Z;
  genesis_parameters : NetworkParameters;
  activations : list (Z * NetworkParametersPatch);
  upgrade_history : list ScheduledUpgradeRecord;
  roles : gmap Str Role }.

(** One constructor per error message. *)
Inductive ParamError : Type :=
| NoRoles (address : Str)
| OperatorInsufficient
| RoleNotFound
| EmptyPatch
| PermissionDenied (cause : ParamError)
| VotersNotEmpty
| ProposerRequired
| NotAdminKey
| MinApprovalsZero
| UnknownVoter (v : Str)
| NotEnoughApprovals (required got : Z)
| ActivationTooEarly (activation min_h tip delay : Z).

(** ** Operations *)

Definition from_genesis_document (doc : GenesisDocument) : ChainParameterRegistry :=
  let roles :=
    match parameter_upgrade_governance doc with
    | AdminKeys keys => fold_left (fun m key => <[normalize_id key := RoleAdmin]> m) keys ∅
    | Dao _ _ => ∅
    end in
  mkRegistry (doc_chain_id doc) (parameter_upgrade_governance doc)
    (doc_min_activation_delay_blocks doc) 0 (network_parameters doc) [] [] roles.

Definition development_default : ChainParameterRegistry :=
  from_genesis_document (mkGenesis 1 (lit "axionvera-dev") None (mkParams 2097152 100 1000)
    (AdminKeys [lit "dev-admin"]) 10).

Definition effective_parameters_at (r : ChainParameterRegistry) (height : Z) : NetworkParameters :=
  fold_left (fun p '(h, patch) => if h <=? height then apply_patch p patch else p)
    (activations r) (genesis_parameters r).

Definition active_parameters (r : ChainParameterRegistry) : NetworkParameters :=
  effective_parameters_at r (current_height r).

Definition pending_upgrades (r : ChainParameterRegistry) : list ScheduledUpgradeRecord :=
  filter (fun u => activation_epoch_height u > current_height r) (upgrade_history r).

Definition set_chain_tip_height (height : Z) (r : ChainParameterRegistry) : ChainParameterRegistry :=
  mkRegistry (chain_id r) (governance r) (min_activation_delay_blocks r) height
    (genesis_parameters r) (activations r) (upgrade_history r) (roles r).

Definition with_roles (m : gmap Str Role) (r : ChainParameterRegistry) : ChainParameterRegistry :=
  mkRegistry (chain_id r) (governance r) (min_activation_delay_blocks r) (current_height r)
    (genesis_parameters r) (activations r) (upgrade_history r) m.

Definition check_role (r : ChainParameterRegistry) (address : Str) (required_role : Role)
    : result ParamError unit :=
  let? role := ok_or (roles r !! normalize_id address) (NoRoles address) in
  match role, required_role with
  | RoleAdmin, _ => Ok tt
  | RoleOperator, RoleOperator => Ok tt
  | RoleOperator, RoleAdmin => Err OperatorInsufficient
  end.

Definition grant_role (caller target : Str) (role : Role) (r : ChainParameterRegistry)
    : result ParamError ChainParameterRegistry :=
  let? _ := check_role r caller RoleAdmin in
  Ok (with_roles (<[normalize_id target := role]> (roles r)) r).

Definition revoke_role (caller target : Str) (r : ChainParameterRegistry)
    : result ParamError ChainParameterRegistry :=
  let? _ := check_role r caller RoleAdmin in
  match roles r !! normalize_id target with
  | Some _ => Ok (with_roles (delete (normalize_id target) (roles r)) r)
  | None => Err RoleNotFound
  end.

(** The [for] loop over the DAO voters: the distinct known voters seen so far
    and their number. *)
Fixpoint count_voters (member_set : gset Str) (seen : gset Str) (valid : Z) (voters : list Str)
    : result ParamError Z :=
  match voters with
  | [] => Ok valid
  | v :: rest =>
      let n := normalize_id v in
      if bool_decide (n = []) then count_voters member_set seen valid rest else
      if bool_decide (n ∈ member_set) then
        if bool_decide (n ∈ seen) then count_voters member_set seen valid rest
        else count_voters member_set ({[n]} ∪ seen) (valid + 1) rest
      else Err (UnknownVoter v)
  end.

Definition authorize_upgrade (r : ChainParameterRegistry) (proposer_address : Str)
    (dao_voter_addresses : list Str) : result ParamError unit :=
  match governance r with
  | AdminKeys keys =>
      if existsb (fun v => negb (bool_decide (v = []))) dao_voter_addresses then Err VotersNotEmpty else
      let p := normalize_id proposer_address in
      if bool_decide (p = []) then Err ProposerRequired else
      if existsb (fun k => bool_decide (normalize_id k = p)) keys then Ok tt else Err NotAdminKey
  | Dao members min_approvals =>
      if min_approvals =? 0 then Err MinApprovalsZero else
      let member_set : gset Str := list_to_set (map normalize_id members) in
      let? valid := count_voters member_set ∅ 0 dao_voter_addresses in
      if valid <? min_approvals then Err (NotEnoughApprovals min_approvals valid) else Ok tt
  end.

(** [format!("0x{:064x}", n)] *)
Definition hex_digit (d : Z) : Z := if d <? 10 then 48 + d else 87 + d.
Fixpoint hex_digits (fuel : nat) (n : Z) : Str :=
  match fuel with
  | O => []
  | S f => hex_digits f (n / 16) ++ [hex_digit (n mod 16)]
  end.
Definition format_tx_id (uuid : Z) : Str := lit "0x" ++ hex_digits 64 uuid.

Definition map_err {A} (f : ParamError -> ParamError) (x : result ParamError A) : result ParamError A :=
  match x with Ok a => Ok a | Err y => Err (f y) end.

Definition submit_parameter_upgrade (uuid : Z) (p : NetworkParametersPatch) (activation : Z)
    (proposer_address : Str) (dao_voter_addresses : list Str) (r : ChainParameterRegistry)
    : result ParamError (Str * ChainParameterRegistry) :=
  if negb (patch_has_changes p) then Err EmptyPatch else
  let? _ := map_err PermissionDenied (check_role r proposer_address RoleOperator) in
  let? _ := authorize_upgrade r proposer_address dao_voter_addresses in
  let tip := current_height r in
  let min_h := u64_saturating_add tip (min_activation_delay_blocks r) in
  if activation <? min_h
  then Err (ActivationTooEarly activation min_h tip (min_activation_delay_blocks r)) else
  let tx_id := format_tx_id uuid in
  Ok (tx_id,
      mkRegistry (chain_id r) (governance r) (min_activation_delay_blocks r) tip
        (genesis_parameters r)
        (bt_entry activation (fun existing => merge_patches existing p) p (activations r))
        (upgrade_history r ++ [mkUpgrade tx_id tip activation p]) (roles r)).

(** ** A registry through its operations *)

Inductive reg_op : Type :=
| OTip (height : Z)
| OGrant (caller target : Str) (role : Role)
| ORevoke (caller target : Str)
| OSubmit (uuid : Z) (p : NetworkParametersPatch) (activation : Z) (proposer : Str) (voters : list Str).

(** An operation that fails leaves the registry as it was. *)
Definition run_op (r : ChainParameterRegistry) (o : reg_op) : ChainParameterRegistry :=
  match o with
  | OTip h => set_chain_tip_height h r
  | OGrant c t role => match grant_role c t role r with Ok r' => r' | Err _ => r end
  | ORevoke c t => match revoke_role c t r with Ok r' => r' | Err _ => r end
  | OSubmit u p a pr vs =>
      match submit_parameter_upgrade u p a pr vs r with Ok (_, r') => r' | Err _ => r end
  end.

Definition run_ops (doc : GenesisDocument) (ops : list reg_op) : ChainParameterRegistry :=
  fold_left run_op ops (from_genesis_document doc).

(** *** Last writer wins: the meaning of a schedule, one field at a time *)

(** A field of the parameters with its field in a patch. *)
Record Field : Type := mkField {
  fget : NetworkParameters -> Z;
  fpatch : NetworkParametersPatch -> option Z;
  fget_apply : forall p q, fget (apply_patch p q) = default (fget p) (fpatch q);
  fpatch_merge : forall p q,
    fpatch (merge_patches p q) = match fpatch q with Some v => Some v | None => fpatch p end }.

Lemma merge_field (o n : option Z) :
  match n with Some _ => n | None => o end = match n with Some v => Some v | None => o end.
Proof. by destruct n. Qed.

Definition body_bytes_field : Field :=
  mkField max_block_body_bytes patch_max_block_body_bytes (fun _ _ => eq_refl)
    (fun p q => merge_field _ _).
Definition base_fee_field : Field :=
  mkField min_base_fee patch_min_base_fee (fun _ _ => eq_refl) (fun p q => merge_field _ _).
Definition transactions_field : Field :=
  mkField max_transactions_per_block patch_max_transactions_per_block (fun _ _ => eq_refl)
    (fun p q => merge_field _ _).

(** The new value of a field when a patch for height [a] joins a schedule whose
    latest setting at or below [h] is [old]. *)
Definition later (a : Z) (o : option Z) (h : Z) (old : option (Z * Z)) : option (Z * Z) :=
  match o with
  | Some v => if a <=? h then
                match old with
                | Some (k, _) => if k <=? a then Some (a, v) else old
                | None => Some (a, v)
                end
              else old
  | None => old
  end.

(** The reference: replay the announced upgrades in the order they were
    accepted; the setting with the greatest activation height up to [h] counts,
    and among equal heights the one announced last. *)
Definition history_latest (f : Field) (hist : list ScheduledUpgradeRecord) (h : Z) : option (Z * Z) :=
  fold_left (fun old u => later (activation_epoch_height u) (fpatch f (patch u)) h old) hist None.

(** The same from the merged map, in key order. *)
Fixpoint map_latest (f : Field) (m : list (Z * NetworkParametersPatch)) (h : Z) : option (Z * Z) :=
  match m with
  | [] => None
  | (k, p) :: m' =>
      match map_latest f m' h with
      | Some x => Some x
      | None => if k <=? h then (fun v => (k, v)) <$> fpatch f p else None
      end
  end.

Definition keys_sorted (m : list (Z * NetworkParametersPatch)) : Prop :=
  StronglySorted (fun x y => fst x < fst y) m.

Lemma effective_map_latest f m h p0 :
  fget f (fold_left (fun p '(k, q) => if k <=? h then apply_patch p q else p) m p0) =
  default (fget f p0) (snd <$> map_latest f m h).
Proof.
  revert p0. induction m as [|[k q] m IH]; intros p0; [done|]. cbn [fold_left map_latest].
  rewrite IH. destruct (map_latest f m h) as [[k' v']|]; [done|]. cbn.
  destruct (k <=? h); [|done]. rewrite fget_apply. by destruct (fpatch f q).
Qed.

Lemma map_latest_above f m h a k v :
  Forall (fun x => a < fst x) m -> map_latest f m h = Some (k, v) -> a < k.
Proof.
  induction 1 as [|[k' q] m Hk _ IH]; [done|]. cbn. destruct (map_latest f m h) as [x|]; [auto|].
  destruct (k' <=? h); [|done]. destruct (fpatch f q); cbn; [|done]. intros [= <- <-]. done.
Qed.

Lemma bt_entry_keys {V} (a : Z) (g : V -> V) (v : V) m (P : Z -> Prop) :
  P a -> Forall (fun x => P (fst x)) m -> Forall (fun x => P (fst x)) (bt_entry a g v m).
Proof.
  intros Ha. induction 1 as [|[k w] m Hk Hm IH]; cbn; [by constructor|].
  destruct (a <? k); [by repeat constructor|]. destruct (a =? k); by constructor.
Qed.

Lemma bt_entry_sorted a g v m : keys_sorted m -> keys_sorted (bt_entry a g v m).
Proof.
  unfold keys_sorted. induction 1 as [|[k w] m Hm IH Hk]; cbn; [by repeat constructor|].
  destruct (a <? k) eqn:E1; bool_to_prop.
  - constructor; [by constructor|]. constructor; [done|]. eapply Forall_impl; [exact Hk|]. cbn. lia.
  - destruct (a =? k) eqn:E2; bool_to_prop; [by constructor|]. constructor; [done|].
    apply (bt_entry_keys _ _ _ _ (fun x => k < x)); [lia|done].
Qed.

(** Scheduling a patch in the map is scheduling it in the history. *)
Lemma map_latest_entry f a p m h :
  keys_sorted m ->
  map_latest f (bt_entry a (fun old => merge_patches old p) p m) h =
  later a (fpatch f p) h (map_latest f m h).
Proof.
  induction 1 as [|[k q] m Hm IH Hk]; cbn.
  { unfold later. by destruct (fpatch f p), (a <=? h). }
  destruct (a <? k) eqn:E1; bool_to_prop; [|destruct (a =? k) eqn:E2; bool_to_prop].
  - assert (Forall (fun x => a < fst x) ((k, q) :: m)) as Hab.
    { constructor; [done|]. eapply Forall_impl; [exact Hk|]. cbn. lia. }
    pose proof (map_latest_above f ((k, q) :: m) h a) as Hlt. cbn [map_latest] in Hlt |- *.
    destruct (match map_latest f m h with Some x => _ | None => _ end) as [[k0 v0]|].
    + specialize (Hlt k0 v0 Hab eq_refl). unfold later. destruct (fpatch f p), (a <=? h); try done.
      destruct (k0 <=? a) eqn:E3; bool_to_prop; [lia|done].
    + unfold later. by destruct (fpatch f p), (a <=? h).
  - subst a. cbn. destruct (map_latest f m h) as [[k0 v0]|] eqn:El.
    + apply (map_latest_above _ _ _ k) in El; [|done]. unfold later.
      destruct (fpatch f p), (k <=? h); try done. destruct (k0 <=? k) eqn:E3; bool_to_prop; [lia|done].
    + unfold later. rewrite fpatch_merge. destruct (k <=? h); cbn; [|by destruct (fpatch f p)].
      destruct (fpatch f p), (fpatch f q); cbn; try done. by rewrite Z.leb_refl.
  - cbn. rewrite IH. unfold later. destruct (fpatch f p); [|done].
    destruct (a <=? h) eqn:E3; bool_to_prop; [|done].
    destruct (map_latest f m h) as [[k0 v0]|]; [by destruct (k0 <=? a)|].
    destruct (k <=? h) eqn:E4; bool_to_prop; [|lia].
    destruct (fpatch f q); cbn; [|done]. destruct (k <=? a) eqn:E5; bool_to_prop; [done|lia].
Qed.

(** *** Invariant of a registry built by operations *)

Lemma run_ops_inv (P : ChainParameterRegistry -> Prop) doc ops :
  P (from_genesis_document doc) -> (forall r o, P r -> P (run_op r o)) -> P (run_ops doc ops).
Proof.
  intros H0 Hs. unfold run_ops. generalize dependent (from_genesis_document doc).
  induction ops as [|o ops IH]; cbn; auto.
Qed.

(** The operations change the schedule only through an accepted submission. *)
Lemma submit_Ok u p a pr vs r t r' :
  submit_parameter_upgrade u p a pr vs r = Ok (t, r') <->
  patch_has_changes p = true /\ check_role r pr RoleOperator = Ok tt /\
  authorize_upgrade r pr vs = Ok tt /\
  u64_saturating_add (current_height r) (min_activation_delay_blocks r) <= a /\
  t = format_tx_id u /\
  r' = mkRegistry (chain_id r) (governance r) (min_activation_delay_blocks r) (current_height r)
        (genesis_parameters r)
        (bt_entry a (fun existing => merge_patches existing p) p (activations r))
        (upgrade_history r ++ [mkUpgrade t (current_height r) a p]) (roles r).
Proof.
  unfold submit_parameter_upgrade. destruct (patch_has_changes p); cbn; [|naive_solver].
  destruct (check_role r pr RoleOperator) as [[]|x]; cbn; [|naive_solver].
  destruct (authorize_upgrade r pr vs) as [[]|x]; cbn; [|naive_solver].
  destruct (a <? _) eqn:E; bool_to_prop; [naive_solver lia|]. split; [naive_solver|].
  intros (_ & _ & _ & _ & -> & ->). done.
Qed.

Record registry_ok (doc : GenesisDocument) (r : ChainParameterRegistry) : Prop := mkRegistryOk {
  ro_sorted : keys_sorted (activations r);
  ro_latest : forall f h, map_latest f (activations r) h = history_latest f (upgrade_history r) h;
  ro_delay : Forall (fun x => u64_saturating_add (announced_at_height x)
      (doc_min_activation_delay_blocks doc) <= activation_epoch_height x) (upgrade_history r);
  ro_fixed : governance r = parameter_upgrade_governance doc /\
    min_activation_delay_blocks r = doc_min_activation_delay_blocks doc /\
    genesis_parameters r = network_parameters doc }.

Lemma run_op_ok doc r o : registry_ok doc r -> registry_ok doc (run_op r o).
Proof.
  intros Hok. destruct o as [h|c t role|c t|u p a pr vs]; cbn [run_op].
  - by destruct Hok.
  - unfold grant_role. destruct (check_role r c RoleAdmin); cbn; [|done]. by destruct Hok.
  - unfold revoke_role. destruct (check_role r c RoleAdmin); cbn; [|done].
    destruct (roles r !! _); [by destruct Hok|done].
  - destruct (submit_parameter_upgrade u p a pr vs r) as [[t r']|x] eqn:Hs; [|done].
    apply submit_Ok in Hs as (_ & _ & _ & Ha & -> & ->). destruct Hok as [Hs Hl Hd Hf].
    split; cbn; try done.
    + by apply bt_entry_sorted.
    + intros f h. rewrite map_latest_entry by done. unfold history_latest.
      rewrite fold_left_app. cbn. by rewrite Hl.
    + apply Forall_app. split; [done|]. constructor; [|done]. cbn. by destruct Hf as (_ & <- & _).
Qed.

Lemma run_ops_ok doc ops : registry_ok doc (run_ops doc ops).
Proof. apply run_ops_inv; [by repeat constructor|]. intros. by apply run_op_ok. Qed.

(** C15. The parameters in force are a replay of the announced upgrades: after
    any operations, at any height, each parameter is the one set by the upgrade
    with the greatest activation height up to there - of several at the same
    height, the one announced last - and the genesis value if there is none. *)
Theorem effective_is_replay doc ops h :
  let r := run_ops doc ops in
  let value f := default (fget f (network_parameters doc))
                   (snd <$> history_latest f (upgrade_history r) h) in
  effective_parameters_at r h =
  mkParams (value body_bytes_field) (value base_fee_field) (value transactions_field).
Proof.
  cbn zeta. destruct (run_ops_ok doc ops) as [_ Hl _ (_ & _ & Hg)].
  rewrite <- Hg, <- !Hl. unfold effective_parameters_at. rewrite <- !effective_map_latest.
  by destruct (fold_left _ _ _).
Qed.

(** What an accepted submission does to the parameters of a registry whose
    schedule is in key order. *)
Lemma submit_effect u p a pr vs r t r' :
  keys_sorted (activations r) ->
  submit_parameter_upgrade u p a pr vs r = Ok (t, r') ->
  (forall h, h < a -> effective_parameters_at r' h = effective_parameters_at r h) /\
  effective_parameters_at r' a = apply_patch (effective_parameters_at r a) p.
Proof.
  intros Hsrt (_ & _ & _ & _ & -> & ->)%submit_Ok.
  assert (forall h f, fget f (effective_parameters_at (mkRegistry (chain_id r) (governance r)
      (min_activation_delay_blocks r) (current_height r) (genesis_parameters r)
      (bt_entry a (fun existing => merge_patches existing p) p (activations r))
      (upgrade_history r ++ [mkUpgrade (format_tx_id u) (current_height r) a p]) (roles r)) h) =
    default (fget f (genesis_parameters r))
      (snd <$> later a (fpatch f p) h (map_latest f (activations r) h))) as Heff.
  { intros h f. unfold effective_parameters_at. cbn [activations genesis_parameters].
    by rewrite effective_map_latest, map_latest_entry. }
  assert (forall x y, (forall f, fget f x = fget f y) -> x = y) as Hext.
  { intros x y Hxy. pose proof (Hxy body_bytes_field). pose proof (Hxy base_fee_field).
    pose proof (Hxy transactions_field). destruct x, y. cbn in *. congruence. }
  split.
  - intros h Hh. apply Hext. intros f. rewrite Heff. unfold effective_parameters_at.
    rewrite effective_map_latest. unfold later. destruct (fpatch f p); [|done].
    destruct (a <=? h) eqn:E; bool_to_prop; [lia|done].
  - apply Hext. intros f. rewrite Heff, fget_apply. unfold effective_parameters_at.
    rewrite effective_map_latest. unfold later. destruct (fpatch f p) as [v|]; [|done].
    rewrite Z.leb_refl. destruct (map_latest f (activations r) a) as [[k w]|] eqn:El; [|done].
    destruct (k <=? a) eqn:E; [done|]. bool_to_prop. exfalso. clear -El E.
    induction (activations r) as [|[k' q] m IH]; [done|]. cbn in El.
    destruct (map_latest f m a) as [x|]; [auto|]. destruct (k' <=? a) eqn:E'; [|done]. bool_to_prop.
    destruct (fpatch f q); [|done]. cbn in El. injection El as <- <-. lia.
Qed.

(** An accepted upgrade is delayed and takes effect on time: its activation
    is at least the minimum delay after the tip (in saturating u64 arithmetic),
    it is recorded with the tip at which it was announced, no height before
    the activation sees a change, and the activation height itself sees the
    patch applied on top of the parameters scheduled before. *)
Theorem upgrade_takes_effect doc ops u p a pr vs t r' :
  let r := run_ops doc ops in
  submit_parameter_upgrade u p a pr vs r = Ok (t, r') ->
  u64_saturating_add (current_height r) (doc_min_activation_delay_blocks doc) <= a /\
  upgrade_history r' = upgrade_history r ++ [mkUpgrade t (current_height r) a p] /\
  (forall h, h < a -> effective_parameters_at r' h = effective_parameters_at r h) /\
  effective_parameters_at r' a = apply_patch (effective_parameters_at r a) p.
Proof.
  cbn zeta. intros Hs. destruct (run_ops_ok doc ops) as [Hsrt Hl _ (_ & Hd & _)].
  pose proof (submit_effect _ _ _ _ _ _ _ _ Hsrt Hs) as He.
  apply submit_Ok in Hs as (_ & _ & _ & Ha & -> & ->). by rewrite Hd in Ha.
Qed.

(** *** Identifiers *)

Lemma trim_start_head s c s' : trim_start s = c :: s' -> is_whitespace c = false.
Proof.
  induction s as [|x s IH]; [done|]. cbn. destruct (is_whitespace x) eqn:E; [done|]. by intros [= <- _].
Qed.

Lemma trim_start_idle s : (forall c s', s = c :: s' -> is_whitespace c = false) -> trim_start s = s.
Proof. destruct s as [|c s]; [done|]. intros Hc. cbn. by rewrite (Hc c s). Qed.

Lemma trim_start_suffix s : exists pre, s = pre ++ trim_start s.
Proof.
  induction s as [|c s [pre IH]]; [by exists []|]. cbn. destruct (is_whitespace c).
  - exists (c :: pre). cbn. by rewrite <- IH.
  - by exists [].
Qed.

Lemma trim_ends s : 
  (forall c s', trim s = c :: s' -> is_whitespace c = false) /\
  (forall c s', rev (trim s) = c :: s' -> is_whitespace c = false).
Proof.
  unfold trim. rewrite rev_involutive. split; [|intros; by eapply trim_start_head].
  intros c s' He. destruct (trim_start_suffix (rev (trim_start s))) as [pre Hp].
  apply (f_equal (@rev Z)) in Hp. rewrite rev_involutive, rev_app_distr, He in Hp. cbn in Hp.
  by eapply trim_start_head.
Qed.

Lemma letters_not_whitespace c : 65 <= c <= 122 -> is_whitespace c = false.
Proof.
  intros Hc. apply not_true_iff_false. unfold is_whitespace.
  rewrite !orb_true_iff, !andb_true_iff, !Z.leb_le, !Z.eqb_eq. lia.
Qed.

Lemma lower_whitespace c : is_whitespace (ascii_lowercase c) = is_whitespace c.
Proof.
  unfold ascii_lowercase. destruct (_ && _) eqn:E; [|done]. bool_to_prop.
  by rewrite !letters_not_whitespace by lia.
Qed.

Lemma lower_idempotent c : ascii_lowercase (ascii_lowercase c) = ascii_lowercase c.
Proof.
  unfold ascii_lowercase. destruct ((65 <=? c) && (c <=? 90)) eqn:E; [|by rewrite E].
  destruct ((65 <=? c + 32) && (c + 32 <=? 90)) eqn:E2; bool_to_prop; [lia|done].
Qed.

(** Normalizing an identifier is stable: it removes the surrounding white
    space and the upper-case letters once and for all, and identifiers that
    differ only in the case of ASCII letters are the same. *)
Theorem normalize_id_canonical s :
  normalize_id (normalize_id s) = normalize_id s /\
  normalize_id (map ascii_lowercase s) = normalize_id s /\
  (forall c s', normalize_id s = c :: s' -> is_whitespace c = false) /\
  Forall (fun c => ~ (65 <= c <= 90)) (normalize_id s).
Proof.
  assert (forall l, trim_start (map ascii_lowercase l) = map ascii_lowercase (trim_start l)) as Hts.
  { induction l as [|c l IH]; [done|]. cbn. rewrite lower_whitespace. by destruct (is_whitespace c). }
  assert (forall l, trim (map ascii_lowercase l) = map ascii_lowercase (trim l)) as Ht.
  { intros l. unfold trim. by rewrite Hts, <- map_rev, Hts, map_rev. }
  assert (forall l, map ascii_lowercase (map ascii_lowercase l) = map ascii_lowercase l) as Hl.
  { intros l. rewrite map_map. apply map_ext. apply lower_idempotent. }
  destruct (trim_ends s) as [Hh Hr]. unfold normalize_id. split; [|split; [|split]].
  - rewrite Ht, Hl. f_equal. unfold trim at 1. rewrite (trim_start_idle (trim s)) by done.
    by rewrite (trim_start_idle (rev (trim s))), rev_involutive.
  - by rewrite Ht, Hl.
  - intros c s' He. destruct (trim s) as [|d l]; [done|]. cbn in He. injection He as <- _.
    rewrite lower_whitespace. by apply (Hh d l).
  - apply Forall_forall. intros c Hc. apply list_elem_of_fmap in Hc as (d & -> & _).
    unfold ascii_lowercase. destruct ((65 <=? d) && (d <=? 90)) eqn:E; bool_to_prop; lia.
Qed.

(** *** Who may schedule an upgrade *)

(** The identifiers the voters stand for: normalized, blanks dropped. *)
Definition voter_ids (voters : list Str) : gset Str :=
  list_to_set (filter (fun n => n <> []) (map normalize_id voters)).

Lemma count_voters_spec members seen valid voters n :
  valid = Z.of_nat (size seen) ->
  count_voters members seen valid voters = Ok n ->
  voter_ids voters ⊆ members /\ n = Z.of_nat (size (voter_ids voters ∪ seen)).
Proof.
  revert seen valid. induction voters as [|v voters IH]; intros seen valid Hv Hc.
  { cbn in Hc. injection Hc as <-. split; [set_solver|]. rewrite Hv. f_equal. f_equal. set_solver. }
  cbn [count_voters] in Hc. unfold voter_ids in *. cbn [map].
  case_bool_decide as E1; [|case_bool_decide as E2; [case_bool_decide as E3|]].
  - rewrite filter_cons_False by naive_solver. by apply (IH seen valid).
  - rewrite filter_cons_True by done. destruct (IH seen valid Hv Hc) as [Hs ->].
    split; [set_solver|]. do 2 f_equal. set_solver.
  - rewrite filter_cons_True by done.
    destruct (IH ({[normalize_id v]} ∪ seen) (valid + 1)) as [Hs ->]; [|done|].
    + rewrite size_union by set_solver. rewrite size_singleton. lia.
    + split; [set_solver|]. do 2 f_equal. set_solver.
  - done.
Qed.

Lemma check_role_Ok r addr role x :
  check_role r addr role = Ok x <->
  roles r !! normalize_id addr = Some RoleAdmin \/
  role = RoleOperator /\ roles r !! normalize_id addr = Some RoleOperator.
Proof.
  unfold check_role. destruct x. destruct (roles r !! normalize_id addr) as [[]|]; cbn;
    [naive_solver| |naive_solver]. destruct role; naive_solver.
Qed.

(** C16. An upgrade is accepted only with the permissions the registry was
    configured for: the proposer holds a role, and under admin keys is one of
    the keys (with no voters named), under a DAO at least [min_approvals]
    distinct members - and nobody else - endorsed it. *)
Theorem upgrade_authorized r u p a pr vs t r' :
  submit_parameter_upgrade u p a pr vs r = Ok (t, r') ->
  (exists role, roles r !! normalize_id pr = Some role) /\
  match governance r with
  | AdminKeys keys => normalize_id pr ∈ map normalize_id keys /\ Forall (fun v => v = []) vs
  | Dao members min_approvals =>
      voter_ids vs ⊆ list_to_set (map normalize_id members) /\
      min_approvals <= Z.of_nat (size (voter_ids vs)) /\ min_approvals <> 0
  end.
Proof.
  intros (_ & Hro & Hau & _)%submit_Ok. split.
  { apply check_role_Ok in Hro as [?|[_ ?]]; eauto. }
  unfold authorize_upgrade in Hau. destruct (governance r) as [keys|members m].
  - destruct (existsb _ vs) eqn:Ev; [done|]. case_bool_decide; [done|].
    destruct (existsb _ keys) eqn:Ek; [|done]. split.
    + apply existsb_exists in Ek as (k & Hk & Heq). apply bool_decide_eq_true in Heq as <-.
      apply list_elem_of_fmap. exists k. split; [done|]. by apply list_elem_of_In.
    + apply Forall_forall. intros v Hv. destruct (decide (v = [])) as [|Hne]; [done|].
      exfalso. apply not_true_iff_false in Ev. apply Ev, existsb_exists. exists v.
      split; [by apply list_elem_of_In|]. by rewrite bool_decide_eq_false_2.
  - destruct (m =? 0) eqn:E0; [done|]. bool_to_prop.
    destruct (count_voters _ ∅ 0 vs) as [n|] eqn:Ec; [|done]. cbn in Hau.
    apply count_voters_spec in Ec as [Hs ->]; [|done]. rewrite (right_id_L ∅ (∪)) in Hau.
    destruct (_ <? m) eqn:El; [done|]. bool_to_prop. done.
Qed.

(** C17. A registry governed by a DAO can never be changed: no role exists at
    genesis, roles are only granted by an admin, and a submission needs a role
    - so after any operations the parameters at every height are those of
    genesis, and every further submission is refused. *)
Theorem dao_registry_frozen doc members m ops :
  parameter_upgrade_governance doc = Dao members m ->
  let r := run_ops doc ops in
  roles r = ∅ /\ (forall h, effective_parameters_at r h = network_parameters doc) /\
  (forall u p a pr vs, exists x, submit_parameter_upgrade u p a pr vs r = Err x).
Proof.
  intros Hg. cbn zeta.
  assert (roles (run_ops doc ops) = ∅ /\ activations (run_ops doc ops) = []) as [Hr Ha].
  { apply run_ops_inv; [cbn; by rewrite Hg|]. intros r o [Hr Ha].
    assert (forall c role, exists x, check_role r c role = Err x) as Hc
      by (intros; unfold check_role; rewrite Hr, lookup_empty; by eexists).
    destruct o as [h|c t role|c t|u p a pr vs]; cbn [run_op].
    - done.
    - unfold grant_role. by destruct (Hc c RoleAdmin) as [x ->].
    - unfold revoke_role. by destruct (Hc c RoleAdmin) as [x ->].
    - unfold submit_parameter_upgrade. destruct (negb _); [done|].
      by destruct (Hc pr RoleOperator) as [x ->]. }
  destruct (run_ops_ok doc ops) as [_ _ _ (_ & _ & Hgen)]. split; [done|]. split.
  - intros h. unfold effective_parameters_at. by rewrite Ha, Hgen.
  - intros. unfold submit_parameter_upgrade, check_role. destruct (negb _); [by eexists|].
    rewrite Hr, lookup_empty. cbn. by eexists.
Qed.

(** *** Witnesses *)

Definition dev_doc : GenesisDocument :=
  mkGenesis 1 (lit "test") None (mkParams 1000000 50 500) (AdminKeys [lit "Admin_ABC"]) 5.
Definition fee_patch : NetworkParametersPatch := mkPatch None (Some 99) None.

Lemma upgrade_takes_effect_witness :
  exists t r', submit_parameter_upgrade 7 fee_patch 106 (lit "admin_abc") []
      (run_ops dev_doc [OTip 100]) = Ok (t, r') /\
    min_base_fee (effective_parameters_at r' 105) = 50 /\
    effective_parameters_at r' 106 =
      apply_patch (effective_parameters_at (run_ops dev_doc [OTip 100]) 106) fee_patch.
Proof.
  eexists _, _. split; [vm_compute; reflexivity|]. split; [vm_compute; reflexivity|].
  refine (proj2 (proj2 (proj2 (upgrade_takes_effect dev_doc [OTip 100] 7 fee_patch 106
    (lit "admin_abc") [] _ _ _)))). vm_compute. reflexivity.
Defined.

Lemma upgrade_authorized_witness :
  normalize_id (lit " Admin_ABC ") ∈ map normalize_id [lit "Admin_ABC"].
Proof.
  refine (proj1 (proj2 (upgrade_authorized (run_ops dev_doc []) 7 fee_patch 5 (lit " Admin_ABC ") []
    _ _ _))). vm_compute. reflexivity.
Defined.

Definition dao_doc : GenesisDocument :=
  mkGenesis 1 (lit "test-dao") None (mkParams 1 1 1) (Dao [lit "m1"; lit "m2"; lit "m3"] 2) 1.

Lemma dao_registry_frozen_witness :
  exists x, submit_parameter_upgrade 7 (mkPatch (Some 999) None None) 12 [] [lit "m1"; lit "m2"]
    (run_ops dao_doc [OTip 10]) = Err x.
Proof.
  exact (proj2 (proj2 (dao_registry_frozen dao_doc [lit "m1"; lit "m2"; lit "m3"] 2 [OTip 10] eq_refl))
    7 (mkPatch (Some 999) None None) 12 [] [lit "m1"; lit "m2"]).
Defined.
