(* ===== verification/Governance.v ===== *)
(** network-node/src/governance.rs: proposals to change network parameters,
    their votes, and the tick that tallies and executes them.

    The maps are [HashMap]s: the order in which [tick] visits the proposals is
    an argument.  Random identifiers ([Uuid::new_v4]) are arguments too. *)
From stdpp Require Import base gmap list strings sets fin_maps.
From S2P Require Import Prelude ChainParams.

Inductive ProposalStatus : Type := Voting | Passed | Rejected | Executed | Expired.

#[global] Instance ProposalStatus_eq_dec : EqDecision ProposalStatus.
Proof. solve_decision. Defined.

Record Vote : Type := mkVote { voter : Str; approve : bool; weight : Z }.

Record Proposal : Type := mkProposal {
  id : Str;
  proposer : Str;
  prop_patch : NetworkParametersPatch;
  activation_height : Z;
  status : ProposalStatus;
  votes : gmap Str Vote;
  end_height : Z }.

Record GovernanceService : Type := mkService {
  proposals : gmap Str Proposal;
  voting_duration : Z }.

(** One constructor per error message. *)
Inductive GovError : Type :=
| ProposerUnauthorized (cause : ParamError)
| VoterUnauthorized (cause : ParamError)
| ProposalNotFound
| CannotVote (s : ProposalStatus).

Definition gov_err {A} (f : ParamError -> GovError) (x : result ParamError A) : result GovError A :=
  match x with Ok a => Ok a | Err y => Err (f y) end.

Definition new_service (duration : Z) : GovernanceService := mkService ∅ duration.

Definition with_status (s : ProposalStatus) (p : Proposal) : Proposal :=
  mkProposal (id p) (proposer p) (prop_patch p) (activation_height p) s (votes p) (end_height p).

Definition with_votes (v : gmap Str Vote) (p : Proposal) : Proposal :=
  mkProposal (id p) (proposer p) (prop_patch p) (activation_height p) (status p) v (end_height p).

Definition with_proposals (m : gmap Str Proposal) (g : GovernanceService) : GovernanceService :=
  mkService m (voting_duration g).

(** [current_height + self.voting_duration]: [u64] addition, wrapping without
    overflow checks. *)
Definition propose (uuid who : Str) (p : NetworkParametersPatch) (activation current : Z)
    (registry : ChainParameterRegistry) (g : GovernanceService)
    : result GovError (Str * GovernanceService) :=
  let? _ := gov_err ProposerUnauthorized (check_role registry who RoleOperator) in
  let proposal :=
    mkProposal uuid who p activation Voting ∅ (as_u64 (current + voting_duration g)) in
  Ok (uuid, with_proposals (<[uuid := proposal]> (proposals g)) g).

Definition cast_vote (proposal_id who : Str) (yes : bool) (registry : ChainParameterRegistry)
    (g : GovernanceService) : result GovError GovernanceService :=
  let? _ := gov_err VoterUnauthorized (check_role registry who RoleOperator) in
  let? proposal := ok_or (proposals g !! proposal_id) ProposalNotFound in
  if bool_decide (status proposal = Voting) then
    Ok (with_proposals
          (<[proposal_id := with_votes (<[normalize_id who := mkVote who yes 1]> (votes proposal))
                              proposal]> (proposals g)) g)
  else Err (CannotVote (status proposal)).

Definition is_member (members : list Str) (v : Vote) : bool :=
  existsb (fun m => bool_decide (normalize_id m = normalize_id (voter v))) members.

(** [filter(..).count() as u32] *)
Definition yes_votes (members : list Str) (p : Proposal) : Z :=
  as_u32 (Z.of_nat (length (filter (fun v => approve v && is_member members v)
                                   (snd <$> map_to_list (votes p))))).

(** The verdict on a proposal whose voting has ended, and whether to execute it. *)
Definition tally (config : GovernanceConfig) (p : Proposal) : Proposal * bool :=
  match config with
  | Dao members min_approvals =>
      if min_approvals <=? yes_votes members p then (with_status Passed p, true)
      else (with_status Rejected p, false)
  | AdminKeys _ => (with_status Passed p, true)
  end.

(** The first loop of [tick]: visits the proposals in [order], tallies the ones
    that are due, and collects the ids to execute. *)
Fixpoint tally_all (order : list Str) (current : Z) (config : GovernanceConfig)
    (m : gmap Str Proposal) : gmap Str Proposal * list Str :=
  match order with
  | [] => (m, [])
  | k :: rest =>
      match m !! k with
      | Some p =>
          if bool_decide (status p = Voting) && (end_height p <=? current) then
            let '(p', run) := tally config p in
            let '(m', l) := tally_all rest current config (<[k := p']> m) in
            (m', if run then id p :: l else l)
          else tally_all rest current config m
      | None => tally_all rest current config m
      end
  end.

(** The second loop: submits the passed proposals to the registry. *)
Fixpoint execute_all (fresh : Str -> Z) (l : list Str)
    (m : gmap Str Proposal) (r : ChainParameterRegistry) : gmap Str Proposal * ChainParameterRegistry :=
  match l with
  | [] => (m, r)
  | k :: rest =>
      match m !! k with
      | Some p =>
          let voters := voter <$> (snd <$> map_to_list (votes p)) in
          match submit_parameter_upgrade (fresh k) (prop_patch p) (activation_height p) (proposer p)
                  voters r with
          | Ok (_, r') => execute_all fresh rest (<[k := with_status Executed p]> m) r'
          | Err _ => execute_all fresh rest m r
          end
      | None => execute_all fresh rest m r
      end
  end.

Definition tick (order : list Str) (fresh : Str -> Z) (current : Z)
    (g : GovernanceService) (r : ChainParameterRegistry) : GovernanceService * ChainParameterRegistry :=
  let '(m1, to_execute) := tally_all order current (governance r) (proposals g) in
  let '(m2, r') := execute_all fresh to_execute m1 r in
  (with_proposals m2 g, r').

(** ** Facts *)

(** Every proposal is stored under its own id. *)
Definition well_keyed (m : gmap Str Proposal) : Prop := forall k p, m !! k = Some p -> id p = k.

(** [order] is an order in which the map can be iterated. *)
Definition iteration_order (order : list Str) (m : gmap Str Proposal) : Prop :=
  NoDup order /\ forall k, k ∈ order <-> is_Some (m !! k).

Definition due (current : Z) (p : Proposal) : bool :=
  bool_decide (status p = Voting) && (end_height p <=? current).

Lemma tally_fields config p : id (fst (tally config p)) = id p /\
  status (fst (tally config p)) <> Voting /\
  end_height (fst (tally config p)) = end_height p /\ votes (fst (tally config p)) = votes p /\
  (snd (tally config p) = true -> status (fst (tally config p)) = Passed).
Proof. destruct config as [ks|ms n]; cbn; [done|]. by destruct (n <=? yes_votes ms p). Qed.

(** The first loop decides each due proposal once and leaves the others. *)
Lemma tally_all_lookup order current config m m' l k :
  NoDup order -> tally_all order current config m = (m', l) ->
  m' !! k = (fun p => if bool_decide (k ∈ order) && due current p then fst (tally config p) else p)
              <$> m !! k.
Proof.
  revert m m' l. induction order as [|x order IH]; intros m m' l Hd Ht.
  { cbn in Ht. injection Ht as <- <-. rewrite (bool_decide_eq_false_2 (k ∈ [])) by set_solver.
    cbn. by destruct (m !! k). }
  apply NoDup_cons in Hd as [Hx Hd]. cbn in Ht.
  assert (forall mm, tally_all order current config mm = (m', l) -> mm = m ->
    (forall p, m !! x = Some p -> due current p = false) ->
    m' !! k = (fun p => if bool_decide (k ∈ x :: order) && due current p
                        then fst (tally config p) else p) <$> m !! k) as Hskip.
  { intros mm Hm -> Hnd. rewrite (IH _ _ _ Hd Hm). destruct (m !! k) as [p|] eqn:Ek; [|done]. cbn.
    destruct (decide (k = x)) as [->|Hne].
    - rewrite (Hnd p Ek), !andb_false_r. done.
    - by rewrite (bool_decide_ext (k ∈ x :: order) (k ∈ order)) by set_solver. }
  destruct (m !! x) as [p|] eqn:Ex; [|by apply (Hskip m)].
  fold (due current p) in Ht. destruct (due current p) eqn:Edue;
    [|apply (Hskip m Ht eq_refl); by intros ? [= <-]].
  destruct (tally config p) as [p' run] eqn:Ep.
  destruct (tally_all order current config (<[x := p']> m)) as [m1 l1] eqn:E1. injection Ht as <- <-.
  rewrite (IH _ _ _ Hd E1). destruct (decide (k = x)) as [->|Hne].
  - rewrite lookup_insert_eq, Ex. cbn. rewrite (bool_decide_eq_false_2 (x ∈ order)) by done.
    rewrite bool_decide_eq_true_2 by set_solver. cbn. by rewrite Edue, Ep.
  - rewrite lookup_insert_ne by done. destruct (m !! k); [|done]. cbn.
    by rewrite (bool_decide_ext (k ∈ x :: order) (k ∈ order)) by set_solver.
Qed.

(** The rule: enough members approved. *)
Definition passes (config : GovernanceConfig) (p : Proposal) : bool :=
  match config with Dao members n => n <=? yes_votes members p | AdminKeys _ => true end.

Lemma passes_rule config p :
  passes config p = false <-> exists members n, config = Dao members n /\ yes_votes members p < n.
Proof.
  destruct config as [ks|ms n]; cbn; [split; [done|by intros (?&?&?&?)]|]. rewrite Z.leb_gt. naive_solver.
Qed.

Lemma tally_passes config p :
  tally config p = if passes config p then (with_status Passed p, true) else (with_status Rejected p, false).
Proof. by destruct config. Qed.

(** The proposals that are sent to the registry, in the order they are visited. *)
Definition to_submit (current : Z) (config : GovernanceConfig) (m : gmap Str Proposal) (k : Str) : option Proposal :=
  p ← m !! k; if due current p && passes config p then Some p else None.

Lemma to_submit_Some current config m k p :
  to_submit current config m k = Some p <-> m !! k = Some p /\ due current p = true /\ passes config p = true.
Proof.
  unfold to_submit. destruct (m !! k) as [q|]; cbn; [|split; [done|by intros [? _]]].
  destruct (due current q) eqn:E1, (passes config q) eqn:E2; cbn;
    (split; [by intros [= <-]|intros ([= ->] & ? & ?); congruence]).
Qed.

Lemma to_submit_insert current config m x p' (l : list Str) :
  x ∉ l -> omap (to_submit current config (<[x := p']> m)) l = omap (to_submit current config m) l.
Proof.
  induction l as [|y l IH]; intros Hx; [done|]. cbn. rewrite IH by set_solver.
  unfold to_submit. by rewrite lookup_insert_ne by set_solver.
Qed.

Lemma tally_all_list order current config m m' l :
  NoDup order -> well_keyed m -> tally_all order current config m = (m', l) ->
  l = id <$> omap (to_submit current config m) order.
Proof.
  revert m m' l. induction order as [|x order IH]; intros m m' l Hd Hw Ht; cbn in Ht.
  { by injection Ht as <- <-. }
  apply NoDup_cons in Hd as [Hx Hd]. cbn [omap list_omap]. unfold to_submit at 1.
  destruct (m !! x) as [p|] eqn:Ex; cbn [mbind option_bind]; [|by eapply IH].
  fold (due current p) in Ht. destruct (due current p) eqn:Edue; cbn [andb]; [|by eapply IH].
  rewrite tally_passes in Ht. destruct (passes config p); cbn in Ht;
    (match type of Ht with context [<[x := ?q]> m] =>
       destruct (tally_all order current config (<[x := q]> m)) as [m1 l1] eqn:E1 end;
     injection Ht as <- <-; apply IH in E1; [rewrite E1, to_submit_insert by done; done|done|];
     intros y q' [[<- <-]|[? ?]]%lookup_insert_Some; [exact (Hw x p Ex)|by apply Hw]).
Qed.

Lemma to_submit_elem current config m (order : list Str) k :
  well_keyed m -> k ∈ id <$> omap (to_submit current config m) order <->
  k ∈ order /\ is_Some (to_submit current config m k).
Proof.
  intros Hw. rewrite list_elem_of_fmap. setoid_rewrite list_elem_of_omap. split.
  - intros (p & -> & x & Hx & Hp). pose proof Hp as Hp'. apply to_submit_Some in Hp' as [Hm _].
    rewrite (Hw _ _ Hm). eauto.
  - intros [Hk [p Hp]]. exists p. split; [|eauto]. symmetry. apply Hw. by apply to_submit_Some in Hp as [? _].
Qed.

Lemma to_submit_nodup current config m (order : list Str) :
  well_keyed m -> NoDup order -> NoDup (id <$> omap (to_submit current config m) order).
Proof.
  intros Hw. induction order as [|x order IH]; intros Hd; [constructor|]. apply NoDup_cons in Hd as [Hx Hd].
  cbn. destruct (to_submit current config m x) as [p|] eqn:E; [|by apply IH]. cbn. apply NoDup_cons.
  split; [|by apply IH]. rewrite to_submit_elem by done. apply to_submit_Some in E as [Hm _].
  rewrite (Hw _ _ Hm). tauto.
Qed.

(** A submission of a proposal, and what it does to the registry. *)
Definition submission (fresh : Str -> Z) (p : Proposal) (r : ChainParameterRegistry)
    : result ParamError (Str * ChainParameterRegistry) :=
  submit_parameter_upgrade (fresh (id p)) (prop_patch p) (activation_height p) (proposer p)
    (voter <$> (snd <$> map_to_list (votes p))) r.
Definition accepted (fresh : Str -> Z) (p : Proposal) (r : ChainParameterRegistry) : bool :=
  match submission fresh p r with Ok _ => true | Err _ => false end.
Definition submitted (fresh : Str -> Z) (r : ChainParameterRegistry) (p : Proposal) : ChainParameterRegistry :=
  match submission fresh p r with Ok (_, r') => r' | Err _ => r end.

(** Earlier submissions of the same tick do not matter. *)
Lemma accepted_submitted fresh p q r : accepted fresh p (submitted fresh r q) = accepted fresh p r.
Proof.
  unfold submitted. destruct (submission fresh q r) as [[t r1]|x] eqn:E; [|done].
  unfold submission, submit_parameter_upgrade in E. destruct (negb _); [done|].
  destruct (check_role r (proposer q) RoleOperator); [|done]. cbn in E.
  destruct (authorize_upgrade r _ _); [|done]. cbn in E. destruct (_ <? _); [done|]. injection E as _ Hr1.
  assert (forall a c, check_role r1 a c = check_role r a c) as Hc by by subst r1.
  assert (forall a vs, authorize_upgrade r1 a vs = authorize_upgrade r a vs) as Ha by by subst r1.
  unfold accepted, submission, submit_parameter_upgrade. rewrite Hc, Ha. destruct (negb _); [done|].
  destruct (check_role r (proposer p) RoleOperator); [|done]. cbn.
  destruct (authorize_upgrade r _ _); [|done]. subst r1. cbn. by destruct (_ <? _).
Qed.

Lemma execute_all_spec fresh l m r m' r' :
  NoDup l -> well_keyed m -> execute_all fresh l m r = (m', r') ->
  (forall k, m' !! k = (fun p => if bool_decide (k ∈ l) && accepted fresh p r then with_status Executed p else p)
                         <$> m !! k) /\
  r' = fold_left (submitted fresh) (omap (fun k => m !! k) l) r.
Proof.
  revert m r. induction l as [|x l IH]; intros m r Hd Hw He; cbn in He.
  { injection He as <- <-. split; [|done]. intros k. rewrite (bool_decide_eq_false_2 (k ∈ [])) by set_solver.
    cbn. by destruct (m !! k). }
  apply NoDup_cons in Hd as [Hx Hd]. cbn [omap list_omap]. destruct (m !! x) as [q|] eqn:Ex; cycle 1.
  { destruct (IH _ _ Hd Hw He) as [IH1 IH2]. split; [|done]. intros k. rewrite IH1.
    destruct (decide (k = x)) as [->|]; [by rewrite Ex|].
    by rewrite (bool_decide_ext (k ∈ x :: l) (k ∈ l)) by set_solver. }
  cbn [fold_left]. pose proof (Hw x q Ex) as Hid. rewrite <- Hid in He at 1.
  fold (submission fresh q r) in He.
  assert (omap (fun k => <[x := with_status Executed q]> m !! k) l = omap (fun k => m !! k) l) as Hom.
  { clear -Hx. induction l as [|y l IH]; [done|]. cbn. rewrite lookup_insert_ne by set_solver.
    rewrite IH by set_solver. done. }
  assert (forall k (mm : gmap Str Proposal), k <> x -> mm !! k = m !! k -> m' !! k =
     (fun p => if bool_decide (k ∈ l) && accepted fresh p (submitted fresh r q) then with_status Executed p else p)
       <$> mm !! k -> m' !! k =
     (fun p => if bool_decide (k ∈ x :: l) && accepted fresh p r then with_status Executed p else p) <$> m !! k)
    as Hother.
  { intros k mm Hne Hmm ->. rewrite Hmm. destruct (m !! k) as [p|]; [|done]. cbn.
    rewrite accepted_submitted. by rewrite (bool_decide_ext (k ∈ x :: l) (k ∈ l)) by set_solver. }
  assert (accepted fresh q r = match submission fresh q r with Ok _ => true | Err _ => false end) as Hacc by done.
  unfold submitted at 2. unfold submitted in Hother.
  destruct (submission fresh q r) as [[t r1]|y] eqn:Es.
  - destruct (IH (<[x := with_status Executed q]> m) r1) as [IH1 IH2]; [done| |done|].
    { intros k p [[<- <-]|[_ ?]]%lookup_insert_Some; [done|by apply Hw]. }
    rewrite Hom in IH2. split; [|done]. intros k. destruct (decide (k = x)) as [->|Hne].
    + rewrite IH1, lookup_insert_eq, Ex. cbn. rewrite (bool_decide_eq_false_2 (x ∈ l)) by done.
      rewrite bool_decide_eq_true_2 by set_solver. by rewrite Hacc.
    + eapply Hother; [done| |apply IH1]. by rewrite lookup_insert_ne.
  - destruct (IH _ _ Hd Hw He) as [IH1 IH2]. split; [|done]. intros k. destruct (decide (k = x)) as [->|Hne].
    + rewrite IH1, Ex. cbn. by rewrite Hacc, !andb_false_r.
    + by eapply Hother; [done|done|].
Qed.

(** What becomes of a proposal whose voting has ended. *)
Definition verdict (fresh : Str -> Z) (p : Proposal) (r : ChainParameterRegistry) : ProposalStatus :=
  if passes (governance r) p then if accepted fresh p r then Executed else Passed else Rejected.


Lemma submitted_status (fresh : Str -> Z) (m : gmap Str Proposal) (ps : list Proposal) (r : ChainParameterRegistry) :
  (forall p, p ∈ ps -> exists s, m !! id p = Some (with_status s p)) ->
  fold_left (submitted fresh) (omap (fun k => m !! k) (id <$> ps)) r = fold_left (submitted fresh) ps r.
Proof.
  revert r. induction ps as [|p ps IH]; intros r Hp; [done|]. cbn.
  destruct (Hp p) as [s ->]; [by left|]. cbn. apply IH. intros q Hq. apply Hp. by right.
Qed.

Lemma tick_spec order fresh current g r g' r' :
  iteration_order order (proposals g) -> well_keyed (proposals g) -> tick order fresh current g r = (g', r') ->
  (forall k, proposals g' !! k =
     (fun p => if due current p then with_status (verdict fresh p r) p else p) <$> proposals g !! k) /\
  r' = fold_left (submitted fresh) (omap (to_submit current (governance r) (proposals g)) order) r.
Proof.
  intros [Hnd Hord] Hw Ht. unfold tick in Ht.
  destruct (tally_all order current (governance r) (proposals g)) as [m1 l] eqn:E1.
  destruct (execute_all fresh l m1 r) as [m2 r2] eqn:E2. injection Ht as <- <-. cbn [proposals with_proposals].
  assert (forall k, m1 !! k = (fun p => if due current p then fst (tally (governance r) p) else p)
    <$> proposals g !! k) as Hm1.
  { intros k. rewrite (tally_all_lookup _ _ _ _ _ _ k Hnd E1). destruct (proposals g !! k) as [p|] eqn:Ek; [|done].
    cbn. by rewrite bool_decide_eq_true_2 by (apply Hord; by eexists). }
  pose proof (tally_all_list _ _ _ _ _ _ Hnd Hw E1) as ->.
  assert (well_keyed m1) as Hw1.
  { intros k p Hk. rewrite Hm1 in Hk. apply fmap_Some in Hk as (q & Hq & ->). rewrite <- (Hw k q Hq).
    destruct (due current q); [apply tally_fields|done]. }
  destruct (execute_all_spec _ _ _ _ _ _ (to_submit_nodup _ _ _ _ Hw Hnd) Hw1 E2) as [Hm2 ->]. split.
  - intros k. rewrite Hm2, Hm1. destruct (proposals g !! k) as [p|] eqn:Ek; [|done]. cbn. f_equal.
    rewrite (bool_decide_ext _ _ (to_submit_elem _ _ _ _ _ Hw)).
    rewrite (bool_decide_ext _ (due current p = true /\ passes (governance r) p = true)); cycle 1.
    { split; [intros [_ [q Hq]]; apply to_submit_Some in Hq; naive_solver|].
      intros [? ?]. split; [apply Hord; by eexists|]. exists p. by apply to_submit_Some. }
    unfold verdict. rewrite tally_passes. destruct (due current p), (passes (governance r) p); cbn; try done.
    rewrite bool_decide_eq_true_2 by done. change (accepted fresh (with_status Passed p) r) with (accepted fresh p r).
    by destruct (accepted fresh p r).
  - apply submitted_status. intros p (k & _ & (Hp & Hd & Hps)%to_submit_Some)%list_elem_of_omap.
    exists Passed. rewrite (Hw _ _ Hp), Hm1, Hp. cbn. by rewrite Hd, tally_passes, Hps.
Qed.

(** C21. The tick decides every proposal whose voting has ended, exactly once and
    by the rule: it becomes Rejected when fewer DAO members approved than
    required; otherwise it is submitted to the registry with its proposer and
    voters, and becomes Executed when the registry accepts it and stays Passed when
    it does not.  Proposals that are still open or already decided are untouched, no
    proposal appears or disappears, and the registry changes by exactly these
    submissions, in the order of the visit. *)
Theorem tick_decides order fresh current g r g' r' :
  iteration_order order (proposals g) -> well_keyed (proposals g) ->
  tick order fresh current g r = (g', r') ->
  (forall k, proposals g !! k = None -> proposals g' !! k = None) /\
  (forall k p, proposals g !! k = Some p ->
     (due current p = false -> proposals g' !! k = Some p) /\
     (due current p = true -> exists s, proposals g' !! k = Some (with_status s p) /\
        (s = Rejected <-> exists members n, governance r = Dao members n /\ yes_votes members p < n) /\
        (s = Executed <-> s <> Rejected /\ accepted fresh p r = true) /\
        (s = Passed <-> s <> Rejected /\ accepted fresh p r = false))) /\
  r' = fold_left (submitted fresh) (omap (to_submit current (governance r) (proposals g)) order) r.
Proof.
  intros Ho Hw Ht. destruct (tick_spec _ _ _ _ _ _ _ Ho Hw Ht) as [Hk Hr]. split_and!; [|..|done].
  - intros k Hn. by rewrite Hk, Hn.
  - intros k p Hp. rewrite Hk, Hp. cbn. split; intros ->; [done|]. eexists. split; [done|].
    rewrite <- passes_rule. unfold verdict.
    by destruct (passes (governance r) p), (accepted fresh p r); split_and!; split; try (intros [? ?]).
Qed.

(** *** The life of a proposal *)

(** One operation of the service; [tick] iterates in any admissible order. *)
Inductive gov_step (g : GovernanceService) (r : ChainParameterRegistry)
    : GovernanceService -> ChainParameterRegistry -> Prop :=
| gs_propose uuid who p a c t g' :
    proposals g !! uuid = None ->
    propose uuid who p a c r g = Ok (t, g') -> gov_step g r g' r
| gs_vote k who yes g' : cast_vote k who yes r g = Ok g' -> gov_step g r g' r
| gs_tick order fresh c g' r' :
    iteration_order order (proposals g) -> tick order fresh c g r = (g', r') -> gov_step g r g' r'
| gs_registry r' : gov_step g r g r'.

Lemma with_status_id p : with_status (status p) p = p.
Proof. by destruct p. Qed.

Lemma gov_step_keyed g r g' r' :
  well_keyed (proposals g) -> gov_step g r g' r' -> well_keyed (proposals g').
Proof.
  intros Hw Hs. destruct Hs as [uuid who p a c t g' _ Hp|k who yes g' Hv|order fresh c g' r' [Hnd Ho] Ht|r'];
    [..|done].
  - unfold propose in Hp. destruct (check_role r who RoleOperator); [|done]. cbn in Hp.
    injection Hp as <- <-. cbn. intros y q [[<- <-]|[_ ?]]%lookup_insert_Some; [done|by apply Hw].
  - unfold cast_vote in Hv. destruct (check_role r who RoleOperator); [|done]. cbn in Hv.
    destruct (proposals g !! k) as [q|] eqn:Eq; [|done]. cbn in Hv. case_bool_decide; [|done].
    injection Hv as <-. cbn. intros y z [[<- <-]|[_ ?]]%lookup_insert_Some; cbn; by apply Hw.
  - intros y q Hq. rewrite (proj1 (tick_spec _ _ _ _ _ _ _ (conj Hnd Ho) Hw Ht)) in Hq.
    apply fmap_Some in Hq as (p & Hp & ->). destruct (due c p); by apply Hw in Hp.
Qed.

(** Decisions are final: no sequence of operations on the service changes a
    proposal that has left the Voting state - a proposal that passed and could
    not be executed stays Passed for ever. *)
Theorem decisions_final g r k p : 
  well_keyed (proposals g) -> proposals g !! k = Some p -> status p <> Voting ->
  forall g' r', gov_step g r g' r' ->
    proposals g' !! k = Some p /\ well_keyed (proposals g').
Proof.
  intros Hw Hk Hp g' r' Hs. split; [|by eapply gov_step_keyed].
  destruct Hs as [uuid who q a c t g' Hf Hq|j who yes g' Hv|order fresh c g' r' Ho Ht|r']; [..|done].
  - unfold propose in Hq. destruct (check_role r who RoleOperator); [|done]. cbn in Hq.
    injection Hq as <- <-. cbn. rewrite lookup_insert_ne; congruence.
  - unfold cast_vote in Hv. destruct (check_role r who RoleOperator); [|done]. cbn in Hv.
    destruct (proposals g !! j) as [q|] eqn:Eq; [|done]. cbn in Hv. case_bool_decide; [|done].
    injection Hv as <-. cbn. rewrite lookup_insert_ne; congruence.
  - rewrite (proj1 (tick_spec _ _ _ _ _ _ _ Ho Hw Ht)), Hk. cbn. unfold due.
    by rewrite bool_decide_eq_false_2.
Qed.

(** One vote per participant: a cast vote is recorded under the normalized
    voter and replaces an earlier vote of the same participant; all other votes,
    the proposal's terms and all other proposals stay; and only a holder of a
    role votes, on an open proposal. *)
Theorem vote_recorded k who yes r g g' :
  cast_vote k who yes r g = Ok g' ->
  exists p p', proposals g !! k = Some p /\ status p = Voting /\ proposals g' !! k = Some p' /\
    p' = with_votes (votes p') p /\
    votes p' !! normalize_id who = Some (mkVote who yes 1) /\
    (forall v, v <> normalize_id who -> votes p' !! v = votes p !! v) /\
    (forall j, j <> k -> proposals g' !! j = proposals g !! j) /\
    is_Some (roles r !! normalize_id who).
Proof.
  intros Hv. unfold cast_vote in Hv.
  destruct (check_role r who RoleOperator) as [x|] eqn:Ec; [|done]. cbn in Hv.
  destruct (proposals g !! k) as [p|] eqn:Ek; [|done]. cbn in Hv. case_bool_decide; [|done].
  injection Hv as <-. eexists _, _. split; [done|]. split; [done|]. cbn.
  rewrite lookup_insert_eq. split; [done|]. split; [done|]. cbn. rewrite lookup_insert_eq.
  split; [done|]. split; [intros; by rewrite lookup_insert_ne|].
  split; [intros; by rewrite lookup_insert_ne|].
  apply check_role_Ok in Ec as [->|[_ ->]]; by eexists.
Qed.

(** Under admin-key governance voting prevents execution: a due proposal on
    which somebody with a non-empty name has voted is marked Passed, its upgrade
    is refused by the registry, and the registry does not change. *)
Theorem admin_votes_block_execution fresh current g r k p v keys :
  governance r = AdminKeys keys -> proposals g = {[k := p]} -> id p = k ->
  due current p = true -> v ∈ (snd <$> map_to_list (votes p)) -> voter v <> [] ->
  tick [k] fresh current g r = (with_proposals {[k := with_status Passed p]} g, r).
Proof.
  intros Hg Hp Hid Hd Hv Hne. unfold tick. cbn. rewrite Hp, lookup_singleton_eq, Hg.
  unfold due in Hd. rewrite Hd. cbn. rewrite Hid, insert_singleton_eq.
  rewrite lookup_singleton_eq. cbn.
  assert (exists x, submit_parameter_upgrade (fresh k) (prop_patch p) (activation_height p) (proposer p)
    (voter <$> (snd <$> map_to_list (votes p))) r = Err x) as [x ->]; [|done].
  unfold submit_parameter_upgrade. destruct (negb _); [by eexists|].
  destruct (check_role r (proposer p) RoleOperator); cbn; [|by eexists].
  unfold authorize_upgrade. rewrite Hg.
  assert (existsb (fun w => negb (bool_decide (w = []))) (voter <$> (snd <$> map_to_list (votes p))) = true)
    as ->; [|by eexists].
  apply existsb_exists. exists (voter v). split; [|by rewrite bool_decide_eq_false_2].
  apply list_elem_of_In, list_elem_of_fmap. eauto.
Qed.

(** *** Witnesses *)

Definition adm : Str := lit "Admin_ABC".
Definition voted_service : GovernanceService :=
  let g := new_service 10 in
  let r := run_ops dev_doc [OTip 100] in
  match propose (lit "p1") adm fee_patch 200 100 r g with
  | Ok (_, g1) => match cast_vote (lit "p1") adm true r g1 with Ok g2 => g2 | Err _ => g1 end
  | Err _ => g
  end.

Definition voted_proposal : Proposal :=
  mkProposal (lit "p1") adm fee_patch 200 Voting {[normalize_id adm := mkVote adm true 1]} 110.

Lemma voted_proposals : proposals voted_service = {[lit "p1" := voted_proposal]}.
Proof. vm_compute. reflexivity. Qed.

Lemma voted_order : iteration_order [lit "p1"] (proposals voted_service).
Proof.
  rewrite voted_proposals. split; [apply NoDup_singleton|]. intros k. rewrite list_elem_of_singleton.
  split; [intros ->; by rewrite lookup_singleton_eq|].
  by intros [p [<- _]%lookup_singleton_Some].
Qed.

Lemma voted_keyed : well_keyed (proposals voted_service).
Proof. rewrite voted_proposals. by intros k p [<- <-]%lookup_singleton_Some. Qed.

Definition after_tick := tick [lit "p1"] (fun _ => 7) 110 voted_service (run_ops dev_doc [OTip 110]).

Lemma tick_decides_witness :
  exists s, proposals (fst after_tick) !! lit "p1" = Some (with_status s voted_proposal) /\
    (s = Passed <-> s <> Rejected /\ accepted (fun _ => 7) voted_proposal (run_ops dev_doc [OTip 110]) = false).
Proof.
  destruct (tick_decides [lit "p1"] (fun _ => 7) 110 voted_service (run_ops dev_doc [OTip 110])
    (fst after_tick) (snd after_tick) voted_order voted_keyed ltac:(apply surjective_pairing)) as (_ & Hd & _).
  destruct (proj2 (Hd (lit "p1") voted_proposal ltac:(vm_compute; reflexivity)) ltac:(vm_compute; reflexivity))
    as (s & Hs & _ & _ & Hp).
  exists s. split; [exact Hs|exact Hp].
Defined.

Definition stuck_service : GovernanceService :=
  mkService {[lit "p1" := with_status Passed voted_proposal]} 10.

Lemma stuck_order : iteration_order [lit "p1"] (proposals stuck_service).
Proof.
  split; [apply NoDup_singleton|]. intros k. rewrite list_elem_of_singleton.
  unfold stuck_service. cbn [proposals].
  split; [intros ->; by rewrite lookup_singleton_eq|].
  by intros [p [<- _]%lookup_singleton_Some].
Qed.

Lemma stuck_keyed : well_keyed (proposals stuck_service).
Proof. unfold stuck_service. cbn [proposals]. by intros k p [<- <-]%lookup_singleton_Some. Qed.

Lemma decisions_final_witness :
  proposals (fst (tick [lit "p1"] (fun _ => 8) 120 stuck_service (run_ops dev_doc [OTip 120])))
    !! lit "p1" = Some (with_status Passed voted_proposal).
Proof.
  refine (proj1 (decisions_final stuck_service (run_ops dev_doc [OTip 120]) (lit "p1")
    (with_status Passed voted_proposal) stuck_keyed _ _ _ (run_ops dev_doc [OTip 120]) _)).
  - vm_compute. reflexivity.
  - discriminate.
  - apply (gs_tick _ _ [lit "p1"] (fun _ => 8) 120); [apply stuck_order|]. vm_compute. reflexivity.
Defined.

Lemma vote_recorded_witness :
  exists p p', proposals voted_service !! lit "p1" = Some p /\ status p = Voting /\
    votes p' !! normalize_id adm = Some (mkVote adm false 1).
Proof.
  destruct (vote_recorded (lit "p1") adm false (run_ops dev_doc [OTip 100]) voted_service
    (match cast_vote (lit "p1") adm false (run_ops dev_doc [OTip 100]) voted_service with
     | Ok g => g | Err _ => voted_service end)
    ltac:(vm_compute; reflexivity)) as (p & p' & Hp & Hs & _ & _ & Hv & _).
  exists p, p'. split; [exact Hp|]. split; [exact Hs|exact Hv].
Defined.

Lemma admin_votes_block_execution_witness :
  after_tick = (with_proposals {[lit "p1" := with_status Passed voted_proposal]} voted_service,
                run_ops dev_doc [OTip 110]).
Proof.
  refine (admin_votes_block_execution (fun _ => 7) 110 voted_service (run_ops dev_doc [OTip 110])
    (lit "p1") voted_proposal (mkVote adm true 1) [lit "Admin_ABC"] _ _ _ _ _ _).
  - reflexivity.
  - apply voted_proposals.
  - reflexivity.
  - vm_compute. reflexivity.
  - apply list_elem_of_fmap. exists (normalize_id adm, mkVote adm true 1). split; [reflexivity|].
    apply elem_of_map_to_list. apply lookup_singleton_eq.
  - discriminate.
Defined.
