(* ===== verification/Tasks.v ===== *)
(** Asynchronous tasks that take locks, for the node's components.

    A component's maps are behind [tokio::sync::RwLock]s.  A handler is run as a
    task of its own and its lock acquisitions are explicit: an acquisition of a
    lock that the task itself (or a task that never ends) still holds never
    completes.  The outcome is then [Blocked], with the state left behind. *)
From stdpp Require Import base decidable list.
From S2P Require Import Prelude.

(** A lock: free, held by that many readers, held by a writer, or jammed: a task
    waits for it for ever, and since the lock is fair everybody after it does. *)
Inductive LockState : Type := Free | Reading (n : nat) | Writing | Jammed.

#[global] Instance LockState_eq_dec : EqDecision LockState.
Proof. solve_decision. Defined.

Definition lock_read (l : LockState) : option LockState :=
  match l with Free => Some (Reading 1) | Reading n => Some (Reading (S n)) | _ => None end.
Definition lock_write (l : LockState) : option LockState :=
  match l with Free => Some Writing | _ => None end.
Definition unlock (l : LockState) : LockState :=
  match l with Reading (S (S n)) => Reading (S n) | _ => Free end.

Inductive run (St Er A : Type) : Type :=
| Ret (r : result Er A) (s : St)
| Blocked (s : St).
Arguments Ret {St Er A} r s.
Arguments Blocked {St Er A} s.

Definition Task (St Er A : Type) : Type := St -> run St Er A.

Section Tasks.
Context {St Er : Type}.

Definition ret {A} (a : A) : Task St Er A := fun s => Ret (Ok a) s.
Definition fail {A} (x : Er) : Task St Er A := fun s => Ret (Err x) s.
Definition bind {A B} (m : Task St Er A) (f : A -> Task St Er B) : Task St Er B := fun s =>
  match m s with
  | Ret (Ok a) s' => f a s'
  | Ret (Err x) s' => Ret (Err x) s'
  | Blocked s' => Blocked s'
  end.

(** A block that holds a guard: it is released when the block ends, also by an
    early return; a block that never ends never releases it. *)
Definition scoped {A} (get : St -> LockState) (set : LockState -> St -> St)
    (acquire : LockState -> option LockState) (body : Task St Er A) : Task St Er A := fun s =>
  match acquire (get s) with
  | None => Blocked (set Jammed s)
  | Some l =>
      match body (set l s) with
      | Ret r s' => Ret r (set (unlock (get s')) s')
      | Blocked s' => Blocked s'
      end
  end.

Definition get_map {A} (f : St -> A) : Task St Er A := fun s => Ret (Ok (f s)) s.
Definition modify (f : St -> St) : Task St Er unit := fun s => Ret (Ok tt) (f s).

Lemma bind_blocked {A B} (m : Task St Er A) (f : A -> Task St Er B) s s' :
  m s = Blocked s' -> bind m f s = Blocked s'.
Proof. unfold bind. by intros ->. Qed.

End Tasks.

Notation "'do' x <- m ; k" := (bind m (fun x => k))
  (at level 10, x name, m at level 100, k at level 200).
