(* ===== verification/Consensus.v ===== *)
(** network-node/src/consensus.rs: proposals, votes, quorum and expiry.

    The engine's two maps are behind [tokio::sync::RwLock]s and its handlers are
    tasks (file Tasks): waiting for a lock the task holds itself is the outcome
    [Blocked], with the state left behind.  The clock
    ([chrono::Utc::now], in milliseconds) and the random ids ([Uuid::new_v4]) are
    arguments; sending on a channel fails when its receiver is gone. *)
From stdpp Require Import base gmap list strings sets fin_maps.
From S2P Require Import Prelude ChainParams Tasks.

Inductive VoteType : Type := Approve | Reject | Abstain.
Inductive ProposalStatus : Type := Active | Approved | Rejected | Expired.

#[global] Instance VoteType_eq_dec : EqDecision VoteType.
Proof. solve_decision. Defined.
#[global] Instance ProposalStatus_eq_dec : EqDecision ProposalStatus.
Proof. solve_decision. Defined.

Record Proposal : Type := mkProposal {
  id : Str;
  proposer : Str;
  content : list Z;
  created_at : Z;
  expires_at : Z;
  required_votes : Z;
  current_votes : Z;
  status : ProposalStatus }.

Record Vote : Type := mkVote {
  proposal_id : Str;
  voter : Str;
  vote_type : VoteType;
  timestamp : Z;
  signature : list Z;
  trace_context : option Str }.

Definition new_proposal (now : Z) (uuid who : Str) (body : list Z) (required ttl_minutes : Z)
    : Proposal :=
  mkProposal uuid who body now (now + as_i64 ttl_minutes * 60000) required 0 Active.

Definition is_expired (now : Z) (p : Proposal) : bool := now >? expires_at p.
Definition can_vote (now : Z) (p : Proposal) : bool :=
  bool_decide (status p = Active) && negb (is_expired now p).
Definition has_quorum (p : Proposal) : bool := required_votes p <=? current_votes p.

Definition new_vote (now : Z) (prop who : Str) (t : VoteType) (sig : list Z) : Vote :=
  mkVote prop who t now sig None.

Definition with_trace_context (c : Str) (v : Vote) : Vote :=
  mkVote (proposal_id v) (voter v) (vote_type v) (timestamp v) (signature v) (Some c).

Definition set_status (s : ProposalStatus) (p : Proposal) : Proposal :=
  mkProposal (id p) (proposer p) (content p) (created_at p) (expires_at p) (required_votes p)
    (current_votes p) s.

(** [current_votes += 1] on a [usize]. *)
Definition add_vote (p : Proposal) : Proposal :=
  mkProposal (id p) (proposer p) (content p) (created_at p) (expires_at p) (required_votes p)
    (as_u64 (current_votes p + 1)) (status p).

Record ConsensusEngine : Type := mkEngine {
  node_id : Str;
  proposals : gmap Str Proposal;
  proposals_lock : LockState;
  votes : gmap Str (list Vote);
  votes_lock : LockState;
  vote_sender : list Vote;
  vote_receiver_open : bool;
  proposal_sender : list Proposal;
  proposal_receiver_open : bool;
  engine_required_votes : Z;
  proposal_ttl_minutes : Z }.

(** One constructor per message of [NetworkError::Validation] / [Server]. *)
Inductive ConsensusError : Type :=
| ProposalNotFound (p : Str)
| ProposalNotActive (p : Str)
| AlreadyVoted (p : Str)
| UnknownProposal (p : Str)
| DuplicateVote (who : Str)
| BroadcastFailed.

(** ** Tasks on the engine *)

Abbreviation Task := (Tasks.Task ConsensusEngine ConsensusError).

Definition set_proposals_lock (l : LockState) (e : ConsensusEngine) : ConsensusEngine :=
  mkEngine (node_id e) (proposals e) l (votes e) (votes_lock e) (vote_sender e)
    (vote_receiver_open e) (proposal_sender e) (proposal_receiver_open e)
    (engine_required_votes e) (proposal_ttl_minutes e).
Definition set_votes_lock (l : LockState) (e : ConsensusEngine) : ConsensusEngine :=
  mkEngine (node_id e) (proposals e) (proposals_lock e) (votes e) l (vote_sender e)
    (vote_receiver_open e) (proposal_sender e) (proposal_receiver_open e)
    (engine_required_votes e) (proposal_ttl_minutes e).
Definition set_proposals (m : gmap Str Proposal) (e : ConsensusEngine) : ConsensusEngine :=
  mkEngine (node_id e) m (proposals_lock e) (votes e) (votes_lock e) (vote_sender e)
    (vote_receiver_open e) (proposal_sender e) (proposal_receiver_open e)
    (engine_required_votes e) (proposal_ttl_minutes e).
Definition set_votes (m : gmap Str (list Vote)) (e : ConsensusEngine) : ConsensusEngine :=
  mkEngine (node_id e) (proposals e) (proposals_lock e) m (votes_lock e) (vote_sender e)
    (vote_receiver_open e) (proposal_sender e) (proposal_receiver_open e)
    (engine_required_votes e) (proposal_ttl_minutes e).

Definition reading_proposals {A} : Task A -> Task A := scoped proposals_lock set_proposals_lock lock_read.
Definition writing_proposals {A} : Task A -> Task A := scoped proposals_lock set_proposals_lock lock_write.
Definition reading_votes {A} : Task A -> Task A := scoped votes_lock set_votes_lock lock_read.
Definition writing_votes {A} : Task A -> Task A := scoped votes_lock set_votes_lock lock_write.

Definition votes_of (e : ConsensusEngine) (p : Str) : list Vote := default [] (votes e !! p).

(** ** Handlers *)

Definition new_engine (node : Str) (required ttl : Z) : ConsensusEngine :=
  mkEngine node ∅ Free ∅ Free [] true [] true required ttl.

Definition send_proposal (p : Proposal) : Task unit := fun e =>
  if proposal_receiver_open e then
    Ret (Ok tt) (mkEngine (node_id e) (proposals e) (proposals_lock e) (votes e) (votes_lock e)
      (vote_sender e) (vote_receiver_open e) (proposal_sender e ++ [p]) (proposal_receiver_open e)
      (engine_required_votes e) (proposal_ttl_minutes e))
  else Ret (Err BroadcastFailed) e.

Definition send_vote (v : Vote) : Task unit := fun e =>
  if vote_receiver_open e then
    Ret (Ok tt) (mkEngine (node_id e) (proposals e) (proposals_lock e) (votes e) (votes_lock e)
      (vote_sender e ++ [v]) (vote_receiver_open e) (proposal_sender e) (proposal_receiver_open e)
      (engine_required_votes e) (proposal_ttl_minutes e))
  else Ret (Err BroadcastFailed) e.

Definition create_proposal (now : Z) (uuid : Str) (body : list Z) : Task Proposal :=
  do e <- get_map (fun e => e);
  let proposal := new_proposal now uuid (node_id e) body (engine_required_votes e)
                    (proposal_ttl_minutes e) in
  do _ <- writing_proposals
    (modify (fun e => set_proposals (<[id proposal := proposal]> (proposals e)) e));
  do _ <- send_proposal proposal;
  ret proposal.

Definition count_type (t : VoteType) (l : list Vote) : Z :=
  Z.of_nat (length (filter (fun v => vote_type v = t) l)).

Definition finalize_proposal (pid : Str) : Task unit :=
  do pv <- reading_proposals (reading_votes (
    do p <- get_map (fun e => proposals e !! pid);
    match p with
    | None => fail (ProposalNotFound pid)
    | Some p => do l <- get_map (fun e => votes_of e pid); ret (p, l)
    end));
  let approve_count := count_type Approve (snd pv) in
  let reject_count := count_type Reject (snd pv) in
  let final_status := if reject_count <? approve_count then Approved else Rejected in
  writing_proposals (
    modify (fun e => match proposals e !! pid with
                     | Some p => set_proposals (<[pid := set_status final_status p]> (proposals e)) e
                     | None => e
                     end)).

(** The sections of [vote] and [process_vote] between awaits. *)

Definition lookup_active (now : Z) (pid : Str) (missing : ConsensusError) : Task unit :=
  do p <- reading_proposals (get_map (fun e => proposals e !! pid));
  match p with
  | None => fail missing
  | Some p => if can_vote now p then ret tt else fail (ProposalNotActive pid)
  end.

Definition check_not_voted (pid who : Str) (dup : ConsensusError) : Task unit :=
  reading_votes (
    do l <- get_map (fun e => votes e !! pid);
    match l with
    | Some l => if existsb (fun v => bool_decide (voter v = who)) l then fail dup else ret tt
    | None => ret tt
    end).

Definition store_vote (v : Vote) : Task unit :=
  writing_votes (modify (fun e =>
    set_votes (<[proposal_id v := votes_of e (proposal_id v) ++ [v]]> (votes e)) e)).

(** The count is updated, and the proposal finalized, under the write guard. *)
Definition count_vote (pid : Str) : Task unit :=
  writing_proposals (
    do p <- get_map (fun e => proposals e !! pid);
    match p with
    | Some p =>
        do _ <- modify (fun e => set_proposals (<[pid := add_vote p]> (proposals e)) e);
        if has_quorum (add_vote p) then finalize_proposal pid else ret tt
    | None => ret tt
    end).

Definition vote (now : Z) (pid : Str) (t : VoteType) (sig : list Z) : Task unit :=
  do me <- get_map node_id;
  do _ <- lookup_active now pid (ProposalNotFound pid);
  do _ <- check_not_voted pid me (AlreadyVoted pid);
  let v := new_vote now pid me t sig in
  do _ <- store_vote v;
  do _ <- count_vote pid;
  send_vote v.

Definition process_vote (now : Z) (v : Vote) : Task unit :=
  do _ <- lookup_active now (proposal_id v) (UnknownProposal (proposal_id v));
  do _ <- check_not_voted (proposal_id v) (voter v) (DuplicateVote (voter v));
  do _ <- store_vote v;
  count_vote (proposal_id v).

Definition process_proposal (p : Proposal) : Task unit :=
  do known <- reading_proposals (get_map (fun e => bool_decide (is_Some (proposals e !! id p))));
  if known then ret tt else
  writing_proposals (modify (fun e => set_proposals (<[id p := p]> (proposals e)) e)).

Definition expired_ids (now : Z) (m : gmap Str Proposal) : list Str :=
  fst <$> filter (fun kp => is_expired now (snd kp) && bool_decide (status (snd kp) = Active))
            (map_to_list m).

(** Marks the listed proposals. *)
Definition mark_expired (ids : list Str) (m : gmap Str Proposal) : gmap Str Proposal :=
  fold_left (fun m k => match m !! k with
                        | Some p => <[k := set_status Expired p]> m
                        | None => m
                        end) ids m.

Definition cleanup_expired_proposals (now : Z) : Task Z :=
  do ids <- reading_proposals (get_map (fun e => expired_ids now (proposals e)));
  do _ <- (if bool_decide (ids = []) then ret tt else
           writing_proposals (modify (fun e => set_proposals (mark_expired ids (proposals e)) e)));
  ret (Z.of_nat (length ids)).

(** One round of the loop of [start_maintenance]: the write lock is requested
    while the read guard is still held. *)
Definition maintenance_round (now : Z) : Task Z :=
  reading_proposals (
    do ids <- get_map (fun e => expired_ids now (proposals e));
    do _ <- (if bool_decide (ids = []) then ret tt else
             writing_proposals (modify (fun e => set_proposals (mark_expired ids (proposals e)) e)));
    ret (Z.of_nat (length ids))).

Definition get_proposal (pid : Str) : Task (option Proposal) :=
  reading_proposals (get_map (fun e => proposals e !! pid)).

Definition get_votes (pid : Str) : Task (list Vote) :=
  reading_votes (get_map (fun e => votes_of e pid)).

Definition get_active_proposals (now : Z) : Task (list Proposal) :=
  reading_proposals (get_map (fun e =>
    filter (fun p => can_vote now p) (snd <$> map_to_list (proposals e)))).

Record ConsensusStats : Type := mkStats {
  stats_node_id : Str;
  total_proposals : Z;
  active_proposals : Z;
  approved_proposals : Z;
  rejected_proposals : Z;
  expired_proposals : Z;
  total_votes : Z;
  stats_required_votes : Z }.

Definition count_proposals (f : Proposal -> bool) (e : ConsensusEngine) : Z :=
  Z.of_nat (length (filter (fun p => f p) (snd <$> map_to_list (proposals e)))).

Definition get_stats (now : Z) : Task ConsensusStats :=
  reading_proposals (reading_votes (get_map (fun e =>
    mkStats (node_id e) (Z.of_nat (size (proposals e)))
      (count_proposals (can_vote now) e)
      (count_proposals (fun p => bool_decide (status p = Approved)) e)
      (count_proposals (fun p => bool_decide (status p = Rejected)) e)
      (count_proposals (fun p => bool_decide (status p = Expired)) e)
      (sumZ (fun l => Z.of_nat (length l)) (snd <$> map_to_list (votes e)))
      (engine_required_votes e)))).

(** ** Runs on an engine whose locks are free *)

Definition idle (e : ConsensusEngine) : Prop := proposals_lock e = Free /\ votes_lock e = Free.

Lemma reading_proposals_get {A} (f : ConsensusEngine -> A) e :
  idle e -> (forall l, f (set_proposals_lock l e) = f e) ->
  reading_proposals (get_map f) e = Ret (Ok (f e)) e.
Proof.
  intros [Hp Hv] Hf. unfold reading_proposals, scoped. rewrite Hp. cbn. rewrite Hf.
  destruct e; cbn in *. by subst.
Qed.

Lemma reading_votes_get {A} (f : ConsensusEngine -> A) e :
  idle e -> (forall l, f (set_votes_lock l e) = f e) -> reading_votes (get_map f) e = Ret (Ok (f e)) e.
Proof.
  intros [Hp Hv] Hf. unfold reading_votes, scoped. rewrite Hv. cbn. rewrite Hf.
  destruct e; cbn in *. by subst.
Qed.

Lemma writing_proposals_modify f e :
  idle e -> (forall l, f (set_proposals_lock l e) = set_proposals_lock l (f e)) ->
  proposals_lock (f e) = Free -> writing_proposals (modify f) e = Ret (Ok tt) (f e).
Proof.
  intros [Hp Hv] Hf Hl. unfold writing_proposals, scoped. rewrite Hp. cbn. rewrite Hf. cbn.
  destruct (f e); cbn in *. by subst.
Qed.

Lemma lookup_active_run now pid x e :
  idle e -> lookup_active now pid x e =
  Ret (match proposals e !! pid with
       | None => Err x
       | Some p => if can_vote now p then Ok tt else Err (ProposalNotActive pid)
       end) e.
Proof.
  intros He. unfold lookup_active, bind. rewrite reading_proposals_get by done.
  destruct (proposals e !! pid) as [p|]; [|done]. by destruct (can_vote now p).
Qed.

Definition has_voted (e : ConsensusEngine) (pid who : Str) : bool :=
  existsb (fun v => bool_decide (voter v = who)) (votes_of e pid).

Lemma check_not_voted_run pid who dup e :
  idle e -> check_not_voted pid who dup e = Ret (if has_voted e pid who then Err dup else Ok tt) e.
Proof.
  intros [Hp Hv]. unfold check_not_voted, reading_votes, scoped. rewrite Hv. cbn.
  unfold has_voted, votes_of, bind, get_map. cbn.
  destruct (votes e !! pid) as [l|]; cbn; [destruct (existsb _ l); cbn|]; destruct e; cbn in *; by subst.
Qed.

Definition push_vote (v : Vote) (e : ConsensusEngine) : ConsensusEngine :=
  set_votes (<[proposal_id v := votes_of e (proposal_id v) ++ [v]]> (votes e)) e.

Lemma store_vote_run v e : idle e -> store_vote v e = Ret (Ok tt) (push_vote v e).
Proof.
  intros [Hp Hv]. unfold store_vote, writing_votes, scoped. rewrite Hv. cbn.
  destruct e; cbn in *. by subst.
Qed.

(** Counting a vote finishes below the quorum; at the quorum the finalization
    waits for the lock its own caller holds. *)
Lemma count_vote_run pid e :
  idle e -> count_vote pid e =
  match proposals e !! pid with
  | None => Ret (Ok tt) e
  | Some p =>
      let e' := set_proposals (<[pid := add_vote p]> (proposals e)) e in
      if has_quorum (add_vote p) then Blocked (set_proposals_lock Jammed e') else Ret (Ok tt) e'
  end.
Proof.
  intros [Hp Hv]. unfold count_vote, writing_proposals, scoped. rewrite Hp. cbn. unfold bind. cbn.
  destruct (proposals e !! pid) as [p|]; cbn; [|destruct e; cbn in *; by subst].
  destruct (has_quorum (add_vote p)); destruct e; cbn in *; by subst.
Qed.

Lemma push_vote_idle v e : idle e -> idle (push_vote v e).
Proof. done. Qed.

(** *** Operations of the engine *)

Inductive cop : Type :=
| CCreate (now : Z) (uuid : Str) (body : list Z)
| CVote (now : Z) (pid : Str) (t : VoteType) (sig : list Z)
| CProcessVote (now : Z) (v : Vote)
| CProcessProposal (p : Proposal)
| CCleanup (now : Z)
| CMaintenance (now : Z)
| CGetProposal (pid : Str)
| CGetVotes (pid : Str)
| CGetActive (now : Z)
| CGetStats (now : Z).

Definition drop {A} (m : Task A) : Task unit := bind m (fun _ => ret tt).

Definition run_cop (o : cop) : Task unit :=
  match o with
  | CCreate now u b => drop (create_proposal now u b)
  | CVote now p t s => vote now p t s
  | CProcessVote now v => process_vote now v
  | CProcessProposal p => process_proposal p
  | CCleanup now => drop (cleanup_expired_proposals now)
  | CMaintenance now => drop (maintenance_round now)
  | CGetProposal p => drop (get_proposal p)
  | CGetVotes p => drop (get_votes p)
  | CGetActive now => drop (get_active_proposals now)
  | CGetStats now => drop (get_stats now)
  end.

(** The engine after an operation, whether it returned or not. *)
Definition after {A} (x : run ConsensusEngine ConsensusError A) : ConsensusEngine := match x with Ret _ e | Blocked e => e end.

Definition run_cops (e : ConsensusEngine) (l : list cop) : ConsensusEngine :=
  fold_left (fun e o => after (run_cop o e)) l e.

(** *** A jammed engine *)

Lemma jammed_reading {A} (m : Task A) e :
  proposals_lock e = Jammed -> reading_proposals m e = Blocked e.
Proof. intros He. unfold reading_proposals, scoped. rewrite He. destruct e; cbn in *. by subst. Qed.

Lemma jammed_writing {A} (m : Task A) e :
  proposals_lock e = Jammed -> writing_proposals m e = Blocked e.
Proof. intros He. unfold writing_proposals, scoped. rewrite He. destruct e; cbn in *. by subst. Qed.

(** A jammed engine: the lock of the proposals is waited for for ever, the lock of
    the votes is free. *)
Definition jammed (e : ConsensusEngine) : Prop := proposals_lock e = Jammed /\ votes_lock e = Free.

(** Reading the votes of a proposal takes the other lock only. *)
Definition only_votes (o : cop) : bool := match o with CGetVotes _ => true | _ => false end.

Lemma jammed_blocks o e : jammed e -> only_votes o = false -> run_cop o e = Blocked e.
Proof.
  intros [He _]. pose proof (fun A m => @jammed_reading A m e He) as Hr.
  pose proof (fun A m => @jammed_writing A m e He) as Hw.
  destruct o; cbn [run_cop]; intros Ho; try done.
  - apply bind_blocked. unfold create_proposal. unfold bind at 1. cbn. by apply bind_blocked.
  - unfold vote. unfold bind at 1. cbn. do 2 apply bind_blocked. apply Hr.
  - do 2 apply bind_blocked. apply Hr.
  - apply bind_blocked, Hr.
  - do 2 apply bind_blocked. apply Hr.
  - apply bind_blocked, Hr.
  - apply bind_blocked, Hr.
  - apply bind_blocked, Hr.
  - apply bind_blocked, Hr.
Qed.

Lemma get_votes_run pid e : votes_lock e = Free -> get_votes pid e = Ret (Ok (votes_of e pid)) e.
Proof.
  intros Hv. unfold get_votes, reading_votes, scoped. rewrite Hv. cbn. destruct e; cbn in *. by subst.
Qed.

Lemma jammed_stays o e : jammed e -> after (run_cop o e) = e.
Proof.
  intros Hj. destruct (only_votes o) eqn:Ho; [|by rewrite jammed_blocks].
  destruct o; try done. cbn. unfold drop, bind. rewrite get_votes_run by apply Hj. done.
Qed.

(** Both vote handlers from their sections, on an idle engine. *)
Lemma process_vote_run now v e :
  idle e -> process_vote now v e =
  match proposals e !! proposal_id v with
  | None => Ret (Err (UnknownProposal (proposal_id v))) e
  | Some p =>
      if negb (can_vote now p) then Ret (Err (ProposalNotActive (proposal_id v))) e
      else if has_voted e (proposal_id v) (voter v) then Ret (Err (DuplicateVote (voter v))) e
      else count_vote (proposal_id v) (push_vote v e)
  end.
Proof.
  intros He. unfold process_vote. unfold bind at 1. rewrite lookup_active_run by done.
  destruct (proposals e !! proposal_id v) as [p|]; [|done]. destruct (can_vote now p); [|done]. cbn.
  unfold bind at 1. rewrite check_not_voted_run by done. destruct (has_voted _ _ _); [done|].
  unfold bind. by rewrite store_vote_run.
Qed.


(** *** What one operation does to the maps *)

Inductive map_step (m : gmap Str Proposal) (vs : gmap Str (list Vote)) (o : cop)
    : gmap Str Proposal -> gmap Str (list Vote) -> Prop :=
| ms_same : map_step m vs o m vs
| ms_new p :
    (exists now uuid body who req ttl, o = CCreate now uuid body /\ p = new_proposal now uuid who body req ttl) \/
    (o = CProcessProposal p /\ m !! id p = None) ->
    map_step m vs o (<[id p := p]> m) vs
| ms_vote v p now :
    m !! proposal_id v = Some p -> can_vote now p = true ->
    voter v ∉ (voter <$> default [] (vs !! proposal_id v)) ->
    map_step m vs o (<[proposal_id v := add_vote p]> m)
      (<[proposal_id v := default [] (vs !! proposal_id v) ++ [v]]> vs)
| ms_expire now : map_step m vs o (mark_expired (expired_ids now m) m) vs.

Definition settled (e : ConsensusEngine) : Prop := idle e \/ jammed e.

Lemma has_voted_false e pid who : has_voted e pid who = false -> who ∉ (voter <$> votes_of e pid).
Proof.
  intros Hh (v & -> & Hv)%list_elem_of_fmap. apply not_true_iff_false in Hh. apply Hh.
  apply existsb_exists. exists v. split; [by apply list_elem_of_In|]. by apply bool_decide_eq_true.
Qed.

(** Counting a stored vote, seen from the engine before it was stored. *)
Lemma vote_step o now v e :
  idle e -> (exists p, proposals e !! proposal_id v = Some p /\ can_vote now p = true) ->
  has_voted e (proposal_id v) (voter v) = false ->
  let e' := after (count_vote (proposal_id v) (push_vote v e)) in
  settled e' /\ map_step (proposals e) (votes e) o (proposals e') (votes e').
Proof.
  intros He (p & Hp & Hc) Hv. cbn zeta. rewrite count_vote_run by done. cbn. rewrite Hp.
  assert (map_step (proposals e) (votes e) o (<[proposal_id v := add_vote p]> (proposals e))
    (<[proposal_id v := votes_of e (proposal_id v) ++ [v]]> (votes e))).
  { eapply ms_vote; [done|done|by apply has_voted_false]. }
  destruct (has_quorum (add_vote p)); cbn; [split; [right; split; [done|apply He]|done]|split; [by left|done]].
Qed.

Lemma process_vote_step now v e :
  idle e -> let e' := after (process_vote now v e) in
  settled e' /\ map_step (proposals e) (votes e) (CProcessVote now v) (proposals e') (votes e').
Proof.
  intros He. cbn zeta. rewrite process_vote_run by done.
  destruct (proposals e !! proposal_id v) as [p|] eqn:Hp; [|split; [by left|constructor]].
  destruct (can_vote now p) eqn:Hc; cbn; [|split; [by left|constructor]].
  destruct (has_voted e _ _) eqn:Hv; [split; [by left|constructor]|].
  apply (vote_step _ now); [done|eauto|done].
Qed.

Lemma vote_run now pid t sig e :
  idle e -> vote now pid t sig e =
  match proposals e !! pid with
  | None => Ret (Err (ProposalNotFound pid)) e
  | Some p =>
      if negb (can_vote now p) then Ret (Err (ProposalNotActive pid)) e
      else if has_voted e pid (node_id e) then Ret (Err (AlreadyVoted pid)) e
      else let v := new_vote now pid (node_id e) t sig in
           bind (count_vote pid) (fun _ => send_vote v) (push_vote v e)
  end.
Proof.
  intros He. unfold vote. unfold bind at 1. cbn [get_map]. unfold bind at 1.
  rewrite lookup_active_run by done.
  destruct (proposals e !! pid) as [p|]; [|done]. destruct (can_vote now p); [|done]. cbn [negb].
  unfold bind at 1. rewrite check_not_voted_run by done. destruct (has_voted _ _ _); [done|].
  unfold bind at 1. by rewrite store_vote_run.
Qed.

Lemma vote_handler_step now pid t sig e :
  idle e -> let e' := after (vote now pid t sig e) in
  settled e' /\ map_step (proposals e) (votes e) (CVote now pid t sig) (proposals e') (votes e').
Proof.
  intros He. cbn zeta. rewrite vote_run by done.
  destruct (proposals e !! pid) as [p|] eqn:Hp; [|split; [by left|constructor]].
  destruct (can_vote now p) eqn:Hc; cbn [negb]; [|split; [by left|constructor]].
  destruct (has_voted e pid (node_id e)) eqn:Hv; [split; [by left|constructor]|].
  set (v := new_vote now pid (node_id e) t sig).
  pose proof (vote_step (CVote now pid t sig) now v e He ltac:(eauto) Hv) as Hs. cbn in Hs.
  unfold bind. destruct (count_vote pid (push_vote v e)) as [[[]|x] e1|e1]; cbn in *; try done.
  unfold send_vote. by destruct (vote_receiver_open e1).
Qed.

Lemma run_cop_step o e :
  idle e -> let e' := after (run_cop o e) in
  settled e' /\ map_step (proposals e) (votes e) o (proposals e') (votes e').
Proof.
  intros He. destruct o as [now u b|now pid t s|now v|p|now|now|pid|pid|now|now]; cbn [run_cop]; cbn zeta.
  - unfold drop, create_proposal, bind. cbn. rewrite writing_proposals_modify by (done || apply He).
    unfold send_proposal. cbn. destruct (proposal_receiver_open e); (split; [by left|]).
    all: apply (ms_new _ _ _ (new_proposal now u (node_id e) b (engine_required_votes e)
      (proposal_ttl_minutes e))); left; eauto 10.
  - by apply vote_handler_step.
  - by apply process_vote_step.
  - unfold process_proposal, bind. rewrite reading_proposals_get by done.
    case_bool_decide as Hk; [split; [by left|constructor]|].
    rewrite writing_proposals_modify by (done || apply He). split; [by left|].
    apply ms_new. right. split; [done|]. by apply eq_None_not_Some.
  - unfold drop, cleanup_expired_proposals, bind. rewrite reading_proposals_get by done.
    case_bool_decide; [split; [by left|constructor]|].
    rewrite writing_proposals_modify by (done || apply He). split; [by left|]. apply ms_expire.
  - unfold drop, maintenance_round, bind, reading_proposals, scoped.
    rewrite (proj1 He). cbn. case_bool_decide; cbn.
    + split; [left; by destruct e, He|constructor].
    + split; [right; split; [done|apply He]|constructor].
  - unfold drop, get_proposal, bind. rewrite reading_proposals_get by done. split; [by left|constructor].
  - unfold drop, bind. rewrite get_votes_run by apply He. split; [by left|constructor].
  - unfold drop, get_active_proposals, bind. rewrite reading_proposals_get by done.
    split; [by left|constructor].
  - unfold drop, get_stats, bind, reading_proposals, reading_votes, scoped.
    rewrite (proj1 He). cbn. rewrite (proj2 He). cbn. split; [left; by destruct e, He|constructor].
Qed.

(** *** Engines reached from a new one *)

(** Fresh ids are fresh; the counter of a received proposal is a [usize]. *)
Definition cop_ok (e : ConsensusEngine) (o : cop) : Prop :=
  match o with
  | CCreate _ uuid _ => proposals e !! uuid = None
  | CProcessProposal p => 0 <= current_votes p <= u64_max
  | _ => True
  end.

(** The states of an engine, with the operations that led there. *)
Inductive creach : list cop -> ConsensusEngine -> Prop :=
| cr_new node required ttl : creach [] (new_engine node required ttl)
| cr_op l e o : creach l e -> cop_ok e o -> creach (l ++ [o]) (after (run_cop o e)).

(** The counter and the status a proposal came with: those of the first operation
    that brings it. *)
Definition brings (pid : Str) (o : cop) : option (Z * ProposalStatus) :=
  match o with
  | CCreate _ uuid _ => if decide (uuid = pid) then Some (0, Active) else None
  | CProcessProposal p => if decide (id p = pid) then Some (current_votes p, status p) else None
  | _ => None
  end.
Fixpoint came_with (l : list cop) (pid : Str) : option (Z * ProposalStatus) :=
  match l with
  | [] => None
  | o :: l' => match brings pid o with Some x => Some x | None => came_with l' pid end
  end.

Lemma came_with_snoc l o pid :
  came_with (l ++ [o]) pid = match came_with l pid with Some x => Some x | None => brings pid o end.
Proof.
  induction l as [|x l IH]; cbn; [by destruct (brings pid o)|]. destruct (brings pid x); [done|apply IH].
Qed.

Record books (l : list cop) (m : gmap Str Proposal) (vs : gmap Str (list Vote)) : Prop := mkBooks {
  bk_once : forall pid, NoDup (voter <$> default [] (vs !! pid));
  bk_count : forall pid p, m !! pid = Some p -> exists c0 s0,
    came_with l pid = Some (c0, s0) /\
    current_votes p = as_u64 (c0 + Z.of_nat (length (default [] (vs !! pid)))) /\
    (status p = s0 \/ s0 = Active /\ status p = Expired);
  bk_none : forall pid, m !! pid = None -> default [] (vs !! pid) = [] }.

Lemma mark_expired_lookup ids m k :
  mark_expired ids m !! k =
  (fun p => if bool_decide (k ∈ ids) then set_status Expired p else p) <$> m !! k.
Proof.
  unfold mark_expired. revert m. induction ids as [|x ids IH]; intros m; cbn [fold_left].
  { rewrite bool_decide_eq_false_2 by set_solver. by destruct (m !! k). }
  rewrite IH. destruct (decide (k = x)) as [->|Hne].
  - rewrite (bool_decide_eq_true_2 (x ∈ x :: ids)) by set_solver.
    destruct (m !! x) as [p|] eqn:Ex; [rewrite lookup_insert_eq|by rewrite Ex]. cbn.
    by case_bool_decide.
  - rewrite (bool_decide_ext (k ∈ x :: ids) (k ∈ ids)) by set_solver.
    destruct (m !! x) as [p|]; [by rewrite lookup_insert_ne|done].
Qed.

Lemma books_snoc l o m vs : books l m vs -> books (l ++ [o]) m vs.
Proof.
  intros [H1 H2 H3]. split; [done| |done]. intros pid p Hp. destruct (H2 pid p Hp) as (c0 & s0 & Hc & ?).
  exists c0, s0. by rewrite came_with_snoc, Hc.
Qed.

(** A proposal that is brought to an engine which knows of no proposal of that id. *)
Lemma new_books l o m vs p :
  books l m vs -> m !! id p = None -> came_with l (id p) = None -> brings (id p) o = Some (current_votes p, status p) ->
  0 <= current_votes p <= u64_max -> books (l ++ [o]) (<[id p := p]> m) vs.
Proof.
  intros Hb Hn Hl Ho Hr. pose proof (books_snoc _ o _ _ Hb) as [H1 H2 H3]. destruct Hb as [_ _ H3'].
  split; [done|..].
  - intros pid q [[<- <-]|[_ Hq]]%lookup_insert_Some; [|by apply H2].
    exists (current_votes p), (status p). rewrite came_with_snoc, Hl, H3' by done. cbn.
    rewrite Z.add_0_r, as_u64_id by done. auto.
  - intros pid [Hq _]%lookup_insert_None. by apply H3.
Qed.

Lemma vote_books l m vs v p now :
  books l m vs -> m !! proposal_id v = Some p -> can_vote now p = true ->
  voter v ∉ (voter <$> default [] (vs !! proposal_id v)) ->
  books l (<[proposal_id v := add_vote p]> m) (<[proposal_id v := default [] (vs !! proposal_id v) ++ [v]]> vs).
Proof.
  intros [H1 H2 H3] Hp Hc Hv. split.
  - intros pid. destruct (decide (pid = proposal_id v)) as [->|Hne].
    + rewrite lookup_insert_eq. cbn. rewrite fmap_app. apply NoDup_app. split; [apply H1|].
      split; [|apply NoDup_singleton]. cbn. set_solver.
    + rewrite lookup_insert_ne by done. apply H1.
  - intros pid q [[<- <-]|[Hne Hq]]%lookup_insert_Some.
    + destruct (H2 _ _ Hp) as (c0 & s0 & Hl & Hn & Hs). exists c0, s0. split; [done|]. split; [|done].
      rewrite lookup_insert_eq. cbn. rewrite Hn, length_app. cbn [length]. rewrite as_u64_add.
      f_equal. lia.
    + rewrite lookup_insert_ne by done. by apply H2.
  - intros pid [Hq Hne]%lookup_insert_None. rewrite lookup_insert_ne by done. by apply H3.
Qed.

Lemma expire_books l m vs now : books l m vs -> books l (mark_expired (expired_ids now m) m) vs.
Proof.
  intros [H1 H2 H3]. split; [done|..].
  - intros pid q Hq. rewrite mark_expired_lookup in Hq.
    destruct (m !! pid) as [p|] eqn:Ep; [|done]. cbn in Hq. injection Hq as <-.
    destruct (H2 _ _ Ep) as (c0 & s0 & Hl & Hn & Hs). exists c0, s0. split; [done|].
    case_bool_decide as Hin; [|done]. split; [done|]. right. split; [|done].
    unfold expired_ids in Hin. apply list_elem_of_fmap in Hin as ([k q] & -> & [Hf Hk]%list_elem_of_filter).
    apply elem_of_map_to_list in Hk. cbn in Hf, Ep, Hk. simplify_eq. apply Is_true_true, andb_true_iff in Hf as [_ Hf].
    apply bool_decide_eq_true in Hf. naive_solver.
  - intros pid Hq. rewrite mark_expired_lookup in Hq. apply H3. by destruct (m !! pid).
Qed.

Lemma map_step_books l e o m' vs' :
  cop_ok e o -> books l (proposals e) (votes e) ->
  (forall pid, proposals e !! pid = None -> came_with l pid = None) ->
  map_step (proposals e) (votes e) o m' vs' ->
  books (l ++ [o]) m' vs'.
Proof.
  intros Hok Hb Hu [|p Hp|v p now Hp Hc Hv|now].
  - by apply books_snoc.
  - destruct Hp as [(now & uuid & body & who & req & ttl & -> & ->)|[-> Hn]]; cbn in Hok.
    + apply new_books; cbn; [done|done|by apply Hu|by rewrite decide_True|unfold u64_max; lia].
    + apply new_books; cbn; [done|done|by apply Hu|by rewrite decide_True|done].
  - eapply vote_books; [by apply books_snoc|done..].
  - by apply expire_books, books_snoc.
Qed.

Lemma map_step_keeps m vs o m' vs' pid : map_step m vs o m' vs' -> m' !! pid = None -> m !! pid = None.
Proof.
  intros [|p Hp|v p now Hp Hc Hv|now]; [done|by intros [? _]%lookup_insert_None..|].
  rewrite mark_expired_lookup. by destruct (m !! pid).
Qed.

Lemma brings_known o e pid :
  idle e -> is_Some (brings pid o) -> is_Some (proposals (after (run_cop o e)) !! pid).
Proof.
  intros He. destruct o as [now u b| | |p| | | | | |]; cbn; try by intros [].
  - case_decide as E; [|by intros []]. intros _. unfold drop, create_proposal, bind. cbn.
    rewrite writing_proposals_modify by (done || apply He). unfold send_proposal. cbn.
    destruct (proposal_receiver_open e); cbn; rewrite E, lookup_insert_eq; by eexists.
  - case_decide as E; [|by intros []]. intros _. unfold process_proposal, bind. rewrite reading_proposals_get by done.
    case_bool_decide as Hk; cbn; [by rewrite <- E|]. rewrite writing_proposals_modify by (done || apply He).
    cbn. rewrite E, lookup_insert_eq. by eexists.
Qed.

Lemma creach_books l e :
  creach l e -> settled e /\ books l (proposals e) (votes e) /\
  (idle e -> forall pid, proposals e !! pid = None -> came_with l pid = None).
Proof.
  induction 1 as [node req ttl|l e o _ (Hs & Hb & Hu) Hok].
  - split; [by left|]. split; [|done].
    split; cbn [new_engine proposals votes]; intros pid; rewrite lookup_empty; [constructor|done|done].
  - destruct Hs as [Hi|Hj].
    + destruct (run_cop_step o e Hi) as [Hs' Hm]. split; [done|]. split; [by eapply map_step_books; eauto|].
      intros _ pid Hn. rewrite came_with_snoc.
      assert (proposals e !! pid = None /\ brings pid o = None) as [Hn' ->]; [|by rewrite Hu].
      split; [by eapply map_step_keeps|]. destruct (brings pid o) eqn:Eb; [|done].
      destruct (brings_known o e pid Hi) as [q Hq]; [by eexists|congruence].
    + rewrite jammed_stays by done. split; [by right|]. split; [by apply books_snoc|].
      intros [Hf _]. destruct Hj as [Hj _]. congruence.
Qed.

(** C23. One vote per voter and an exact count: however votes arrive, one after
    the other, no voter is recorded twice for a proposal, and the counter of a known
    proposal is what the proposal came with - zero for one created here, whatever a
    peer wrote there for one received, which nothing checks - plus the number of its
    recorded votes, modulo the width of the counter.  In particular it is the number
    of recorded votes for every proposal that came with zero.  (The random ids of new
    proposals are new.) *)
Theorem votes_counted_once l e pid :
  creach l e -> NoDup (voter <$> votes_of e pid) /\
  forall p, proposals e !! pid = Some p ->
    exists c0 s0, came_with l pid = Some (c0, s0) /\
      current_votes p = as_u64 (c0 + Z.of_nat (length (votes_of e pid))) /\
      (c0 = 0 -> Z.of_nat (length (votes_of e pid)) <= u64_max ->
       current_votes p = Z.of_nat (length (votes_of e pid))).
Proof.
  intros (_ & [H1 H2 _] & _)%creach_books. split; [apply H1|]. intros p Hp.
  destruct (H2 _ _ Hp) as (c0 & s0 & Hl & Hc & _). exists c0, s0. split; [done|]. split; [done|].
  intros -> Hle. fold (votes_of e pid) in Hc. rewrite Hc, Z.add_0_l. apply as_u64_id. lia.
Qed.

(** No proposal is ever decided here: in every state the engine's operations
    reach from a new engine, a proposal that is Approved or Rejected was received
    so - the branch that would decide one never completes. *)
Theorem never_decided l e pid p :
  creach l e -> proposals e !! pid = Some p ->
  status p = Active \/ status p = Expired \/ exists c0, came_with l pid = Some (c0, status p).
Proof.
  intros (_ & [_ H2 _] & _)%creach_books Hp. destruct (H2 _ _ Hp) as (c0 & s0 & Hl & _ & [Hs|[_ Hs]]); [|auto].
  right. right. exists c0. congruence.
Qed.

(** Clean-up expires exactly the overdue: on an idle engine it returns the
    number of Active proposals past their expiry, marks those Expired, and
    leaves every other proposal and the locks as they were; the maintenance
    round, which keeps its read guard while asking to write, never returns when
    there is one. *)
Theorem cleanup_exact now e :
  idle e ->
  let overdue p := is_expired now p && bool_decide (status p = Active) in
  (exists e', cleanup_expired_proposals now e = Ret (Ok (Z.of_nat (length (expired_ids now (proposals e))))) e' /\
     idle e' /\ forall k, proposals e' !! k =
       (fun p => if overdue p then set_status Expired p else p) <$> proposals e !! k) /\
  (expired_ids now (proposals e) <> [] -> exists e', maintenance_round now e = Blocked e').
Proof.
  intros He. cbn zeta.
  assert (forall k p, proposals e !! k = Some p -> bool_decide (k ∈ expired_ids now (proposals e)) =
    is_expired now p && bool_decide (status p = Active)) as Hin.
  { intros k p Hk. apply eq_bool_prop_intro. rewrite bool_decide_spec. unfold expired_ids.
    rewrite list_elem_of_fmap. split.
    - intros ([k' p'] & -> & [Hf Hl]%list_elem_of_filter). apply elem_of_map_to_list in Hl.
      cbn in *. assert (p' = p) as -> by congruence. done.
    - intros Hf. exists (k, p). split; [done|]. apply list_elem_of_filter. split; [done|].
      by apply elem_of_map_to_list. }
  split.
  - unfold cleanup_expired_proposals, bind. rewrite reading_proposals_get by done.
    case_bool_decide as Hnil.
    + exists e. cbn. rewrite Hnil. split; [done|]. split; [done|]. intros k.
      destruct (proposals e !! k) as [p|] eqn:Ek; [|done]. cbn. rewrite <- (Hin k p Ek), Hnil. done.
    + rewrite writing_proposals_modify by (done || apply He). eexists. split; [done|].
      split; [done|]. intros k. cbn. rewrite mark_expired_lookup.
      destruct (proposals e !! k) as [p|] eqn:Ek; [|done]. cbn. by rewrite (Hin k p Ek).
  - intros Hne. unfold maintenance_round, reading_proposals, scoped. rewrite (proj1 He). cbn.
    unfold bind. cbn. rewrite bool_decide_eq_false_2 by done. cbn. by eexists.
Qed.

(** *** Finalization by itself, and two tasks at once *)

(** The outcome of a finalization, when it can take its locks: the proposal
    is Approved exactly when more recorded votes approve than reject -
    abstentions count for neither side and a tie rejects. *)
Lemma finalization_rule pid e p :
  idle e -> proposals e !! pid = Some p ->
  finalize_proposal pid e =
    Ret (Ok tt) (set_proposals (<[pid := set_status
      (if count_type Reject (votes_of e pid) <? count_type Approve (votes_of e pid)
       then Approved else Rejected) p]> (proposals e)) e).
Proof.
  intros He Hp. unfold finalize_proposal. unfold bind at 1.
  assert (reading_proposals (reading_votes (
    do p <- get_map (fun e => proposals e !! pid);
    match p with
    | None => fail (ProposalNotFound pid)
    | Some p => do l <- get_map (fun e => votes_of e pid); ret (p, l)
    end)) e = Ret (Ok (p, votes_of e pid)) e) as ->.
  { unfold reading_proposals, reading_votes, scoped. rewrite (proj1 He). cbn. rewrite (proj2 He). cbn.
    unfold bind, get_map. cbn. rewrite Hp. cbn. destruct e, He; cbn in *. by subst. }
  rewrite writing_proposals_modify; [by rewrite Hp|done| |].
  - intros l. cbn. by rewrite Hp.
  - rewrite Hp. apply He.
Qed.

(** The sections of [process_vote], each run without interruption. *)
Definition sections (now : Z) (v : Vote) : list (Task unit) :=
  [ lookup_active now (proposal_id v) (UnknownProposal (proposal_id v));
    check_not_voted (proposal_id v) (voter v) (DuplicateVote (voter v));
    store_vote v;
    count_vote (proposal_id v) ].

Fixpoint run_sections (l : list (Task unit)) : Task unit :=
  match l with [] => ret tt | s :: l' => bind s (fun _ => run_sections l') end.

Lemma process_vote_sections now v e : process_vote now v e = run_sections (sections now v) e.
Proof.
  unfold process_vote, sections. cbn. unfold bind.
  destruct (lookup_active _ _ _ e) as [[[]|] e1|]; try done.
  destruct (check_not_voted _ _ _ e1) as [[[]|] e2|]; try done.
  destruct (store_vote v e2) as [[[]|] e3|]; try done.
  by destruct (count_vote (proposal_id v) e3) as [[[]|] e4|].
Qed.

(** [l] interleaves the tasks [l1] and [l2]. *)
Inductive interleaving {A} : list A -> list A -> list A -> Prop :=
| il_nil : interleaving [] [] []
| il_left x l1 l2 l : interleaving l1 l2 l -> interleaving (x :: l1) l2 (x :: l)
| il_right x l1 l2 l : interleaving l1 l2 l -> interleaving l1 (x :: l2) (x :: l).

Lemma run_sections_step s l e e' :
  s e = Ret (Ok tt) e' -> run_sections (s :: l) e = run_sections l e'.
Proof. intros Hs. cbn. unfold bind. by rewrite Hs. Qed.

(** The duplicate check and the write are separate critical sections: two
    tasks handling the same vote at once can both pass the check, and then the
    vote is recorded and counted twice although every step succeeds. *)
Theorem concurrent_duplicate now v e p :
  idle e -> proposals e !! proposal_id v = Some p -> can_vote now p = true ->
  has_voted e (proposal_id v) (voter v) = false ->
  0 <= current_votes p -> current_votes p + 2 < required_votes p <= u64_max ->
  exists schedule e', interleaving (sections now v) (sections now v) schedule /\
    run_sections schedule e = Ret (Ok tt) e' /\
    votes_of e' (proposal_id v) = votes_of e (proposal_id v) ++ [v; v] /\
    current_votes <$> proposals e' !! proposal_id v = Some (current_votes p + 2).
Proof.
  intros He Hp Hc Hv H0 Hq.
  assert (forall k, 0 <= k <= 2 -> as_u64 (current_votes p + k) = current_votes p + k) as Hu
    by (intros k Hk; apply as_u64_id; lia).
  set (L := lookup_active now (proposal_id v) (UnknownProposal (proposal_id v))).
  set (C := check_not_voted (proposal_id v) (voter v) (DuplicateVote (voter v))).
  exists [L; L; C; C; store_vote v; store_vote v; count_vote (proposal_id v); count_vote (proposal_id v)].
  eexists. split; [repeat constructor|].
  assert (L e = Ret (Ok tt) e) as HL by (unfold L; by rewrite lookup_active_run, Hp, Hc).
  assert (C e = Ret (Ok tt) e) as HC by (unfold C; by rewrite check_not_voted_run, Hv).
  rewrite (run_sections_step _ _ _ _ HL), (run_sections_step _ _ _ _ HL),
    (run_sections_step _ _ _ _ HC), (run_sections_step _ _ _ _ HC).
  rewrite (run_sections_step _ _ _ _ (store_vote_run v e He)).
  rewrite (run_sections_step _ _ _ _ (store_vote_run v (push_vote v e) He)).
  set (e2 := push_vote v (push_vote v e)). assert (idle e2) as He2 by done.
  assert (forall q x, idle x -> proposals x !! proposal_id v = Some q -> as_u64 (current_votes q + 1) < required_votes q ->
    count_vote (proposal_id v) x =
      Ret (Ok tt) (set_proposals (<[proposal_id v := add_vote q]> (proposals x)) x)) as Hcount.
  { intros q x Hx Hq' Hlt. rewrite count_vote_run, Hq' by done.
    assert (has_quorum (add_vote q) = false) as -> by (apply Z.leb_gt; cbn; lia). done. }
  rewrite (run_sections_step _ _ _ _ (Hcount p e2 He2 Hp ltac:(rewrite Hu; lia))).
  set (e3 := set_proposals _ e2).
  assert (proposals e3 !! proposal_id v = Some (add_vote p)) as Hp3 by (by cbn; rewrite lookup_insert_eq).
  rewrite (run_sections_step _ _ _ _ (Hcount (add_vote p) e3 He2 Hp3 ltac:(cbn; rewrite as_u64_add, <- Z.add_assoc, Hu; lia))). cbn.
  split; [reflexivity|]. unfold votes_of. cbn. rewrite !lookup_insert_eq. cbn.
  split; [|by rewrite as_u64_add, <- Z.add_assoc, Hu by lia]. unfold votes_of. cbn. rewrite lookup_insert_eq. cbn.
  by rewrite <- app_assoc.
Qed.

(** *** Witnesses *)

Definition P1 : Str := lit "p1".
Definition engine3 : ConsensusEngine :=
  after (run_cop (CCreate 0 P1 [1; 2; 3]) (new_engine (lit "n0") 3 10)).
Definition peer_vote (who : string) : Vote := new_vote 5 P1 (lit who) Approve [].
Definition two_votes : ConsensusEngine :=
  run_cops engine3 [CProcessVote 5 (peer_vote "n1"); CProcessVote 6 (peer_vote "n2")].
Definition open_proposal (votes : Z) : Proposal := mkProposal P1 (lit "n0") [1; 2; 3] 0 600000 3 votes Active.

Definition two_votes_trace : list cop :=
  [CCreate 0 P1 [1; 2; 3]; CProcessVote 5 (peer_vote "n1"); CProcessVote 6 (peer_vote "n2")].

Lemma two_votes_reach : creach two_votes_trace two_votes.
Proof.
  apply (cr_op [CCreate 0 P1 [1; 2; 3]; CProcessVote 5 (peer_vote "n1")]
    (after (run_cop (CProcessVote 5 (peer_vote "n1")) engine3))); [|done].
  apply (cr_op [CCreate 0 P1 [1; 2; 3]] engine3); [|done]. apply (cr_op []); [apply cr_new|]. vm_compute. reflexivity.
Qed.


Lemma votes_counted_once_witness :
  length (votes_of two_votes P1) = 2%nat /\ NoDup (voter <$> votes_of two_votes P1).
Proof.
  split; [vm_compute; reflexivity|]. exact (proj1 (votes_counted_once two_votes_trace two_votes P1 two_votes_reach)).
Defined.

Lemma never_decided_witness :
  status (open_proposal 2) = Active \/ status (open_proposal 2) = Expired \/
  exists c0, came_with two_votes_trace P1 = Some (c0, status (open_proposal 2)).
Proof. apply (never_decided two_votes_trace two_votes P1 (open_proposal 2) two_votes_reach). vm_compute. reflexivity. Defined.

Lemma cleanup_exact_witness :
  expired_ids 700000 (proposals engine3) = [P1] /\
  exists e', maintenance_round 700000 engine3 = Blocked e'.
Proof.
  split; [vm_compute; reflexivity|].
  refine (proj2 (cleanup_exact 700000 engine3 _) _).
  - split; vm_compute; reflexivity.
  - vm_compute. discriminate.
Defined.

Example two_votes_finalized :
  exists e', finalize_proposal P1 two_votes = Ret (Ok tt) e' /\
    status <$> proposals e' !! P1 = Some Approved.
Proof.
  eexists. split.
  - apply (finalization_rule P1 two_votes (open_proposal 2)).
    + split; vm_compute; reflexivity.
    + vm_compute. reflexivity.
  - vm_compute. reflexivity.
Defined.

Lemma concurrent_duplicate_witness :
  exists schedule e', run_sections schedule (run_cops (after (run_cop (CCreate 0 P1 [])
      (new_engine (lit "n0") 5 10))) []) = Ret (Ok tt) e' /\
    votes_of e' P1 = [peer_vote "n1"; peer_vote "n1"].
Proof.
  destruct (concurrent_duplicate 5 (peer_vote "n1") (run_cops (after (run_cop (CCreate 0 P1 [])
      (new_engine (lit "n0") 5 10))) []) (mkProposal P1 (lit "n0") [] 0 600000 5 0 Active))
    as (schedule & e' & _ & H1 & H2 & _).
  - split; vm_compute; reflexivity.
  - vm_compute. reflexivity.
  - vm_compute. reflexivity.
  - vm_compute. reflexivity.
  - vm_compute. discriminate.
  - split; [vm_compute; reflexivity|vm_compute; discriminate].
  - exists schedule, e'. split; [exact H1|exact H2].
Defined.
