(* ===== verification/NetworkErrors.v ===== *)
(** network-node/src/error.rs: the node's error type, what may be retried, the
    codes and HTTP statuses of the API, and errors with their context.

    The payloads of [Io] and [Serialization] are foreign error values; the node
    only ever prints them, and they are represented by that text.  Times are
    milliseconds. *)
From stdpp Require Import base list strings.
From S2P Require Import Prelude.

Inductive DatabaseError : Type :=
| ConnectionFailed (s : string)
| QueryFailed (s : string)
| TransactionFailed (s : string)
| PoolExhausted
| InvalidConnectionString
| MigrationFailed (s : string).

Inductive NetworkError : Type :=
| NE_Config (s : string)
| NE_Database (d : DatabaseError)
| NE_Server (s : string)
| NE_Connection (s : string)
| NE_Validation (s : string)
| NE_Io (s : string)
| NE_Serialization (s : string)
| NE_ShutdownTimeout
| NE_Cancelled
| NE_Internal (s : string)
| NE_Crypto (s : string)
| NE_Kms (s : string)
| NE_KmsTimeout (s : string)
| NE_KmsRateLimit (s : string)
| NE_Signer (s : string)
| NE_NotImplemented (s : string)
| NE_HorizonClient (s : string)
| NE_SorobanRpc (s : string)
| NE_TransactionExpired
| NE_InsufficientFee.

#[global] Instance DatabaseError_eq_dec : EqDecision DatabaseError.
Proof. solve_decision. Defined.
#[global] Instance NetworkError_eq_dec : EqDecision NetworkError.
Proof. solve_decision. Defined.

Definition db_display (d : DatabaseError) : string :=
  match d with
  | ConnectionFailed s => "Connection failed: " +:+ s
  | QueryFailed s => "Query failed: " +:+ s
  | TransactionFailed s => "Transaction failed: " +:+ s
  | PoolExhausted => "Pool exhausted"
  | InvalidConnectionString => "Invalid connection string"
  | MigrationFailed s => "Migration failed: " +:+ s
  end.

Definition net_display (x : NetworkError) : string :=
  match x with
  | NE_Config s => "Configuration error: " +:+ s
  | NE_Database d => "Database error: " +:+ db_display d
  | NE_Server s => "Server error: " +:+ s
  | NE_Connection s => "Connection error: " +:+ s
  | NE_Validation s => "Validation error: " +:+ s
  | NE_Io s => "IO error: " +:+ s
  | NE_Serialization s => "Serialization error: " +:+ s
  | NE_ShutdownTimeout => "Shutdown timeout exceeded"
  | NE_Cancelled => "Operation cancelled"
  | NE_Internal s => "Internal error: " +:+ s
  | NE_Crypto s => "Cryptographic error: " +:+ s
  | NE_Kms s => "KMS error: " +:+ s
  | NE_KmsTimeout s => "KMS timeout: " +:+ s
  | NE_KmsRateLimit s => "KMS rate limit: " +:+ s
  | NE_Signer s => "Signer error: " +:+ s
  | NE_NotImplemented s => "Not implemented: " +:+ s
  | NE_HorizonClient s => "Horizon client error: " +:+ s
  | NE_SorobanRpc s => "Soroban RPC error: " +:+ s
  | NE_TransactionExpired => "Transaction expired"
  | NE_InsufficientFee => "Insufficient fee"
  end.

Definition db_is_retryable (d : DatabaseError) : bool :=
  match d with
  | ConnectionFailed _ => true
  | QueryFailed _ => false
  | TransactionFailed _ => false
  | PoolExhausted => true
  | InvalidConnectionString => false
  | MigrationFailed _ => false
  end.

Definition is_retryable (x : NetworkError) : bool :=
  match x with
  | NE_Database d => db_is_retryable d
  | NE_Connection _ => true
  | NE_Server _ => false
  | NE_Validation _ => false
  | NE_Config _ => false
  | NE_Io _ => false
  | NE_Serialization _ => false
  | NE_ShutdownTimeout => false
  | NE_Cancelled => false
  | NE_Internal _ => false
  | NE_Crypto _ => false
  | NE_Kms _ => true
  | NE_KmsTimeout _ => true
  | NE_KmsRateLimit _ => true
  | NE_Signer _ => false
  | NE_NotImplemented _ => false
  | NE_HorizonClient _ => true
  | NE_SorobanRpc _ => true
  | NE_TransactionExpired => false
  | NE_InsufficientFee => true
  end.

Definition error_code (x : NetworkError) : string :=
  match x with
  | NE_Config _ => "CONFIG_ERROR"
  | NE_Database _ => "DATABASE_ERROR"
  | NE_Server _ => "SERVER_ERROR"
  | NE_Connection _ => "CONNECTION_ERROR"
  | NE_Validation _ => "VALIDATION_ERROR"
  | NE_Io _ => "IO_ERROR"
  | NE_Serialization _ => "SERIALIZATION_ERROR"
  | NE_ShutdownTimeout => "SHUTDOWN_TIMEOUT"
  | NE_Cancelled => "CANCELLED"
  | NE_Internal _ => "INTERNAL_ERROR"
  | NE_Crypto _ => "CRYPTO_ERROR"
  | NE_Kms _ => "KMS_ERROR"
  | NE_KmsTimeout _ => "KMS_TIMEOUT"
  | NE_KmsRateLimit _ => "KMS_RATE_LIMIT"
  | NE_Signer _ => "SIGNER_ERROR"
  | NE_NotImplemented _ => "NOT_IMPLEMENTED"
  | NE_HorizonClient _ => "HORIZON_CLIENT_ERROR"
  | NE_SorobanRpc _ => "SOROBAN_RPC_ERROR"
  | NE_TransactionExpired => "TRANSACTION_EXPIRED"
  | NE_InsufficientFee => "INSUFFICIENT_FEE"
  end.

Definition http_status_code (x : NetworkError) : Z :=
  match x with
  | NE_Validation _ => 400
  | NE_Config _ => 500
  | NE_Database _ => 500
  | NE_Server _ => 500
  | NE_Connection _ => 503
  | NE_Io _ => 500
  | NE_Serialization _ => 400
  | NE_ShutdownTimeout => 503
  | NE_Cancelled => 503
  | NE_Internal _ => 500
  | NE_Crypto _ => 400
  | NE_Kms _ => 502
  | NE_KmsTimeout _ => 504
  | NE_KmsRateLimit _ => 429
  | NE_Signer _ => 500
  | NE_NotImplemented _ => 501
  | NE_HorizonClient _ => 502
  | NE_SorobanRpc _ => 502
  | NE_TransactionExpired => 400
  | NE_InsufficientFee => 400
  end.

Record ErrorContext : Type := mkContext {
  ctx_operation : string;
  ctx_component : string;
  ctx_request_id : option string;
  ctx_timestamp : Z }.

Definition new_context (now : Z) (operation component : string) : ErrorContext :=
  mkContext operation component None now.

Definition with_request_id (rid : string) (c : ErrorContext) : ErrorContext :=
  mkContext (ctx_operation c) (ctx_component c) (Some rid) (ctx_timestamp c).

Record ContextualError : Type := mkContextual {
  ce_error : NetworkError;
  ce_context : ErrorContext }.

(** Errors with the same code have the same HTTP status. *)
Lemma code_determines_status x y :
  error_code x = error_code y -> http_status_code x = http_status_code y.
Proof. destruct x, y; cbn; congruence. Qed.
