(* ===== verification/RateLimiter.v ===== *)
(** network-node/src/rate_limiter.rs, and the middleware of enhanced_server.rs
    that uses it: requests per client and minute, counted in memory or in Redis.

    The Redis server is not part of the repository: its connection and the two
    commands the limiter sends are parameters, with the documented behaviour of
    INCR and EXPIRE as laws.  The wall clock (seconds since the epoch) is an
    argument of each request, and is also the server's. *)
From Stdlib Require Import Ascii.
From stdpp Require Import base gmap list strings pretty sorting.
From S2P Require Import Prelude NetworkErrors.

(** ** The Redis server *)

Class Redis : Type := {
  Client : Type;
  Conn : Type;
  client_open : string -> option Client;
  connection_manager : Client -> option Conn;
  incr : string -> Z -> Conn -> result string Z * Conn;
  expire : string -> Z -> Z -> Conn -> result string unit * Conn;
  (** What the database holds: the number at a key and its deadline, if any. *)
  stored : Conn -> string -> option (Z * option Z) }.

Definition live `{Redis} (c : Conn) (k : string) (now : Z) : Z :=
  match stored c k with
  | Some (n, Some d) => if now <? d then n else 0
  | Some (n, None) => n
  | None => 0
  end.

Class RedisLaws `{Redis} : Prop := {
  incr_ok k now c n c' :
    incr k now c = (Ok n, c') ->
    n = live c k now + 1 /\ (exists d, stored c' k = Some (n, d)) /\
    forall k', k' <> k -> stored c' k' = stored c k';
  expire_ok k secs now c c' :
    expire k secs now c = (Ok tt, c') ->
    (forall n d, stored c k = Some (n, d) -> stored c' k = Some (n, Some (now + secs))) /\
    forall k', k' <> k -> stored c' k' = stored c k' }.

(** ** The limiter *)

Inductive RateLimiterBackend `{Redis} : Type :=
| RedisBackend (manager : Conn)
| InMemory (counts : gmap string (Z * Z)).

Record RateLimiter `{Redis} : Type := mkLimiter {
  backend : RateLimiterBackend;
  limit_per_minute : Z }.
Arguments mkLimiter {_} backend limit_per_minute.

Section Limiter.
Context `{RedisLaws}.

Definition new_limiter (redis_url : option string) (limit : Z) : RateLimiter :=
  match redis_url with
  | Some url =>
      match client_open url with
      | Some client =>
          match connection_manager client with
          | Some manager => mkLimiter (RedisBackend manager) limit
          | None => mkLimiter (InMemory ∅) limit
          end
      | None => mkLimiter (InMemory ∅) limit
      end
  | None => mkLimiter (InMemory ∅) limit
  end.

Definition bucket_of (now : Z) : Z := as_i64 (now / 60).

Definition redis_key (key : string) (bucket : Z) : string :=
  "rate:" +:+ key +:+ ":" +:+ pretty bucket.

(** The [async] block: INCR, then EXPIRE, with [?] on both. *)
Definition redis_hit (redis_key : string) (now : Z) (c : Conn) : result string Z * Conn :=
  match incr redis_key now c with
  | (Err x, c1) => (Err x, c1)
  | (Ok v, c1) =>
      match expire redis_key 70 now c1 with
      | (Err x, c2) => (Err x, c2)
      | (Ok _, c2) => (Ok v, c2)
      end
  end.

Definition memory_hit (key : string) (bucket : Z) (m : gmap string (Z * Z)) : Z * gmap string (Z * Z) :=
  match m !! key with
  | Some (count, ts) =>
      if ts =? bucket then let count' := as_u64 (count + 1) in (count', <[key := (count', ts)]> m)
      else (1, <[key := (1, bucket)]> m)
  | None => (1, <[key := (1, bucket)]> m)
  end.

Definition allow (key : string) (now : Z) (rl : RateLimiter) : result NetworkError bool * RateLimiter :=
  let bucket := bucket_of now in
  let limit := limit_per_minute rl in
  match backend rl with
  | RedisBackend manager =>
      match redis_hit (redis_key key bucket) now manager with
      | (Ok count, c) => (Ok (count <=? limit), mkLimiter (RedisBackend c) limit)
      | (Err x, c) => (Err (NE_Internal ("Redis error: " +:+ x)), mkLimiter (RedisBackend c) limit)
      end
  | InMemory m =>
      let '(count, m') := memory_hit key bucket m in
      (Ok (count <=? limit), mkLimiter (InMemory m') limit)
  end.

(** ** The middleware: the client's address from the proxy headers *)

Record Headers : Type := mkHeaders {
  x_forwarded_for : option string;
  x_real_ip : option string }.

(** [split(',').next()]. *)
Fixpoint before_comma (s : string) : string :=
  match s with
  | EmptyString => EmptyString
  | String c s' => if Ascii.eqb c ","%char then EmptyString else String c (before_comma s')
  end.

(** [str::trim] on a header value, which is ASCII. *)
Definition ascii_space (c : Ascii.ascii) : bool :=
  let n := Ascii.nat_of_ascii c in
  ((9 <=? n) && (n <=? 13))%nat || (n =? 32)%nat.
Fixpoint trim_left (s : string) : string :=
  match s with
  | String c s' => if ascii_space c then trim_left s' else s
  | EmptyString => EmptyString
  end.
Definition trim_header (s : string) : string :=
  String.rev (trim_left (String.rev (trim_left s))).

Definition client_ip (h : Headers) : string :=
  match x_forwarded_for h with
  | Some s => trim_header (before_comma s)
  | None => default "unknown" (x_real_ip h)
  end.

Inductive Response : Type := Next | TooManyRequests | LimiterError.

#[export] Instance Response_eq_dec : EqDecision Response.
Proof using. solve_decision. Defined.

Definition rate_limit_middleware (h : Headers) (now : Z) (rl : RateLimiter) : Response * RateLimiter :=
  match allow (client_ip h) now rl with
  | (Ok true, rl') => (Next, rl')
  | (Ok false, rl') => (TooManyRequests, rl')
  | (Err _, rl') => (LimiterError, rl')
  end.

(** A sequence of requests, each with its headers and its time. *)
Fixpoint serve (reqs : list (Headers * Z)) (rl : RateLimiter) : list Response * RateLimiter :=
  match reqs with
  | [] => ([], rl)
  | (h, now) :: rest =>
      let '(r, rl1) := rate_limit_middleware h now rl in
      let '(rs, rl2) := serve rest rl1 in
      (r :: rs, rl2)
  end.

(** ** Keys: a counter per client and minute *)

Fixpoint no_colon (s : string) : bool :=
  match s with
  | EmptyString => true
  | String c s' => negb (Ascii.eqb c ":"%char) && no_colon s'
  end.

Lemma no_colon_digit n : no_colon (String (pretty_N_char n) EmptyString) = true.
Proof. unfold pretty_N_char. by repeat case_match. Qed.

Lemma no_colon_go n s : no_colon s = true -> no_colon (pretty_N_go n s) = true.
Proof.
  revert s. induction (N.lt_wf_0 n) as [n _ IH]; intros s Hs.
  destruct (decide (n = 0%N)) as [->|]; [by rewrite pretty_N_go_0|].
  rewrite pretty_N_go_step by lia. apply IH; [apply N.div_lt; lia|].
  pose proof (no_colon_digit (n `mod` 10)) as Hd. cbn in *.
  apply andb_prop in Hd as [-> _]. done.
Qed.

Lemma no_colon_pretty b : 0 <= b -> no_colon (pretty b) = true.
Proof.
  intros Hb. destruct b as [|p|p]; [done| |lia].
  change (pretty (Z.pos p)) with (pretty (N.pos p)). unfold pretty, pretty_N.
  case_decide; [done|]. by apply no_colon_go.
Qed.

Lemma no_colon_split a s : no_colon (a +:+ String ":"%char s) = false.
Proof. induction a as [|c a IH]; simpl; [done|]. rewrite IH. apply andb_false_r. Qed.

Lemma colon_inj a b s t :
  no_colon s = true -> no_colon t = true -> a +:+ String ":"%char s = b +:+ String ":"%char t -> a = b /\ s = t.
Proof.
  intros Hs Ht. revert b. induction a as [|c a IH]; intros [|d b] Heq; cbn in Heq; simplify_eq; [done| | |].
  - by rewrite (no_colon_split b t) in Hs.
  - by rewrite (no_colon_split a s) in Ht.
  - by destruct (IH b) as [-> ->].
Qed.

Lemma redis_key_inj k b k' b' :
  0 <= b -> 0 <= b' -> redis_key k b = redis_key k' b' -> k = k' /\ b = b'.
Proof.
  unfold redis_key. intros Hb Hb' [= Heq].
  apply colon_inj in Heq as [-> Hp]; [|by apply no_colon_pretty..].
  split; [done|]. by apply (inj pretty).
Qed.

(** ** What a limiter counts *)

Definition requests (k : string) (b : Z) (reqs : list (Headers * Z)) : Z :=
  Z.of_nat (length (filter (fun r => client_ip r.1 = k /\ bucket_of r.2 = b) reqs)).

(** The requests of client [k] in minute [b] that were let through. *)
Definition granted (k : string) (b : Z) (reqs : list (Headers * Z)) (rs : list Response) : Z :=
  Z.of_nat (length (filter (fun r => client_ip r.1.1 = k /\ bucket_of r.1.2 = b /\ r.2 = Next)
                      (zip reqs rs))).

Definition clock_ok (reqs : list (Headers * Z)) : Prop :=
  Forall (fun r => 0 <= r.2 <= u64_max) reqs /\ StronglySorted Z.le (snd <$> reqs).

Lemma bucket_of_div now : 0 <= now <= u64_max -> bucket_of now = now / 60.
Proof.
  unfold bucket_of, as_i64, u64_max. intros Hn.
  assert (0 <= now / 60 < 9223372036854775808).
  { split; [apply Z.div_pos; lia|]. apply Z.div_lt_upper_bound; lia. }
  rewrite Z.mod_small by lia. lia.
Qed.

Lemma requests_snoc k b reqs h now :
  requests k b (reqs ++ [(h, now)]) =
  requests k b reqs + (if decide (client_ip h = k /\ bucket_of now = b) then 1 else 0).
Proof.
  unfold requests. rewrite filter_app, length_app. rewrite Nat2Z.inj_add. f_equal.
  cbn [filter list_filter]. cbn. by destruct (decide _); cbn.
Qed.

Lemma requests_bounds k b reqs : 0 <= requests k b reqs <= Z.of_nat (length reqs).
Proof. unfold requests. pose proof (length_filter (fun r => client_ip r.1 = k /\ bucket_of r.2 = b) reqs). lia. Qed.

Lemma granted_snoc k b reqs rs h now r :
  length rs = length reqs ->
  granted k b (reqs ++ [(h, now)]) (rs ++ [r]) =
  granted k b reqs rs + (if decide (client_ip h = k /\ bucket_of now = b /\ r = Next) then 1 else 0).
Proof.
  intros Hl. unfold granted. rewrite zip_with_app by done. rewrite filter_app, length_app, Nat2Z.inj_add. f_equal.
  cbn. by destruct (decide _); cbn.
Qed.

Lemma clock_snoc reqs h now :
  clock_ok (reqs ++ [(h, now)]) ->
  clock_ok reqs /\ 0 <= now <= u64_max /\ Forall (fun r => 0 <= r.2 <= now) reqs.
Proof.
  intros [Hr Hs]. rewrite Forall_app, Forall_singleton in Hr. destruct Hr as [Hr Hn]; cbn in Hn.
  rewrite fmap_app in Hs. apply StronglySorted_app in Hs as (Hle & Hs & _).
  repeat split; try done; try lia. rewrite Forall_forall in *. intros r Hin.
  specialize (Hr r Hin). split; [lia|].
  apply (Hle r.2 now); [by apply list_elem_of_fmap_2|]. by apply list_elem_of_singleton.
Qed.

Lemma requests_later k b reqs h now :
  clock_ok (reqs ++ [(h, now)]) -> bucket_of now < b -> requests k b reqs = 0.
Proof.
  intros (_ & Hn & Hle)%clock_snoc Hb. unfold requests.
  rewrite (elem_of_nil_inv (filter _ reqs)); [done|].
  intros r [[_ Hr] Hin]%list_elem_of_filter. rewrite Forall_forall in Hle. specialize (Hle r Hin).
  rewrite bucket_of_div in Hb, Hr by lia. pose proof (Z.div_le_mono r.2 now 60). lia.
Qed.

(** ** The counters agree with the requests *)

Definition memory_ok (m : gmap string (Z * Z)) (reqs : list (Headers * Z)) : Prop :=
  forall k, match m !! k with
  | None => forall b, requests k b reqs = 0
  | Some (c, ts) => c = requests k ts reqs /\ 0 < c /\ forall b, ts < b -> requests k b reqs = 0
  end.

Definition redis_ok (c : Conn) (reqs : list (Headers * Z)) : Prop :=
  forall k b, 0 <= b ->
    requests k b reqs = 0 /\ stored c (redis_key k b) = None \/
    exists d, stored c (redis_key k b) = Some (requests k b reqs, Some d) /\ 60 * (b + 1) <= d.

Lemma memory_hit_ok m reqs h now n m' :
  memory_ok m reqs -> clock_ok (reqs ++ [(h, now)]) -> Z.of_nat (length reqs) < u64_max ->
  memory_hit (client_ip h) (bucket_of now) m = (n, m') ->
  n = requests (client_ip h) (bucket_of now) reqs + 1 /\ memory_ok m' (reqs ++ [(h, now)]).
Proof.
  intros Hm Hclock Hlen Hhit.
  assert (n = requests (client_ip h) (bucket_of now) reqs + 1 /\
          m' = <[client_ip h := (n, bucket_of now)]> m) as [-> ->].
  { unfold memory_hit in Hhit. specialize (Hm (client_ip h)).
    pose proof (requests_bounds (client_ip h) (bucket_of now) reqs) as Hb.
    destruct (m !! client_ip h) as [[c ts]|]; [destruct Hm as (Hc & Hpos & Hlater)|]; simplify_eq.
    - destruct (ts =? bucket_of now) eqn:Hts; simplify_eq.
      + apply Z.eqb_eq in Hts as ->. unfold as_u64. rewrite Z.mod_small by lia. done.
      + apply Z.eqb_neq in Hts. split; [|done]. rewrite Hlater; [done|].
        destruct (decide (bucket_of now < ts)); [|lia].
        pose proof (requests_later (client_ip h) ts _ _ _ Hclock). lia.
    - by rewrite Hm. }
  split; [done|]. intros k. destruct (decide (k = client_ip h)) as [->|Hne].
  - rewrite lookup_insert, decide_True by done. rewrite requests_snoc, decide_True by done.
    pose proof (requests_bounds (client_ip h) (bucket_of now) reqs). split; [done|split; [lia|]].
    intros b Hb. rewrite requests_snoc, decide_False by lia.
    by rewrite (requests_later _ _ _ _ _ Hclock).
  - rewrite lookup_insert_ne by done. specialize (Hm k).
    assert (forall b, requests k b (reqs ++ [(h, now)]) = requests k b reqs) as Hk.
    { intros b. rewrite requests_snoc, decide_False by naive_solver. lia. }
    destruct (m !! k) as [[c ts]|]; intros; setoid_rewrite Hk; naive_solver.
Qed.

Lemma redis_hit_stored key now c n c' :
  redis_hit key now c = (Ok n, c') ->
  n = live c key now + 1 /\ stored c' key = Some (n, Some (now + 70)) /\
  forall k', k' <> key -> stored c' k' = stored c k'.
Proof.
  unfold redis_hit. destruct (incr key now c) as [[v|x] c1] eqn:Hi; [|done].
  destruct (expire key 70 now c1) as [[[]|x] c2] eqn:He; intros Hr; simplify_eq.
  apply incr_ok in Hi as (-> & [d Hd] & Ho). apply expire_ok in He as [Hs Ho'].
  split_and!; [done|by eapply Hs|]. intros k' Hk. by rewrite Ho', Ho.
Qed.

Lemma redis_hit_ok c reqs h now n c' :
  redis_ok c reqs -> clock_ok (reqs ++ [(h, now)]) ->
  redis_hit (redis_key (client_ip h) (bucket_of now)) now c = (Ok n, c') ->
  n = requests (client_ip h) (bucket_of now) reqs + 1 /\ redis_ok c' (reqs ++ [(h, now)]).
Proof.
  intros Hc (_ & Hn & _)%clock_snoc (Hlive & Hs & Ho)%redis_hit_stored.
  assert (Hb := bucket_of_div now Hn).
  assert (0 <= bucket_of now) by (rewrite Hb; apply Z.div_pos; lia).
  assert (now < 60 * (bucket_of now + 1) <= now + 60) as Hmin.
  { rewrite Hb. pose proof (Z.div_mod now 60). pose proof (Z.mod_pos_bound now 60). lia. }
  assert (n = requests (client_ip h) (bucket_of now) reqs + 1) as ->.
  { rewrite Hlive. f_equal. unfold live.
    destruct (Hc (client_ip h) (bucket_of now)) as [[Hz ->]|(d & -> & Hd)]; [done|by rewrite Hz|].
    by rewrite (proj2 (Z.ltb_lt _ _)) by lia. }
  split; [done|]. intros k b Hkb.
  destruct (decide (client_ip h = k /\ bucket_of now = b)) as [[<- <-]|Hne].
  - right. exists (now + 70). rewrite requests_snoc, decide_True by done. split; [done|lia].
  - rewrite requests_snoc, decide_False, Z.add_0_r by done.
    rewrite Ho; [by apply Hc|]. intros Heq. apply redis_key_inj in Heq; naive_solver.
Qed.

Definition counts_ok (rl : RateLimiter) (reqs : list (Headers * Z)) : Prop :=
  match backend rl with
  | RedisBackend c => redis_ok c reqs
  | InMemory m => memory_ok m reqs
  end.

Lemma middleware_counts rl reqs h now r rl' :
  counts_ok rl reqs -> clock_ok (reqs ++ [(h, now)]) -> Z.of_nat (length reqs) < u64_max ->
  rate_limit_middleware h now rl = (r, rl') -> r <> LimiterError ->
  counts_ok rl' (reqs ++ [(h, now)]) /\ limit_per_minute rl' = limit_per_minute rl /\
  (r = Next <-> requests (client_ip h) (bucket_of now) reqs + 1 <= limit_per_minute rl).
Proof.
  unfold counts_ok, rate_limit_middleware, allow. intros Hc Hclock Hlen Hm Hr.
  destruct rl as [[c|m] lim]; cbn in *.
  - destruct (redis_hit _ now c) as [[n|x] c'] eqn:Hh; [|by simplify_eq].
    apply (redis_hit_ok _ reqs) in Hh as [-> Hok]; [|done..].
    destruct (Z.leb_spec (requests (client_ip h) (bucket_of now) reqs + 1) lim);
      simplify_eq; cbn; (split_and!; [done..|split; intros; solve [done|lia]]).
  - destruct (memory_hit _ _ m) as [n m'] eqn:Hh.
    apply (memory_hit_ok _ reqs) in Hh as [-> Hok]; [|done..].
    destruct (Z.leb_spec (requests (client_ip h) (bucket_of now) reqs + 1) lim);
      simplify_eq; cbn; (split_and!; [done..|split; intros; solve [done|lia]]).
Qed.

Lemma serve_snoc reqs h now rl :
  serve (reqs ++ [(h, now)]) rl =
  let '(rs, rl1) := serve reqs rl in
  let '(r, rl2) := rate_limit_middleware h now rl1 in (rs ++ [r], rl2).
Proof.
  revert rl. induction reqs as [|[h0 n0] reqs IH]; intros rl; cbn [serve app].
  - by destruct (rate_limit_middleware h now rl).
  - destruct (rate_limit_middleware h0 n0 rl) as [r rl1]. rewrite IH.
    destruct (serve reqs rl1) as [rs rl2]. by destruct (rate_limit_middleware h now rl2).
Qed.

(** An assumption on the database the limiter connects to, not a law of Redis:
    nobody has counted requests in it yet. *)
Definition fresh_redis : Prop :=
  forall url client c, client_open url = Some client -> connection_manager client = Some c ->
    forall k b, stored c (redis_key k b) = None.

Lemma new_limiter_ok url limit :
  fresh_redis -> counts_ok (new_limiter url limit) [] /\
  limit_per_minute (new_limiter url limit) = limit.
Proof.
  intros Hf. unfold new_limiter, counts_ok.
  repeat match goal with |- context [match ?x with _ => _ end] => destruct x eqn:? end;
    cbn in *; simplify_eq; split; try done;
    first [intros k; by rewrite lookup_empty | intros k b Hb; left; split; [done|]; by eapply Hf].
Qed.

Lemma serve_counts url limit reqs rs rl :
  fresh_redis -> 0 <= limit -> clock_ok reqs -> Z.of_nat (length reqs) <= u64_max ->
  serve reqs (new_limiter url limit) = (rs, rl) -> LimiterError ∉ rs ->
  counts_ok rl reqs /\ limit_per_minute rl = limit /\ length rs = length reqs /\
  forall k b, granted k b reqs rs = Z.min limit (requests k b reqs).
Proof.
  intros Hf Hlim. revert rs rl.
  induction reqs as [|[h now] reqs IH] using rev_ind; intros rs rl Hclock Hlen Hs Herr.
  - cbn in Hs. simplify_eq. destruct (new_limiter_ok url limit Hf) as [? ?].
    split_and!; [done..|]. intros k b. change (0 = Z.min limit 0). lia.
  - rewrite serve_snoc in Hs. destruct (serve reqs _) as [rs0 rl0] eqn:Hs0.
    destruct (rate_limit_middleware h now rl0) as [r rl1] eqn:Hm. simplify_eq.
    rewrite length_app in Hlen; cbn in Hlen.
    destruct (IH rs0 rl0) as (Hc & Hl & Hlr & Hg);
      [by apply clock_snoc in Hclock as []|lia|done|set_solver|].
    destruct (middleware_counts _ _ _ _ _ _ Hc Hclock ltac:(lia) Hm) as (Hc' & Hl' & Hr);
      [set_solver|].
    split_and!; [done|congruence|rewrite !length_app; cbn; lia|]. intros k b.
    rewrite granted_snoc, requests_snoc, Hg by done. rewrite Hl in Hr.
    pose proof (requests_bounds k b reqs).
    destruct (decide (client_ip h = k /\ bucket_of now = b)) as [[<- <-]|Hne].
    + destruct (decide (r = Next)) as [->|Hn].
      * rewrite decide_True by done. pose proof (proj1 Hr eq_refl). lia.
      * rewrite decide_False by tauto.
        assert (~ requests (client_ip h) (bucket_of now) reqs + 1 <= limit) by tauto. lia.
    + rewrite decide_False by tauto. lia.
Qed.

(** C27. The limiter enforces its quota exactly: with a clock that does not run
    backwards, of the requests a client makes in one minute the first
    [limit_per_minute] are let through and the others refused - with counters
    in memory as with counters in a Redis database, as long as Redis answers and,
    when the limiter connects, holds none of its keys yet: counts that another
    instance left there would be used up first. *)
Theorem quota_exact url limit reqs rs rl k b :
  fresh_redis -> 0 <= limit -> clock_ok reqs -> Z.of_nat (length reqs) <= u64_max ->
  serve reqs (new_limiter url limit) = (rs, rl) -> LimiterError ∉ rs ->
  granted k b reqs rs = Z.min limit (requests k b reqs).
Proof. intros. by eapply serve_counts. Qed.

(** In memory the limiter never fails. *)
Lemma memory_never_fails reqs limit m :
  LimiterError ∉ (serve reqs (mkLimiter (InMemory m) limit)).1.
Proof.
  revert m. induction reqs as [|[h now] reqs IH]; intros m; cbn [serve]; [set_solver|].
  unfold rate_limit_middleware, allow. cbn. destruct (memory_hit _ _ m) as [n m'].
  specialize (IH m'). destruct (n <=? limit); cbn;
    destruct (serve reqs (mkLimiter (InMemory m') limit)); set_solver.
Qed.

End Limiter.

(** ** A Redis database, for the witness: a map of numbers and deadlines *)

#[global] Instance map_redis : Redis := {|
  Client := unit;
  Conn := gmap string (Z * option Z);
  client_open := fun _ => Some tt;
  connection_manager := fun _ => Some ∅;
  incr := fun k now db =>
    let '(n, d) := match db !! k with
                   | Some (n, Some d) => if now <? d then (n, Some d) else (0, None)
                   | Some (n, None) => (n, None)
                   | None => (0, None)
                   end in
    (Ok (n + 1), <[k := (n + 1, d)]> db);
  expire := fun k secs now db =>
    (Ok tt, alter (fun e => (e.1, Some (now + secs))) k db);
  stored := fun db k => db !! k |}.

#[global] Instance map_redis_laws : RedisLaws.
Proof.
  split; cbn; intros.
  - unfold live; cbn. repeat case_match; simplify_eq; split_and!; try lia;
      (eexists; by rewrite lookup_insert_eq) || (intros; by rewrite lookup_insert_ne).
  - simplify_eq. split; [|intros; by rewrite lookup_alter_ne].
    intros n d Hk. by rewrite lookup_alter_eq, Hk.
Qed.

Definition from_client (ip : string) (now : Z) : Headers * Z :=
  (mkHeaders (Some (ip +:+ " , 10.0.0.1")) None, now).

Definition burst : list (Headers * Z) :=
  [from_client "1.2.3.4" 120; from_client "1.2.3.4" 121; from_client "5.6.7.8" 121;
   from_client "1.2.3.4" 150; from_client "1.2.3.4" 180].

(** Both backends, with a limit of two: the third request of the minute is
    refused, the other client and the next minute are not. *)
Lemma quota_exact_witness :
  (serve burst (new_limiter None 2)).1 = [Next; Next; Next; TooManyRequests; Next] /\
  granted "1.2.3.4" 2 burst (serve burst (new_limiter None 2)).1 = 2 /\
  (serve burst (new_limiter (Some "redis://db") 2)).1 = [Next; Next; Next; TooManyRequests; Next] /\
  granted "1.2.3.4" 2 burst (serve burst (new_limiter (Some "redis://db") 2)).1 = 2.
Proof.
  assert (clock_ok burst) as Hclock.
  { split; [|cbn; repeat constructor; lia].
    repeat (apply Forall_cons; split; [cbn; unfold u64_max; lia|]). by apply Forall_nil. }
  assert (@fresh_redis map_redis) as Hf.
  { intros url client c _ [= <-] k b. apply lookup_empty. }
  assert (LimiterError ∉ [Next; Next; Next; TooManyRequests; Next]) as Hne
    by (apply (bool_decide_unpack _); vm_compute; exact I).
  assert (forall url,
    (serve burst (new_limiter url 2)).1 = [Next; Next; Next; TooManyRequests; Next] ->
    granted "1.2.3.4" 2 burst (serve burst (new_limiter url 2)).1 = 2) as Hg.
  { intros url Hrs.
    rewrite (quota_exact url 2 burst _ (serve burst (new_limiter url 2)).2 "1.2.3.4" 2 Hf);
      [vm_compute; reflexivity|lia|exact Hclock|vm_compute; discriminate| |by rewrite Hrs].
    apply surjective_pairing. }
  split_and!; try apply Hg; vm_compute; reflexivity.
Defined.
