(* ===== verification/HorizonClient.v ===== *)
(** network-node/src/horizon_client.rs (and its part of config.rs): requests to
    Horizon with a circuit breaker per provider and failover between providers.

    The client is state behind two locks, its operations are tasks (file Tasks).
    Everything outside the node is a [world]: the operation a caller passes to
    [execute_request], the answer to a health probe and the clock are functions
    of it.  [sent] records the providers a request was sent to. *)
From stdpp Require Import base list strings sets.
From S2P Require Import Prelude NetworkErrors Tasks.

(** ** Data *)

Record HorizonProvider : Type := mkProvider {
  url : string;
  name : string;
  priority : Z }.

#[global] Instance HorizonProvider_eq_dec : EqDecision HorizonProvider.
Proof. solve_decision. Defined.

Record HorizonConfig : Type := mkHorizonConfig {
  cfg_providers : list HorizonProvider;
  health_check_interval_seconds : Z;
  circuit_breaker_failure_threshold : Z;
  circuit_breaker_recovery_timeout_seconds : Z }.

Definition default_horizon_config : HorizonConfig :=
  mkHorizonConfig
    [mkProvider "https://horizon.stellar.org" "Stellar Public" 1;
     mkProvider "https://horizon-blockdaemon.stellar.ovh" "Blockdaemon" 2;
     mkProvider "https://stellar-horizon.infura.io" "Infura" 3] 60 3 300.

Inductive CircuitBreakerState : Type := Closed | Open | HalfOpen.

#[global] Instance CircuitBreakerState_eq_dec : EqDecision CircuitBreakerState.
Proof. solve_decision. Defined.

Record ProviderStatus : Type := mkStatus {
  provider : HorizonProvider;
  failure_count : Z;
  last_failure_time : option Z;
  circuit_state : CircuitBreakerState;
  is_healthy : bool;
  last_health_check : option Z }.

Definition new_status (p : HorizonProvider) : ProviderStatus :=
  mkStatus p 0 None Closed true None.

(** [failure_count] is a [u8]; the increment wraps in the release profile. *)
Definition record_failure (now threshold : Z) (s : ProviderStatus) : ProviderStatus :=
  let count := (failure_count s + 1) mod (u8_max + 1) in
  mkStatus (provider s) count (Some now)
    (if threshold <=? count then Open else circuit_state s)
    (is_healthy s) (last_health_check s).

Definition record_success (now : Z) (s : ProviderStatus) : ProviderStatus :=
  mkStatus (provider s) 0 None
    (if decide (circuit_state s = HalfOpen) then Closed else circuit_state s)
    true (Some now).

Definition should_attempt_reset (now recovery_timeout : Z) (s : ProviderStatus) : bool :=
  if decide (circuit_state s = Open) then
    match last_failure_time s with
    | Some last => recovery_timeout <? now - last
    | None => true
    end
  else false.

Definition can_execute_request (s : ProviderStatus) : bool :=
  match circuit_state s with
  | Closed => is_healthy s
  | Open => false
  | HalfOpen => true
  end.

Record HorizonClient (W : Type) : Type := mkClient {
  config : HorizonConfig;
  providers : list ProviderStatus;
  providers_lock : LockState;
  current_provider_index : nat;
  index_lock : LockState;
  world : W;
  sent : list HorizonProvider }.
Arguments mkClient {W} config providers providers_lock current_provider_index index_lock world sent.
Arguments config {W} h.
Arguments providers {W} h.
Arguments providers_lock {W} h.
Arguments current_provider_index {W} h.
Arguments index_lock {W} h.
Arguments world {W} h.
Arguments sent {W} h.

(** [sort_by_key], a stable sort. *)
Fixpoint insert_by_priority (s : ProviderStatus) (l : list ProviderStatus) : list ProviderStatus :=
  match l with
  | [] => [s]
  | t :: l' =>
      if priority (provider s) <=? priority (provider t) then s :: l
      else t :: insert_by_priority s l'
  end.
Definition sort_by_priority (l : list ProviderStatus) : list ProviderStatus :=
  foldr insert_by_priority [] l.

(** [iter_mut().find(|p| p.provider.url == url)], and the update of what it finds. *)
Fixpoint update_first (u : string) (f : ProviderStatus -> ProviderStatus)
    (l : list ProviderStatus) : list ProviderStatus :=
  match l with
  | [] => []
  | s :: l' => if decide (url (provider s) = u) then f s :: l' else s :: update_first u f l'
  end.
Definition find_status (u : string) (l : list ProviderStatus) : option ProviderStatus :=
  snd <$> list_find (fun s => url (provider s) = u) l.

Section Client.
Context {W : Type} (now : W -> Z).
Implicit Types c : HorizonClient W.

Definition new_client (cfg : HorizonConfig) (w : W) : HorizonClient W :=
  mkClient cfg (sort_by_priority (map new_status (cfg_providers cfg))) Free 0 Free w [].

Definition set_providers (l : list ProviderStatus) c : HorizonClient W :=
  mkClient (config c) l (providers_lock c) (current_provider_index c) (index_lock c) (world c) (sent c).
Definition set_providers_lock (l : LockState) c : HorizonClient W :=
  mkClient (config c) (providers c) l (current_provider_index c) (index_lock c) (world c) (sent c).
Definition set_index (i : nat) c : HorizonClient W :=
  mkClient (config c) (providers c) (providers_lock c) i (index_lock c) (world c) (sent c).
Definition set_index_lock (l : LockState) c : HorizonClient W :=
  mkClient (config c) (providers c) (providers_lock c) (current_provider_index c) l (world c) (sent c).
Definition set_world (w : W) c : HorizonClient W :=
  mkClient (config c) (providers c) (providers_lock c) (current_provider_index c) (index_lock c) w (sent c).
Definition add_sent (p : HorizonProvider) c : HorizonClient W :=
  mkClient (config c) (providers c) (providers_lock c) (current_provider_index c) (index_lock c)
    (world c) (sent c ++ [p]).

Abbreviation Task := (Tasks.Task (HorizonClient W) NetworkError).

Definition reading_providers {A} : Task A -> Task A := scoped providers_lock set_providers_lock lock_read.
Definition writing_providers {A} : Task A -> Task A := scoped providers_lock set_providers_lock lock_write.
Definition reading_index {A} : Task A -> Task A := scoped index_lock set_index_lock lock_read.
Definition writing_index {A} : Task A -> Task A := scoped index_lock set_index_lock lock_write.

(** The current provider if it may be used, else the first other one that may. *)
Definition pick (l : list ProviderStatus) (current : nat) : option ProviderStatus :=
  let others := head (omap (fun ip => if negb (ip.1 =? current)%nat && can_execute_request ip.2
                                      then Some ip.2 else None) (imap pair l)) in
  match l !! current with
  | Some s => if can_execute_request s then Some s else others
  | None => others
  end.

Definition get_current_provider : Task HorizonProvider :=
  reading_providers (
    do current <- reading_index (get_map current_provider_index);
    do l <- get_map providers;
    match pick l current with
    | Some s => ret (provider s)
    | None => fail (NE_HorizonClient "No healthy Horizon providers available")
    end).

(** The first usable provider after the current one, cyclically. *)
Definition next_usable (l : list ProviderStatus) (current : nat) : option (nat * ProviderStatus) :=
  head (omap (fun i =>
    let next := ((current + i + 1) mod length l)%nat in
    match l !! next with
    | Some s => if can_execute_request s then Some (next, s) else None
    | None => None
    end) (seq 0 (length l))).

Definition switch_provider : Task HorizonProvider :=
  reading_providers (writing_index (
    do l <- get_map providers;
    do current <- get_map current_provider_index;
    match next_usable l current with
    | Some (next, s) => do _ <- modify (set_index next); ret (provider s)
    | None => fail (NE_HorizonClient "No healthy fallback providers available")
    end)).

Definition record_provider_success (p : HorizonProvider) : Task unit :=
  writing_providers (modify (fun c =>
    set_providers (update_first (url p) (record_success (now (world c))) (providers c)) c)).

Definition record_provider_failure (p : HorizonProvider) : Task bool :=
  writing_providers (
    do _ <- modify (fun c => set_providers (update_first (url p)
      (record_failure (now (world c)) (circuit_breaker_failure_threshold (config c))) (providers c)) c);
    get_map (fun c => match find_status (url p) (providers c) with
                      | Some s => bool_decide (circuit_state s = Open)
                      | None => false
                      end)).

(** [operation(provider).await]: the answer comes from the world. *)
Definition perform {T} (operation : HorizonProvider -> W -> result string T * W)
    (p : HorizonProvider) : Task (result string T) := fun c =>
  let '(r, w) := operation p (world c) in Ret (Ok r) (add_sent p (set_world w c)).

(** The loop, by the number of attempts left after this one: the test
    [attempts < max_attempts] holds when [left] is positive. *)
Fixpoint attempt {T} (operation : HorizonProvider -> W -> result string T * W) (left : nat)
    : Task T := fun c =>
  match get_current_provider c with
  | Blocked c1 => Blocked c1
  | Ret (Err x) c1 =>
      match left with
      | O => Ret (Err x) c1
      | S left' => bind switch_provider (fun _ => attempt operation left') c1
      end
  | Ret (Ok p) c1 =>
      bind (perform operation p) (fun r =>
        match r with
        | Ok t => do _ <- record_provider_success p; ret t
        | Err x =>
            do should_switch <- record_provider_failure p;
            match should_switch, left with
            | true, S left' => fun c2 =>
                match switch_provider c2 with
                | Blocked c3 => Blocked c3
                | Ret (Err y) c3 =>
                    Ret (Err (NE_HorizonClient ("Failed to switch provider: " +:+ net_display y))) c3
                | Ret (Ok _) c3 => attempt operation left' c3
                end
            | _, _ => fail (NE_HorizonClient ("All Horizon providers failed: " +:+ x))
            end
        end) c1
  end.

Definition execute_request {T} (operation : HorizonProvider -> W -> result string T * W) : Task T :=
  fun c => attempt operation (length (cfg_providers (config c)) - 1) c.

(** [health_check_all] starts with a read guard that lives to its end. *)
Definition health_check_start : Task (list ProviderStatus) := fun c =>
  match lock_read (providers_lock c) with
  | None => Blocked (set_providers_lock Jammed c)
  | Some l => Ret (Ok (providers c)) (set_providers_lock l c)
  end.

(** The probes of all providers, under that guard; other tasks run meanwhile. *)
Fixpoint probe_all (probe : HorizonProvider -> W -> bool * W) (l : list ProviderStatus)
    : Task (list (HorizonProvider * bool)) := fun c =>
  match l with
  | [] => Ret (Ok []) c
  | s :: l' =>
      let '(healthy, w) := probe (provider s) (world c) in
      bind (probe_all probe l') (fun rs => ret ((provider s, healthy) :: rs)) (set_world w c)
  end.

Definition mark_health (t : Z) (r : HorizonProvider * bool) (l : list ProviderStatus) : list ProviderStatus :=
  update_first (url r.1) (fun s => mkStatus (provider s) (failure_count s) (last_failure_time s)
    (circuit_state s) r.2 (Some t)) l.

(** When all probes have answered, the update is requested; the guard is dropped
    after it. *)
Definition health_check_update (results : list (HorizonProvider * bool)) : Task unit := fun c =>
  match writing_providers (modify (fun c =>
          set_providers (foldl (fun l r => mark_health (now (world c)) r l) (providers c) results) c)) c with
  | Ret r c' => Ret r (set_providers_lock (unlock (providers_lock c')) c')
  | Blocked c' => Blocked c'
  end.

Definition health_check_all (probe : HorizonProvider -> W -> bool * W) : Task unit :=
  do l <- health_check_start;
  do results <- probe_all probe l;
  health_check_update results.

Definition get_provider_statuses : Task (list ProviderStatus) :=
  reading_providers (get_map providers).

(** ** What the sections do when the locks are free *)

Definition calm c : Prop := providers_lock c = Free /\ index_lock c = Free.

Definition opened (u : string) (l : list ProviderStatus) : bool :=
  match find_status u l with
  | Some s => bool_decide (circuit_state s = Open)
  | None => false
  end.

Ltac run_locks Hp Hi :=
  unfold reading_providers, writing_providers, reading_index, writing_index, scoped, bind,
    get_map, modify, ret, fail; rewrite ?Hp; cbn; rewrite ?Hi; cbn.

Lemma get_current_run c :
  calm c -> get_current_provider c =
  Ret (match pick (providers c) (current_provider_index c) with
       | Some s => Ok (provider s)
       | None => Err (NE_HorizonClient "No healthy Horizon providers available")
       end) c.
Proof.
  intros [Hp Hi]. unfold get_current_provider. run_locks Hp Hi.
  destruct c; cbn in *; subst. by destruct (pick _ _).
Qed.

Lemma switch_run c :
  calm c -> switch_provider c =
  match next_usable (providers c) (current_provider_index c) with
  | Some (i, s) => Ret (Ok (provider s)) (set_index i c)
  | None => Ret (Err (NE_HorizonClient "No healthy fallback providers available")) c
  end.
Proof.
  intros [Hp Hi]. unfold switch_provider. run_locks Hp Hi.
  destruct c; cbn in *; subst. by destruct (next_usable _ _) as [[]|].
Qed.

Lemma record_success_run p c :
  calm c -> record_provider_success p c =
  Ret (Ok tt) (set_providers (update_first (url p) (record_success (now (world c))) (providers c)) c).
Proof.
  intros [Hp Hi]. unfold record_provider_success. run_locks Hp Hi. destruct c; cbn in *. by subst.
Qed.

Lemma record_failure_run p c :
  calm c -> record_provider_failure p c =
  let l := update_first (url p) (record_failure (now (world c))
             (circuit_breaker_failure_threshold (config c))) (providers c) in
  Ret (Ok (opened (url p) l)) (set_providers l c).
Proof.
  intros [Hp Hi]. unfold record_provider_failure. run_locks Hp Hi. destruct c; cbn in *. by subst.
Qed.

(** ** Choosing a provider *)

Definition usable (l : list ProviderStatus) : Prop := exists s, s ∈ l /\ can_execute_request s = true.

Lemma head_omap_some {A B} (f : A -> option B) l b :
  head (omap f l) = Some b -> exists a, a ∈ l /\ f a = Some b.
Proof.
  intros Hb. apply list_elem_of_omap. destruct (omap f l); [done|]. cbn in Hb. simplify_eq. left.
Qed.

Lemma head_omap_none {A B} (f : A -> option B) l a :
  head (omap f l) = None -> a ∈ l -> f a = None.
Proof.
  intros Hb Ha. destruct (f a) as [b|] eqn:Hf; [|done].
  assert (b ∈ omap f l) by (apply list_elem_of_omap; eauto). destruct (omap f l); [set_solver|done].
Qed.

Lemma pick_some l i s : pick l i = Some s -> s ∈ l /\ can_execute_request s = true.
Proof.
  unfold pick. intros Hs.
  assert (forall x, head (omap (fun ip => if negb (ip.1 =? i)%nat && can_execute_request ip.2
     then Some ip.2 else None) (imap pair l)) = Some x -> x ∈ l /\ can_execute_request x = true) as Ho.
  { intros x ([j y] & Hin & Hx)%head_omap_some. apply elem_of_lookup_imap in Hin as (j' & y' & ? & Hl).
    cbn in Hx. destruct (negb _); cbn in Hx; [|done].
    destruct (can_execute_request y) eqn:Hc; simplify_eq. split; [by eapply list_elem_of_lookup_2|done]. }
  destruct (l !! i) as [t|] eqn:Hl; [|by auto].
  destruct (can_execute_request t) eqn:Hc; [|by auto].
  simplify_eq. split; [by eapply list_elem_of_lookup_2|done].
Qed.

Lemma pick_none l i : pick l i = None -> ~ usable l.
Proof.
  unfold pick. intros Hn (s & [j Hj]%list_elem_of_lookup_1 & Hc).
  assert (head (omap (fun ip => if negb (ip.1 =? i)%nat && can_execute_request ip.2
     then Some ip.2 else None) (imap pair l)) = None /\ j <> i) as [Ho Hji].
  { destruct (l !! i) as [t|] eqn:Hl; [|by split; [|congruence]].
    destruct (can_execute_request t) eqn:Ht; [done|]. split; [done|]. congruence. }
  pose proof (head_omap_none _ _ (j, s) Ho) as Hx. cbn in Hx.
  rewrite Hc, (proj2 (Nat.eqb_neq _ _) Hji) in Hx. cbn in Hx.
  discriminate Hx. apply elem_of_lookup_imap. by exists j, s.
Qed.

Lemma next_usable_some l i j s :
  next_usable l i = Some (j, s) -> l !! j = Some s /\ can_execute_request s = true.
Proof.
  intros (k & _ & Hk)%head_omap_some. cbn in Hk.
  destruct (l !! _) as [t|] eqn:Hl; [|done]. destruct (can_execute_request t) eqn:Hc; by simplify_eq.
Qed.

Lemma next_usable_none l i : (i < length l)%nat -> next_usable l i = None -> ~ usable l.
Proof.
  intros Hi Hn (s & [j Hj]%list_elem_of_lookup_1 & Hc).
  pose proof (lookup_lt_Some _ _ _ Hj) as Hlt.
  pose proof (head_omap_none _ _ ((j + length l - i - 1) mod length l)%nat Hn) as Hx. cbn in Hx.
  replace ((i + (j + length l - i - 1) mod length l + 1) mod length l)%nat with j in Hx.
  - rewrite Hj, Hc in Hx. discriminate Hx. apply elem_of_seq. split; [lia|].
    apply Nat.mod_upper_bound. lia.
  - rewrite (Nat.add_comm i), <- Nat.add_assoc, Nat.Div0.add_mod_idemp_l.
    replace (j + length l - i - 1 + (i + 1))%nat with (j + 1 * length l)%nat by lia.
    rewrite Nat.Div0.mod_add. by rewrite Nat.mod_small.
Qed.

(** ** Statuses by provider *)

Definition urls (l : list ProviderStatus) : list string := map (fun s => url (provider s)) l.

Definition status_is (l : list ProviderStatus) (p : HorizonProvider) (P : ProviderStatus -> Prop) : Prop :=
  exists s, s ∈ l /\ provider s = p /\ P s.

Definition breaker_is (l : list ProviderStatus) (p : HorizonProvider) (st : CircuitBreakerState) : Prop :=
  status_is l p (fun s => circuit_state s = st).

(** One more failure opens the breaker. *)
Definition at_limit (threshold : Z) (l : list ProviderStatus) (p : HorizonProvider) : Prop :=
  status_is l p (fun s => threshold <= failure_count s + 1).

Lemma urls_insert l i s s1 :
  l !! i = Some s -> provider s1 = provider s -> urls (<[i := s1]> l) = urls l.
Proof.
  intros Hi Hp. unfold urls. rewrite list_fmap_insert. apply list_insert_id.
  by rewrite list_lookup_fmap, Hi, Hp.
Qed.

Lemma urls_unique l i j s t :
  NoDup (urls l) -> l !! i = Some s -> l !! j = Some t -> provider s = provider t -> i = j.
Proof.
  intros Hn Hi Hj Hp. eapply (NoDup_lookup _ i j (url (provider s)) Hn);
    unfold urls; rewrite list_lookup_fmap, ?Hi, ?Hj; cbn; congruence.
Qed.

Lemma update_first_insert f l i s :
  NoDup (urls l) -> l !! i = Some s -> update_first (url (provider s)) f l = <[i := f s]> l.
Proof.
  revert i. induction l as [|t l IH]; intros [|i] Hn Hi; cbn in *; simplify_eq.
  - by rewrite decide_True.
  - apply NoDup_cons in Hn as [Hni Hn]. rewrite decide_False; [by rewrite (IH i)|].
    intros Heq. apply Hni. rewrite Heq.
    apply (list_elem_of_fmap_2 (fun s => url (provider s))). by eapply list_elem_of_lookup_2.
Qed.

Lemma find_status_lookup l i s :
  NoDup (urls l) -> l !! i = Some s -> find_status (url (provider s)) l = Some s.
Proof.
  unfold find_status. revert i. induction l as [|t l IH]; intros [|i] Hn Hi; cbn in *; simplify_eq.
  - by rewrite decide_True.
  - apply NoDup_cons in Hn as [Hni Hn]. rewrite decide_False.
    + specialize (IH _ Hn Hi). by destruct (list_find _ l) as [[]|].
    + intros Heq. apply Hni. rewrite Heq.
      apply (list_elem_of_fmap_2 (fun s => url (provider s))). by eapply list_elem_of_lookup_2.
Qed.

Lemma status_insert l i s s1 q P :
  NoDup (urls l) -> l !! i = Some s -> provider s1 = provider s ->
  status_is (<[i := s1]> l) q P <-> q = provider s /\ P s1 \/ q <> provider s /\ status_is l q P.
Proof.
  intros Hn Hi Hp. pose proof (lookup_lt_Some _ _ _ Hi) as Hlt. split.
  - intros (t & [j Hj]%list_elem_of_lookup_1 & <- & HP).
    destruct (decide (i = j)) as [<-|Hne].
    + rewrite list_lookup_insert_eq in Hj by done. simplify_eq. by left.
    + rewrite list_lookup_insert_ne in Hj by done. right. split; [|].
      * intros Heq. by destruct (urls_unique _ _ _ _ _ Hn Hi Hj).
      * exists t. by split; [eapply list_elem_of_lookup_2|].
  - intros [[-> HP]|[Hq (t & [j Hj]%list_elem_of_lookup_1 & <- & HP)]].
    + exists s1. split; [|done]. eapply (list_elem_of_lookup_2 _ i). by rewrite list_lookup_insert_eq.
    + exists t. split; [|done]. eapply (list_elem_of_lookup_2 _ j).
      rewrite list_lookup_insert_ne; [done|]. congruence.
Qed.

Lemma breaker_unique l p st st' :
  NoDup (urls l) -> breaker_is l p st -> breaker_is l p st' -> st = st'.
Proof.
  intros Hn (s & [i Hi]%list_elem_of_lookup_1 & Hp & <-) (t & [j Hj]%list_elem_of_lookup_1 & Hq & <-).
  assert (i = j) as -> by (eapply urls_unique; [done..|congruence]). congruence.
Qed.

Definition closed_count (l : list ProviderStatus) : nat :=
  length (filter (fun s => circuit_state s = Closed) l).

Lemma closed_count_open l i s s1 :
  l !! i = Some s -> circuit_state s = Closed -> circuit_state s1 <> Closed ->
  S (closed_count (<[i := s1]> l)) = closed_count l.
Proof.
  unfold closed_count. revert i. induction l as [|t l IH]; intros [|i] Hi Hc Ho; [done|done| |].
  - simpl in Hi. simplify_eq. change (<[0%nat := s1]> (s :: l)) with (s1 :: l).
    by rewrite filter_cons_False, filter_cons_True.
  - specialize (IH _ Hi Hc Ho). change (<[S i := s1]> (t :: l)) with (t :: <[i := s1]> l).
    rewrite !filter_cons. destruct (decide _); cbn [length]; lia.
Qed.

Lemma closed_count_zero l p : closed_count l = 0%nat -> ~ breaker_is l p Closed.
Proof.
  intros H0%nil_length_inv (s & Hin & _ & Hs).
  assert (s ∈ filter (fun s => circuit_state s = Closed) l) as Hf by (by apply list_elem_of_filter).
  rewrite H0 in Hf. by apply not_elem_of_nil in Hf.
Qed.

(** ** The invariant of a client that nobody probes *)

Definition status_ok (threshold : Z) (s : ProviderStatus) : Prop :=
  is_healthy s = true /\
  (circuit_state s = Closed /\ 0 <= failure_count s < Z.max 1 threshold \/ circuit_state s = Open).

Record client_ok c : Prop := {
  ok_calm : calm c;
  ok_threshold : 0 <= circuit_breaker_failure_threshold (config c) <= u8_max;
  ok_urls : NoDup (urls (providers c));
  ok_length : length (providers c) = length (cfg_providers (config c));
  ok_status : Forall (status_ok (circuit_breaker_failure_threshold (config c))) (providers c);
  ok_index : providers c <> [] -> (current_provider_index c < length (providers c))%nat }.

Lemma usable_closed th s : status_ok th s -> can_execute_request s = true -> circuit_state s = Closed.
Proof. intros [Hh [[Hc _]|Hc]]; unfold can_execute_request; by rewrite Hc. Qed.

Lemma not_usable l th p : Forall (status_ok th) l -> ~ usable l -> ~ breaker_is l p Closed.
Proof.
  intros Hf Hu (s & Hin & _ & Hs). apply Hu. exists s. split; [done|].
  rewrite Forall_forall in Hf. destruct (Hf s Hin) as [Hh _]. unfold can_execute_request. by rewrite Hs.
Qed.

Lemma client_ok_put c c1 i s s1 :
  client_ok c -> providers c !! i = Some s -> provider s1 = provider s ->
  status_ok (circuit_breaker_failure_threshold (config c)) s1 ->
  config c1 = config c -> calm c1 -> current_provider_index c1 = current_provider_index c ->
  providers c1 = <[i := s1]> (providers c) -> client_ok c1.
Proof.
  intros [Hcalm Hth Hn Hl Hs Hx] Hi Hp Hs1 Hcfg Hc1 Hidx Hps.
  split; rewrite ?Hcfg, ?Hps, ?Hidx, ?length_insert; try done.
  - by rewrite (urls_insert _ _ s).
  - by apply Forall_insert.
  - intros _. apply Hx. by intros Hnil; rewrite Hnil in Hi.
Qed.

Lemma client_ok_index c j s : client_ok c -> providers c !! j = Some s -> client_ok (set_index j c).
Proof.
  intros [Hcalm Hth Hn Hl Hs Hx] Hj. split; cbn; try done. intros _. by eapply lookup_lt_Some.
Qed.

Lemma record_failure_ok t th s :
  0 <= th <= u8_max -> status_ok th s -> circuit_state s = Closed ->
  status_ok th (record_failure t th s) /\
  (circuit_state (record_failure t th s) = Open /\ th <= failure_count s + 1 \/
   circuit_state (record_failure t th s) = Closed).
Proof.
  unfold u8_max. intros Hth [Hh [[Hc Hf]|Hc]] Hs; [|congruence].
  unfold record_failure, status_ok, u8_max. cbn. rewrite Z.mod_small by lia.
  destruct (Z.leb_spec th (failure_count s + 1)); cbn; split; try (split; [done|]); auto.
  left. split; [done|lia].
Qed.

Lemma record_success_ok t th s :
  status_ok th s -> circuit_state s = Closed ->
  status_ok th (record_success t s) /\ circuit_state (record_success t s) = Closed.
Proof.
  intros [Hh [[Hc Hf]|Hc]] Hs; [|congruence].
  unfold record_success, status_ok. cbn. rewrite Hs. cbn. split; [|done].
  split; [done|]. left. split; [done|lia].
Qed.

(** ** What a request does *)

Record request_outcome {T} (operation : HorizonProvider -> W -> result string T * W)
    (th : Z) (l l' : list ProviderStatus) (tried : list HorizonProvider) (r : result NetworkError T)
    : Prop := {
  (** no provider is asked twice, and only providers with a closed breaker are; *)
  o_once : NoDup tried;
  o_closed : Forall (fun p => breaker_is l p Closed) tried;
  (** the request moves on from a provider only when this failure opened its breaker; *)
  o_tripped : Forall (fun p => at_limit th l p /\ breaker_is l' p Open) (removelast tried);
  (** an open breaker stays open; *)
  o_open p : breaker_is l p Open -> breaker_is l' p Open;
  (** success is an answer of the last provider asked; on failure either that
      provider's breaker is still closed or all breakers are open. *)
  o_result :
    match r with
    | Ok t => exists p w, last tried = Some p /\ (operation p w).1 = Ok t
    | Err _ => (exists p, last tried = Some p /\ breaker_is l' p Closed) \/
               forall p, ~ breaker_is l' p Closed
    end }.

Lemma outcome_stop {T} (operation : HorizonProvider -> W -> result string T * W) th l x :
  (forall p, ~ breaker_is l p Closed) -> request_outcome operation th l l [] (Err x).
Proof. intros Hn. split; cbn; auto using NoDup_nil_2. Qed.

(** The request ends with provider [s], whose status becomes [s1]. *)
Lemma outcome_last {T} (operation : HorizonProvider -> W -> result string T * W) th l i s s1 r :
  NoDup (urls l) -> l !! i = Some s -> provider s1 = provider s -> circuit_state s = Closed ->
  match r with
  | Ok t => exists w, (operation (provider s) w).1 = Ok t
  | Err _ => circuit_state s1 = Closed \/ forall p, ~ breaker_is (<[i := s1]> l) p Closed
  end ->
  request_outcome operation th l (<[i := s1]> l) [provider s] r.
Proof.
  intros Hn Hi Hp Hc Hr.
  assert (breaker_is l (provider s) Closed) as Hb
    by (exists s; split; [by eapply list_elem_of_lookup_2|done]).
  split; cbn.
  - apply NoDup_singleton.
  - by apply Forall_singleton.
  - done.
  - intros p Ho. apply (status_insert l i s); [done..|]. right. split; [|done].
    intros ->. by pose proof (breaker_unique _ _ _ _ Hn Hb Ho).
  - destruct r as [t|x]; [destruct Hr as [w Hw]; by exists (provider s), w|].
    destruct Hr as [Hr|Hr]; [left|by right]. exists (provider s). split; [done|].
    apply (status_insert l i s); [done..|]. by left.
Qed.

(** The failure of provider [s] opened its breaker and the request went on. *)
Lemma outcome_step {T} (operation : HorizonProvider -> W -> result string T * W) th l i s s1 l' tried r :
  NoDup (urls l) -> l !! i = Some s -> provider s1 = provider s -> circuit_state s = Closed ->
  circuit_state s1 = Open -> th <= failure_count s + 1 ->
  request_outcome operation th (<[i := s1]> l) l' tried r ->
  request_outcome operation th l l' (provider s :: tried) r.
Proof.
  intros Hn Hi Hp Hc Ho Hth [Honce Hclosed Htrip Hopen Hres].
  assert (NoDup (urls (<[i := s1]> l))) as Hn1 by (by rewrite (urls_insert _ _ s)).
  assert (breaker_is (<[i := s1]> l) (provider s) Open) as Hb
    by (apply (status_insert l i s); [done..|]; by left).
  assert (forall p, p ∈ tried -> p <> provider s /\ breaker_is l p Closed) as Hrest.
  { intros p Hin. rewrite Forall_forall in Hclosed. specialize (Hclosed p Hin).
    apply (status_insert l i s) in Hclosed as [[_ ?]|[? ?]]; [congruence|done..]. }
  assert (s ∈ l) as Hin by (by eapply list_elem_of_lookup_2).
  split.
  - apply NoDup_cons. split; [|done]. intros Hx. by destruct (Hrest _ Hx).
  - apply Forall_cons. split; [by exists s|]. apply Forall_forall. intros p Hx. by apply Hrest.
  - destruct tried as [|q tried]; [by apply Forall_nil|].
    apply Forall_cons. split; [split; [by exists s|by apply Hopen]|].
    eapply Forall_impl; [exact Htrip|]. intros p [Hl Hp']. split; [|done].
    apply (status_insert l i s) in Hl as [[-> _]|[_ Hl]]; [|done..]. by exists s.
  - intros p Hp'. apply Hopen. apply (status_insert l i s); [done..|].
    destruct (decide (p = provider s)) as [->|]; [by left|by right].
  - destruct r as [t|x].
    + destruct Hres as (p & w & Hl & Hw). exists p, w. by destruct tried.
    + destruct Hres as [(p & Hl & Hb')|Hres]; [left; exists p; by destruct tried|by right].
Qed.

(** The request sent to [s]: its answer, the new world, and the client then. *)
Lemma perform_run {T} (operation : HorizonProvider -> W -> result string T * W) p c r w :
  operation p (world c) = (r, w) ->
  perform operation p c = Ret (Ok r) (add_sent p (set_world w c)).
Proof. unfold perform. by intros ->. Qed.

(** The client after provider [s] at index [i] was asked and its status became [s1]. *)
Definition asked c (i : nat) (s s1 : ProviderStatus) (w : W) : HorizonClient W :=
  set_providers (<[i := s1]> (providers c)) (add_sent (provider s) (set_world w c)).

Lemma asked_ok c i s s1 w :
  client_ok c -> providers c !! i = Some s -> provider s1 = provider s ->
  status_ok (circuit_breaker_failure_threshold (config c)) s1 -> client_ok (asked c i s s1 w).
Proof. intros Hok Hi Hp Hs. eapply (client_ok_put c); try done. apply Hok. Qed.

Lemma attempt_none {T} (operation : HorizonProvider -> W -> result string T * W) left c :
  client_ok c -> pick (providers c) (current_provider_index c) = None ->
  exists x, attempt operation left c = Ret (Err x) c.
Proof.
  intros [Hcalm _ _ _ _ Hidx] Hp. destruct left as [|left]; cbn [attempt];
    rewrite get_current_run, Hp by done; [by eexists|].
  unfold bind. rewrite switch_run by done.
  destruct (next_usable _ _) as [[j t]|] eqn:Hj; [|by eexists]. exfalso.
  apply next_usable_some in Hj as [Hj Hc]. eapply pick_none; [exact Hp|].
  exists t. split; [by eapply list_elem_of_lookup_2|done].
Qed.

Lemma attempt_ok {T} (operation : HorizonProvider -> W -> result string T * W) left c i s t w :
  client_ok c -> pick (providers c) (current_provider_index c) = Some s ->
  providers c !! i = Some s -> operation (provider s) (world c) = (Ok t, w) ->
  attempt operation left c = Ret (Ok t) (asked c i s (record_success (now w) s) w).
Proof.
  intros [Hcalm _ Hn _ _ _] Hp Hi Hop. destruct left; cbn [attempt];
    rewrite get_current_run, Hp by done; unfold bind; rewrite (perform_run _ _ _ _ _ Hop);
    rewrite record_success_run by done; cbn; by rewrite (update_first_insert _ _ i s).
Qed.

Lemma attempt_err {T} (operation : HorizonProvider -> W -> result string T * W) left c i s x w :
  client_ok c -> pick (providers c) (current_provider_index c) = Some s ->
  providers c !! i = Some s -> operation (provider s) (world c) = (Err x, w) ->
  let s1 := record_failure (now w) (circuit_breaker_failure_threshold (config c)) s in
  let c1 := asked c i s s1 w in
  attempt operation left c =
  match bool_decide (circuit_state s1 = Open), left with
  | true, S left' =>
      match next_usable (providers c1) (current_provider_index c1) with
      | Some (j, _) => attempt operation left' (set_index j c1)
      | None => Ret (Err (NE_HorizonClient ("Failed to switch provider: " +:+
                  "Horizon client error: No healthy fallback providers available"))) c1
      end
  | _, _ => Ret (Err (NE_HorizonClient ("All Horizon providers failed: " +:+ x))) c1
  end.
Proof.
  intros [Hcalm _ Hn _ _ _] Hp Hi Hop. cbn zeta.
  set (s1 := record_failure (now w) (circuit_breaker_failure_threshold (config c)) s).
  assert (record_provider_failure (provider s) (add_sent (provider s) (set_world w c)) =
          Ret (Ok (bool_decide (circuit_state s1 = Open))) (asked c i s s1 w)) as Hrec.
  { rewrite record_failure_run by done. cbn. rewrite (update_first_insert _ _ i s) by done.
    change (record_failure (now w) (circuit_breaker_failure_threshold (config c)) s) with s1.
    unfold opened. change (url (provider s)) with (url (provider s1)).
    rewrite (find_status_lookup _ i s1); [done|by rewrite (urls_insert _ _ s)|].
    apply list_lookup_insert_eq. by eapply lookup_lt_Some. }
  destruct left as [|left]; cbn [attempt]; rewrite get_current_run, Hp by done; unfold bind;
    rewrite (perform_run _ _ _ _ _ Hop), Hrec; destruct (bool_decide _); try done.
  rewrite switch_run by done. by destruct (next_usable _ _) as [[]|].
Qed.

Lemma attempt_outcome {T} (operation : HorizonProvider -> W -> result string T * W) left c :
  client_ok c -> (closed_count (providers c) <= S left)%nat ->
  exists r c' tried, attempt operation left c = Ret r c' /\ client_ok c' /\
    config c' = config c /\ sent c' = sent c ++ tried /\
    request_outcome operation (circuit_breaker_failure_threshold (config c))
      (providers c) (providers c') tried r.
Proof.
  revert c. induction left as [left IH] using lt_wf_ind; intros c Hok Hcount.
  pose proof Hok as [Hcalm Hth Hn Hlen Hstat Hidx].
  destruct (pick (providers c) (current_provider_index c)) as [s|] eqn:Hpick.
  2:{ destruct (attempt_none operation left c Hok Hpick) as [x ->].
      exists (Err x), c, []. rewrite app_nil_r. split_and!; try done. apply outcome_stop.
      intros p. eapply not_usable; [done|by eapply pick_none]. }
  destruct (pick_some _ _ _ Hpick) as [[i Hi]%list_elem_of_lookup_1 Hcan].
  assert (status_ok (circuit_breaker_failure_threshold (config c)) s) as Hs
    by (by eapply Forall_lookup_1).
  pose proof (usable_closed _ _ Hs Hcan) as Hc.
  destruct (operation (provider s) (world c)) as [[t|x] w] eqn:Hop.
  { rewrite (attempt_ok _ _ _ i s t w) by done.
    destruct (record_success_ok (now w) _ _ Hs Hc) as [Hs1 Hc1].
    do 2 eexists. exists [provider s]. split_and!; [done|by apply asked_ok|done|done|].
    eapply outcome_last; try done. exists (world c). by rewrite Hop. }
  rewrite (attempt_err _ _ _ i s x w) by done. cbn zeta.
  set (s1 := record_failure (now w) (circuit_breaker_failure_threshold (config c)) s).
  destruct (record_failure_ok (now w) _ _ Hth Hs Hc) as [Hs1 Hc1]. fold s1 in Hs1, Hc1.
  assert (client_ok (asked c i s s1 w)) as Hok1 by (by apply asked_ok).
  destruct Hc1 as [[Ho1 Hlim]|Hc1].
  2:{ rewrite bool_decide_false by (by rewrite Hc1). do 2 eexists. exists [provider s].
      split_and!; [done..|]. eapply outcome_last; try done. by left. }
  rewrite bool_decide_true by done.
  pose proof (closed_count_open _ _ _ s1 Hi Hc ltac:(by rewrite Ho1)) as Hcc.
  destruct left as [|left].
  { do 2 eexists. exists [provider s]. split_and!; [done..|].
    eapply outcome_last; try done. right. intros p. apply closed_count_zero. lia. }
  destruct (next_usable _ _) as [[j t]|] eqn:Hj.
  - apply next_usable_some in Hj as [Hj _].
    destruct (IH left ltac:(lia) (set_index j (asked c i s s1 w))) as (r & c' & tried & Ha & Hok' & Hcfg & Hsent & Hout).
    { by eapply client_ok_index. }
    { change (closed_count (<[i := s1]> (providers c)) <= S left)%nat. lia. }
    exists r, c', (provider s :: tried). split_and!; [done..| |].
    + rewrite Hsent. cbn. by rewrite <- app_assoc.
    + by eapply (outcome_step _ _ _ i s s1).
  - do 2 eexists. exists [provider s]. split_and!; [done..|].
    eapply outcome_last; try done. right. intros p.
    apply (not_usable _ _ _ (ok_status _ Hok1)). eapply next_usable_none; [|exact Hj].
    apply (ok_index _ Hok1). intros Hnil. apply (f_equal length) in Hnil. cbn in Hnil.
    rewrite length_insert in Hnil. apply lookup_lt_Some in Hi. lia.
Qed.

(** The providers [l] asked one after the other from [w], all of which failed, and
    the world then. *)
Fixpoint failures {T} (operation : HorizonProvider -> W -> result string T * W) (l : list HorizonProvider) (w : W)
    : option W :=
  match l with
  | [] => Some w
  | p :: l' => match operation p w with (Err _, w') => failures operation l' w' | (Ok _, _) => None end
  end.

(** Where an answer comes from: failures in a row, then for a success the provider
    that answered, each asked in the world the one before left. *)
Lemma attempt_world {T} (operation : HorizonProvider -> W -> result string T * W) left c r c' :
  client_ok c -> attempt operation left c = Ret r c' ->
  match r with
  | Ok t => exists before p w, sent c' = sent c ++ before ++ [p] /\
      failures operation before (world c) = Some w /\ operation p w = (Ok t, world c')
  | Err _ => exists tried, sent c' = sent c ++ tried /\ failures operation tried (world c) = Some (world c')
  end.
Proof.
  revert c. induction left as [left IH] using lt_wf_ind; intros c Hok Ha.
  pose proof Hok as [_ Hth _ _ Hstat _].
  destruct (pick (providers c) (current_provider_index c)) as [s|] eqn:Hpick.
  2:{ destruct (attempt_none operation left c Hok Hpick) as [x Hx]. rewrite Hx in Ha. simplify_eq.
      exists []. by rewrite app_nil_r. }
  destruct (pick_some _ _ _ Hpick) as [[i Hi]%list_elem_of_lookup_1 Hcan].
  assert (status_ok (circuit_breaker_failure_threshold (config c)) s) as Hs by (by eapply Forall_lookup_1).
  pose proof (usable_closed _ _ Hs Hcan) as Hc.
  destruct (operation (provider s) (world c)) as [[t|x] w] eqn:Hop.
  { rewrite (attempt_ok _ _ _ i s t w) in Ha by done. simplify_eq. exists [], (provider s), (world c). done. }
  rewrite (attempt_err _ _ _ i s x w) in Ha by done. cbn zeta in Ha.
  set (s1 := record_failure (now w) (circuit_breaker_failure_threshold (config c)) s) in *.
  destruct (record_failure_ok (now w) _ _ Hth Hs Hc) as [Hs1 _]. fold s1 in Hs1.
  assert (client_ok (asked c i s s1 w)) as Hok1 by (by apply asked_ok).
  assert (forall y c2, Ret (Err y) (asked c i s s1 w) = Ret r c2 -> c2 = c' ->
    match r with Ok _ => False | Err _ => exists tried, sent c' = sent c ++ tried /\
      failures operation tried (world c) = Some (world c') end) as Hstop.
  { intros y c2 [= <- <-] <-. exists [provider s]. cbn. by rewrite Hop. }
  destruct (bool_decide _), left as [|left]; try (by destruct r; [destruct (Hstop _ _ Ha eq_refl)|eapply Hstop]).
  destruct (next_usable _ _) as [[j u]|] eqn:Hj;
    [|by destruct r; [destruct (Hstop _ _ Ha eq_refl)|eapply Hstop]].
  apply next_usable_some in Hj as [Hj _].
  apply IH in Ha; [|lia|by eapply client_ok_index]. cbn in Ha. destruct r as [t|y].
  - destruct Ha as (before & p & w' & -> & Hf & Hp). exists (provider s :: before), p, w'. cbn. rewrite Hop.
    by rewrite <- app_assoc.
  - destruct Ha as (tried & -> & Hf). exists (provider s :: tried). cbn. rewrite Hop. by rewrite <- app_assoc.
Qed.

(** ** Reachable clients and the theorems *)

Lemma insert_by_priority_perm s l : Permutation (insert_by_priority s l) (s :: l).
Proof.
  induction l as [|t l IH]; cbn; [done|]. destruct (_ <=? _); [done|].
  rewrite IH. by apply Permutation_swap.
Qed.

Lemma sort_by_priority_perm l : Permutation (sort_by_priority l) l.
Proof.
  induction l as [|s l IH]; cbn; [done|]. rewrite insert_by_priority_perm. by constructor.
Qed.

Definition config_ok (cfg : HorizonConfig) : Prop :=
  0 <= circuit_breaker_failure_threshold cfg <= u8_max /\ NoDup (map url (cfg_providers cfg)).

(** A client in use: requests of any kind, switches, and time passing. *)
Inductive in_use (cfg : HorizonConfig) : HorizonClient W -> Prop :=
| UseNew w : in_use cfg (new_client cfg w)
| UseRequest T (operation : HorizonProvider -> W -> result string T * W) c r c' :
    in_use cfg c -> execute_request operation c = Ret r c' -> in_use cfg c'
| UseSwitch c r c' : in_use cfg c -> switch_provider c = Ret r c' -> in_use cfg c'
| UseWait c w : in_use cfg c -> in_use cfg (set_world w c).

Lemma new_client_ok cfg w : config_ok cfg -> client_ok (new_client cfg w).
Proof.
  intros [Hth Hn]. set (l := map new_status (cfg_providers cfg)).
  pose proof (sort_by_priority_perm l) as Hp. split; cbn; fold l; try done.
  - unfold urls. rewrite (fmap_Permutation (fun s => url (provider s)) _ _ Hp).
    unfold l. by rewrite map_map.
  - rewrite Hp. apply length_map.
  - rewrite Hp. apply Forall_map, Forall_forall. intros p _. split; [done|]. left. split; [done|cbn; lia].
  - intros Hne. destruct (sort_by_priority l); [done|cbn; lia].
Qed.

Lemma request_run {T} (operation : HorizonProvider -> W -> result string T * W) c :
  client_ok c ->
  exists r c' tried, execute_request operation c = Ret r c' /\ client_ok c' /\
    config c' = config c /\ sent c' = sent c ++ tried /\
    request_outcome operation (circuit_breaker_failure_threshold (config c))
      (providers c) (providers c') tried r.
Proof.
  intros Hok. apply attempt_outcome; [done|]. rewrite <- (ok_length _ Hok).
  pose proof (length_filter (fun s => circuit_state s = Closed) (providers c)).
  unfold closed_count. lia.
Qed.

Lemma in_use_ok cfg c : config_ok cfg -> in_use cfg c -> client_ok c /\ config c = cfg.
Proof.
  intros Hcfg. induction 1 as [w|T operation c r c' _ [Hok Hc] Hr|c r c' _ [Hok Hc] Hr|c w _ [Hok Hc]].
  - split; [by apply new_client_ok|done].
  - destruct (request_run operation c Hok) as (r0 & c0 & tried & Heq & Hok0 & Hc0 & _).
    rewrite Hr in Heq. simplify_eq. by rewrite Hc0.
  - rewrite switch_run in Hr by apply Hok.
    destruct (next_usable _ _) as [[j t]|] eqn:Hj; simplify_eq; [|done].
    apply next_usable_some in Hj as [Hj _]. split; [by eapply client_ok_index|done].
  - by destruct Hok.
Qed.

(** C24. What a Horizon request does, on a client in use with distinct provider
    URLs: it returns; it asks no provider twice and none whose breaker is open;
    it moves on from a failing provider only if that failure reached the
    threshold and opened its breaker, so below the threshold a failed request
    asks one provider; success is the last provider's answer, and after a
    failure either that provider's breaker is closed or every breaker is open.
    An open breaker is never closed again. *)
Theorem request_failover cfg c T (operation : HorizonProvider -> W -> result string T * W) :
  config_ok cfg -> in_use cfg c ->
  exists r c' tried, execute_request operation c = Ret r c' /\ in_use cfg c' /\
    sent c' = sent c ++ tried /\
    request_outcome operation (circuit_breaker_failure_threshold cfg)
      (providers c) (providers c') tried r.
Proof.
  intros Hcfg Hu. destruct (in_use_ok _ _ Hcfg Hu) as [Hok Hc].
  destruct (request_run operation c Hok) as (r & c' & tried & Hr & _ & _ & Hs & Ho).
  rewrite Hc in Ho. exists r, c', tried. split_and!; [done|by eapply UseRequest|done|done].
Qed.

Lemma probe_all_run probe l c :
  exists rs w, probe_all probe l c = Ret (Ok rs) (set_world w c).
Proof.
  revert c. induction l as [|s l IH]; intros c; cbn.
  - exists [], (world c). by destruct c.
  - destruct (probe (provider s) (world c)) as [h w1]. unfold bind.
    destruct (IH (set_world w1 c)) as (rs & w & ->). by eexists _, w.
Qed.

(** A client whose lock is jammed: every operation waits for ever and changes
    nothing. *)
Definition jammed c : Prop :=
  (forall T (operation : HorizonProvider -> W -> result string T * W), execute_request operation c = Blocked c) /\
  switch_provider c = Blocked c /\ get_provider_statuses c = Blocked c /\
  (forall probe, health_check_all probe c = Blocked c).

Lemma health_check_jams probe c :
  calm c ->
  exists c', health_check_all probe c = Blocked c' /\ providers c' = providers c /\ jammed c'.
Proof.
  intros [Hp Hi]. unfold health_check_all at 1, health_check_start, bind. rewrite Hp. cbn [lock_read].
  destruct (probe_all_run probe (providers c) (set_providers_lock (Reading 1) c)) as (rs & w & ->).
  eexists. split_and!; [reflexivity|done|]. unfold jammed. split_and!; try (by destruct c).
  intros T operation. unfold execute_request. cbn.
  destruct (length (cfg_providers (config c)) - 1)%nat; by destruct c.
Qed.

(** While the probes run, readers are still served. *)
Lemma probing_serves c :
  calm c ->
  exists c1, health_check_start c = Ret (Ok (providers c)) c1 /\
    get_provider_statuses c1 = Ret (Ok (providers c)) c1 /\
    (exists r c2, switch_provider c1 = Ret r c2) /\
    get_current_provider c1 = match get_current_provider c with Ret r _ => Ret r c1 | Blocked _ => Blocked c1 end.
Proof.
  intros [Hp Hi]. unfold health_check_start. rewrite Hp. cbn [lock_read]. eexists. split; [reflexivity|].
  split_and!.
  - unfold get_provider_statuses, reading_providers, scoped. cbn. by destruct c.
  - unfold switch_provider, reading_providers, writing_index, scoped, bind. cbn. rewrite Hi. cbn.
    destruct (next_usable _ _) as [[j t]|]; cbn; by eexists _, _.
  - unfold get_current_provider, reading_providers, reading_index, scoped, bind. cbn. rewrite Hp, Hi. cbn.
    destruct (pick _ _); destruct c; cbn in *; by subst.
Qed.

(** [start_health_checker]: a check on every tick of the interval, the first of
    which is immediate; the outcome after [n] ticks.  An error is only logged. *)
Fixpoint health_checker (probe : HorizonProvider -> W -> bool * W) (n : nat) c : run (HorizonClient W) NetworkError unit :=
  match n with
  | O => Ret (Ok tt) c
  | S n' =>
      match health_check_all probe c with
      | Ret _ c' => health_checker probe n' c'
      | Blocked c' => Blocked c'
      end
  end.

Lemma health_checker_jams probe n c :
  calm c -> exists c', health_checker probe (S n) c = Blocked c' /\ jammed c'.
Proof.
  intros Hc. destruct (health_check_jams probe c Hc) as (c' & Hb & _ & Hj).
  exists c'. cbn [health_checker]. by rewrite Hb.
Qed.

(** The health check wedges the client: when its probes have answered it asks for
    the write lock while its read guard is alive, so it never returns, no status is
    ever updated, and from then on every request, switch and status query waits for
    ever - on the first tick of the background checker, which is immediate. *)
Theorem health_check_wedges probe n c :
  calm c ->
  exists c', health_check_all probe c = Blocked c' /\ health_checker probe (S n) c = Blocked c' /\
    providers c' = providers c /\
    (forall T (operation : HorizonProvider -> W -> result string T * W),
       execute_request operation c' = Blocked c') /\
    switch_provider c' = Blocked c' /\ get_provider_statuses c' = Blocked c' /\
    health_check_all probe c' = Blocked c'.
Proof.
  intros Hc. destruct (health_check_jams probe c Hc) as (c' & Hb & Hp & H1 & H2 & H3 & H4).
  exists c'. cbn [health_checker]. rewrite Hb. by split_and!.
Qed.

End Client.

(** ** A concrete network: the world is a list of the URLs that answer *)

Definition ask (p : HorizonProvider) (up : list string) : result string nat * list string :=
  (if bool_decide (url p ∈ up) then Ok 200%nat else Err "connection refused", up).

(** The default configuration with only the second provider up: the first two
    requests fail without asking anybody else, the third fails over. *)
Definition one_up : list string := ["https://horizon-blockdaemon.stellar.ovh"].

Fixpoint ask_times (n : nat) (c : HorizonClient (list string)) : HorizonClient (list string) :=
  match n with
  | O => c
  | S n' => match execute_request (fun _ => 0) ask c with
            | Ret _ c' | Blocked c' => ask_times n' c'
            end
  end.

Lemma ask_times_in_use cfg n c :
  config_ok cfg -> in_use (fun _ => 0) cfg c -> in_use (fun _ => 0) cfg (ask_times n c).
Proof.
  intros Hcfg. revert c. induction n as [|n IH]; intros c Hu; [done|]. cbn.
  destruct (in_use_ok _ _ _ Hcfg Hu) as [Hok _].
  destruct (request_run (fun _ => 0) ask c Hok) as (r & c' & tried & Hr & _).
  rewrite Hr. apply IH. by eapply UseRequest.
Qed.

Lemma default_config_ok : config_ok default_horizon_config.
Proof. split; [unfold u8_max; cbn; lia|]. apply (bool_decide_unpack _). vm_compute. exact I. Qed.

Definition two_failures : HorizonClient (list string) :=
  ask_times 2 (new_client default_horizon_config one_up).

Lemma request_failover_witness :
  map name (sent two_failures) = ["Stellar Public"; "Stellar Public"] /\
  exists r c' tried, execute_request (fun _ => 0) ask two_failures = Ret r c' /\
    sent c' = sent two_failures ++ tried /\
    request_outcome ask 3 (providers two_failures) (providers c') tried r /\
    r = Ok 200%nat /\ map name (sent c') = ["Stellar Public"; "Stellar Public"; "Stellar Public"; "Blockdaemon"].
Proof.
  split; [vm_compute; reflexivity|].
  destruct (request_failover (fun _ => 0) default_horizon_config two_failures nat ask default_config_ok
              (ask_times_in_use _ 2 _ default_config_ok (UseNew _ _ one_up)))
    as (r & c' & tried & Hr & _ & Hs & Ho).
  exists r, c', tried. split; [exact Hr|]. split; [exact Hs|]. split; [exact Ho|].
  vm_compute in Hr. injection Hr as <- <-. split; vm_compute; reflexivity.
Defined.

Lemma health_check_wedges_witness :
  exists c', health_check_all (fun _ => 0) (fun p up => (bool_decide (url p ∈ up), up))
               (new_client default_horizon_config one_up) = Blocked c' /\
    execute_request (fun _ => 0) ask c' = Blocked c'.
Proof.
  destruct (health_check_wedges (fun _ => 0) (fun p up => (bool_decide (url p ∈ up), up)) 0
              (new_client default_horizon_config one_up) (conj eq_refl eq_refl))
    as (c' & Hb & _ & _ & Hr & _).
  exists c'. split; [exact Hb|apply Hr].
Defined.
