(* ===== verification/P2P.v ===== *)
(** network-node/src/p2p.rs: the Kademlia routing table and the peer manager.

    [PeerInfo::id] is declared a [String] and used as a [NodeId] by the routing
    table; [PeerInfo] has the type of ids as a parameter here, [NodeId] in the
    table and [string] in the manager, so that each component is what its own
    operations need.  The socket addresses of std::net are a type parameter.
    Times are milliseconds.  The [RwLock]s of the manager are taken once per
    call and released at its end, so calls are atomic steps. *)
From stdpp Require Import base gmap sets list strings sorting pretty.
From S2P Require Import Prelude Sorting.

(** [[u8; 32]]. *)
Definition NodeId : Type := list Z.
Definition node_id_ok (id : NodeId) : Prop := length id = 32%nat /\ bytes_ok id = true.

Record PeerInfo (Id Addr : Type) : Type := mkPeer {
  peer_id : Id;
  address : Addr;
  is_connected : bool;
  last_seen : Z;
  latency_ms : Z;
  version : string }.
Arguments mkPeer {Id Addr} peer_id address is_connected last_seen latency_ms version.
Arguments peer_id {Id Addr} p. Arguments address {Id Addr} p.
Arguments is_connected {Id Addr} p. Arguments last_seen {Id Addr} p.
Arguments latency_ms {Id Addr} p. Arguments version {Id Addr} p.

(** ** The routing table *)

Section RoutingTable.
Context {Addr : Type}.
#[local] Abbreviation Peer := (PeerInfo NodeId Addr).

(** [BTreeMap<NodeId, PeerInfo>]: the entries in the order of their keys. *)
#[local] Abbreviation Bucket := (list (NodeId * Peer)).

Fixpoint btree_insert (k : NodeId) (v : Peer) (m : Bucket) : Bucket :=
  match m with
  | [] => [(k, v)]
  | (k', v') :: m' =>
      match bytes_cmp k k' with
      | Lt => (k, v) :: m
      | Eq => (k', v) :: m'
      | Gt => (k', v') :: btree_insert k v m'
      end
  end.

Record KademliaRoutingTable : Type := mkTable {
  local_id : NodeId;
  buckets : list Bucket }.

Definition new (local : NodeId) : KademliaRoutingTable := mkTable local (replicate 256 []).

Definition xor_distance (id1 id2 : NodeId) : NodeId := zip_with Z.lxor id1 id2.

(** The loop of [bucket_index], from position [i]; [(d as f32).log2() as usize]
    is the position of the highest bit of the byte. *)
Fixpoint first_nonzero (i : Z) (distance : NodeId) : Z :=
  match distance with
  | [] => 255
  | d :: rest => if d =? 0 then first_nonzero (i + 1) rest else i * 8 + (7 - Z.log2 d)
  end.
Definition bucket_index (local id : NodeId) : Z := first_nonzero 0 (xor_distance local id).

(** [None]: indexing [buckets] out of bounds panics. *)
Definition update (peer : Peer) (t : KademliaRoutingTable) : option KademliaRoutingTable :=
  let index := Z.to_nat (bucket_index (local_id t) (peer_id peer)) in
  match buckets t !! index with
  | None => None
  | Some bucket =>
      if (length bucket <? 20)%nat
      then Some (mkTable (local_id t) (<[index := btree_insert (peer_id peer) peer bucket]> (buckets t)))
      else Some t
  end.

Definition all_peers (t : KademliaRoutingTable) : list Peer := concat (map (map snd) (buckets t)).

Definition closer_or_equal (target : NodeId) (a b : Peer) : bool :=
  match bytes_cmp (xor_distance (peer_id a) target) (xor_distance (peer_id b) target) with
  | Gt => false
  | _ => true
  end.

Definition find_closest (target : NodeId) (k : nat) (t : KademliaRoutingTable) : list Peer :=
  take k (sort_by (closer_or_equal target) (all_peers t)).

(** ** Distances are exclusive ors of 256-bit numbers *)

Definition distance_of (a b : NodeId) : Z := Z.lxor (be_value a) (be_value b).

Lemma lxor_byte a b : 0 <= a < 256 -> 0 <= b < 256 -> 0 <= Z.lxor a b < 256.
Proof.
  intros Ha Hb. pose proof (split_lxor 8 0 0 a b). split; [apply Z.lxor_nonneg; lia|].
  destruct (decide (Z.lxor a b = 0)) as [->|]; [lia|].
  apply (Z.log2_lt_pow2 _ 8); [assert (0 <= Z.lxor a b) by (apply Z.lxor_nonneg; lia); lia|].
  pose proof (Z.log2_lxor a b ltac:(lia) ltac:(lia)).
  pose proof (Z.log2_le_mono a 255 ltac:(lia)). pose proof (Z.log2_le_mono b 255 ltac:(lia)).
  change (Z.log2 255) with 7 in *. lia.
Qed.

Lemma xor_distance_ok a b :
  length a = length b -> bytes_ok a = true -> bytes_ok b = true ->
  length (xor_distance a b) = length b /\ bytes_ok (xor_distance a b) = true /\
  be_value (xor_distance a b) = distance_of a b.
Proof.
  revert b. induction a as [|x a IH]; intros [|y b]; try done.
  rewrite !bytes_ok_cons. intros [= Hlen] [Hx Ha] [Hy Hb].
  destruct (IH b Hlen Ha Hb) as (IH1 & IH2 & IH3).
  cbn [xor_distance zip_with]. fold (xor_distance a b). rewrite bytes_ok_cons.
  pose proof (lxor_byte x y Hx Hy). split; [cbn; congruence|]. split; [done|].
  unfold distance_of in *. cbn [be_value]. rewrite IH1, IH3, Hlen.
  pose proof (be_value_bound a Ha) as Ba. rewrite Hlen in Ba.
  rewrite split_lxor; [done|lia|done|by apply be_value_bound].
Qed.

Lemma first_nonzero_log2 i d :
  bytes_ok d = true -> i = 32 - Z.of_nat (length d) ->
  first_nonzero i d = 255 - Z.log2 (be_value d).
Proof.
  revert i. induction d as [|x d IH]; intros i; [done|].
  rewrite bytes_ok_cons. intros [Hx Hd] ->. cbn [first_nonzero length be_value].
  destruct (x =? 0) eqn:E; bool_to_prop.
  - subst x. by rewrite IH by (done || lia).
  - rewrite log2_high; [lia|lia|lia|by apply be_value_bound].
Qed.

Lemma bucket_index_log2 local id :
  node_id_ok local -> node_id_ok id ->
  bucket_index local id = 255 - Z.log2 (distance_of local id).
Proof.
  intros [Hl1 Hl2] [Hi1 Hi2]. unfold bucket_index.
  destruct (xor_distance_ok local id) as (H1 & H2 & H3); [congruence|done..|].
  rewrite <- H3. apply first_nonzero_log2; [done|rewrite H1, Hi1; done].
Qed.

Lemma distance_bound a b :
  node_id_ok a -> node_id_ok b -> 0 <= distance_of a b < 2 ^ 256.
Proof.
  intros [Ha1 Ha2] [Hb1 Hb2].
  destruct (xor_distance_ok a b) as (H1 & H2 & H3); [congruence|done..|].
  rewrite <- H3. pose proof (be_value_bound _ H2) as Hb. by rewrite H1, Hb1 in Hb.
Qed.

Lemma bucket_index_bound local id :
  node_id_ok local -> node_id_ok id -> 0 <= bucket_index local id <= 255.
Proof.
  intros Hl Hi. rewrite bucket_index_log2 by done.
  pose proof (distance_bound local id Hl Hi). pose proof (Z.log2_nonneg (distance_of local id)).
  assert (Z.log2 (distance_of local id) <= Z.log2 (2 ^ 256 - 1)) as Hle
    by (apply Z.log2_le_mono; lia).
  change (Z.log2 (2 ^ 256 - 1)) with 255 in Hle. lia.
Qed.

Lemma distance_zero a b : node_id_ok a -> node_id_ok b -> distance_of a b = 0 -> a = b.
Proof.
  intros [Ha1 Ha2] [Hb1 Hb2] E. apply Z.lxor_eq in E. apply be_value_inj; congruence || done.
Qed.

(** Bit [i] of an id, from the most significant. *)
Definition id_bit (id : NodeId) (i : Z) : bool := Z.testbit (be_value id) (255 - i).

(** The bucket of an id is the length of the prefix it shares with the local
    id: all earlier bits agree and, unless the ids are equal, this bit does not. *)
Lemma bucket_index_prefix local id :
  node_id_ok local -> node_id_ok id ->
  (forall i, 0 <= i < bucket_index local id -> id_bit local i = id_bit id i) /\
  (local <> id -> id_bit local (bucket_index local id) <> id_bit id (bucket_index local id)).
Proof.
  intros Hl Hi. pose proof (bucket_index_bound local id Hl Hi) as Hb.
  rewrite bucket_index_log2 in * by done. unfold id_bit.
  pose proof (distance_bound local id Hl Hi). set (d := distance_of local id) in *.
  assert (forall j, Z.testbit d j = xorb (Z.testbit (be_value local) j) (Z.testbit (be_value id) j))
    as Hx by (intros; apply Z.lxor_spec).
  split.
  - intros i Hr. specialize (Hx (255 - i)). rewrite Z.bits_above_log2 in Hx by lia.
    by apply xorb_eq.
  - intros Hne. replace (255 - (255 - Z.log2 d)) with (Z.log2 d) by lia.
    specialize (Hx (Z.log2 d)). rewrite Z.bit_log2 in Hx.
    + intros Heq. rewrite Heq, xorb_nilpotent in Hx. done.
    + destruct (decide (d = 0)) as [E|]; [|lia]. by apply distance_zero in E.
Qed.

(** ** The table is well formed *)

Definition key_lt (x y : NodeId * Peer) : Prop := be_value x.1 < be_value y.1.

(** A bucket at [index]: at most 20 peers, under their own ids, in key order,
    each one in the bucket of its id. *)
Record bucket_ok (local : NodeId) (index : nat) (b : Bucket) : Prop := mkBucketOk {
  bo_len : (length b <= 20)%nat;
  bo_sorted : StronglySorted key_lt b;
  bo_keys : forall k p, (k, p) ∈ b ->
    node_id_ok k /\ peer_id p = k /\ bucket_index local k = Z.of_nat index }.

Record table_ok (t : KademliaRoutingTable) : Prop := mkTableOk {
  to_local : node_id_ok (local_id t);
  to_buckets : length (buckets t) = 256%nat;
  to_each : forall i b, buckets t !! i = Some b -> bucket_ok (local_id t) i b }.

Lemma bytes_cmp_ids a b :
  node_id_ok a -> node_id_ok b -> bytes_cmp a b = (be_value a ?= be_value b).
Proof. intros [? ?] [? ?]. apply bytes_cmp_value; congruence || done. Qed.

Lemma btree_insert_length k v m :
  (length (btree_insert k v m) <= S (length m))%nat.
Proof.
  induction m as [|[k' v'] m IH]; cbn; [lia|]. destruct (bytes_cmp k k'); cbn; lia.
Qed.

Lemma btree_insert_elem k v m x :
  x ∈ btree_insert k v m -> x = (k, v) \/ x ∈ m.
Proof.
  induction m as [|[k' v'] m IH]; cbn; [set_solver|].
  destruct (bytes_cmp k k') eqn:E; [apply bytes_cmp_eq in E; subst|..]; set_solver.
Qed.

Lemma btree_insert_keeps k v m x :
  x ∈ m -> x.1 <> k -> x ∈ btree_insert k v m.
Proof.
  induction m as [|[k' v'] m IH]; cbn; [set_solver|]. intros Hx Hk.
  destruct (bytes_cmp k k') eqn:E; [|set_solver..].
  apply bytes_cmp_eq in E as ->. apply elem_of_cons in Hx as [->|Hx]; [done|set_solver].
Qed.

Lemma btree_insert_has k v m : (k, v) ∈ btree_insert k v m.
Proof.
  induction m as [|[k' v'] m IH]; cbn; [set_solver|].
  destruct (bytes_cmp k k') eqn:E; [apply bytes_cmp_eq in E as ->|..]; set_solver.
Qed.

Lemma btree_insert_sorted k v m :
  node_id_ok k -> (forall x, x ∈ m -> node_id_ok x.1) ->
  StronglySorted key_lt m -> StronglySorted key_lt (btree_insert k v m).
Proof.
  intros Hk Hm Hs. induction Hs as [|[k' v'] m Hs IH Hlt]; cbn; [repeat constructor|].
  assert (node_id_ok k') as Hk' by (apply (Hm (k', v')); set_solver).
  pose proof (bytes_cmp_ids k k' Hk Hk') as Hc. rewrite Forall_forall in Hlt.
  destruct (bytes_cmp k k') eqn:E; symmetry in Hc.
  - constructor; [done|]. by apply Forall_forall.
  - apply Z.compare_lt_iff in Hc. constructor; [by constructor; [done|apply Forall_forall]|].
    apply Forall_forall. intros x Hx. apply elem_of_cons in Hx as [->|Hx]; [done|].
    eapply Z.lt_trans; [exact Hc|exact (Hlt x Hx)].
  - apply Z.compare_gt_iff in Hc. constructor; [apply IH; set_solver|].
    apply Forall_forall. intros x Hx. apply btree_insert_elem in Hx as [->|Hx]; [done|by apply Hlt].
Qed.

Lemma btree_insert_ok local i k v b :
  node_id_ok k -> peer_id v = k -> bucket_index local k = Z.of_nat i -> (length b < 20)%nat ->
  bucket_ok local i b -> bucket_ok local i (btree_insert k v b).
Proof.
  intros Hk Hv Hi Hlen [H1 H2 H3]. split.
  - pose proof (btree_insert_length k v b). lia.
  - apply btree_insert_sorted; [done| |done]. intros [k' p] Hx. by apply (H3 k' p).
  - intros k' p Hx. apply btree_insert_elem in Hx as [[= -> ->]|Hx]; [done|by apply H3].
Qed.

Lemma new_ok local : node_id_ok local -> table_ok (new local).
Proof.
  intros Hl. split; [done|by cbn [buckets new]; rewrite length_replicate|].
  intros i b Hb. cbn [buckets new] in Hb. apply lookup_replicate in Hb as [-> _].
  split; [cbn; lia|constructor|set_solver].
Qed.

(** What [update] does: it never panics, and it replaces one bucket or nothing. *)
Lemma update_cases peer t :
  table_ok t -> node_id_ok (peer_id peer) ->
  exists i bucket, bucket_index (local_id t) (peer_id peer) = Z.of_nat i /\
    buckets t !! i = Some bucket /\
    update peer t =
      Some (if (length bucket <? 20)%nat
            then mkTable (local_id t) (<[i := btree_insert (peer_id peer) peer bucket]> (buckets t))
            else t).
Proof.
  intros [Hl Hb _] Hp. pose proof (bucket_index_bound _ _ Hl Hp) as Hi.
  set (i := Z.to_nat (bucket_index (local_id t) (peer_id peer))).
  destruct (lookup_lt_is_Some_2 (buckets t) i) as [bucket E]; [rewrite Hb; lia|].
  exists i, bucket. split_and!; [lia|done|]. unfold update. cbv zeta. fold i. rewrite E.
  by destruct (_ <? _)%nat.
Qed.

Lemma update_ok peer t t' :
  table_ok t -> node_id_ok (peer_id peer) -> update peer t = Some t' -> table_ok t'.
Proof.
  intros Ht Hp. destruct (update_cases peer t Ht Hp) as (i & bucket & Hi & Hb & ->). intros [= <-].
  destruct (_ <? _)%nat eqn:E; [|done]. apply Nat.ltb_lt in E. destruct Ht as [Hl Hlen Hall].
  split; cbn; [done|by rewrite length_insert|]. intros j b Hj.
  destruct (decide (j = i)) as [->|Hne].
  - rewrite list_lookup_insert_eq in Hj by (eapply lookup_lt_Some; eauto).
    injection Hj as <-. apply btree_insert_ok; auto.
  - rewrite list_lookup_insert_ne in Hj by done. by apply Hall.
Qed.

(** Tables in use: a new table and the updates it has received, oldest first. *)
Inductive table_after (local : NodeId) : list Peer -> KademliaRoutingTable -> Prop :=
| TableNew : table_after local [] (new local)
| TableUpdate ps t p t' :
    table_after local ps t -> node_id_ok (peer_id p) -> update p t = Some t' ->
    table_after local (ps ++ [p]) t'.

Lemma table_after_ok local ps t :
  node_id_ok local -> table_after local ps t -> table_ok t /\ local_id t = local.
Proof.
  intros Hl. induction 1 as [|ps t p t' Ht [IH IH'] Hp Hu]; [split; [by apply new_ok|done]|].
  split; [by eapply update_ok|]. destruct (update_cases p t IH Hp) as (i & b & _ & _ & E).
  rewrite E in Hu. injection Hu as <-. by destruct (_ <? _)%nat.
Qed.

(** ** The peers of a table *)

Lemma all_peers_elem t p :
  p ∈ all_peers t <-> exists i b k, buckets t !! i = Some b /\ (k, p) ∈ b.
Proof.
  unfold all_peers. rewrite list_elem_of_In, in_concat. split.
  - intros (l & Hl & Hp). apply list_elem_of_In, list_elem_of_fmap in Hl as (b & -> & Hb).
    apply list_elem_of_In, list_elem_of_fmap in Hp as ([k q] & -> & Hq).
    apply list_elem_of_lookup in Hb as [i Hi]. eauto.
  - intros (i & b & k & Hb & Hp). exists (map snd b). split.
    + apply list_elem_of_In, list_elem_of_fmap. exists b. split; [done|]. by eapply list_elem_of_lookup_2.
    + apply list_elem_of_In, list_elem_of_fmap. by exists (k, p).
Qed.

Lemma bucket_ids local i b : bucket_ok local i b -> NoDup (map peer_id (map snd b)).
Proof.
  intros [_ Hs Hk]. induction Hs as [|[k p] b Hs IH Hlt]; cbn; [constructor|]. constructor.
  - intros Hin. apply list_elem_of_fmap in Hin as (q & Hq & Hin).
    apply list_elem_of_fmap in Hin as ([k' q'] & -> & Hin). cbn in Hq.
    rewrite Forall_forall in Hlt. specialize (Hlt _ Hin). unfold key_lt in Hlt; cbn in Hlt.
    destruct (Hk k p) as (_ & <- & _); [set_solver|]. destruct (Hk k' q') as (_ & <- & _); [set_solver|].
    rewrite Hq in Hlt. lia.
  - apply IH. intros k' q Hq. apply Hk. set_solver.
Qed.

Lemma buckets_ids local n l :
  (forall i b, l !! i = Some b -> bucket_ok local (n + i) b) ->
  NoDup (map peer_id (concat (map (map snd) l))).
Proof.
  revert n. induction l as [|b l IH]; intros n Hl; cbn; [constructor|].
  rewrite map_app. apply NoDup_app. split_and!.
  - apply (bucket_ids local (n + 0) b). by apply (Hl 0%nat b).
  - intros id Hin Hin'. apply list_elem_of_fmap in Hin as (p & -> & Hp).
    apply list_elem_of_fmap in Hp as ([k p'] & -> & Hp). cbn in Hin'.
    apply list_elem_of_fmap in Hin' as (q & Heq & Hq).
    apply (all_peers_elem (mkTable local l)) in Hq as (j & b' & k' & Hj & Hq).
    destruct (bo_keys _ _ _ (Hl 0%nat b eq_refl) _ _ Hp) as (_ & E1 & E2).
    destruct (bo_keys _ _ _ (Hl (S j) b' Hj) _ _ Hq) as (_ & E3 & E4).
    subst k k'. rewrite Heq in E2. rewrite E2 in E4. lia.
  - apply (IH (S n)). intros i b' Hb. specialize (Hl (S i) b' Hb).
    by replace (S n + i)%nat with (n + S i)%nat by lia.
Qed.

Lemma all_peers_ids t : table_ok t -> NoDup (map peer_id (all_peers t)).
Proof. intros [_ _ Ht]. by apply (buckets_ids (local_id t) 0). Qed.

Lemma all_peers_id_ok t p : table_ok t -> p ∈ all_peers t -> node_id_ok (peer_id p).
Proof.
  intros [_ _ Ht] Hp. apply all_peers_elem in Hp as (i & b & k & Hb & Hp).
  by destruct (bo_keys _ _ _ (Ht i b Hb) _ _ Hp) as (? & -> & _).
Qed.

(** The comparison of [find_closest] is the order of the distances. *)
Lemma closer_spec target a b :
  node_id_ok target -> node_id_ok (peer_id a) -> node_id_ok (peer_id b) ->
  closer_or_equal target a b =
    (distance_of (peer_id a) target <=? distance_of (peer_id b) target).
Proof.
  intros [Ht1 Ht2] [Ha1 Ha2] [Hb1 Hb2]. unfold closer_or_equal.
  destruct (xor_distance_ok (peer_id a) target) as (La & Oa & Va); [congruence|done..|].
  destruct (xor_distance_ok (peer_id b) target) as (Lb & Ob & Vb); [congruence|done..|].
  rewrite bytes_cmp_value, Va, Vb by congruence. unfold Z.leb. by case_match.
Qed.

Lemma distance_inj target a b :
  node_id_ok a -> node_id_ok b -> distance_of a target = distance_of b target -> a = b.
Proof.
  intros Ha Hb E. apply distance_zero; [done..|]. unfold distance_of in *.
  apply (f_equal (fun d => Z.lxor d (be_value target))) in E.
  rewrite !Z.lxor_assoc, Z.lxor_nilpotent, !Z.lxor_0_r in E. rewrite E. apply Z.lxor_nilpotent.
Qed.

Lemma closer_total target a b :
  closer_or_equal target a b = true \/ closer_or_equal target b a = true.
Proof.
  unfold closer_or_equal. rewrite (bytes_cmp_opp (xor_distance (peer_id b) target)).
  destruct (bytes_cmp _ _); auto.
Qed.

Lemma closer_trans target a b c :
  closer_or_equal target a b = true -> closer_or_equal target b c = true ->
  closer_or_equal target a c = true.
Proof.
  unfold closer_or_equal. intros Hab Hbc.
  pose proof (bytes_cmp_trans (xor_distance (peer_id a) target) (xor_distance (peer_id b) target)
    (xor_distance (peer_id c) target)) as Ht.
  repeat case_match; try done; exfalso; by apply Ht.
Qed.

Lemma sorted_strict target l :
  node_id_ok target -> (forall p, p ∈ l -> node_id_ok (peer_id p)) -> NoDup (map peer_id l) ->
  StronglySorted (leb_rel (closer_or_equal target)) l ->
  StronglySorted (fun a b => distance_of (peer_id a) target < distance_of (peer_id b) target) l.
Proof.
  intros Ht Hl Hnd Hs. induction Hs as [|p l Hs IH Hp]; constructor.
  - apply IH; [set_solver|by inversion Hnd].
  - rewrite Forall_forall in Hp |- *. intros q Hq. specialize (Hp q Hq).
    assert (node_id_ok (peer_id p)) as Op by set_solver.
    assert (node_id_ok (peer_id q)) as Oq by set_solver.
    unfold leb_rel in Hp. rewrite closer_spec in Hp by done. bool_to_prop.
    destruct (decide (distance_of (peer_id p) target = distance_of (peer_id q) target)) as [E|]; [|lia].
    apply distance_inj in E; [|done..]. inversion Hnd as [|? ? Hn]; subst. destruct Hn.
    rewrite E. by apply list_elem_of_fmap_2.
Qed.

Lemma sorted_peers target t :
  node_id_ok target -> table_ok t ->
  StronglySorted (fun a b => distance_of (peer_id a) target < distance_of (peer_id b) target)
    (sort_by (closer_or_equal target) (all_peers t)).
Proof.
  intros Ht Hok. pose proof (sort_by_perm (closer_or_equal target) (all_peers t)) as Hp.
  apply sorted_strict; [done| | |].
  - intros p Hin. rewrite Hp in Hin. by eapply all_peers_id_ok.
  - change (NoDup (peer_id <$> sort_by (closer_or_equal target) (all_peers t))).
    rewrite Hp. by apply all_peers_ids.
  - apply sort_by_sorted; [apply closer_total|apply closer_trans].
Qed.

(** ** What a table holds after a sequence of updates *)

(** The bucket an id belongs to is full. *)
Definition bucket_full (t : KademliaRoutingTable) (id : NodeId) : Prop :=
  exists b, buckets t !! Z.to_nat (bucket_index (local_id t) id) = Some b /\ length b = 20%nat.

Definition known (t : KademliaRoutingTable) (id : NodeId) : Prop :=
  exists p, p ∈ all_peers t /\ peer_id p = id.

Lemma update_elem p t t' q :
  table_ok t -> node_id_ok (peer_id p) -> update p t = Some t' ->
  q ∈ all_peers t' -> q = p \/ q ∈ all_peers t.
Proof.
  intros Ht Hp. destruct (update_cases p t Ht Hp) as (i & b & Hi & Hb & ->). intros [= <-].
  destruct (_ <? _)%nat; [|auto]. rewrite !all_peers_elem. intros (j & b' & k & Hj & Hq).
  cbn in Hj. apply list_lookup_insert_Some in Hj as [(<- & <- & _)|[_ Hj]]; [|eauto 10].
  apply btree_insert_elem in Hq as [[= _ ->]|Hq]; eauto 10.
Qed.

Lemma update_known p t t' id :
  table_ok t -> node_id_ok (peer_id p) -> update p t = Some t' ->
  known t id -> known t' id.
Proof.
  intros Ht Hp. destruct (update_cases p t Ht Hp) as (i & b & Hi & Hb & ->). intros [= <-].
  destruct (_ <? _)%nat; [|done]. intros (q & Hq & <-). apply all_peers_elem in Hq as (j & b' & k & Hj & Hq).
  pose proof (bo_keys _ _ _ (to_each _ Ht _ _ Hj) _ _ Hq) as (_ & Hk & _). subst k. unfold known.
  destruct (decide (peer_id q = peer_id p)) as [E|Hne].
  - exists p. split; [|done]. apply all_peers_elem. eexists i, _, (peer_id p). split; cbn.
    + apply list_lookup_insert_eq. by eapply lookup_lt_Some.
    + apply btree_insert_has.
  - exists q. split; [|done]. apply all_peers_elem. cbn. destruct (decide (j = i)) as [->|Hj'].
    + rewrite Hb in Hj. injection Hj as ->. eexists i, _, (peer_id q).
      split; [apply list_lookup_insert_eq; by eapply lookup_lt_Some|]. by apply btree_insert_keeps.
    + exists j, b', (peer_id q). by rewrite list_lookup_insert_ne by done.
Qed.

Lemma btree_insert_grows k v m : (length m <= length (btree_insert k v m))%nat.
Proof. induction m as [|[k' v'] m IH]; cbn; [lia|]. destruct (bytes_cmp k k'); cbn; lia. Qed.

Lemma update_full p t t' id :
  table_ok t -> node_id_ok (peer_id p) -> update p t = Some t' ->
  bucket_full t id -> bucket_full t' id.
Proof.
  intros Ht Hp Hu (b & Hb & Hlen). pose proof (update_cases p t Ht Hp) as (i & b' & Hi & Hb' & E).
  rewrite E in Hu. injection Hu as <-. destruct (_ <? _)%nat eqn:L; [|by exists b].
  apply Nat.ltb_lt in L. exists b. split; [|done]. cbn [buckets local_id].
  rewrite list_lookup_insert_ne; [done|].
  intros ->. rewrite Hb' in Hb. injection Hb as ->. lia.
Qed.

Lemma update_adds p t t' :
  table_ok t -> node_id_ok (peer_id p) -> update p t = Some t' ->
  p ∈ all_peers t' \/ t' = t /\ bucket_full t (peer_id p).
Proof.
  intros Ht Hp. destruct (update_cases p t Ht Hp) as (i & b & Hi & Hb & ->). intros [= <-].
  destruct (_ <? _)%nat eqn:L.
  - left. apply all_peers_elem. eexists i, _, (peer_id p). split; [|apply btree_insert_has].
    cbn. apply list_lookup_insert_eq. by eapply lookup_lt_Some.
  - right. split; [done|]. exists b. rewrite Hi, Nat2Z.id. split; [done|].
    apply Nat.ltb_ge in L. pose proof (bo_len _ _ _ (to_each _ Ht _ _ Hb)). lia.
Qed.

Lemma table_after_contents local ps t :
  node_id_ok local -> table_after local ps t ->
  (forall q, q ∈ all_peers t -> q ∈ ps) /\
  (forall p, p ∈ ps -> known t (peer_id p) \/ bucket_full t (peer_id p)).
Proof.
  intros Hl. induction 1 as [|ps t p t' Ht [IH1 IH2] Hp Hu].
  - split; [|set_solver]. intros q Hq. apply all_peers_elem in Hq as (i & b & k & Hb & Hq).
    cbn [buckets new] in Hb. apply lookup_replicate in Hb as [-> _]. set_solver.
  - destruct (table_after_ok _ _ _ Hl Ht) as [Hok _]. split.
    + intros q Hq. destruct (update_elem p t t' q Hok Hp Hu Hq) as [->|Hq']; set_solver.
    + intros q Hq. apply elem_of_app in Hq as [Hq|Hq].
      * destruct (IH2 q Hq); [left; by eapply update_known|right; by eapply update_full].
      * apply list_elem_of_singleton in Hq as ->.
        destruct (update_adds p t t' Hok Hp Hu) as [Hin|[-> Hf]]; [left; by exists p|by right].
Qed.
End RoutingTable.

#[global] Arguments KademliaRoutingTable Addr : clear implicits.

(** ** The peer manager *)

(** [NetworkError::P2P], which error.rs does not declare. *)
Inductive P2PError : Type := P2P (s : string).

Section Manager.
Context {Addr : Type}.
#[local] Abbreviation Peer := (PeerInfo string Addr).

Record P2PManager : Type := mkManager {
  routing_table : KademliaRoutingTable Addr;
  manager_id : NodeId;
  connected_peers : gmap string Peer }.

Definition new_manager (local : NodeId) : P2PManager := mkManager (new local) local ∅.

Definition set_connected (m : gmap string Peer) (s : P2PManager) : P2PManager :=
  mkManager (routing_table s) (manager_id s) m.

Definition bootstrap (seed_address : Addr) (s : P2PManager) : result P2PError unit * P2PManager :=
  (Ok tt, s).
Definition handle_ping (from : Peer) (s : P2PManager) : result P2PError unit * P2PManager :=
  (Ok tt, s).

(** [r] is the random number of the session id. *)
Definition connect_to_peer (now r : Z) (addr : Addr) (id : string) (s : P2PManager)
    : result P2PError string * P2PManager :=
  (Ok ("session_" +:+ pretty r),
   set_connected (<[id := mkPeer id addr true now 50 "1.0.0"]> (connected_peers s)) s).

Definition disconnect_from_peer (id : string) (s : P2PManager) : result P2PError unit * P2PManager :=
  match connected_peers s !! id with
  | Some _ => (Ok tt, set_connected (delete id (connected_peers s)) s)
  | None => (Err (P2P "Peer not connected"), s)
  end.

(** [order] is the order in which the map is iterated. *)
Definition get_peer_list (order : list string) (s : P2PManager) : list Peer :=
  omap (fun id => connected_peers s !! id) order.

Definition get_connected_peers_count (s : P2PManager) : Z := Z.of_nat (size (connected_peers s)).

Fixpoint count_targets (connected : gmap string Peer) (targets : list string) : Z * list string :=
  match targets with
  | [] => (0, [])
  | id :: rest =>
      let '(n, failed) := count_targets connected rest in
      if decide (is_Some (connected !! id)) then (n + 1, failed) else (n, id :: failed)
  end.

Definition broadcast_message (message_type : Z) (payload : list Z) (target_peers : list string)
    (ttl : Z) (s : P2PManager) : result P2PError (Z * list string) :=
  match target_peers with
  | [] => Ok (Z.of_nat (size (connected_peers s)), [])
  | _ => Ok (count_targets (connected_peers s) target_peers)
  end.

Lemma count_targets_spec m targets :
  count_targets m targets =
    (Z.of_nat (length (filter (fun id => is_Some (m !! id)) targets)),
     filter (fun id => ~ is_Some (m !! id)) targets).
Proof.
  induction targets as [|id rest IH]; [done|]. cbn [count_targets]. rewrite IH, !filter_cons.
  destruct (decide (is_Some (m !! id))) as [H|H].
  - rewrite decide_False by tauto. cbn. f_equal. lia.
  - by rewrite decide_True by done.
Qed.

(** ** Sessions: the peers that connected and disconnected *)

Inductive PeerCommand : Type :=
| Connect (now r : Z) (addr : Addr) (id : string)
| Disconnect (id : string).

Definition run_command (s : P2PManager) (c : PeerCommand) : P2PManager :=
  match c with
  | Connect now r addr id => snd (connect_to_peer now r addr id s)
  | Disconnect id => snd (disconnect_from_peer id s)
  end.

(** The specification: a peer is connected when the last command about it
    connected it, with the data of that command. *)
Fixpoint last_connection (cs : list PeerCommand) (id : string) (acc : option Peer) : option Peer :=
  match cs with
  | [] => acc
  | Connect now _ addr id' :: rest =>
      last_connection rest id (if decide (id' = id) then Some (mkPeer id addr true now 50 "1.0.0") else acc)
  | Disconnect id' :: rest => last_connection rest id (if decide (id' = id) then None else acc)
  end.

Lemma run_commands_lookup cs s id :
  connected_peers (foldl run_command s cs) !! id = last_connection cs id (connected_peers s !! id).
Proof.
  revert s. induction cs as [|[now r addr id'|id'] cs IH]; intros s; cbn; [done|..]; rewrite IH; f_equal.
  - unfold set_connected; cbn. case_decide as E; [subst|]; [apply lookup_insert_eq|by apply lookup_insert_ne].
  - unfold disconnect_from_peer. destruct (connected_peers s !! id') eqn:L; cbn; case_decide as E; subst.
    + apply lookup_delete_eq.
    + by apply lookup_delete_ne.
    + done.
    + done.
Qed.
End Manager.
#[global] Arguments P2PManager Addr : clear implicits.

(** ** Theorems *)

(** The bucket [bucket_index] chooses for an id is the number of leading bits
    the id shares with the local id, computed as 255 minus the logarithm of the
    256-bit XOR distance: it is between 0 and 255, every bit before it agrees,
    and the bit at it differs unless the ids are equal. *)
Theorem bucket_is_prefix_length (local id : NodeId) :
  node_id_ok local -> node_id_ok id ->
  bucket_index local id = 255 - Z.log2 (Z.lxor (be_value local) (be_value id)) /\
  0 <= bucket_index local id <= 255 /\
  (forall i, 0 <= i < bucket_index local id -> id_bit local i = id_bit id i) /\
  (local <> id -> id_bit local (bucket_index local id) <> id_bit id (bucket_index local id)).
Proof.
  intros Hl Hi. split; [by apply bucket_index_log2|]. split; [by apply bucket_index_bound|].
  by apply bucket_index_prefix.
Qed.

(** C38. A routing table never panics and stays well formed: after any sequence of
    updates from an empty table every further update returns, there are 256
    buckets of at most 20 peers in key order, each peer under its own id in the
    bucket of its id and in no other place; every peer held was announced, and
    every announced id is held unless its bucket is full, in which case updates
    change nothing, also those of a peer the bucket holds. *)
Theorem routing_table_sound {Addr : Type} (local : NodeId) (ps : list (PeerInfo NodeId Addr)) t :
  node_id_ok local -> table_after local ps t ->
  table_ok t /\ local_id t = local /\ NoDup (map peer_id (all_peers t)) /\
  (forall p, node_id_ok (peer_id p) -> is_Some (update p t)) /\
  (forall p, bucket_full t (peer_id p) -> update p t = Some t) /\
  (forall q, q ∈ all_peers t -> q ∈ ps) /\
  (forall p, p ∈ ps -> known t (peer_id p) \/ bucket_full t (peer_id p)).
Proof.
  intros Hl Ht. destruct (table_after_ok _ _ _ Hl Ht) as [Hok Hlocal].
  destruct (table_after_contents _ _ _ Hl Ht). split_and!; try done; [by apply all_peers_ids|..].
  - intros p Hp. destruct (update_cases p t Hok Hp) as (i & b & _ & _ & ->). eauto.
  - intros p (b & Hb & Hlen). unfold update. by rewrite Hb, Hlen.
Qed.

(** C39. [find_closest] returns the [k] peers of the table nearest to the target in
    the XOR metric on 256-bit numbers, nearest first, or all of them when there
    are fewer: each one is strictly closer than every peer left out. *)
Theorem find_closest_nearest {Addr : Type} (local target : NodeId) (k : nat)
    (ps : list (PeerInfo NodeId Addr)) t :
  node_id_ok local -> node_id_ok target -> table_after local ps t ->
  exists rest,
    find_closest target k t ++ rest ≡ₚ all_peers t /\
    length (find_closest target k t) = (k `min` length (all_peers t))%nat /\
    StronglySorted (fun a b => distance_of (peer_id a) target < distance_of (peer_id b) target)
      (find_closest target k t) /\
    (forall p q, p ∈ find_closest target k t -> q ∈ rest ->
       distance_of (peer_id p) target < distance_of (peer_id q) target).
Proof.
  intros Hl Ht Hr. destruct (table_after_ok _ _ _ Hl Hr) as [Hok _].
  pose proof (sort_by_perm (closer_or_equal target) (all_peers t)) as Hp.
  pose proof (sorted_peers target t Ht Hok) as Hs. unfold find_closest.
  exists (drop k (sort_by (closer_or_equal target) (all_peers t))). split_and!.
  - by rewrite take_drop.
  - by rewrite length_take, Hp.
  - rewrite <- (take_drop k (sort_by _ _)) in Hs. by apply StronglySorted_app in Hs as (_ & ? & _).
  - intros p q. by apply (sorted_take_drop _ _ k p q Hs).
Qed.

(** Whatever peers connected and disconnected before, a broadcast to named
    peers counts as recipients exactly those whose last command was a connection
    and returns the others as failed, in the order and multiplicity of the
    request; with no names it reaches every connected peer, and disconnecting
    fails exactly for a peer that is not connected. *)
Theorem broadcast_reaches_connected {Addr : Type} (local : NodeId)
    (cs : list (PeerCommand (Addr := Addr))) (mt : Z) (payload : list Z) (targets : list string) (ttl : Z) :
  let s := foldl run_command (new_manager local) cs in
  let connected id := is_Some (last_connection cs id None) in
  (forall id, connected_peers s !! id = last_connection cs id None) /\
  (exists n failed, broadcast_message mt payload targets ttl s = Ok (n, failed) /\
     (targets = [] -> n = get_connected_peers_count s /\ failed = []) /\
     (targets <> [] -> failed = filter (fun id => ~ is_Some (connected_peers s !! id)) targets /\
        n + Z.of_nat (length failed) = Z.of_nat (length targets))) /\
  (forall id, fst (disconnect_from_peer id s) = Ok tt <-> connected id).
Proof.
  cbv zeta. set (s := foldl _ _ _).
  assert (forall id, connected_peers s !! id = last_connection cs id None) as Hs.
  { intros id. unfold s. by rewrite run_commands_lookup. }
  split; [done|]. split.
  - destruct targets as [|x l]; [do 2 eexists; split; [reflexivity|]; naive_solver|].
    exists (count_targets (connected_peers s) (x :: l)).1, (count_targets (connected_peers s) (x :: l)).2.
    split; [by cbn [broadcast_message]; rewrite <- surjective_pairing|].
    rewrite count_targets_spec. cbn [fst snd]. split; [done|]. intros _. split; [done|].
    rewrite <- Nat2Z.inj_add. f_equal. apply filter_partition_length.
  - intros id. unfold disconnect_from_peer. rewrite Hs.
    destruct (last_connection cs id None); cbn; split; naive_solver.
Qed.

(** *** Witnesses *)

Definition id_of (b : Z) : NodeId := replicate 31 0 ++ [b].
Definition peer_of (b : Z) : PeerInfo NodeId unit := mkPeer (id_of b) tt true 0 50 "1.0.0".

Lemma bucket_is_prefix_length_witness :
  bucket_index (id_of 5) (id_of 21) = 251 /\ id_bit (id_of 5) 250 = id_bit (id_of 21) 250 /\
  id_bit (id_of 5) 251 <> id_bit (id_of 21) 251.
Proof.
  assert (node_id_ok (id_of 5)) as H1 by (split; reflexivity).
  assert (node_id_ok (id_of 21)) as H2 by (split; reflexivity).
  destruct (bucket_is_prefix_length (id_of 5) (id_of 21) H1 H2) as (E & _ & Hp & Hd).
  assert (bucket_index (id_of 5) (id_of 21) = 251) as Ei by (rewrite E; vm_compute; reflexivity).
  rewrite Ei in Hp, Hd. split; [exact Ei|]. split; [apply Hp; lia|apply Hd; discriminate].
Defined.

Lemma three_peers : exists t, table_after (id_of 0) [peer_of 9; peer_of 1; peer_of 3] t /\
  update (peer_of 3) t = Some t.
Proof.
  eexists. split.
  - eapply (TableUpdate _ [peer_of 9; peer_of 1]); [|by split|].
    + eapply (TableUpdate _ [peer_of 9]); [|by split|].
      * eapply (TableUpdate _ []); [constructor|by split|]. vm_compute. reflexivity.
      * vm_compute. reflexivity.
    + vm_compute. reflexivity.
  - vm_compute. reflexivity.
Qed.

Lemma routing_table_sound_witness :
  exists t : KademliaRoutingTable unit, table_after (id_of 0) [peer_of 9; peer_of 1; peer_of 3] t /\
    table_ok t /\ NoDup (map peer_id (all_peers t)).
Proof.
  destruct three_peers as (t & Ht & _). exists t. split; [exact Ht|].
  destruct (routing_table_sound (id_of 0) _ t ltac:(split; reflexivity) Ht) as (H1 & _ & H2 & _).
  split; assumption.
Defined.

Lemma find_closest_nearest_witness :
  exists t : KademliaRoutingTable unit, table_after (id_of 0) [peer_of 9; peer_of 1; peer_of 3] t /\
    length (find_closest (id_of 2) 2 t) = (2 `min` length (all_peers t))%nat.
Proof.
  destruct three_peers as (t & Ht & _). exists t. split; [exact Ht|].
  destruct (find_closest_nearest (id_of 0) (id_of 2) 2 _ t ltac:(split; reflexivity)
    ltac:(split; reflexivity) Ht) as (rest & _ & H & _). exact H.
Defined.
