(* ===== verification/NetworkService.v ===== *)
(** network-node/src/grpc/network_service.rs: the handlers of NetworkService.

    The messages are those of proto/network.proto; the texts are lists of
    scalar values as in the registry.  A handler reads the clock
    ([SystemTime::now().duration_since(UNIX_EPOCH)], seconds and nanoseconds, or
    the text of the error) and random numbers, which are arguments.  A
    floating-point constant is kept as written: digits and decimals.  The
    connection pool and the state trie, which no handler reads, are left out. *)
From stdpp Require Import base gmap list strings pretty.
From S2P Require Import Prelude ChainParams P2P.

(** ** Statuses and messages *)

Inductive Code : Type := InvalidArgument | NotFoundCode | PermissionDeniedCode | Internal.
Record Status : Type := mkStatus { code : Code; message : Str }.

Definition Clock : Type := result Str (Z * Z).
Record Timestamp : Type := mkTimestamp { seconds : Z; nanos : Z }.

Definition decimal (z : Z) : Str := lit (pretty z).

Definition map_status {E A} (f : E -> Status) (x : result E A) : result Status A :=
  match x with Ok a => Ok a | Err y => Err (f y) end.

(** [Status::internal(format!("Timestamp error: {}", e))] on a clock before the
    epoch, else the prost timestamp. *)
Definition timestamp_now (now : Clock) : result Status Timestamp :=
  let? d := map_status (fun e => mkStatus Internal (lit "Timestamp error: " ++ e)) now in
  Ok (mkTimestamp (as_i64 d.1) d.2).

Inductive TransactionType : Type :=
| TxUnspecified | TxDeposit | TxWithdraw | TxDistribution | TxClaim | TxParameterUpgrade.
Inductive TransactionStatus : Type := StUnspecified | StPending | StConfirmed | StFailed.

Record DepositRequest : Type := mkDepositRequest {
  dr_user_address : Str; dr_token_address : Str; dr_amount : Str;
  dr_signature : list Z; dr_nonce : Z; dr_timestamp : option Timestamp }.
Record WithdrawRequest : Type := mkWithdrawRequest {
  wr_user_address : Str; wr_token_address : Str; wr_amount : Str;
  wr_signature : list Z; wr_nonce : Z; wr_timestamp : option Timestamp }.
Record DistributeRewardsRequest : Type := mkDistributeRequest {
  di_reward_token : Str; di_total_amount : Str;
  di_signature : list Z; di_nonce : Z; di_timestamp : option Timestamp }.
Record ClaimRewardsRequest : Type := mkClaimRequest {
  cr_user_address : Str; cr_signature : list Z; cr_nonce : Z; cr_timestamp : option Timestamp }.

Record TransactionResponse : Type := mkTxResponse {
  tr_success : bool; tr_transaction_hash : Str; tr_error_message : Str; tr_gas_used : Z;
  tr_timestamp : option Timestamp; tr_events : list (Str * Str) }.

Record BalanceResponse : Type := mkBalanceResponse {
  br_user_address : Str; br_token_address : Str; br_balance : Str;
  br_reward_index : Str; br_pending_rewards : Str }.
Record RewardsResponse : Type := mkRewardsResponse {
  rr_user_address : Str; rr_total_rewards : Str; rr_claimable_rewards : Str;
  rr_user_reward_index : Str; rr_global_reward_index : Str }.
Record ContractStateResponse : Type := mkContractState {
  cs_contract_address : Str; cs_total_deposits : Str; cs_reward_index : Str; cs_total_users : Z;
  cs_last_updated : option Timestamp; cs_custom_state : list (Str * Str) }.

(** A floating-point literal [digits / 10^decimals]. *)
Record Float : Type := mkFloat { digits : Z; decimals : Z }.
Record NetworkStatusResponse : Type := mkNetworkStatus {
  ns_is_healthy : bool; ns_block_height : Z; ns_connected_peers : Z; ns_network_hash_rate : Float;
  ns_last_block_time : option Timestamp; ns_network_version : Str }.
Record NodeInfoResponse : Type := mkNodeInfo {
  ni_node_id : Str; ni_address : Str; ni_version : Str; ni_is_syncing : bool; ni_sync_progress : Z;
  ni_uptime : option Timestamp; ni_metadata : list (Str * Str) }.

Record TransactionHistoryRequest : Type := mkHistoryRequest {
  th_user_address : Str; th_limit : option Z; th_offset : option Z; th_transaction_type : option Z }.
Record TransactionInfo : Type := mkTxInfo {
  ti_transaction_hash : Str; ti_transaction_type : TransactionType; ti_user_address : Str;
  ti_amount : Str; ti_token_address : Str; ti_status : TransactionStatus;
  ti_timestamp : option Timestamp; ti_block_number : Z; ti_gas_used : Z }.
Record TransactionHistoryResponse : Type := mkHistory {
  hr_transactions : list TransactionInfo; hr_total_count : Z; hr_has_more : bool }.

Record ParameterUpgradeRequest : Type := mkUpgradeRequest {
  pu_parameter_patch : option NetworkParametersPatch; pu_activation_epoch_height : Z;
  pu_proposer_address : Str; pu_proposer_signature : list Z; pu_nonce : Z;
  pu_timestamp : option Timestamp; pu_dao_voter_addresses : list Str }.
Record ChainParametersView : Type := mkView {
  cv_chain_id : Str; cv_current_block_height : Z; cv_active_parameters : option NetworkParameters;
  cv_min_activation_delay_blocks : Z; cv_genesis_parameters : option NetworkParameters }.
Record PendingParameterUpgrade : Type := mkPendingUpgrade {
  pp_transaction_id : Str; pp_announced_at_height : Z; pp_activation_epoch_height : Z;
  pp_patch : option NetworkParametersPatch }.
Record TVLResponse : Type := mkTvl {
  tv_total_value_locked : Str; tv_token_address : Str; tv_timestamp : option Timestamp }.

(** The proto messages of parameters and patches have the fields of the core
    types; the conversions copy field by field. *)
Definition proto_patch_to_core (p : NetworkParametersPatch) : NetworkParametersPatch :=
  mkPatch (patch_max_block_body_bytes p) (patch_min_base_fee p) (patch_max_transactions_per_block p).
Definition core_params_to_proto (p : NetworkParameters) : NetworkParameters :=
  mkParams (max_block_body_bytes p) (min_base_fee p) (max_transactions_per_block p).
Definition core_patch_to_proto (p : NetworkParametersPatch) : NetworkParametersPatch :=
  mkPatch (patch_max_block_body_bytes p) (patch_min_base_fee p) (patch_max_transactions_per_block p).
Definition pending_record_to_proto (r : ScheduledUpgradeRecord) : PendingParameterUpgrade :=
  mkPendingUpgrade (transaction_id r) (announced_at_height r) (activation_epoch_height r)
    (Some (core_patch_to_proto (patch r))).

(** The messages of the registry's errors. *)
Fixpoint param_message (x : ParamError) : Str :=
  match x with
  | NoRoles a => lit "Address " ++ a ++ lit " has no permissioned roles"
  | OperatorInsufficient => lit "Operator role insufficient for admin action"
  | RoleNotFound => lit "Role not found for target"
  | EmptyPatch => lit "parameter patch must set at least one field"
  | PermissionDenied y => lit "Permission denied: " ++ param_message y
  | VotersNotEmpty => lit "dao_voter_addresses must be empty for admin_keys governance"
  | ProposerRequired => lit "proposer_address is required for admin_keys governance"
  | NotAdminKey => lit "proposer is not an authorized admin key"
  | MinApprovalsZero => lit "dao min_approvals must be > 0"
  | UnknownVoter v => lit "unknown dao voter: " ++ v
  | NotEnoughApprovals m n =>
      lit "dao consensus requires " ++ decimal m ++ lit " distinct member approvals, got " ++ decimal n
  | ActivationTooEarly a m t d =>
      lit "activation_epoch_height " ++ decimal a ++ lit " must be >= " ++ decimal m ++
      lit " (tip " ++ decimal t ++ lit " + min_delay " ++ decimal d ++ lit ")"
  end.

(** ** The service *)

Section Service.
Context {Addr : Type}.

Record NetworkServiceImpl : Type := mkService {
  p2p_manager : P2PManager Addr;
  chain_parameters : ChainParameterRegistry }.

Definition set_chain (r : ChainParameterRegistry) (s : NetworkServiceImpl) : NetworkServiceImpl :=
  mkService (p2p_manager s) r.

(** Signature validation is a placeholder that accepts everything. *)
Definition validate_signature (user_address : Str) (signature : list Z) (nonce : Z)
    : result Str bool := Ok true.

(** The error of [process_transaction] is used through its text only. *)
Definition process_transaction (tx_type : TransactionType) (request_data : list Z) (rnd : Z) (now : Clock)
    : result Str TransactionResponse :=
  match now with
  | Err e => Err (lit "Database error: Timestamp error: " ++ e)
  | Ok d => Ok (mkTxResponse true (format_tx_id rnd) [] 21000
                  (Some (mkTimestamp (as_i64 d.1) d.2)) [])
  end.

(** The block that starts the four transaction handlers. *)
Definition require_signature (who : Str) (signature : list Z) (nonce : Z) (refusal : Str)
    : result Status unit :=
  let? valid := map_status (fun e => mkStatus Internal (lit "Validation error: " ++ e))
                  (validate_signature who signature nonce) in
  if valid then Ok tt else Err (mkStatus InvalidArgument refusal).

Definition processed (tx_type : TransactionType) (rnd : Z) (now : Clock)
    : result Status TransactionResponse :=
  map_status (fun e => mkStatus Internal (lit "Transaction processing error: " ++ e))
    (process_transaction tx_type [] rnd now).

Definition deposit (rnd : Z) (now : Clock) (req : DepositRequest) : result Status TransactionResponse :=
  let? _ := require_signature (dr_user_address req) (dr_signature req) (dr_nonce req)
              (lit "Invalid signature") in
  processed TxDeposit rnd now.
Definition withdraw (rnd : Z) (now : Clock) (req : WithdrawRequest) : result Status TransactionResponse :=
  let? _ := require_signature (wr_user_address req) (wr_signature req) (wr_nonce req)
              (lit "Invalid signature") in
  processed TxWithdraw rnd now.
Definition distribute_rewards (rnd : Z) (now : Clock) (req : DistributeRewardsRequest)
    : result Status TransactionResponse :=
  let? _ := require_signature (lit "system") (di_signature req) (di_nonce req)
              (lit "Invalid signature") in
  processed TxDistribution rnd now.
Definition claim_rewards (rnd : Z) (now : Clock) (req : ClaimRewardsRequest)
    : result Status TransactionResponse :=
  let? _ := require_signature (cr_user_address req) (cr_signature req) (cr_nonce req)
              (lit "Invalid signature") in
  processed TxClaim rnd now.

Definition get_balance (now : Clock) (user_address token_address : Str) : result Status BalanceResponse :=
  let? _ := timestamp_now now in
  Ok (mkBalanceResponse user_address token_address (lit "1000000") (lit "1500000000000000000") (lit "50000")).

Definition get_rewards (user_address : Str) : result Status RewardsResponse :=
  Ok (mkRewardsResponse user_address (lit "100000") (lit "50000")
        (lit "1500000000000000000") (lit "1600000000000000000")).

Definition get_contract_state (now : Clock) (contract_address : Str) : result Status ContractStateResponse :=
  let? ts := timestamp_now now in
  Ok (mkContractState contract_address (lit "1000000000") (lit "1600000000000000000") 100 (Some ts)
        [(lit "version", lit "1.0.0");
         (lit "owner", lit "0x1234567890123456789012345678901234567890")]).

Definition get_network_status (now : Clock) (s : NetworkServiceImpl) : result Status NetworkStatusResponse :=
  let? ts := timestamp_now now in
  Ok (mkNetworkStatus true (current_height (chain_parameters s))
        (get_connected_peers_count (p2p_manager s)) (mkFloat 1500000000 0) (Some ts) (lit "1.0.0")).

Definition get_node_info (now : Clock) (node_id : Str) : result Status NodeInfoResponse :=
  let? ts := timestamp_now now in
  Ok (mkNodeInfo node_id (lit "127.0.0.1:8080") (lit "1.0.0") false 100 (Some ts)
        [(lit "region", lit "us-east-1"); (lit "datacenter", lit "aws-us-east-1a")]).

Definition get_transaction (now : Clock) (transaction_hash : Str) : result Status TransactionResponse :=
  let? ts := timestamp_now now in
  Ok (mkTxResponse true transaction_hash [] 21000 (Some ts) [(lit "Transfer", lit "1000000")]).

(** The same transaction whatever the limit and the offset. *)
Definition get_transaction_history (now : Clock) (req : TransactionHistoryRequest)
    : result Status TransactionHistoryResponse :=
  let? ts := timestamp_now now in
  Ok (mkHistory
        [mkTxInfo (lit "0x1234567890123456789012345678901234567890123456789012345678901234")
           TxDeposit (th_user_address req) (lit "1000000") (lit "0xtokenaddress") StConfirmed
           (Some ts) 12345 21000] 1 false).

(** The registry is changed before the clock is read: a clock error after an
    accepted upgrade leaves it scheduled. *)
Definition parameter_upgrade (uuid : Z) (now : Clock) (req : ParameterUpgradeRequest)
    (s : NetworkServiceImpl) : result Status TransactionResponse * NetworkServiceImpl :=
  match pu_parameter_patch req with
  | None => (Err (mkStatus InvalidArgument (lit "parameter_patch is required")), s)
  | Some patch_msg =>
      let core_patch := proto_patch_to_core patch_msg in
      let signed :=
        if bool_decide (trim (pu_proposer_address req) = []) then Ok tt
        else require_signature (pu_proposer_address req) (pu_proposer_signature req) (pu_nonce req)
               (lit "Invalid proposer signature") in
      match signed with
      | Err x => (Err x, s)
      | Ok _ =>
          match submit_parameter_upgrade uuid core_patch (pu_activation_epoch_height req)
                  (pu_proposer_address req) (pu_dao_voter_addresses req) (chain_parameters s) with
          | Err x => (Err (mkStatus PermissionDeniedCode (param_message x)), s)
          | Ok (tx_id, r') =>
              (let? ts := timestamp_now now in
               Ok (mkTxResponse true tx_id [] 0 (Some ts)
                     [(lit "activation_epoch_height", decimal (pu_activation_epoch_height req));
                      (lit "tx_type", lit "PARAMETER_UPGRADE")]),
               set_chain r' s)
          end
      end
  end.

Definition get_chain_parameters (s : NetworkServiceImpl) : result Status ChainParametersView :=
  let chain := chain_parameters s in
  Ok (mkView (chain_id chain) (current_height chain)
        (Some (core_params_to_proto (active_parameters chain))) (min_activation_delay_blocks chain)
        (Some (core_params_to_proto (genesis_parameters chain)))).

Definition list_pending_parameter_upgrades (s : NetworkServiceImpl)
    : result Status (list PendingParameterUpgrade) :=
  Ok (map pending_record_to_proto (pending_upgrades (chain_parameters s))).

Definition get_tvl (now : Clock) (token_address : Str) : result Status TVLResponse :=
  let? ts := timestamp_now now in
  Ok (mkTvl (lit "5000000000") token_address (Some ts)).
End Service.
#[global] Arguments NetworkServiceImpl Addr : clear implicits.
