(* ===== verification/GatewayService.v ===== *)
(** network-node/src/grpc/gateway_service.rs: the gateway in front of
    NetworkService.

    A gateway message is the network message of the same name with the gateway's
    own fields, and is modelled so: each handler forwards the network part, and
    adds its fields to the answer.  The random request id, the measured time
    and the clock readings are arguments.  [None] is a panic of the handler. *)
From stdpp Require Import base gmap list strings pretty.
From S2P Require Import Prelude ChainParams P2P NetworkService.

(** ** Messages *)

(** A request with its tracking fields. *)
Record Tracked (Req : Type) : Type := mkTracked {
  network_part : Req; request_id : Str; callback_url : Str }.
Arguments mkTracked {Req} network_part request_id callback_url.
Arguments network_part {Req} t. Arguments request_id {Req} t. Arguments callback_url {Req} t.

Record GwTransactionResponse : Type := mkGwTx {
  gt_network : TransactionResponse; gt_request_id : Str; gt_processing_time_ms : Z; gt_status_url : Str }.
Record GwBalanceResponse : Type := mkGwBalance {
  gb_network : BalanceResponse; gb_last_updated : option Timestamp; gb_currency : Str }.
Record GwRewardsResponse : Type := mkGwRewards {
  gr_network : RewardsResponse; gr_last_claimed : option Timestamp; gr_reward_token : Str }.
Record GwContractState : Type := mkGwContractState {
  gc_network : ContractStateResponse; gc_contract_version : Str; gc_supported_tokens : list Str }.
Record GwNetworkStatus : Type := mkGwNetworkStatus {
  gn_network : NetworkStatusResponse; gn_pending_transactions : Z; gn_average_block_time : Float;
  gn_supported_networks : list Str }.
Record GwNodeInfo : Type := mkGwNodeInfo {
  gi_network : NodeInfoResponse; gi_region : Str; gi_datacenter : Str; gi_capabilities : list Str }.
Record PaginationInfo : Type := mkPagination {
  current_page : Z; total_pages : Z; page_size : Z; has_next : bool; has_previous : bool }.
Record GwHistoryRequest : Type := mkGwHistoryRequest {
  gh_user_address : Str; gh_limit : option Z; gh_offset : option Z; gh_transaction_type : option Str }.
Record GwTransactionInfo : Type := mkGwTxInfo {
  gx_network : TransactionInfo; gx_confirmation_count : Z; gx_fee_paid : Str;
  gx_metadata : list (Str * Str) }.
Record GwHistory : Type := mkGwHistory {
  gy_transactions : list GwTransactionInfo; gy_total_count : Z; gy_has_more : bool;
  gy_pagination : option PaginationInfo }.
Record ServiceHealth : Type := mkServiceHealth {
  sh_service_name : Str; sh_status : Str; sh_message : Str; sh_last_check : option Timestamp;
  sh_metrics : list (Str * Str) }.
Record HealthCheckResponse : Type := mkHealth {
  hc_status : Str; hc_message : Str; hc_timestamp : option Timestamp; hc_details : list (Str * Str);
  hc_services : list ServiceHealth; hc_uptime_percentage : Float }.

Definition gw_params_from_network (p : option NetworkParameters) : option NetworkParameters :=
  (fun x => mkParams (max_block_body_bytes x) (min_base_fee x) (max_transactions_per_block x)) <$> p.
Definition gw_patch_from_network (p : option NetworkParametersPatch) : option NetworkParametersPatch :=
  (fun x => mkPatch (patch_max_block_body_bytes x) (patch_min_base_fee x)
              (patch_max_transactions_per_block x)) <$> p.

(** ** Handlers *)

Definition generate_request_id (rnd : Z) : Str := lit "req_" ++ decimal rnd.

(** [process_with_tracking] logs and returns what the operation returned. *)
Definition process_with_tracking {A} (request_id : Str) (operation : result Status A) : result Status A :=
  match operation with Ok a => Ok a | Err x => Err x end.

Definition tracking_id {Req} (rnd : Z) (req : Tracked Req) : Str :=
  if bool_decide (request_id req = []) then generate_request_id rnd else request_id req.

Definition status_url (hash : Str) : Str := lit "/v1/transaction/" ++ hash ++ lit "/status".

Definition add_tracking (id : Str) (elapsed : Z) (r : TransactionResponse) : GwTransactionResponse :=
  mkGwTx r id elapsed (status_url (tr_transaction_hash r)).

(** [now2] is the second reading of the clock, which only [deposit] makes. *)
Definition deposit (rid rnd : Z) (now now2 : Clock) (elapsed : Z) (req : Tracked DepositRequest)
    : result Status GwTransactionResponse :=
  let id := tracking_id rid req in
  process_with_tracking id
    (let? r := NetworkService.deposit rnd now (network_part req) in
     let? _ := timestamp_now now2 in
     Ok (add_tracking id elapsed r)).
Definition withdraw (rid rnd : Z) (now : Clock) (elapsed : Z) (req : Tracked WithdrawRequest)
    : result Status GwTransactionResponse :=
  let id := tracking_id rid req in
  process_with_tracking id
    (let? r := NetworkService.withdraw rnd now (network_part req) in Ok (add_tracking id elapsed r)).
Definition distribute_rewards (rid rnd : Z) (now : Clock) (elapsed : Z)
    (req : Tracked DistributeRewardsRequest) : result Status GwTransactionResponse :=
  let id := tracking_id rid req in
  process_with_tracking id
    (let? r := NetworkService.distribute_rewards rnd now (network_part req) in
     Ok (add_tracking id elapsed r)).
Definition claim_rewards (rid rnd : Z) (now : Clock) (elapsed : Z) (req : Tracked ClaimRewardsRequest)
    : result Status GwTransactionResponse :=
  let id := tracking_id rid req in
  process_with_tracking id
    (let? r := NetworkService.claim_rewards rnd now (network_part req) in Ok (add_tracking id elapsed r)).

Definition get_balance (rid : Z) (now now2 : Clock) (user_address token_address : Str)
    : result Status GwBalanceResponse :=
  process_with_tracking (generate_request_id rid)
    (let? r := NetworkService.get_balance now user_address token_address in
     let? ts := timestamp_now now2 in
     Ok (mkGwBalance r (Some ts) (lit "USD"))).

(** The clock is unwrapped: before the epoch the handler panics. *)
Definition get_rewards (rid : Z) (now : Clock) (user_address : Str)
    : option (result Status GwRewardsResponse) :=
  match NetworkService.get_rewards user_address, now with
  | Err x, _ => Some (process_with_tracking (generate_request_id rid) (Err x))
  | Ok r, Ok d =>
      Some (process_with_tracking (generate_request_id rid)
        (Ok (mkGwRewards r (Some (mkTimestamp (as_i64 (as_i64 d.1 - 86400)) 0)) (lit "0xrewardtoken"))))
  | Ok _, Err _ => None
  end.

Definition get_contract_state (rid : Z) (now : Clock) (contract_address : Str)
    : result Status GwContractState :=
  process_with_tracking (generate_request_id rid)
    (let? r := NetworkService.get_contract_state now contract_address in
     Ok (mkGwContractState r (lit "1.0.0") [lit "0xtoken1"; lit "0xtoken2"; lit "0xrewardtoken"])).

Definition get_node_info (rid : Z) (now : Clock) (node_id : Str) : result Status GwNodeInfo :=
  process_with_tracking (generate_request_id rid)
    (let? r := NetworkService.get_node_info now node_id in
     Ok (mkGwNodeInfo r (lit "us-east-1") (lit "aws-us-east-1a")
           [lit "grpc"; lit "http"; lit "websocket"; lit "p2p"])).

Definition get_transaction (rid : Z) (now : Clock) (transaction_hash : Str)
    : result Status GwTransactionResponse :=
  let id := generate_request_id rid in
  process_with_tracking id
    (let? r := NetworkService.get_transaction now transaction_hash in Ok (add_tracking id 50 r)).

(** [str::parse::<i32>]: an optional sign and decimal digits, in range. *)
Fixpoint parse_digits (acc : Z) (s : Str) : option Z :=
  match s with
  | [] => Some acc
  | c :: s' => if (48 <=? c) && (c <=? 57) then parse_digits (10 * acc + (c - 48)) s' else None
  end.
Definition parse_i32 (s : Str) : option Z :=
  let '(sign, ds) := match s with 43 :: l => (1, l) | 45 :: l => (-1, l) | _ => (1, s) end in
  match ds with
  | [] => None
  | _ => match parse_digits 0 ds with
         | Some n => checked (-2147483648) 2147483647 (sign * n)
         | None => None
         end
  end.

(** u64 arithmetic; a page size of 0 divides by zero. *)
Definition pagination (req : GwHistoryRequest) (total_count : Z) (has_more : bool)
    : option PaginationInfo :=
  let size := default 10 (gh_limit req) in
  if size =? 0 then None else
  let current := as_u64 (default 0 (gh_offset req) / size + 1) in
  let total := as_u64 (as_u64 (total_count + size) - 1) / size in
  Some (mkPagination current total size has_more (current >? 1)).

Definition gateway_transaction (t : TransactionInfo) : GwTransactionInfo :=
  mkGwTxInfo t 12 (lit "21000") [(lit "gateway_processed", lit "true")].

Definition get_transaction_history (rid : Z) (now : Clock) (req : GwHistoryRequest)
    : option (result Status GwHistory) :=
  let forwarded := mkHistoryRequest (gh_user_address req) (gh_limit req) (gh_offset req)
    ((fun t => default 0 (parse_i32 t)) <$> gh_transaction_type req) in
  match NetworkService.get_transaction_history now forwarded with
  | Err x => Some (process_with_tracking (generate_request_id rid) (Err x))
  | Ok r =>
      match pagination req (hr_total_count r) (hr_has_more r) with
      | None => None
      | Some p => Some (process_with_tracking (generate_request_id rid)
          (Ok (mkGwHistory (map gateway_transaction (hr_transactions r)) (hr_total_count r)
                 (hr_has_more r) (Some p))))
      end
  end.

Definition get_tvl (rid : Z) (now : Clock) (token_address : Str) : result Status TVLResponse :=
  process_with_tracking (generate_request_id rid)
    (let? r := NetworkService.get_tvl now token_address in
     Ok (mkTvl (tv_total_value_locked r) (tv_token_address r) (tv_timestamp r))).

Definition check_health (rid : Z) (now : Clock) : result Status HealthCheckResponse :=
  process_with_tracking (generate_request_id rid)
    (let? ts := timestamp_now now in
     let services :=
       [mkServiceHealth (lit "database") (lit "healthy") (lit "Connection pool active") (Some ts)
          [(lit "active_connections", lit "5"); (lit "idle_connections", lit "15")];
        mkServiceHealth (lit "grpc") (lit "healthy") (lit "gRPC server running") (Some ts)
          [(lit "active_requests", lit "3"); (lit "total_requests", lit "1250")]] in
     Ok (mkHealth (lit "SERVING") (lit "All systems operational") (Some ts)
           [(lit "version", lit "1.0.0"); (lit "uptime", lit "2d 14h 32m")] services
           (mkFloat 9995 2))).

Section Gateway.
Context {Addr : Type}.
Implicit Types s : NetworkServiceImpl Addr.

Definition get_network_status (rid : Z) (now : Clock) s : result Status GwNetworkStatus :=
  process_with_tracking (generate_request_id rid)
    (let? r := NetworkService.get_network_status now s in
     Ok (mkGwNetworkStatus r 25 (mkFloat 125 1) [lit "mainnet"; lit "testnet"; lit "futurenet"])).

Definition parameter_upgrade (rid uuid : Z) (now : Clock) (elapsed : Z)
    (req : Tracked ParameterUpgradeRequest) s : result Status GwTransactionResponse * NetworkServiceImpl Addr :=
  let id := tracking_id rid req in
  let u := network_part req in
  let net_patch := (fun p => mkPatch (patch_max_block_body_bytes p) (patch_min_base_fee p)
    (patch_max_transactions_per_block p)) <$> pu_parameter_patch u in
  let network_req := mkUpgradeRequest net_patch (pu_activation_epoch_height u) (pu_proposer_address u)
    (pu_proposer_signature u) (pu_nonce u) (pu_timestamp u) (pu_dao_voter_addresses u) in
  let '(nr, s') := NetworkService.parameter_upgrade uuid now network_req s in
  (process_with_tracking id
     (let? r := nr in
      Ok (add_tracking id elapsed
            (mkTxResponse (tr_success r) (tr_transaction_hash r) (tr_error_message r) (tr_gas_used r)
               (tr_timestamp r) (tr_events r)))), s').

Definition get_chain_parameters (rid : Z) s : result Status ChainParametersView :=
  process_with_tracking (generate_request_id rid)
    (let? v := NetworkService.get_chain_parameters s in
     Ok (mkView (cv_chain_id v) (cv_current_block_height v)
           (gw_params_from_network (cv_active_parameters v)) (cv_min_activation_delay_blocks v)
           (gw_params_from_network (cv_genesis_parameters v)))).

Definition list_pending_parameter_upgrades (rid : Z) s : result Status (list PendingParameterUpgrade) :=
  process_with_tracking (generate_request_id rid)
    (let? v := NetworkService.list_pending_parameter_upgrades s in
     Ok (map (fun p => mkPendingUpgrade (pp_transaction_id p) (pp_announced_at_height p)
           (pp_activation_epoch_height p) (gw_patch_from_network (pp_patch p))) v)).

(** ** The gateway and the registry *)

Lemma patch_eta p :
  mkPatch (patch_max_block_body_bytes p) (patch_min_base_fee p) (patch_max_transactions_per_block p) = p.
Proof. by destruct p. Qed.

Lemma params_eta p :
  mkParams (max_block_body_bytes p) (min_base_fee p) (max_transactions_per_block p) = p.
Proof. by destruct p. Qed.

(** The network handler never refuses a signature. *)
Lemma network_upgrade uuid now p a pr sg n ts vs s :
  NetworkService.parameter_upgrade uuid now (mkUpgradeRequest (Some p) a pr sg n ts vs) s =
  match submit_parameter_upgrade uuid p a pr vs (chain_parameters s) with
  | Err x => (Err (mkStatus PermissionDeniedCode (param_message x)), s)
  | Ok (tx_id, r') =>
      (let? t := timestamp_now now in
       Ok (mkTxResponse true tx_id [] 0 (Some t)
             [(lit "activation_epoch_height", decimal a); (lit "tx_type", lit "PARAMETER_UPGRADE")]),
       set_chain r' s)
  end.
Proof.
  unfold NetworkService.parameter_upgrade. cbn [pu_parameter_patch pu_proposer_address pu_activation_epoch_height
    pu_proposer_signature pu_nonce pu_dao_voter_addresses].
  unfold proto_patch_to_core. rewrite patch_eta. by destruct (bool_decide _).
Qed.

Lemma gateway_upgrade_unfold rid uuid now elapsed p a pr sg n ts vs id cb s :
  parameter_upgrade rid uuid now elapsed
    (mkTracked (mkUpgradeRequest (Some p) a pr sg n ts vs) id cb) s =
  match submit_parameter_upgrade uuid p a pr vs (chain_parameters s) with
  | Err x => (Err (mkStatus PermissionDeniedCode (param_message x)), s)
  | Ok (tx_id, r') =>
      (let? t := timestamp_now now in
       Ok (add_tracking (if bool_decide (id = []) then generate_request_id rid else id) elapsed
         (mkTxResponse true tx_id [] 0 (Some t)
           [(lit "activation_epoch_height", decimal a); (lit "tx_type", lit "PARAMETER_UPGRADE")])),
       set_chain r' s)
  end.
Proof.
  unfold parameter_upgrade. cbn [network_part pu_parameter_patch pu_proposer_address
    pu_activation_epoch_height pu_proposer_signature pu_nonce pu_dao_voter_addresses pu_timestamp fmap option_fmap option_map].
  rewrite patch_eta, network_upgrade.
  destruct (submit_parameter_upgrade _ _ _ _ _ _) as [[t r']|x]; [|done]. by destruct now.
Qed.

Lemma gateway_pending rid s :
  list_pending_parameter_upgrades rid s =
  Ok (map (fun u => mkPendingUpgrade (transaction_id u) (announced_at_height u)
        (activation_epoch_height u) (Some (patch u))) (pending_upgrades (chain_parameters s))).
Proof.
  cbn. f_equal. rewrite map_map. apply map_ext. intros u. cbn. unfold core_patch_to_proto.
  by rewrite !patch_eta.
Qed.

Lemma gateway_view rid s :
  get_chain_parameters rid s =
  Ok (mkView (chain_id (chain_parameters s)) (current_height (chain_parameters s))
        (Some (active_parameters (chain_parameters s))) (min_activation_delay_blocks (chain_parameters s))
        (Some (genesis_parameters (chain_parameters s)))).
Proof. cbn. unfold core_params_to_proto. by rewrite !params_eta. Qed.
End Gateway.

(** ** Theorems *)

(** C19. An upgrade sent through the gateway is the registry's own submission: the
    registry afterwards is exactly what [submit_parameter_upgrade] makes of it
    for the request's patch, height, proposer and voters - also when the clock
    then fails and the client is told of an error - nothing else changes, the
    registry's refusals become permission errors with its messages, and no
    signature, nonce or callback has any influence. *)
Theorem gateway_upgrade_refines {Addr} rid uuid now elapsed req (s : NetworkServiceImpl Addr) :
  let u := network_part req in
  let out := parameter_upgrade rid uuid now elapsed req s in
  p2p_manager (snd out) = p2p_manager s /\
  match pu_parameter_patch u with
  | None => out = (Err (mkStatus InvalidArgument (lit "parameter_patch is required")), s)
  | Some p =>
      chain_parameters (snd out) =
        run_op (chain_parameters s) (OSubmit uuid p (pu_activation_epoch_height u)
          (pu_proposer_address u) (pu_dao_voter_addresses u)) /\
      match submit_parameter_upgrade uuid p (pu_activation_epoch_height u)
              (pu_proposer_address u) (pu_dao_voter_addresses u) (chain_parameters s), now with
      | Err x, _ => fst out = Err (mkStatus PermissionDeniedCode (param_message x))
      | Ok _, Err e => fst out = Err (mkStatus Internal (lit "Timestamp error: " ++ e))
      | Ok (tx, _), Ok _ => exists resp, fst out = Ok resp /\ tr_success (gt_network resp) = true /\
          tr_transaction_hash (gt_network resp) = tx /\ gt_status_url resp = status_url tx
      end /\
      (forall sg n cb, parameter_upgrade rid uuid now elapsed
         (mkTracked (mkUpgradeRequest (Some p) (pu_activation_epoch_height u) (pu_proposer_address u)
           sg n (pu_timestamp u) (pu_dao_voter_addresses u)) (request_id req) cb) s = out)
  end.
Proof.
  destruct req as [[[p|] a pr sg n ts vs] id cb]; cbv zeta; cbn [network_part pu_parameter_patch
    pu_activation_epoch_height pu_proposer_address pu_dao_voter_addresses pu_timestamp request_id];
    [|by split].
  rewrite gateway_upgrade_unfold. cbn [run_op].
  assert (forall sg n cb, parameter_upgrade rid uuid now elapsed
    (mkTracked (mkUpgradeRequest (Some p) a pr sg n ts vs) id cb) s = parameter_upgrade rid uuid now elapsed
    (mkTracked (mkUpgradeRequest (Some p) a pr [] 0 ts vs) id []) s) as Hsg
    by (intros; by rewrite !gateway_upgrade_unfold).
  destruct (submit_parameter_upgrade _ _ _ _ _ _) as [[t r']|x] eqn:E.
  - split; [done|]. split; [done|]. split.
    + destruct now as [d|e]; [|done]. eexists. split; [reflexivity|]. done.
    + intros sg' n' cb'. by rewrite gateway_upgrade_unfold, E.
  - repeat split. intros sg' n' cb'. by rewrite gateway_upgrade_unfold, E.
Qed.

(** What the gateway accepts, the gateway shows: after a successful upgrade the
    list of pending upgrades is the old list followed by the new one under the
    hash of the answer (unless it is already in force), and when the chain
    reaches its height the parameters shown are those that were scheduled for
    that height before, with the patch applied on top. *)
Theorem gateway_upgrade_visible {Addr} doc ops rid uuid now elapsed p a pr sg n ts vs id cb rid'
    resp (s s' : NetworkServiceImpl Addr) :
  chain_parameters s = run_ops doc ops ->
  parameter_upgrade rid uuid now elapsed
    (mkTracked (mkUpgradeRequest (Some p) a pr sg n ts vs) id cb) s = (Ok resp, s') ->
  let tip := ChainParams.current_height (chain_parameters s) in
  let at_height h (x : NetworkServiceImpl Addr) :=
    set_chain (set_chain_tip_height h (chain_parameters x)) x in
  (exists shown, list_pending_parameter_upgrades rid' s = Ok shown /\
     list_pending_parameter_upgrades rid' s' =
       Ok (shown ++ if a >? tip then
             [mkPendingUpgrade (tr_transaction_hash (gt_network resp)) tip a (Some p)] else [])) /\
  (exists v v' q, get_chain_parameters rid' (at_height a s) = Ok v /\
     get_chain_parameters rid' (at_height a s') = Ok v' /\
     cv_active_parameters v = Some q /\ cv_active_parameters v' = Some (apply_patch q p)).
Proof.
  intros Hs. rewrite gateway_upgrade_unfold.
  destruct (submit_parameter_upgrade uuid p a pr vs (chain_parameters s)) as [[t r']|x] eqn:E; [|done].
  destruct now as [d|e]; cbn [bindR timestamp_now map_status]; [|done]. intros [= <- <-]. cbv zeta. split.
  - rewrite !gateway_pending. eexists. split; [reflexivity|]. cbn [chain_parameters set_chain].
    apply submit_Ok in E as (_ & _ & _ & _ & -> & ->). unfold pending_upgrades; cbn.
    rewrite filter_app, map_app. do 2 f_equal. rewrite filter_cons, Z.gtb_ltb.
    destruct (Z.ltb_spec (ChainParams.current_height (chain_parameters s)) a).
    + by rewrite decide_True by (cbn; lia).
    + by rewrite decide_False by (cbn; lia).
  - rewrite !gateway_view. do 3 eexists. split; [reflexivity|]. split; [reflexivity|].
    cbn [cv_active_parameters chain_parameters set_chain]. split; [reflexivity|]. f_equal.
    assert (keys_sorted (activations (chain_parameters s))) as Hk by (rewrite Hs; apply run_ops_ok).
    apply (submit_effect _ _ _ _ _ _ _ _ Hk) in E as [_ E]. exact E.
Qed.

(** Page numbers of the transaction history: a limit of zero panics, whatever
    else is asked (and the clock is fine); otherwise the current page is the one
    that holds the offset, the number of pages is the number needed for the one
    transaction there is, for every page size a u64 can hold, and the list is the
    same on every page. *)
Theorem history_pages rid d req :
  0 <= default 10 (gh_limit req) <= u64_max -> 0 <= default 0 (gh_offset req) < u64_max ->
  let size := default 10 (gh_limit req) in
  (size = 0 -> get_transaction_history rid (Ok d) req = None) /\
  (size <> 0 -> exists h pg, get_transaction_history rid (Ok d) req = Some (Ok h) /\
     gy_pagination h = Some pg /\ page_size pg = size /\ total_pages pg = 1 /\
     (current_page pg - 1) * size <= default 0 (gh_offset req) < current_page pg * size /\
     (has_previous pg = true <-> size <= default 0 (gh_offset req)) /\
     length (gy_transactions h) = 1%nat).
Proof.
  intros Hs Ho. cbv zeta. unfold get_transaction_history. cbn [NetworkService.get_transaction_history
    timestamp_now map_status bindR hr_total_count hr_has_more hr_transactions]. unfold pagination.
  set (size := default 10 (gh_limit req)) in *. set (off := default 0 (gh_offset req)) in *.
  destruct (size =? 0) eqn:E; bool_to_prop; [done|]. split; [done|]. intros _.
  pose proof (Z.div_mod off size ltac:(lia)). pose proof (Z.mod_pos_bound off size ltac:(lia)).
  assert (0 <= off / size) by (apply Z.div_pos; lia).
  assert (off / size <= off) by (apply Z.div_le_upper_bound; nia).
  assert (as_u64 (off / size + 1) = off / size + 1) as Hc by (apply Z.mod_small; lia).
  assert (as_u64 (as_u64 (1 + size) - 1) = size) as Ht.
  { unfold as_u64. rewrite Zminus_mod_idemp_l. replace (1 + size - 1) with size by lia.
    apply Z.mod_small. lia. }
  rewrite Hc, Ht. do 2 eexists. split; [reflexivity|]. cbn [gy_pagination page_size total_pages
    current_page has_previous gy_transactions].
  split_and!; try reflexivity; cbn; [apply Z.div_same; lia|nia|nia|].
  rewrite Z.gtb_ltb, Z.ltb_lt. split; nia.
Qed.

(** *** Witnesses *)

Definition gateway_start : NetworkServiceImpl unit :=
  mkService (new_manager (replicate 32 0)) (run_ops dev_doc [OTip 100]).

Lemma gateway_upgrade_visible_witness :
  exists v v' q,
    get_chain_parameters 1 (set_chain (set_chain_tip_height 106 (chain_parameters gateway_start)) gateway_start) = Ok v /\
    get_chain_parameters 1 (set_chain (set_chain_tip_height 106 (chain_parameters
      (snd (parameter_upgrade 3 7 (Ok (1700000000, 5)) 0
        (mkTracked (mkUpgradeRequest (Some fee_patch) 106 (lit "admin_abc") [] 0 None []) [] []) gateway_start))))
      (snd (parameter_upgrade 3 7 (Ok (1700000000, 5)) 0
        (mkTracked (mkUpgradeRequest (Some fee_patch) 106 (lit "admin_abc") [] 0 None []) [] []) gateway_start))) = Ok v' /\
    cv_active_parameters v = Some q /\ cv_active_parameters v' = Some (apply_patch q fee_patch).
Proof.
  refine (proj2 (gateway_upgrade_visible dev_doc [OTip 100] 3 7 (Ok (1700000000, 5)) 0 fee_patch 106
    (lit "admin_abc") [] 0 None [] [] [] 1 _ gateway_start _ eq_refl _)).
  vm_compute. reflexivity.
Defined.

Lemma history_pages_witness :
  get_transaction_history 1 (Ok (1700000000, 5)) (mkGwHistoryRequest [] (Some 0) None None) = None /\
  exists h pg, get_transaction_history 1 (Ok (1700000000, 5))
      (mkGwHistoryRequest [] (Some 3) (Some 7) None) = Some (Ok h) /\
    gy_pagination h = Some pg /\ current_page pg = 3.
Proof.
  split.
  - apply (history_pages 1 (1700000000, 5) (mkGwHistoryRequest [] (Some 0) None None)); cbn;
      unfold u64_max; lia.
  - destruct (history_pages 1 (1700000000, 5) (mkGwHistoryRequest [] (Some 3) (Some 7) None))
      as [_ H]; cbn; unfold u64_max; try lia.
    destruct H as (h & pg & H1 & H2 & _ & _ & H3 & _); [cbn; lia|].
    exists h, pg. split; [exact H1|]. split; [exact H2|]. cbn in H3. lia.
Defined.
