(* ===== verification/P2PService.v ===== *)
(** network-node/src/grpc/p2p_service.rs: the handlers of P2PService, on top of
    the peer manager.

    Parsing and printing socket addresses (std::net) are parameters, and so is
    the text of [NetworkError::P2P], which error.rs does not declare; random
    numbers and the clock are arguments. *)
From stdpp Require Import base gmap list strings pretty.
From S2P Require Import Prelude ChainParams P2P NetworkService.

Record PeerConnectionResponse : Type := mkConnection {
  pc_success : bool; pc_peer_id : string; pc_session_id : string; pc_error_message : string }.
Record PeerDisconnectionResponse : Type := mkDisconnection {
  pd_success : bool; pd_error_message : string }.
Record GrpcPeerInfo : Type := mkGrpcPeer {
  gp_peer_id : string; gp_address : string; gp_is_connected : bool; gp_last_seen : option Timestamp;
  gp_latency_ms : Z; gp_version : string; gp_metadata : list (string * string) }.
Record BroadcastResponse : Type := mkBroadcast {
  bc_success : bool; bc_recipients_count : Z; bc_failed_peers : list string; bc_message_id : string }.
Record BlockData : Type := mkBlock {
  bl_block_number : Z; bl_block_hash : Str; bl_timestamp : option Timestamp;
  bl_transactions : list TransactionInfo; bl_state_root : list Z }.
Record SyncResponse : Type := mkSync {
  sy_success : bool; sy_blocks : list BlockData; sy_total_blocks : Z; sy_sync_id : string }.

Section Service.
Context {Addr : Type} (parse : string -> result string Addr) (print : Addr -> string)
  (p2p_display : P2PError -> string).
Implicit Types s : P2PManager Addr.

Definition connect_to_peer (now r : Z) (peer_address peer_id : string) s
    : result Status PeerConnectionResponse * P2PManager Addr :=
  match parse peer_address with
  | Err x => (Err (mkStatus InvalidArgument (lit ("Invalid peer address: " +:+ x))), s)
  | Ok addr =>
      match P2P.connect_to_peer now r addr peer_id s with
      | (Ok session_id, s') => (Ok (mkConnection true peer_id session_id ""), s')
      | (Err x, s') => (Ok (mkConnection false peer_id "" ("Connection failed: " +:+ p2p_display x)), s')
      end
  end.

Definition disconnect_from_peer (peer_id : string) s
    : result Status PeerDisconnectionResponse * P2PManager Addr :=
  match P2P.disconnect_from_peer peer_id s with
  | (Ok _, s') => (Ok (mkDisconnection true ""), s')
  | (Err x, s') => (Ok (mkDisconnection false ("Disconnection failed: " +:+ p2p_display x)), s')
  end.

(** The clock is read once per peer. *)
Fixpoint peer_infos (clock : nat -> Clock) (i : nat) (peers : list (PeerInfo string Addr))
    : result Status (list GrpcPeerInfo) :=
  match peers with
  | [] => Ok []
  | peer :: rest =>
      let? ts := timestamp_now (clock i) in
      let? l := peer_infos clock (S i) rest in
      Ok (mkGrpcPeer (peer_id peer) (print (address peer)) (is_connected peer) (Some ts)
            (latency_ms peer) (version peer)
            [("version"%string, version peer); ("region"%string, "us-east-1"%string)] :: l)
  end.

Definition get_peer_list (order : list string) (clock : nat -> Clock) s
    : result Status (list GrpcPeerInfo) :=
  peer_infos clock 0 (P2P.get_peer_list order s).

Definition broadcast_message (rnd message_type : Z) (payload : list Z) (target_peers : list string)
    (ttl : Z) s : result Status BroadcastResponse :=
  match P2P.broadcast_message message_type payload target_peers ttl s with
  | Ok (n, failed) => Ok (mkBroadcast true n failed ("msg_" +:+ pretty rnd))
  | Err _ => Ok (mkBroadcast false 0 [] "")
  end.

(** [end_block - start_block + 1] is u64 arithmetic, which wraps. *)
Definition sync_chain (r1 r2 r3 : Z) (now : Clock) (start_block end_block : Z) : result Status SyncResponse :=
  let? ts := timestamp_now now in
  Ok (mkSync true
        [mkBlock start_block (format_tx_id r1) (Some ts)
           [mkTxInfo (format_tx_id r2) TxDeposit (lit "0x1234567890123456789012345678901234567890")
              (lit "1000000") (lit "0xtokenaddress") StConfirmed (Some ts) start_block 21000]
           (replicate 32 0)]
        (as_u64 (as_u64 (end_block - start_block) + 1)) ("sync_" +:+ pretty r3)).

(** The peers shown are the connected ones, whatever order the map is iterated in. *)
Lemma peer_list_ids order clock s l :
  (forall id p, connected_peers s !! id = Some p -> peer_id p = id) ->
  get_peer_list order clock s = Ok l ->
  map gp_peer_id l = filter (fun id => is_Some (connected_peers s !! id)) order.
Proof.
  intros Hid. unfold get_peer_list, P2P.get_peer_list. generalize 0%nat. revert l.
  induction order as [|id order IH]; intros l i; cbn [omap list_omap].
  { cbn. by intros [= <-]. }
  rewrite filter_cons. destruct (connected_peers s !! id) as [p|] eqn:E; cbn [peer_infos].
  - rewrite decide_True by eauto. destruct (timestamp_now (clock i)); cbn; [|done].
    destruct (peer_infos clock (S i) _) as [l'|] eqn:El; cbn; [|done]. intros [= <-]. cbn.
    f_equal; [by apply Hid|]. by eapply IH.
  - rewrite decide_False by (by intros []). apply IH.
Qed.
End Service.

(** A connection made through the service is visible through it: after a
    request with an address that parses, the answer carries a session, the peer is
    listed with its address wherever the map is iterated, and a broadcast to it
    reaches it, until it is disconnected, after which disconnecting again is
    answered with a failure; a request whose address does not parse is an
    invalid argument and changes nothing. *)
Theorem peer_session {Addr} (parse : string -> result string Addr) (print : Addr -> string)
    (p2p_display : P2PError -> string) now r addr id (s : P2PManager Addr) :
  let '(answer, s1) := connect_to_peer parse p2p_display now r addr id s in
  match parse addr with
  | Err x => answer = Err (mkStatus InvalidArgument (lit ("Invalid peer address: " +:+ x))) /\ s1 = s
  | Ok a =>
      answer = Ok (mkConnection true id ("session_" +:+ pretty r) "") /\
      (forall d, exists p, get_peer_list print [id] (fun _ => Ok d) s1 = Ok [p] /\
         gp_peer_id p = id /\ gp_address p = print a /\ gp_is_connected p = true) /\
      (forall rnd mt pl ttl, exists m, broadcast_message rnd mt pl [id] ttl s1 = Ok (mkBroadcast true 1 [] m)) /\
      (let '(bye, s2) := disconnect_from_peer p2p_display id s1 in
       bye = Ok (mkDisconnection true "") /\ connected_peers s2 !! id = None /\
       (forall id', id' <> id -> connected_peers s2 !! id' = connected_peers s !! id') /\
       disconnect_from_peer p2p_display id s2 =
         (Ok (mkDisconnection false ("Disconnection failed: " +:+ p2p_display (P2P "Peer not connected"))), s2))
  end.
Proof.
  unfold connect_to_peer. destruct (parse addr) as [a|x]; [|done].
  cbn [P2P.connect_to_peer]. split; [done|].
  set (s1 := set_connected _ s). assert (connected_peers s1 !! id = Some (mkPeer id a true now 50 "1.0.0")) as E
    by apply lookup_insert_eq. split; [|split].
  - intros d. unfold get_peer_list, P2P.get_peer_list. cbn [omap list_omap]. rewrite E. cbn. by eexists.
  - intros. unfold broadcast_message. cbn [P2P.broadcast_message]. rewrite count_targets_spec, !filter_cons.
    rewrite decide_True by eauto. rewrite decide_False by (rewrite E; naive_solver). cbn. by eexists.
  - unfold disconnect_from_peer, P2P.disconnect_from_peer. rewrite E. cbn [set_connected connected_peers].
    rewrite lookup_delete_eq. split_and!; try done. intros id' Hne.
    rewrite lookup_delete_ne by done. cbn. by apply lookup_insert_ne.
Qed.
