(* ===== verification/ErrorMiddleware.v ===== *)
(** network-node/src/error_middleware.rs: statistics of errors and a circuit
    breaker per component.

    Times are milliseconds; counters are u64 / usize and wrap.  A random id and
    the times are arguments of [handle_error], which reads the clock up to three
    times: for the record, for the statistics and in the breaker.  The Debug text of
    an error, which becomes the recorded stack trace, is a parameter.
    [handle_error] takes the lock of the statistics and then that of the breakers;
    each section under a lock is one event of a history, so the sections of
    different tasks interleave.  What is logged is in ErrorLog.v. *)
From stdpp Require Import base gmap list strings.
From S2P Require Import Prelude NetworkErrors.

Record ErrorMiddlewareConfig : Type := mkMwConfig {
  enable_circuit_breaker : bool;
  enable_rate_limiting : bool;
  max_errors_per_minute : Z;
  circuit_breaker_threshold : Z;
  circuit_breaker_timeout : Z;
  enable_error_aggregation : bool;
  log_internal_errors : bool;
  expose_error_details : bool }.

Definition default_config : ErrorMiddlewareConfig := mkMwConfig true true 100 10 60000 true true false.

Record ErrorRecord : Type := mkRecord {
  rec_id : string;
  error_type : string;
  component : string;
  operation : string;
  rec_message : string;
  rec_timestamp : Z;
  rec_request_id : option string;
  stack_trace : option string }.

Record ErrorStats : Type := mkStats {
  total_errors : Z;
  errors_by_type : gmap string Z;
  errors_by_component : gmap string Z;
  recent_errors : list ErrorRecord;
  last_updated : Z }.

(** [DateTime<Utc>::default] is the epoch. *)
Definition default_stats : ErrorStats := mkStats 0 ∅ ∅ [] 0.

Inductive CircuitBreakerState : Type := Closed | Open | HalfOpen.
#[global] Instance CircuitBreakerState_eq_dec : EqDecision CircuitBreakerState.
Proof. solve_decision. Defined.

Record CircuitBreaker : Type := mkBreaker {
  state : CircuitBreakerState;
  failure_count : Z;
  last_failure_time : option Z;
  success_count : Z }.

Definition new_breaker : CircuitBreaker := mkBreaker Closed 0 None 0.

Record ErrorMiddleware : Type := mkMiddleware {
  config : ErrorMiddlewareConfig;
  error_stats : ErrorStats;
  circuit_breakers : gmap string CircuitBreaker }.

Definition new (cfg : ErrorMiddlewareConfig) : ErrorMiddleware := mkMiddleware cfg default_stats ∅.

Definition set_stats (x : ErrorStats) (m : ErrorMiddleware) : ErrorMiddleware :=
  mkMiddleware (config m) x (circuit_breakers m).
Definition set_breakers (x : gmap string CircuitBreaker) (m : ErrorMiddleware) : ErrorMiddleware :=
  mkMiddleware (config m) (error_stats m) x.

Inductive LogLevel : Type := LogError | LogWarn | LogInfo | LogDebug.

(** The match does not cover the variants from [Crypto] on. *)
Definition determine_log_level (x : NetworkError) : option LogLevel :=
  match x with
  | NE_Database _ => Some LogError
  | NE_Server _ => Some LogError
  | NE_Connection _ => Some LogWarn
  | NE_Validation _ => Some LogInfo
  | NE_Config _ => Some LogError
  | NE_Io _ => Some LogError
  | NE_Serialization _ => Some LogWarn
  | NE_ShutdownTimeout => Some LogWarn
  | NE_Cancelled => Some LogInfo
  | NE_Internal _ => Some LogError
  | _ => None
  end.

Section Middleware.
Context (debug_text : NetworkError -> string).

Definition get_stack_trace (x : NetworkError) (m : ErrorMiddleware) : option string :=
  if log_internal_errors (config m) then Some (debug_text x) else None.

Definition create_error_record (uuid : string) (now : Z) (x : NetworkError) (ctx : ErrorContext)
    (m : ErrorMiddleware) : ErrorRecord :=
  mkRecord uuid (error_code x) (ctx_component ctx) (ctx_operation ctx) (net_display x) now
    (ctx_request_id ctx) (get_stack_trace x m).

(** [*map.entry(k).or_insert(0) += 1] *)
Definition count (k : string) (m : gmap string Z) : gmap string Z :=
  <[k := as_u64 (default 0 (m !! k) + 1)]> m.

Definition record_error_stats (now : Z) (x : NetworkError) (r : ErrorRecord) (m : ErrorMiddleware)
    : ErrorMiddleware :=
  let s := error_stats m in
  let pushed := recent_errors s ++ [r] in
  set_stats (mkStats (as_u64 (total_errors s + 1)) (count (error_code x) (errors_by_type s))
    (count (component r) (errors_by_component s))
    (if (100 <? length pushed)%nat then drop 1 pushed else pushed) now) m.

(** The breaker of a component after one more failure. *)
Definition breaker_failure (cfg : ErrorMiddlewareConfig) (now : Z) (b : CircuitBreaker) : CircuitBreaker :=
  let failures := as_u64 (failure_count b + 1) in
  match state b with
  | Closed =>
      if circuit_breaker_threshold cfg <=? failures
      then mkBreaker Open failures (Some now) (success_count b)
      else mkBreaker Closed failures (last_failure_time b) (success_count b)
  | Open =>
      match last_failure_time b with
      | Some last_failure =>
          if circuit_breaker_timeout cfg <? now - last_failure
          then mkBreaker HalfOpen failures (Some last_failure) (success_count b)
          else mkBreaker Open failures (Some last_failure) (success_count b)
      | None => mkBreaker Open failures None (success_count b)
      end
  | HalfOpen => mkBreaker Open failures (Some now) (success_count b)
  end.

Definition check_circuit_breaker (now : Z) (comp : string) (m : ErrorMiddleware) : ErrorMiddleware :=
  let breaker := default new_breaker (circuit_breakers m !! comp) in
  set_breakers (<[comp := breaker_failure (config m) now breaker]> (circuit_breakers m)) m.

(** The readings of the clock: when the record is made, when the statistics are
    updated, and when the breaker is. *)
Record Times : Type := mkTimes { t_record : Z; t_stats : Z; t_breaker : Z }.

Definition handle_error (uuid : string) (t : Times) (x : NetworkError) (ctx : ErrorContext)
    (m : ErrorMiddleware) : ContextualError * ErrorMiddleware :=
  let r := create_error_record uuid (t_record t) x ctx m in
  let m1 := record_error_stats (t_stats t) x r m in
  let m2 := if enable_circuit_breaker (config m) then check_circuit_breaker (t_breaker t) (ctx_component ctx) m1
            else m1 in
  (mkContextual x ctx, m2).

Definition breaker_success (b : CircuitBreaker) : CircuitBreaker :=
  let successes := as_u64 (success_count b + 1) in
  match state b with
  | HalfOpen =>
      if 3 <=? successes then mkBreaker Closed 0 (last_failure_time b) 0
      else mkBreaker HalfOpen (failure_count b) (last_failure_time b) successes
  | st => mkBreaker st (failure_count b) (last_failure_time b) successes
  end.

Definition record_success (comp : string) (m : ErrorMiddleware) : ErrorMiddleware :=
  if negb (enable_circuit_breaker (config m)) then m else
  match circuit_breakers m !! comp with
  | Some b => set_breakers (<[comp := breaker_success b]> (circuit_breakers m)) m
  | None => m
  end.

Definition is_circuit_breaker_open (comp : string) (m : ErrorMiddleware) : bool :=
  if negb (enable_circuit_breaker (config m)) then false else
  match circuit_breakers m !! comp with
  | Some b => bool_decide (state b = Open)
  | None => false
  end.

Definition get_error_stats (m : ErrorMiddleware) : ErrorStats := error_stats m.
Definition get_circuit_breaker_status (m : ErrorMiddleware) : gmap string CircuitBreaker :=
  circuit_breakers m.
Definition reset_stats (m : ErrorMiddleware) : ErrorMiddleware := set_stats default_stats m.
Definition reset_circuit_breaker (comp : string) (m : ErrorMiddleware) : ErrorMiddleware :=
  set_breakers (<[comp := new_breaker]> (circuit_breakers m)) m.

(** What a bounded list that was pushed to holds last. *)
Lemma last_bounded {A} (l : list A) x :
  last (if (100 <? length (l ++ [x]))%nat then drop 1 (l ++ [x]) else l ++ [x]) = Some x.
Proof.
  destruct (Nat.ltb_spec 100 (length (l ++ [x]))) as [Hl|]; [|apply last_snoc].
  destruct l as [|y l]; cbn in Hl; [lia|]. cbn. apply last_snoc.
Qed.

(** ** Histories *)

(** A failure is two events, its two sections. *)
Inductive Event : Type :=
| Recorded (uuid : string) (created updated : Z) (x : NetworkError) (ctx : ErrorContext)
| Failed (comp : string) (now : Z)
| Succeeded (comp : string)
| StatsReset
| BreakerReset (comp : string).

Definition step (m : ErrorMiddleware) (ev : Event) : ErrorMiddleware :=
  match ev with
  | Recorded uuid created updated x ctx => record_error_stats updated x (create_error_record uuid created x ctx m) m
  | Failed comp now => if enable_circuit_breaker (config m) then check_circuit_breaker now comp m else m
  | Succeeded comp => record_success comp m
  | StatsReset => reset_stats m
  | BreakerReset comp => reset_circuit_breaker comp m
  end.
Definition run (m : ErrorMiddleware) (es : list Event) : ErrorMiddleware := foldl step m es.

Lemma run_snoc m es ev : run m (es ++ [ev]) = step (run m es) ev.
Proof. unfold run. by rewrite foldl_app. Qed.

(** [handle_error] without interruption. *)
Lemma handle_error_sections uuid t x ctx m :
  snd (handle_error uuid t x ctx m) =
  run m [Recorded uuid (t_record t) (t_stats t) x ctx; Failed (ctx_component ctx) (t_breaker t)].
Proof. done. Qed.

Lemma step_config m ev : config (step m ev) = config m.
Proof.
  destruct ev as [u c1 c2 x ctx|comp now|comp| |comp]; cbn; [done|..|done|done].
  - by destruct (enable_circuit_breaker (config m)).
  - unfold record_success. destruct (negb _); [done|]. by destruct (circuit_breakers m !! comp).
Qed.

Lemma run_config m es : config (run m es) = config m.
Proof. revert m. induction es as [|ev es IH]; intros m; cbn; [done|]. by rewrite IH, step_config. Qed.

(** The specification of the statistics: the records of the failures since the
    last reset, in the order they were recorded, each with the time of that. *)
Fixpoint recorded (cfg : ErrorMiddlewareConfig) (acc : list (ErrorRecord * Z)) (es : list Event)
    : list (ErrorRecord * Z) :=
  match es with
  | [] => acc
  | Recorded uuid created updated x ctx :: rest =>
      recorded cfg (acc ++ [(create_error_record uuid created x ctx (new cfg), updated)]) rest
  | StatsReset :: rest => recorded cfg [] rest
  | _ :: rest => recorded cfg acc rest
  end.

Definition occurrences (f : ErrorRecord -> string) (k : string) (rs : list ErrorRecord) : Z :=
  Z.of_nat (length (filter (fun r => f r = k) rs)).

Definition counted (f : ErrorRecord -> string) (rs : list ErrorRecord) (m : gmap string Z) : Prop :=
  forall k, m !! k = if bool_decide (k ∈ map f rs) then Some (as_u64 (occurrences f k rs)) else None.

Lemma occurrences_snoc f k rs r :
  occurrences f k (rs ++ [r]) = occurrences f k rs + if bool_decide (f r = k) then 1 else 0.
Proof.
  unfold occurrences. rewrite filter_app, length_app, Nat2Z.inj_add, filter_cons.
  case_bool_decide; [rewrite decide_True by done|rewrite decide_False by done]; done.
Qed.

Lemma occurrences_none f k rs : k ∉ map f rs -> occurrences f k rs = 0.
Proof.
  unfold occurrences. induction rs as [|r rs IH]; [done|]. cbn [map]. intros Hk.
  rewrite filter_cons_False by set_solver. apply IH. set_solver.
Qed.

Lemma counted_snoc f rs r m : counted f rs m -> counted f (rs ++ [r]) (count (f r) m).
Proof.
  intros Hc k. rewrite map_app, occurrences_snoc. unfold count. rewrite (Hc (f r)).
  destruct (decide (k = f r)) as [->|Hne].
  - rewrite lookup_insert_eq, (bool_decide_eq_true_2 (f r ∈ map f rs ++ map f [r])) by set_solver.
    rewrite (bool_decide_eq_true_2 (f r = f r)) by done. case_bool_decide as E; cbn [default].
    + unfold id. by rewrite as_u64_add.
    + by rewrite occurrences_none.
  - rewrite lookup_insert_ne, (Hc k), (bool_decide_eq_false_2 (f r = k)), Z.add_0_r by congruence.
    rewrite (bool_decide_ext (k ∈ map f rs ++ map f [r]) (k ∈ map f rs)); [done|]. set_solver.
Qed.

(** The last 100 of a list. *)
Definition last_100 {A} (l : list A) : list A := drop (length l - 100) l.

Lemma last_100_snoc {A} (l : list A) x :
  let pushed := last_100 l ++ [x] in
  (if (100 <? length pushed)%nat then drop 1 pushed else pushed) = last_100 (l ++ [x]).
Proof.
  cbv zeta. unfold last_100. rewrite !length_app, length_drop. cbn [length].
  destruct (100 <? _)%nat eqn:E; [apply Nat.ltb_lt in E|apply Nat.ltb_ge in E].
  - rewrite <- (drop_app_le l [x]) by lia. rewrite drop_drop. f_equal. lia.
  - rewrite <- (drop_app_le l [x]) by lia. f_equal. lia.
Qed.

(** The statistics [s] are those of the records [rs]. *)
Record stats_of (rs : list (ErrorRecord * Z)) (s : ErrorStats) : Prop := mkStatsOf {
  so_total : total_errors s = as_u64 (Z.of_nat (length rs));
  so_type : counted error_type rs.*1 (errors_by_type s);
  so_component : counted component rs.*1 (errors_by_component s);
  so_recent : recent_errors s = last_100 rs.*1;
  so_updated : last_updated s = default 0 (snd <$> last rs) }.

Lemma stats_default : stats_of [] default_stats.
Proof. by split. Qed.

Lemma stats_record rs u c1 c2 x ctx m :
  stats_of rs (error_stats m) ->
  stats_of (rs ++ [(create_error_record u c1 x ctx m, c2)]) (error_stats (step m (Recorded u c1 c2 x ctx))).
Proof.
  intros [H1 H2 H3 H4 H5]. split; cbn [step error_stats record_error_stats set_stats total_errors errors_by_type
    errors_by_component recent_errors last_updated]; rewrite ?fmap_app.
  - rewrite H1, as_u64_add, length_app, Nat2Z.inj_add. done.
  - by apply (counted_snoc error_type rs.*1 (create_error_record u c1 x ctx m)).
  - by apply (counted_snoc component rs.*1 (create_error_record u c1 x ctx m)).
  - rewrite H4. apply last_100_snoc.
  - by rewrite last_snoc.
Qed.

Lemma run_stats m acc es :
  stats_of acc (error_stats m) -> stats_of (recorded (config m) acc es) (error_stats (run m es)).
Proof.
  revert m acc. induction es as [|ev es IH]; intros m acc Hs; [done|]. cbn [run foldl].
  fold (run (step m ev) es). rewrite <- (step_config m ev).
  destruct ev as [u c1 c2 x ctx|comp now|comp| |comp]; cbn [recorded].
  - apply IH. by apply (stats_record acc u c1 c2 x ctx m).
  - apply IH. cbn. by destruct (enable_circuit_breaker _).
  - apply IH. cbn. unfold record_success. destruct (negb _); [done|].
    by destruct (circuit_breakers m !! comp).
  - apply IH. apply stats_default.
  - by apply IH.
Qed.

(** ** The breaker of one component *)

Definition breaker (comp : string) (m : ErrorMiddleware) : CircuitBreaker :=
  default new_breaker (circuit_breakers m !! comp).

(** The part of a history a component's breaker sees. *)
Inductive BreakerEvent : Type := BFail (now : Z) | BSuccess | BReset.

Definition seen_by (comp : string) (ev : Event) : option BreakerEvent :=
  match ev with
  | Failed c now => if decide (c = comp) then Some (BFail now) else None
  | Succeeded c => if decide (c = comp) then Some BSuccess else None
  | BreakerReset c => if decide (c = comp) then Some BReset else None
  | Recorded _ _ _ _ _ | StatsReset => None
  end.

Definition breaker_step (cfg : ErrorMiddlewareConfig) (b : CircuitBreaker) (ev : BreakerEvent) : CircuitBreaker :=
  match ev with
  | BFail now => breaker_failure cfg now b
  | BSuccess => breaker_success b
  | BReset => new_breaker
  end.

(** A success of a component that never failed is not recorded: it has no breaker. *)
Lemma step_breaker comp m ev :
  enable_circuit_breaker (config m) = true ->
  circuit_breakers (step m ev) !! comp =
    match seen_by comp ev with
    | Some BSuccess => breaker_success <$> circuit_breakers m !! comp
    | Some e => Some (breaker_step (config m) (breaker comp m) e)
    | None => circuit_breakers m !! comp
    end.
Proof.
  intros Hen. unfold breaker. destruct ev as [u c1 c2 x ctx|c now|c| |c]; cbn [step seen_by].
  - done.
  - rewrite Hen. unfold check_circuit_breaker. cbn. destruct (decide (c = comp)) as [->|Hne]; cbn.
    + apply lookup_insert_eq.
    + by apply lookup_insert_ne.
  - unfold record_success. rewrite Hen. cbn [negb].
    destruct (circuit_breakers m !! c) eqn:E; destruct (decide (c = comp)) as [<-|Hne]; cbn;
      rewrite ?lookup_insert_eq, ?lookup_insert_ne, ?E by done; done.
  - done.
  - destruct (decide (c = comp)) as [->|Hne]; cbn; [apply lookup_insert_eq|by apply lookup_insert_ne].
Qed.

Lemma is_open_breaker comp m :
  enable_circuit_breaker (config m) = true ->
  is_circuit_breaker_open comp m = bool_decide (state (breaker comp m) = Open).
Proof.
  intros Hen. unfold is_circuit_breaker_open, breaker. rewrite Hen. by destruct (circuit_breakers m !! comp).
Qed.

Definition is_failure (comp : string) (ev : Event) : bool :=
  match seen_by comp ev with Some (BFail _) => true | _ => false end.
Definition failures (comp : string) (es : list Event) : Z :=
  Z.of_nat (length (filter (fun ev => is_failure comp ev = true) es)).

(** No reset of the component's breaker, and its failures within a window. *)
Definition within (comp : string) (lo hi : Z) (ev : Event) : Prop :=
  match seen_by comp ev with
  | Some (BFail now) => lo <= now <= hi
  | Some BReset => False
  | _ => True
  end.

Lemma failures_snoc comp es ev :
  failures comp (es ++ [ev]) = failures comp es + if is_failure comp ev then 1 else 0.
Proof.
  unfold failures. rewrite filter_app, length_app, Nat2Z.inj_add, filter_cons.
  by destruct (is_failure comp ev).
Qed.

(** Closed with [n] failures below the threshold, or open since [lo] or later. *)
Definition counting (cfg : ErrorMiddlewareConfig) (lo n : Z) (b : CircuitBreaker) : Prop :=
  match state b with
  | Closed => failure_count b = n /\ n < Z.max 1 (circuit_breaker_threshold cfg)
  | Open => Z.max 1 (circuit_breaker_threshold cfg) <= n /\ exists t, last_failure_time b = Some t /\ lo <= t
  | HalfOpen => False
  end.

Lemma counting_failure cfg lo n now b :
  0 <= n < u64_max -> lo <= now <= lo + circuit_breaker_timeout cfg ->
  counting cfg lo n b -> counting cfg lo (n + 1) (breaker_failure cfg now b).
Proof.
  intros Hn Hnow. unfold counting, breaker_failure. destruct (state b) eqn:Es; [| |done].
  - intros [-> Hlt]. assert (as_u64 (n + 1) = n + 1) as -> by (apply Z.mod_small; lia).
    destruct (_ <=? _) eqn:E; bool_to_prop; cbn; [split; [lia|]; exists now; split; [done|lia]|].
    split; [done|lia].
  - intros [Hle (t & Ht & Hlo)]. rewrite Ht. destruct (_ <? _) eqn:E; bool_to_prop; [lia|]. cbn.
    split; [lia|]. by exists t.
Qed.

Lemma counting_success cfg lo n b : counting cfg lo n b -> counting cfg lo n (breaker_success b).
Proof. unfold counting, breaker_success. by destruct (state b). Qed.

Lemma run_counting comp cfg lo es :
  enable_circuit_breaker cfg = true -> Z.of_nat (length es) <= u64_max ->
  Forall (within comp lo (lo + circuit_breaker_timeout cfg)) es ->
  counting cfg lo (failures comp es) (breaker comp (run (new cfg) es)).
Proof.
  intros Hen. induction es as [|ev es IH] using rev_ind; intros Hlen Hw.
  { unfold counting. cbn. split; [done|]. unfold failures; cbn. lia. }
  apply Forall_app in Hw as [Hw He]. inversion He as [|? ? He' _]; subst.
  rewrite length_app in Hlen. cbn [length] in Hlen. specialize (IH ltac:(lia) Hw).
  rewrite run_snoc, failures_snoc. unfold breaker at 1.
  assert (config (run (new cfg) es) = cfg) as Hc by apply run_config.
  rewrite step_breaker, Hc by (by rewrite Hc). unfold within in He'. unfold is_failure.
  destruct (seen_by comp ev) as [[now| |]|]; cbn [default breaker_step].
  - apply counting_failure; [|done|done]. unfold failures.
    pose proof (length_filter (fun ev => is_failure comp ev = true) es). lia.
  - rewrite Z.add_0_r. destruct (circuit_breakers _ !! comp) as [b|] eqn:E; unfold breaker in IH; rewrite E in IH; cbn in *.
    + by apply counting_success.
    + done.
  - done.
  - by rewrite Z.add_0_r.
Qed.
End Middleware.

(** ** Theorems *)

(** C32. The statistics are exactly those of the failures recorded since the last
    reset, however the sections of different tasks interleave and whatever
    successes, breaker updates and breaker resets came between: the total, the
    number for each error code and for each component (absent when there was
    none), the last 100 records in the order they were recorded, and the time at
    which the last was recorded, which is read apart from the record's own time;
    counters are u64 and wrap. *)
Theorem error_stats_exact debug_text cfg es :
  let log := recorded debug_text cfg [] es in
  let rs := log.*1 in
  let s := get_error_stats (run debug_text (new cfg) es) in
  total_errors s = as_u64 (Z.of_nat (length rs)) /\
  (forall k, errors_by_type s !! k =
     if bool_decide (k ∈ map error_type rs) then Some (as_u64 (occurrences error_type k rs)) else None) /\
  (forall k, errors_by_component s !! k =
     if bool_decide (k ∈ map component rs) then Some (as_u64 (occurrences component k rs)) else None) /\
  recent_errors s = drop (length rs - 100) rs /\
  last_updated s = default 0 (snd <$> last log).
Proof.
  cbv zeta. destruct (run_stats debug_text (new cfg) [] es stats_default). split_and!; [by rewrite length_fmap|done..].
Qed.

(** A breaker opens at its threshold and not before: as long as a component's
    failures fall within one timeout of the first and nobody resets it, its
    breaker is open exactly when the component has failed [threshold] times (at
    least once) - whatever successes are recorded in between, and whatever happens
    to other components. *)
Theorem breaker_opens_at_threshold debug_text cfg comp t0 es :
  enable_circuit_breaker cfg = true -> Z.of_nat (length es) <= u64_max ->
  Forall (within comp t0 (t0 + circuit_breaker_timeout cfg)) es ->
  is_circuit_breaker_open comp (run debug_text (new cfg) es) =
    (Z.max 1 (circuit_breaker_threshold cfg) <=? failures comp es).
Proof.
  intros Hen Hlen Hw. pose proof (run_counting debug_text comp cfg t0 es Hen Hlen Hw) as Hc.
  rewrite is_open_breaker by (by rewrite run_config). unfold counting in Hc.
  destruct (state _); cbn; [|symmetry; apply Z.leb_le; lia|done]. symmetry. apply Z.leb_gt. lia.
Qed.

(** How an open breaker recovers: successes, statistics resets and whatever
    happens to other components never move it; a failure moves it, to half-open
    when it comes later than the timeout after the opening.  From half-open a
    failure opens it again, and a success closes it when it is the third recorded
    since the breaker was last closed or reset - successes recorded before it
    opened included, so the first probe can be enough. *)
Theorem breaker_recovery debug_text comp m t f k ev :
  enable_circuit_breaker (config m) = true ->
  circuit_breakers m !! comp = Some (mkBreaker Open f (Some t) k) -> 0 <= k < u64_max ->
  (is_failure comp ev = false -> seen_by comp ev <> Some BReset ->
     is_circuit_breaker_open comp (step debug_text m ev) = true) /\
  (forall now,
     let m1 := step debug_text m (Failed comp now) in
     is_circuit_breaker_open comp m1 = negb (circuit_breaker_timeout (config m) <? now - t) /\
     (circuit_breaker_timeout (config m) < now - t ->
        (forall now', is_circuit_breaker_open comp (step debug_text m1 (Failed comp now')) = true) /\
        exists b, circuit_breakers (step debug_text m1 (Succeeded comp)) !! comp = Some b /\
          (state b = Closed <-> 2 <= k) /\ state b <> Open)).
Proof.
  intros Hen Hb Hk.
  assert (forall ev, config (step debug_text m ev) = config m) as Hcfg by apply step_config.
  split.
  - intros Hf Hr. rewrite is_open_breaker by (by rewrite Hcfg). unfold breaker.
    rewrite step_breaker by done. unfold is_failure in Hf.
    by destruct (seen_by comp ev) as [[]|]; try done; rewrite ?Hb; cbn.
  - intros now m1. assert (config m1 = config m) as Hc1 by apply Hcfg.
    assert (seen_by comp (Failed comp now) = Some (BFail now)) as Hs by (cbn; by rewrite decide_True).
    assert (circuit_breakers m1 !! comp = Some (breaker_failure (config m) now (mkBreaker Open f (Some t) k)))
      as Hm1 by (unfold m1; rewrite step_breaker, Hs by done; unfold breaker; by rewrite Hb).
    clearbody m1. split.
    { rewrite is_open_breaker by (by rewrite Hc1). unfold breaker. rewrite Hm1. cbn. by destruct (_ <? _). }
    intros Hlate. unfold breaker_failure in Hm1. cbn in Hm1.
    destruct (_ <? _) eqn:E in Hm1; bool_to_prop; [|lia]. split.
    + intros now'. rewrite is_open_breaker by (by rewrite step_config, Hc1). unfold breaker.
      rewrite step_breaker by (by rewrite Hc1). cbn [seen_by]. rewrite decide_True by done.
      cbn. unfold breaker. by rewrite Hm1.
    + rewrite step_breaker by (by rewrite Hc1). cbn [seen_by]. rewrite decide_True, Hm1 by done.
      eexists. split; [reflexivity|]. unfold breaker_success. cbn.
      assert (as_u64 (k + 1) = k + 1) as -> by (apply Z.mod_small; lia).
      destruct (3 <=? k + 1) eqn:E3; bool_to_prop; cbn; (split; [split; [lia || done|done || lia]|done]).
Qed.

(** *** Witnesses *)

Definition small_config : ErrorMiddlewareConfig := mkMwConfig true true 100 2 60000 true true false.
Definition db_ctx : ErrorContext := new_context 0 "query" "db".
Definition two_failures : list Event :=
  [Recorded "a" 0 0 NE_Cancelled db_ctx; Failed "db" 0; Succeeded "db"; Succeeded "db";
   Recorded "b" 99 100 NE_Cancelled db_ctx; Failed "db" 100].

Lemma breaker_opens_at_threshold_witness :
  is_circuit_breaker_open "db" (run (fun _ => "?") (new small_config) two_failures) = true.
Proof.
  rewrite (breaker_opens_at_threshold (fun _ => "?"%string) small_config "db" 0 two_failures);
    [vm_compute; reflexivity|reflexivity|vm_compute; discriminate|].
  repeat constructor; cbn; lia.
Defined.

Lemma breaker_recovery_witness :
  is_circuit_breaker_open "db"
    (step (fun _ => "?") (run (fun _ => "?") (new small_config) two_failures)
      (Failed "db" 60101)) = false.
Proof.
  destruct (breaker_recovery (fun _ => "?"%string) "db" (run (fun _ => "?"%string) (new small_config) two_failures)
    100 2 2 (Succeeded "x")) as [_ H]; [reflexivity|vm_compute; reflexivity|unfold u64_max; lia|].
  destruct (H 60101) as [-> _]. reflexivity.
Defined.
