(* ===== verification/Signer.v ===== *)
(** The [Signer] trait of network-node/src/signing.rs, its configuration, and the
    interface of the ed25519 library the node uses.

    The library (ed25519_dalek) is not part of the repository: keys, signing and
    verification are the class [Ed25519], and that a signature made with a key
    pair verifies under its public key is the class [Ed25519Laws].  A
    [dyn Signer] is a record of operations on the outside world [W] (the key
    service, its network and its clock). *)
From stdpp Require Import base list strings.
From S2P Require Import Prelude NetworkErrors.

Class Ed25519 : Type := {
  PublicKey : Type;
  Keypair : Type;
  Signature : Type;
  public : Keypair -> PublicKey;
  sign_message : Keypair -> list Z -> Signature;
  signature_to_bytes : Signature -> list Z;
  signature_from_bytes : list Z -> result string Signature;
  public_to_bytes : PublicKey -> list Z;
  public_from_bytes : list Z -> result string PublicKey;
  verify : PublicKey -> list Z -> Signature -> result string unit }.

Class Ed25519Laws `{Ed25519} : Prop := {
  verify_sign kp m : verify (public kp) m (sign_message kp m) = Ok tt;
  signature_roundtrip s : signature_from_bytes (signature_to_bytes s) = Ok s;
  public_roundtrip pk : public_from_bytes (public_to_bytes pk) = Ok pk;
  public_length pk : length (public_to_bytes pk) = 32%nat;
  signature_length s : length (signature_to_bytes s) = 64%nat }.

Record Signer `{Ed25519} (W : Type) : Type := mkSigner {
  get_public_key : W -> result NetworkError PublicKey * W;
  sign : list Z -> W -> result NetworkError (list Z) * W;
  get_key_id : result NetworkError string;
  health_check : W -> result NetworkError bool * W }.
Arguments mkSigner {_ W} get_public_key sign get_key_id health_check.
Arguments get_public_key {_ W} s _. Arguments sign {_ W} s _ _.
Arguments get_key_id {_ W} s. Arguments health_check {_ W} s _.

Inductive SignerConfig : Type :=
| Local (key_path : string)
| AwsKms (key_id region : string) (profile : option string)
| Hsm (slot_id : Z) (pin : string).

(** [str::contains]. *)
Fixpoint contains (needle s : string) : bool :=
  String.prefix needle s || match s with String _ s' => contains needle s' | EmptyString => false end.

(** ** An instance that satisfies the laws: the key is a number, and a signature
    is the key plus the sum of the message. *)
Definition checksum (m : list Z) : Z := sumZ id m.

#[global] Instance toy_ed25519 : Ed25519 | 100 := {|
  PublicKey := Z; Keypair := Z; Signature := Z;
  public kp := kp; sign_message kp m := kp + checksum m;
  signature_to_bytes s := s :: replicate 63 0;
  signature_from_bytes l :=
    if (length l =? 64)%nat then ok_or (head l) "empty"%string else Err "length"%string;
  public_to_bytes pk := replicate 31 0 ++ [pk];
  public_from_bytes l := if (length l =? 32)%nat then ok_or (last l) "empty"%string else Err "length"%string;
  verify pk m s := if s =? pk + checksum m then Ok tt else Err "mismatch"%string |}.

#[global] Instance toy_ed25519_laws : Ed25519Laws | 100.
Proof. split; try done. intros. cbn. by rewrite Z.eqb_refl. Qed.
