(* ===== verification/Kms.v ===== *)
(** The AWS KMS signers: network-node/src/aws_kms_signer.rs ([KmsSigner]) and the
    older one of network-node/src/amazon_eks.rs ([AwsKmsSigner]), which retries.

    The KMS service and the AWS SDK are outside the repository: a request is an
    operation on the world that times out, fails with an error of the SDK or
    answers.  Sleeping between attempts is an operation on the world too. *)
From stdpp Require Import base list strings pretty.
From S2P Require Import Prelude NetworkErrors Signer.

(** [aws_sdk_kms::Error]: the variants the code tells apart, each with its text,
    and the others with theirs. *)
Inductive KmsError : Type :=
| NotFoundException (msg : string)
| DisabledException (msg : string)
| KeyUnavailableException (msg : string)
| InvalidKeyUsageException (msg : string)
| InvalidGrantTokenException (msg : string)
| KmsInternalException (msg : string)
| KmsInvalidStateException (msg : string)
| DependencyTimeoutException (msg : string)
| LimitExceededException (msg : string)
| OtherKmsError (msg : string).

Inductive Reply : Type :=
| TimedOut
| Failed (x : KmsError)
| Answered (bytes : option (list Z)).

Inductive SigningAlgorithm : Type := EcdsaSha256 | Ed25519Alg.
Inductive MessageType : Type := Digest | Raw.

Record KmsConfig : Type := mkKmsConfig {
  key_id : string;
  region : string;
  profile : option string;
  endpoint_url : option string;
  timeout_ms : Z;
  max_retries : Z;
  retry_delay_ms : Z }.

Definition default_kms_config : KmsConfig := mkKmsConfig "" "us-east-1" None None 30000 3 1000.

Section Signers.
Context `{Ed25519} {W : Type}
  (kms_sign : string -> SigningAlgorithm -> MessageType -> list Z -> Z -> W -> Reply * W)
  (kms_public_key : string -> Z -> W -> Reply * W)
  (sleep_ms : Z -> W -> W)
  (sdk_error_text : KmsError -> string)
  (sha256 : list Z -> list Z)
  (http_client : KmsConfig -> W -> result string unit * W)
  (load_config : KmsConfig -> W -> result string unit * W).

(** ** KmsSigner *)

Definition handle_kms_error (x : KmsError) : NetworkError :=
  match x with
  | NotFoundException msg => NE_Kms ("Key not found: " +:+ msg)
  | LimitExceededException msg => NE_KmsRateLimit msg
  | DependencyTimeoutException msg => NE_KmsTimeout msg
  | _ => NE_Kms ("KMS error: " +:+ sdk_error_text x)
  end.

(** What is in a reply, with the error of the operation [what] on a timeout and
    of a missing [part]. *)
Definition reply_bytes (cfg : KmsConfig) (handle : KmsError -> NetworkError) (what part : string) (r : Reply)
    : result NetworkError (list Z) :=
  match r with
  | TimedOut => Err (NE_KmsTimeout (what +:+ " timed out after " +:+ pretty (timeout_ms cfg) +:+ "ms"))
  | Failed x => Err (handle x)
  | Answered None => Err (NE_Kms ("No " +:+ part +:+ " returned from KMS"))
  | Answered (Some bytes) => Ok bytes
  end.

Definition attempt_sign (cfg : KmsConfig) (message_hash : list Z) (w : W) : result NetworkError (list Z) * W :=
  let '(r, w') := kms_sign (key_id cfg) Ed25519Alg Raw message_hash (timeout_ms cfg) w in
  (reply_bytes cfg handle_kms_error "Signing operation" "signature" r, w').

Definition attempt_get_public_key (cfg : KmsConfig) (w : W) : result NetworkError PublicKey * W :=
  let '(r, w') := kms_public_key (key_id cfg) (timeout_ms cfg) w in
  (let? spki := reply_bytes cfg handle_kms_error "Public key retrieval" "public key" r in
   if negb (length spki =? 44)%nat
   then Err (NE_Kms ("Unexpected SPKI length for Ed25519: " +:+ pretty (Z.of_nat (length spki)) +:+
              ". Expected 44 bytes."))
   else match public_from_bytes (drop 12 spki) with
        | Ok pk => Ok pk
        | Err x => Err (NE_Kms ("Invalid public key format: " +:+ x))
        end, w').

Definition kms_health_check (cfg : KmsConfig) (w : W) : result NetworkError bool * W :=
  match attempt_get_public_key cfg w with
  | (Ok _, w') => (Ok true, w')
  | (Err _, w') => (Ok false, w')
  end.

Definition kms_signer (cfg : KmsConfig) : Signer W :=
  mkSigner (attempt_get_public_key cfg) (attempt_sign cfg) (Ok (key_id cfg)) (kms_health_check cfg).

(** The result of the health check is dropped: only its error would stop the
    construction, and it never has one. *)
Definition kms_with_config (cfg : KmsConfig) (w : W) : result NetworkError (Signer W) * W :=
  let signer := kms_signer cfg in
  match health_check signer w with
  | (Ok _, w') => (Ok signer, w')
  | (Err x, w') => (Err x, w')
  end.

Definition kms_new (kid reg : string) (prof : option string) (w : W) : result NetworkError (Signer W) * W :=
  kms_with_config (mkKmsConfig kid reg prof (endpoint_url default_kms_config)
    (timeout_ms default_kms_config) (max_retries default_kms_config) (retry_delay_ms default_kms_config)) w.

(** ** AwsKmsSigner *)

Definition should_retry (x : NetworkError) : bool :=
  match x with
  | NE_KmsTimeout _ => true
  | NE_Kms msg => contains "Throttling" msg || contains "Rate exceeded" msg ||
      contains "Internal failure" msg || contains "Service unavailable" msg || contains "Request timeout" msg
  | _ => false
  end.

Definition aws_handle_kms_error (x : KmsError) : NetworkError :=
  match x with
  | NotFoundException msg => NE_Kms ("KMS key not found: " +:+ msg)
  | DisabledException msg => NE_Kms ("KMS key is disabled: " +:+ msg)
  | KeyUnavailableException msg => NE_Kms ("KMS key is unavailable: " +:+ msg)
  | InvalidKeyUsageException msg => NE_Kms ("Invalid key usage for signing: " +:+ msg)
  | InvalidGrantTokenException msg => NE_Kms ("Invalid grant token: " +:+ msg)
  | KmsInternalException msg => NE_Kms ("KMS internal error: " +:+ msg)
  | KmsInvalidStateException msg => NE_Kms ("KMS invalid state: " +:+ msg)
  | DependencyTimeoutException msg => NE_KmsTimeout ("KMS dependency timeout: " +:+ msg)
  | LimitExceededException msg => NE_KmsRateLimit ("KMS rate limit exceeded: " +:+ msg)
  | OtherKmsError _ => NE_Kms ("KMS error: " +:+ sdk_error_text x)
  end.

(** [for attempt in 1..=max_retries]; [left] attempts are left. *)
Fixpoint retry_loop {A} (delay : Z) (op : W -> result NetworkError A * W) (left : nat)
    (last_error : option NetworkError) (w : W) : result NetworkError A * W :=
  match left with
  | O => (Err (default (NE_Kms "All retry attempts failed") last_error), w)
  | S n =>
      match op w with
      | (Ok a, w') => (Ok a, w')
      | (Err x, w') =>
          if negb (should_retry x) || (n =? 0)%nat then (Err x, w')
          else retry_loop delay op n (Some x) (sleep_ms delay w')
      end
  end.

(** The message is hashed, and the digest signed with ECDSA. *)
Definition aws_attempt_sign (cfg : KmsConfig) (message : list Z) (w : W) : result NetworkError (list Z) * W :=
  let '(r, w') := kms_sign (key_id cfg) EcdsaSha256 Digest (sha256 message) (timeout_ms cfg) w in
  (reply_bytes cfg aws_handle_kms_error "Signing operation" "signature" r, w').

Definition sign_with_retry (cfg : KmsConfig) (message : list Z) (w : W) : result NetworkError (list Z) * W :=
  retry_loop (retry_delay_ms cfg) (aws_attempt_sign cfg message) (Z.to_nat (max_retries cfg)) None w.

(** The bytes of the answer are taken as the key, without unwrapping. *)
Definition aws_attempt_get_public_key (cfg : KmsConfig) (w : W) : result NetworkError PublicKey * W :=
  let '(r, w') := kms_public_key (key_id cfg) (timeout_ms cfg) w in
  (let? bytes := reply_bytes cfg aws_handle_kms_error "Public key retrieval" "public key" r in
   match public_from_bytes bytes with
   | Ok pk => Ok pk
   | Err x => Err (NE_Kms ("Invalid public key format: " +:+ x))
   end, w').

Definition get_public_key_with_retry (cfg : KmsConfig) (w : W) : result NetworkError PublicKey * W :=
  retry_loop (retry_delay_ms cfg) (aws_attempt_get_public_key cfg) (Z.to_nat (max_retries cfg)) None w.

Definition aws_health_check (cfg : KmsConfig) (w : W) : result NetworkError bool * W :=
  match aws_attempt_get_public_key cfg w with
  | (Ok _, w') => (Ok true, w')
  | (Err _, w') => (Ok false, w')
  end.

Definition aws_kms_signer (cfg : KmsConfig) : Signer W :=
  mkSigner (get_public_key_with_retry cfg) (sign_with_retry cfg) (Ok (key_id cfg)) (aws_health_check cfg).

Definition aws_with_config (cfg : KmsConfig) (w : W) : result NetworkError (Signer W) * W :=
  match http_client cfg w with
  | (Err x, w1) => (Err (NE_Kms ("Failed to create HTTP client: " +:+ x)), w1)
  | (Ok _, w1) =>
      match load_config cfg w1 with
      | (Err x, w2) => (Err (NE_Kms ("Failed to load AWS config: " +:+ x)), w2)
      | (Ok _, w2) =>
          match health_check (aws_kms_signer cfg) w2 with
          | (Ok _, w3) => (Ok (aws_kms_signer cfg), w3)
          | (Err x, w3) => (Err x, w3)
          end
      end
  end.

Definition aws_new (kid reg : string) (prof : option string) (w : W) : result NetworkError (Signer W) * W :=
  aws_with_config (mkKmsConfig kid reg prof (endpoint_url default_kms_config)
    (timeout_ms default_kms_config) (max_retries default_kms_config) (retry_delay_ms default_kms_config)) w.

(** ** The retry loop *)

(** [op] failed with the errors [es], one attempt after the other with a pause
    after each, and left the world [w']. *)
Inductive failed_attempts {A} (delay : Z) (op : W -> result NetworkError A * W)
    : list NetworkError -> W -> W -> Prop :=
| NoFailure w : failed_attempts delay op [] w w
| OneFailure x es w w1 w2 :
    op w = (Err x, w1) -> failed_attempts delay op es (sleep_ms delay w1) w2 ->
    failed_attempts delay op (x :: es) w w2.

(** The last attempt decides: its result is the result, and it is the last
    because it succeeded, must not be retried, or the attempts are used up. *)
Definition retried {A} (delay : Z) (op : W -> result NetworkError A * W) (max : nat) (w : W)
    (out : result NetworkError A * W) : Prop :=
  exists es w1, failed_attempts delay op es w w1 /\ op w1 = out /\
    Forall (fun x => should_retry x = true) es /\ (length es < max)%nat /\
    match fst out with
    | Ok _ => True
    | Err x => should_retry x = false \/ S (length es) = max
    end.

Lemma retry_loop_spec {A} delay (op : W -> result NetworkError A * W) n last_error w :
  retried delay op (S n) w (retry_loop delay op (S n) last_error w).
Proof.
  revert last_error w. induction n as [|n IH]; intros last_error w; cbn [retry_loop].
  - exists [], w. split; [constructor|]. destruct (op w) as [[a|x] w'] eqn:E.
    + split; [done|]. split; [constructor|]. split; [cbn; lia|done].
    + rewrite orb_true_r. split; [done|]. split; [constructor|]. split; [cbn; lia|by right].
  - destruct (op w) as [[a|x] w'] eqn:E.
    + exists [], w. repeat split; [constructor|done|constructor|cbn; lia].
    + destruct (should_retry x) eqn:Es; cbn [negb orb Nat.eqb].
      * destruct (IH (Some x) (sleep_ms delay w')) as (es & w1 & H1 & H2 & H3 & H4 & H5).
        exists (x :: es), w1. split; [by econstructor|]. split; [done|]. split; [by constructor|].
        split; [cbn; lia|]. destruct (fst _); [done|]. destruct H5 as [H5|H5]; [by left|right; cbn; lia].
      * exists [], w. repeat split; [constructor|done|constructor|cbn; lia|by left].
Qed.
End Signers.

(** ** Theorems *)

(** Signing and key retrieval with retries always return, after at most
    [max_retries] requests: every request but the last failed with an error that
    may be retried and was followed by the configured pause, the result is that of
    the last request, and the loop stopped there because it succeeded, because
    its error must not be retried, or because the attempts were used up; with no
    attempts configured nothing is sent.  A refusal for the rate limit ends the
    loop at once, although [NetworkError::is_retryable] calls it retryable. *)
Theorem kms_retry_bounded `{Ed25519} {W} kms_sign kms_public_key (sleep_ms : Z -> W -> W)
    sdk_error_text sha256 cfg message w :
  let sign := sign_with_retry kms_sign sleep_ms sdk_error_text sha256 cfg message w in
  let key := get_public_key_with_retry kms_public_key sleep_ms sdk_error_text cfg w in
  let max := Z.to_nat (max_retries cfg) in
  (max = 0%nat -> sign = (Err (NE_Kms "All retry attempts failed"), w) /\
                  key = (Err (NE_Kms "All retry attempts failed"), w)) /\
  (0 < max_retries cfg ->
     retried sleep_ms (retry_delay_ms cfg) (aws_attempt_sign kms_sign sdk_error_text sha256 cfg message) max w sign /\
     retried sleep_ms (retry_delay_ms cfg) (aws_attempt_get_public_key kms_public_key sdk_error_text cfg) max w key /\
     (forall msg w', kms_sign (key_id cfg) EcdsaSha256 Digest (sha256 message) (timeout_ms cfg) w =
          (Failed (LimitExceededException msg), w') ->
        exists x, sign = (Err x, w') /\ is_retryable x = true)).
Proof.
  cbv zeta. unfold sign_with_retry, get_public_key_with_retry. split; [by intros ->|]. intros Hpos.
  destruct (Z.to_nat (max_retries cfg)) as [|n] eqn:E; [lia|].
  split; [apply retry_loop_spec|]. split; [apply retry_loop_spec|].
  intros msg w' Hr. cbn. unfold aws_attempt_sign at 1. rewrite Hr. cbn. by eexists.
Qed.

(** [KmsSigner] accepts exactly the public keys KMS delivers in the 44-byte
    form, and takes the last 32 bytes: any other length is refused with an error
    that is reported, and construction succeeds whether or not the key can be
    read, since the outcome of its health check is dropped. *)
Theorem kms_public_key_form `{Ed25519Laws} {W} kms_sign (kms_public_key : string -> Z -> W -> Reply * W)
    sdk_error_text cfg w w' :
  let signer := kms_signer kms_sign kms_public_key sdk_error_text cfg in
  (forall prefix pk, length prefix = 12%nat ->
     kms_public_key (key_id cfg) (timeout_ms cfg) w = (Answered (Some (prefix ++ public_to_bytes pk)), w') ->
     get_public_key signer w = (Ok pk, w') /\ health_check signer w = (Ok true, w')) /\
  (forall bytes, length bytes <> 44%nat ->
     kms_public_key (key_id cfg) (timeout_ms cfg) w = (Answered (Some bytes), w') ->
     exists msg, get_public_key signer w = (Err (NE_Kms msg), w') /\ health_check signer w = (Ok false, w')) /\
  fst (kms_with_config kms_sign kms_public_key sdk_error_text cfg w) = Ok signer.
Proof.
  cbv zeta. cbn [get_public_key health_check kms_signer]. unfold kms_health_check, attempt_get_public_key.
  split_and!.
  - intros prefix pk Hlen ->. cbn [reply_bytes bindR].
    rewrite length_app, Hlen, public_length. cbn [Nat.add Nat.eqb negb].
    by rewrite drop_app_length', public_roundtrip by done.
  - intros bytes Hlen ->. cbn [reply_bytes bindR]. rewrite (proj2 (Nat.eqb_neq _ _) Hlen). cbn. by eexists.
  - unfold kms_with_config. cbn [health_check kms_signer]. unfold kms_health_check.
    by destruct (attempt_get_public_key _ _ cfg w) as [[]].
Qed.

(** *** Witnesses *)

(** A key service that fails [w] times with a timeout, then answers. *)
Definition flaky_sign (kid : string) (a : SigningAlgorithm) (t : MessageType) (m : list Z) (timeout : Z)
    (w : nat) : Reply * nat :=
  match w with O => (Answered (Some m), O) | S n => (TimedOut, n) end.

Lemma kms_retry_bounded_witness :
  retried (fun _ w => w) 1000 (aws_attempt_sign flaky_sign (fun _ => "") id default_kms_config [7])
    3 2%nat (Ok [7], 0%nat).
Proof.
  refine (proj1 (proj2 (kms_retry_bounded flaky_sign (fun _ _ w => (TimedOut, w)) (fun _ w => w)
    (fun _ => ""%string) id default_kms_config [7] 2%nat) _)). cbn. lia.
Defined.

Lemma kms_public_key_form_witness :
  get_public_key (kms_signer (W := unit) (fun _ _ _ m _ w => (Answered (Some m), w))
    (fun _ _ w => (Answered (Some (replicate 12 0 ++ public_to_bytes (5 : PublicKey))), w)) (fun _ => "")
    default_kms_config) tt = (Ok 5, tt).
Proof.
  refine (proj1 (proj1 (kms_public_key_form (fun _ _ _ m _ w => (Answered (Some m), w))
    (fun _ _ w => (Answered (Some (replicate 12 0 ++ public_to_bytes (5 : PublicKey))), w))
    (fun _ => ""%string) default_kms_config tt tt) (replicate 12 0) 5 _ _)); reflexivity.
Defined.
