(* ===== verification/Signing.v ===== *)
(** network-node/src/signing.rs: the public key cache, the local and HSM signers,
    the factory and the signing service.

    A signer is an operation record on the world [W] (Signer.v); the maps are
    gmaps, an iteration order is an argument where it shows.  The clock
    (milliseconds) is an argument of each reading. *)
From stdpp Require Import base gmap list strings pretty.
From S2P Require Import Prelude NetworkErrors Signer Kms.

Section Signing.
Context `{Ed25519Laws} {W : Type}.

(** ** The public key cache *)

Record CacheEntry : Type := mkEntry {
  public_key : PublicKey;
  cached_at : Z;
  ttl : Z }.

(** [chrono::Duration::seconds]. *)
Definition new_entry (now : Z) (pk : PublicKey) (ttl_seconds : Z) : CacheEntry :=
  mkEntry pk now (1000 * ttl_seconds).

Definition is_expired (now : Z) (x : CacheEntry) : bool := cached_at x + ttl x <? now.

Record PublicKeyCache : Type := mkCache {
  cache : gmap string CacheEntry;
  default_ttl_seconds : Z }.

Definition new_cache (ttl_seconds : Z) : PublicKeyCache := mkCache ∅ ttl_seconds.

Definition cached (now : Z) (kid : string) (c : PublicKeyCache) : option PublicKey :=
  match cache c !! kid with
  | Some x => if is_expired now x then None else Some (public_key x)
  | None => None
  end.

(** [now] is read for the expiry, [now'] after the fetch. *)
Definition get_or_fetch (now now' : Z) (kid : string) (fetch : W -> result NetworkError PublicKey * W)
    (c : PublicKeyCache) (w : W) : result NetworkError PublicKey * PublicKeyCache * W :=
  match cached now kid c with
  | Some pk => (Ok pk, c, w)
  | None =>
      match fetch w with
      | (Err x, w') => (Err x, c, w')
      | (Ok pk, w') =>
          (Ok pk, mkCache (<[kid := new_entry now' pk (default_ttl_seconds c)]> (cache c))
                    (default_ttl_seconds c), w')
      end
  end.

Definition invalidate (kid : string) (c : PublicKeyCache) : PublicKeyCache :=
  mkCache (delete kid (cache c)) (default_ttl_seconds c).
Definition clear (c : PublicKeyCache) : PublicKeyCache := mkCache ∅ (default_ttl_seconds c).

Record CacheStats : Type := mkCacheStats {
  total_entries : Z;
  expired_entries : Z;
  valid_entries : Z }.

Definition stats (now : Z) (c : PublicKeyCache) : CacheStats :=
  let total := Z.of_nat (size (cache c)) in
  let expired := Z.of_nat (size (filter (fun kx => is_expired now kx.2 = true) (cache c))) in
  mkCacheStats total expired (total - expired).

(** ** Local and HSM signers *)

Record LocalSigner : Type := mkLocal { key_pair : Keypair; local_key_id : string }.

(** The key pair is generated, whatever the path. *)
Definition new_local (generated : Keypair) (key_path : string) : LocalSigner :=
  mkLocal generated ("local:" +:+ key_path).

Definition local_signer (l : LocalSigner) : Signer W :=
  mkSigner (fun w => (Ok (public (key_pair l)), w))
    (fun m w => (Ok (signature_to_bytes (sign_message (key_pair l) m)), w))
    (Ok (local_key_id l)) (fun w => (Ok true, w)).

Record HsmSigner : Type := mkHsm { slot_id : Z; hsm_key_id : string }.
Definition new_hsm (slot : Z) (pin : string) : HsmSigner := mkHsm slot ("hsm:" +:+ pretty slot).
Definition hsm_signer (h : HsmSigner) : Signer W :=
  mkSigner (fun w => (Err (NE_NotImplemented "HSM public key retrieval not implemented"), w))
    (fun _ w => (Err (NE_NotImplemented "HSM signing not implemented"), w))
    (Ok (hsm_key_id h)) (fun w => (Ok false, w)).

(** The factory; [new_kms] is [KmsSigner::new] (Kms.v). *)
Definition create_signer (generated : Keypair)
    (new_kms : string -> string -> option string -> W -> result NetworkError (Signer W) * W)
    (cfg : SignerConfig) (w : W) : result NetworkError (Signer W) * W :=
  match cfg with
  | Local key_path => (Ok (local_signer (new_local generated key_path)), w)
  | AwsKms kid reg prof => new_kms kid reg prof w
  | Hsm slot pin => (Ok (hsm_signer (new_hsm slot pin)), w)
  end.

(** ** The signing service *)

Record SigningService : Type := mkSigning {
  signers : gmap string (Signer W);
  public_key_cache : PublicKeyCache;
  default_signer_key : option string }.

Definition new_service (cache_ttl_seconds : Z) : SigningService :=
  mkSigning ∅ (new_cache cache_ttl_seconds) None.

Definition set_cache (c : PublicKeyCache) (s : SigningService) : SigningService :=
  mkSigning (signers s) c (default_signer_key s).

Definition add_signer (kid : string) (sg : Signer W) (s : SigningService) (w : W)
    : result NetworkError unit * SigningService * W :=
  match health_check sg w with
  | (Err x, w') => (Err x, s, w')
  | (Ok false, w') => (Err (NE_Signer ("Signer health check failed for key_id: " +:+ kid)), s, w')
  | (Ok true, w') =>
      (Ok tt, mkSigning (<[kid := sg]> (signers s)) (public_key_cache s)
                (match default_signer_key s with None => Some kid | d => d end), w')
  end.

Definition get_signer (kid : string) (s : SigningService) : result NetworkError (Signer W) :=
  ok_or (signers s !! kid) (NE_Signer ("Signer not found for key_id: " +:+ kid)).

Definition get_default_signer (s : SigningService) : result NetworkError (Signer W) :=
  let? kid := ok_or (default_signer_key s) (NE_Signer "No default signer configured") in
  get_signer kid s.

Definition set_default_signer (kid : string) (s : SigningService) : result NetworkError SigningService :=
  match signers s !! kid with
  | None => Err (NE_Signer ("Signer not found for key_id: " +:+ kid))
  | Some _ => Ok (mkSigning (signers s) (public_key_cache s) (Some kid))
  end.

Definition sign_with (kid : string) (message : list Z) (s : SigningService) (w : W)
    : result NetworkError (list Z) * W :=
  match get_signer kid s with
  | Err x => (Err x, w)
  | Ok sg => Signer.sign sg message w
  end.

Definition sign (message : list Z) (s : SigningService) (w : W) : result NetworkError (list Z) * W :=
  match get_default_signer s with
  | Err x => (Err x, w)
  | Ok sg => Signer.sign sg message w
  end.

Definition get_public_key (now now' : Z) (kid : string) (s : SigningService) (w : W)
    : result NetworkError PublicKey * SigningService * W :=
  match get_signer kid s with
  | Err x => (Err x, s, w)
  | Ok sg =>
      let '(r, c, w') := get_or_fetch now now' kid (Signer.get_public_key sg) (public_key_cache s) w in
      (r, set_cache c s, w')
  end.

Definition get_default_public_key (now now' : Z) (s : SigningService) (w : W)
    : result NetworkError PublicKey * SigningService * W :=
  match default_signer_key s with
  | None => (Err (NE_Signer "No default signer configured"), s, w)
  | Some kid => get_public_key now now' kid s w
  end.

Definition invalidate_cache (kid : string) (s : SigningService) : SigningService :=
  set_cache (invalidate kid (public_key_cache s)) s.
Definition get_cache_stats (now : Z) (s : SigningService) : CacheStats := stats now (public_key_cache s).
Definition list_signers (s : SigningService) : gset string := dom (signers s).

(** Signers in the order [order] of the map. *)
Fixpoint health_checks (order : list string) (s : SigningService) (acc : gmap string bool) (w : W)
    : gmap string bool * W :=
  match order with
  | [] => (acc, w)
  | kid :: rest =>
      match signers s !! kid with
      | None => health_checks rest s acc w
      | Some sg =>
          match health_check sg w with
          | (Ok healthy, w') => health_checks rest s (<[kid := healthy]> acc) w'
          | (Err _, w') => health_checks rest s (<[kid := false]> acc) w'
          end
      end
  end.
Definition health_check_all (order : list string) (s : SigningService) (w : W) : gmap string bool * W :=
  health_checks order s ∅ w.

(** ** A service through its operations *)

Inductive ServiceOp : Type :=
| OpAdd (kid : string) (sg : Signer W)
| OpSetDefault (kid : string)
| OpKey (now now' : Z) (kid : string)
| OpInvalidate (kid : string)
| OpSign (kid : string) (message : list Z).

Definition run_op (sw : SigningService * W) (o : ServiceOp) : SigningService * W :=
  let '(s, w) := sw in
  match o with
  | OpAdd kid sg => let '(_, s', w') := add_signer kid sg s w in (s', w')
  | OpSetDefault kid => (match set_default_signer kid s with Ok s' => s' | Err _ => s end, w)
  | OpKey now now' kid => let '(_, s', w') := get_public_key now now' kid s w in (s', w')
  | OpInvalidate kid => (invalidate_cache kid s, w)
  | OpSign kid m => (s, snd (sign_with kid m s w))
  end.

(** The default is registered, and there is one as soon as there is a signer. *)
Definition default_ok (s : SigningService) : Prop :=
  match default_signer_key s with
  | None => signers s = ∅
  | Some kid => is_Some (signers s !! kid)
  end.

Lemma get_public_key_frame now now' kid s w :
  signers (get_public_key now now' kid s w).1.2 = signers s /\
  default_signer_key (get_public_key now now' kid s w).1.2 = default_signer_key s.
Proof.
  unfold get_public_key. destruct (get_signer kid s); [|done].
  by destruct (get_or_fetch _ _ _ _ _ _) as [[r c] w'].
Qed.

Lemma run_op_default s w o : default_ok s -> default_ok (run_op (s, w) o).1.
Proof.
  unfold default_ok. intros Hd. destruct o as [kid sg|kid|now now' kid|kid|kid m]; cbn; try done.
  - unfold add_signer. destruct (health_check sg w) as [[[]|x] w']; cbn; try done.
    destruct (default_signer_key s) as [d|]; [|rewrite lookup_insert_eq; eauto].
    destruct (decide (d = kid)) as [->|]; [rewrite lookup_insert_eq; eauto|by rewrite lookup_insert_ne].
  - unfold set_default_signer. destruct (signers s !! kid) eqn:E; cbn; [rewrite E; eauto|done].
  - pose proof (get_public_key_frame now now' kid s w) as [E1 E2].
    destruct (get_public_key now now' kid s w) as [[r s'] w']. cbn in *. by rewrite E1, E2.
Qed.

Lemma run_ops_default ttl_s w ops : default_ok (foldl run_op (new_service ttl_s, w) ops).1.
Proof.
  induction ops as [|o ops IH] using rev_ind; [done|]. rewrite foldl_app. cbn.
  destruct (foldl run_op _ ops) as [s' w']. by apply run_op_default.
Qed.

(** A key still in the cache is served without asking the signer. *)
Lemma get_public_key_cached now now' kid s w pk :
  is_Some (signers s !! kid) -> cached now kid (public_key_cache s) = Some pk ->
  get_public_key now now' kid s w = (Ok pk, s, w).
Proof.
  intros [sg Hs] Hc. unfold get_public_key, get_signer, get_or_fetch. rewrite Hs, Hc. cbn.
  by destruct s.
Qed.

Lemma get_public_key_fetched now now' kid s w sg pk w' :
  signers s !! kid = Some sg -> cached now kid (public_key_cache s) = None ->
  Signer.get_public_key sg w = (Ok pk, w') ->
  exists s', get_public_key now now' kid s w = (Ok pk, s', w') /\
    (forall t, t <= now' + 1000 * default_ttl_seconds (public_key_cache s) ->
       cached t kid (public_key_cache s') = Some pk) /\
    (forall t, now' + 1000 * default_ttl_seconds (public_key_cache s) < t ->
       cached t kid (public_key_cache s') = None).
Proof.
  intros Hs Hc Hk. unfold get_public_key, get_signer, get_or_fetch. rewrite Hs, Hc. cbn. rewrite Hk.
  eexists. split; [reflexivity|]. unfold cached, is_expired; cbn. rewrite lookup_insert_eq. cbn.
  split; intros t Ht.
  - destruct (_ <? t) eqn:E; bool_to_prop; [lia|done].
  - by rewrite (proj2 (Z.ltb_lt _ _) Ht).
Qed.

(** ** Theorems *)

(** The default signer is always a registered one: after any operations a
    service that ever accepted a signer signs with its default - the one set last,
    the first added otherwise - exactly as that signer does, and a service without
    signers answers that none is configured. *)
Theorem default_signer_registered ttl_s w ops :
  let s := (foldl run_op (new_service ttl_s, w) ops).1 in
  match default_signer_key s with
  | None => signers s = ∅ /\
      forall m w0, sign m s w0 = (Err (NE_Signer "No default signer configured"), w0)
  | Some kid => exists sg, signers s !! kid = Some sg /\
      forall m w0, sign m s w0 = Signer.sign sg m w0 /\ sign_with kid m s w0 = Signer.sign sg m w0
  end.
Proof.
  cbv zeta. pose proof (run_ops_default ttl_s w ops) as Hd. unfold default_ok in Hd.
  set (s := (foldl _ _ _).1) in *. unfold sign, sign_with, get_default_signer, get_signer.
  destruct (default_signer_key s) as [kid|]; cbn.
  - destruct Hd as [sg E]. exists sg. rewrite E. by split.
  - by split.
Qed.

(** A cached key is served for exactly its time to live: after a fetch at
    [now'] every request up to [now' + ttl] answers the same key without a call to
    the signer or any change, and the first one after it asks the signer again;
    invalidating the key has the same effect at once. *)
Theorem public_key_ttl now now' kid s w sg pk w' :
  signers s !! kid = Some sg -> cached now kid (public_key_cache s) = None ->
  Signer.get_public_key sg w = (Ok pk, w') ->
  let deadline := now' + 1000 * default_ttl_seconds (public_key_cache s) in
  exists s', get_public_key now now' kid s w = (Ok pk, s', w') /\ signers s' = signers s /\
    (forall t t' w1, t <= deadline -> get_public_key t t' kid s' w1 = (Ok pk, s', w1)) /\
    (forall t t' w1, deadline < t ->
       fst (fst (get_public_key t t' kid s' w1)) = fst (Signer.get_public_key sg w1)) /\
    (forall t t' w1, fst (fst (get_public_key t t' kid (invalidate_cache kid s') w1)) =
                     fst (Signer.get_public_key sg w1)).
Proof.
  intros Hs Hc Hk deadline. pose proof (get_public_key_frame now now' kid s w) as [Hf _].
  destruct (get_public_key_fetched now now' kid s w sg pk w' Hs Hc Hk) as (s' & E & Hin & Hout).
  rewrite E in Hf. cbn in Hf. exists s'. split; [done|]. split; [done|].
  assert (forall t t' s2 w1, signers s2 = signers s' -> cached t kid (public_key_cache s2) = None ->
    fst (fst (get_public_key t t' kid s2 w1)) = fst (Signer.get_public_key sg w1)) as Hfetch.
  { intros t t' s2 w1 E2 Hn. unfold get_public_key, get_signer, get_or_fetch.
    rewrite E2, Hf, Hs, Hn. cbn. by destruct (Signer.get_public_key sg w1) as [[]]. }
  split_and!.
  - intros t t' w1 Ht. apply get_public_key_cached; [rewrite Hf, Hs; eauto|by apply Hin].
  - intros t t' w1 Ht. apply Hfetch; [done|by apply Hout].
  - intros t t' w1. apply Hfetch; [done|]. unfold cached; cbn. by rewrite lookup_delete_eq.
Qed.

(** Replacing a signer does not replace its cached key: when a healthy signer
    is added under an id whose key is still cached, signing under that id uses the
    new signer while the public key served for it is still the cached one. *)
Theorem replaced_signer_stale_key kid sg s w pk now now' kp m :
  cached now kid (public_key_cache s) = Some pk -> sg = local_signer (mkLocal kp kid) ->
  exists s', add_signer kid sg s w = (Ok tt, s', w) /\
    get_public_key now now' kid s' w = (Ok pk, s', w) /\
    sign_with kid m s' w = (Ok (signature_to_bytes (sign_message kp m)), w).
Proof.
  intros Hc ->. eexists. split; [reflexivity|]. split.
  - apply get_public_key_cached; [|done]. cbn. rewrite lookup_insert_eq. eauto.
  - unfold sign_with, get_signer; cbn. by rewrite lookup_insert_eq.
Qed.
End Signing.

(** *** Witnesses *)

Definition toy_local (k : Z) : Signer (H := toy_ed25519) unit :=
  local_signer (mkLocal (H := toy_ed25519) k "a").
Definition one_local : SigningService (H := toy_ed25519) (W := unit) :=
  mkSigning {["a"%string := toy_local 5]} (new_cache 60) (Some "a"%string).
Definition one_cached : SigningService (H := toy_ed25519) (W := unit) := (get_public_key 0 10 "a" one_local tt).1.2.

Lemma public_key_ttl_witness :
  exists s', get_public_key 0 10 "a" one_local tt = (Ok 5, s', tt) /\
    get_public_key 60010 0 "a" s' tt = (Ok 5, s', tt).
Proof.
  destruct (public_key_ttl 0 10 "a" one_local tt (toy_local 5) 5 tt)
    as (s' & H1 & _ & H2 & _); [vm_compute; reflexivity..|].
  exists s'. split; [exact H1|]. apply H2. vm_compute. discriminate.
Defined.

Lemma replaced_signer_stale_key_witness :
  exists s', add_signer "a" (toy_local 9) one_cached tt = (Ok tt, s', tt) /\
    get_public_key 100 100 "a" s' tt = (Ok 5, s', tt) /\
    sign_with "a" [1] s' tt = (Ok (10 :: replicate 63 0), tt).
Proof.
  refine (replaced_signer_stale_key "a" _ one_cached tt 5 100 100 9 [1] _ eq_refl).
  vm_compute. reflexivity.
Defined.
