(* ===== verification/CryptoPool.v ===== *)
(** network-node/src/crypto.rs: signature verification, batches, and the worker
    pool.

    The work channel is one queue: [new] hands a receiver of it to every worker
    and to the batch processor (by cloning it, which tokio's receiver does not
    offer), and a request goes to whichever of them receives it.  Ids of batches,
    the clock and measured times are arguments.  What workers only log is kept in
    [worker_results]. *)
From stdpp Require Import base gmap list strings.
From S2P Require Import Prelude NetworkErrors Signer Kms Signing.

Record SignatureVerificationRequest : Type := mkRequest {
  req_id : string;
  req_public_key : list Z;
  req_message : list Z;
  req_signature : list Z;
  req_timestamp : Z }.

Record SignatureVerificationResult : Type := mkResult {
  res_request_id : string;
  is_valid : bool;
  res_error : option string;
  verification_time_ms : Z;
  res_timestamp : Z }.

Record BatchVerificationResult : Type := mkBatchResult {
  batch_id : string;
  total_requests : Z;
  valid_signatures : Z;
  invalid_signatures : Z;
  failed_verifications : list string;
  total_time_ms : Z;
  results : list SignatureVerificationResult;
  batch_timestamp : Z }.

Definition new_request (uuid : string) (now : Z) (pk message signature : list Z)
    : SignatureVerificationRequest := mkRequest uuid pk message signature now.

Section Crypto.
Context `{Ed25519}.

(** ** One signature *)

Definition crypto_error {A} (what : string) (r : result string A) : result NetworkError A :=
  match r with Ok a => Ok a | Err x => Err (NE_Crypto (what +:+ x)) end.

Definition verify_signature (r : SignatureVerificationRequest) : result NetworkError unit :=
  let? pk := crypto_error "Invalid public key: " (public_from_bytes (req_public_key r)) in
  let? sg := crypto_error "Invalid signature: " (signature_from_bytes (req_signature r)) in
  crypto_error "Signature verification failed: " (verify pk (req_message r) sg).

Definition verification_result (elapsed now : Z) (r : SignatureVerificationRequest)
    : SignatureVerificationResult :=
  match verify_signature r with
  | Ok _ => mkResult (req_id r) true None elapsed now
  | Err x => mkResult (req_id r) false (Some (net_display x)) elapsed now
  end.

(** ** A batch *)

(** The loop of [process_batch]; [elapsed] and [now] give the measured time and
    the clock at each request. *)
Fixpoint process_requests (elapsed now : nat -> Z) (i : nat) (batch : list SignatureVerificationRequest)
    : list SignatureVerificationResult * Z * Z * list string :=
  match batch with
  | [] => ([], 0, 0, [])
  | r :: rest =>
      let res := verification_result (elapsed i) (now i) r in
      let '(rs, valid, invalid, failed) := process_requests elapsed now (S i) rest in
      if is_valid res then (res :: rs, valid + 1, invalid, failed)
      else (res :: rs, valid, invalid + 1, req_id r :: failed)
  end.

Definition process_batch (uuid : string) (elapsed now : nat -> Z) (total_time finished : Z)
    (batch : list SignatureVerificationRequest) : BatchVerificationResult :=
  let '(rs, valid, invalid, failed) := process_requests elapsed now 0 batch in
  mkBatchResult uuid (Z.of_nat (length batch)) valid invalid failed total_time rs finished.

(** ** The pool *)

Record CryptoWorkerPool : Type := mkPool {
  worker_count : Z;
  batch_size : Z;
  batch_timeout_ms : Z;
  queue : list SignatureVerificationRequest;
  pending_requests : gmap string SignatureVerificationRequest;
  batch : list SignatureVerificationRequest;
  last_batch_time : Z;
  batch_results : list BatchVerificationResult;
  batched : list (list SignatureVerificationRequest);
  worker_results : list (SignatureVerificationRequest * SignatureVerificationResult) }.

(** [batched] remembers the requests of each batch sent, for the statements. *)
Definition new_pool (workers size timeout now : Z) : CryptoWorkerPool :=
  mkPool workers size timeout [] ∅ [] now [] [] [].

(** The loop of [verify_signature_batch]; [alive] says whether a receiver of the
    work channel exists, without one [send] fails. *)
Fixpoint submit (alive : bool) (send_error : string) (rs : list SignatureVerificationRequest)
    (p : CryptoWorkerPool) : result NetworkError unit * CryptoWorkerPool :=
  match rs with
  | [] => (Ok tt, p)
  | r :: rest =>
      let pending := <[req_id r := r]> (pending_requests p) in
      if alive then
        submit alive send_error rest
          (mkPool (worker_count p) (batch_size p) (batch_timeout_ms p) (queue p ++ [r]) pending
             (batch p) (last_batch_time p) (batch_results p) (batched p) (worker_results p))
      else
        (Err (NE_Crypto ("Failed to queue verification request: " +:+ send_error)),
         mkPool (worker_count p) (batch_size p) (batch_timeout_ms p) (queue p) (delete (req_id r) pending)
           (batch p) (last_batch_time p) (batch_results p) (batched p) (worker_results p))
  end.

(** One turn of [worker_loop]: the result is logged and the request is no longer
    pending. *)
Definition worker_turn (elapsed now : Z) (p : CryptoWorkerPool) : option CryptoWorkerPool :=
  match queue p with
  | [] => None
  | r :: rest =>
      Some (mkPool (worker_count p) (batch_size p) (batch_timeout_ms p) rest
              (delete (req_id r) (pending_requests p)) (batch p) (last_batch_time p) (batch_results p)
              (batched p) (worker_results p ++ [(r, verification_result elapsed now r)]))
  end.

Definition flush (uuid : string) (elapsed now : nat -> Z) (total finished : Z) (rest : list SignatureVerificationRequest)
    (b : list SignatureVerificationRequest) (p : CryptoWorkerPool) : CryptoWorkerPool :=
  mkPool (worker_count p) (batch_size p) (batch_timeout_ms p) rest (pending_requests p) [] finished
    (batch_results p ++ [process_batch uuid elapsed now total finished b]) (batched p ++ [b]) (worker_results p).

(** The two arms of the [select!] of [batch_processor_loop]. *)
Definition batch_receive (uuid : string) (elapsed now : nat -> Z) (total finished : Z) (p : CryptoWorkerPool)
    : option CryptoWorkerPool :=
  match queue p with
  | [] => None
  | r :: rest =>
      let b := batch p ++ [r] in
      Some (if batch_size p <=? Z.of_nat (length b) then flush uuid elapsed now total finished rest b p
            else mkPool (worker_count p) (batch_size p) (batch_timeout_ms p) rest (pending_requests p) b
                   (last_batch_time p) (batch_results p) (batched p) (worker_results p))
  end.

Definition batch_timeout (woken : Z) (uuid : string) (elapsed now : nat -> Z) (total finished : Z)
    (p : CryptoWorkerPool) : CryptoWorkerPool :=
  match batch p with
  | [] => p
  | b => if batch_timeout_ms p <=? woken - last_batch_time p
         then flush uuid elapsed now total finished (queue p) b p else p
  end.

Record CryptoWorkerPoolStats : Type := mkPoolStats {
  st_worker_count : Z;
  st_pending_requests : Z;
  st_available_workers : Z;
  st_batch_size : Z;
  st_batch_timeout_ms : Z }.

(** [workers] holds the workers and the batch processor; [available] is what the
    semaphore has left. *)
Definition get_stats (available : Z) (p : CryptoWorkerPool) : CryptoWorkerPoolStats :=
  mkPoolStats (worker_count p + 1) (Z.of_nat (size (pending_requests p))) available (batch_size p)
    (batch_timeout_ms p).

(** [SignatureVerificationService::verify_batch], once the pool has run to [p']:
    it takes the first batch result there is, whosever requests it is about. *)
Definition receive_result (p' : CryptoWorkerPool)
    : option (BatchVerificationResult * CryptoWorkerPool) :=
  match batch_results p' with
  | [] => None
  | r :: rest => Some (r, mkPool (worker_count p') (batch_size p') (batch_timeout_ms p') (queue p')
      (pending_requests p') (batch p') (last_batch_time p') rest (batched p') (worker_results p'))
  end.

(** ** Verification is exact *)

Lemma verification_result_valid elapsed now r :
  is_valid (verification_result elapsed now r) = true <-> verify_signature r = Ok tt.
Proof. unfold verification_result. destruct (verify_signature r) as [[]|]; naive_solver. Qed.

Definition invalid (r : SignatureVerificationRequest) : bool := negb (is_ok (verify_signature r)).

Lemma process_requests_spec elapsed now i b :
  let '(rs, valid, bad, failed) := process_requests elapsed now i b in
  rs = imap (fun j r => verification_result (elapsed (i + j)%nat) (now (i + j)%nat) r) b /\
  valid + bad = Z.of_nat (length b) /\ bad = Z.of_nat (length failed) /\
  failed = map req_id (filter (fun r => invalid r = true) b).
Proof.
  revert i. induction b as [|r b IH]; intros i; [done|]. cbn [process_requests].
  specialize (IH (S i)). destruct (process_requests elapsed now (S i) b) as [[[rs valid] bad] failed].
  destruct IH as (H1 & H2 & H3 & H4). rewrite imap_cons, filter_cons, Nat.add_0_r.
  assert (rs = imap ((fun j r0 => verification_result (elapsed (i + j)%nat) (now (i + j)%nat) r0) ∘ S) b) as Hrs.
  { rewrite H1. apply imap_ext. intros j r' _. cbn. by rewrite Nat.add_succ_r. }
  destruct (is_valid (verification_result (elapsed i) (now i) r)) eqn:E.
  - apply verification_result_valid in E. assert (invalid r = false) by (unfold invalid; by rewrite E).
    rewrite decide_False by congruence. split_and!; [by rewrite Hrs|cbn [length]; lia|done|done].
  - assert (invalid r = true) as Hi.
    { unfold invalid. destruct (verify_signature r) as [[]|] eqn:Ev; [|done].
      apply (verification_result_valid (elapsed i) (now i)) in Ev. congruence. }
    rewrite decide_True by done. split_and!; [by rewrite Hrs|cbn [length]; lia|cbn [length]; lia|cbn; by rewrite H4].
Qed.

(** A batch result reports its batch. *)
Definition reports (b : list SignatureVerificationRequest) (x : BatchVerificationResult) : Prop :=
  total_requests x = Z.of_nat (length b) /\
  map res_request_id (results x) = map req_id b /\
  Forall2 (fun r res => is_valid res = true <-> verify_signature r = Ok tt) b (results x) /\
  valid_signatures x + invalid_signatures x = total_requests x /\
  failed_verifications x = map req_id (filter (fun r => invalid r = true) b) /\
  invalid_signatures x = Z.of_nat (length (failed_verifications x)).

Lemma process_batch_reports uuid elapsed now total finished b :
  reports b (process_batch uuid elapsed now total finished b).
Proof.
  unfold process_batch. pose proof (process_requests_spec elapsed now 0 b) as Hs.
  destruct (process_requests elapsed now 0 b) as [[[rs valid] bad] failed].
  destruct Hs as (-> & H2 & H3 & H4). unfold reports; cbn [total_requests results valid_signatures
    invalid_signatures failed_verifications]. split_and!; try done.
  - clear. generalize elapsed now. induction b as [|r b IH]; intros el nw; [done|]. rewrite imap_cons. cbn. f_equal.
    + unfold verification_result. by destruct (verify_signature r).
    + rewrite <- (IH (el ∘ S) (nw ∘ S)). done.
  - clear. generalize elapsed now. induction b as [|r b IH]; intros el nw; [constructor|]. rewrite imap_cons.
    constructor; [apply verification_result_valid|]. apply (IH (el ∘ S) (nw ∘ S)).
Qed.

(** ** The pool as a transition system *)

Inductive pool_step : CryptoWorkerPool -> list SignatureVerificationRequest -> CryptoWorkerPool -> Prop :=
| StepSubmit rs p r p' : submit true "" rs p = (r, p') -> pool_step p rs p'
| StepWorker elapsed now p p' :
    0 < worker_count p -> worker_turn elapsed now p = Some p' -> pool_step p [] p'
| StepReceive uuid elapsed now total finished p p' :
    batch_receive uuid elapsed now total finished p = Some p' -> pool_step p [] p'
| StepTimeout woken uuid elapsed now total finished p :
    pool_step p [] (batch_timeout woken uuid elapsed now total finished p).

(** [pool_after p subs p']: from [p], with the requests [subs] submitted on the
    way, in order. *)
Inductive pool_after (p : CryptoWorkerPool) : list SignatureVerificationRequest -> CryptoWorkerPool -> Prop :=
| AfterNone : pool_after p [] p
| AfterStep subs p1 rs p2 : pool_after p subs p1 -> pool_step p1 rs p2 -> pool_after p (subs ++ rs) p2.

Lemma submit_alive x rs p :
  fst (submit true x rs p) = Ok tt /\
  queue (snd (submit true x rs p)) = queue p ++ rs /\
  (forall id, pending_requests (snd (submit true x rs p)) !! id =
     match last (filter (fun r => req_id r = id) rs) with
     | Some r => Some r
     | None => pending_requests p !! id
     end) /\
  batch (snd (submit true x rs p)) = batch p /\ batch_size (snd (submit true x rs p)) = batch_size p /\
  batch_results (snd (submit true x rs p)) = batch_results p /\
  batched (snd (submit true x rs p)) = batched p /\
  worker_results (snd (submit true x rs p)) = worker_results p.
Proof.
  revert p. induction rs as [|r rs IH]; intros p; cbn [submit]; [rewrite app_nil_r; by repeat split|].
  match goal with |- context [submit true x rs ?q] => destruct (IH q) as (H1 & H2 & H3 & H4) end.
  cbn in H2, H3, H4. split; [done|]. split; [by rewrite H2, <- app_assoc|]. split; [|done].
  intros id. rewrite H3, filter_cons. destruct (decide (req_id r = id)) as [<-|Hne].
  - destruct (filter (fun r0 => req_id r0 = req_id r) rs) as [|y l] eqn:E; [apply lookup_insert_eq|].
    change (last (r :: y :: l)) with (last (y :: l)).
    destruct (last (y :: l)) eqn:El; [done|]. by apply last_None in El.
  - destruct (last _); [done|]. by apply lookup_insert_ne.
Qed.

(** What the batch processor took, in order. *)
Definition by_batches (p : CryptoWorkerPool) : list SignatureVerificationRequest :=
  concat (batched p) ++ batch p.
Definition by_workers (p : CryptoWorkerPool) : list SignatureVerificationRequest :=
  map fst (worker_results p).

Record pool_ok (size : Z) (subs : list SignatureVerificationRequest) (p : CryptoWorkerPool) : Prop := mkPoolOk {
  po_size : batch_size p = size;
  po_taken : exists taken, subs = taken ++ queue p /\ taken ≡ₚ by_batches p ++ by_workers p /\
    by_batches p `sublist_of` taken /\ by_workers p `sublist_of` taken;
  po_reports : Forall2 reports (batched p) (batch_results p);
  po_sizes : Forall (fun b => b <> [] /\ Z.of_nat (length b) <= Z.max 1 size) (batched p);
  po_batch : Z.of_nat (length (batch p)) < Z.max 1 size;
  po_workers : Forall (fun '(r, x) => res_request_id x = req_id r /\
    (is_valid x = true <-> verify_signature r = Ok tt)) (worker_results p) }.

Lemma new_pool_ok workers size timeout now : pool_ok size [] (new_pool workers size timeout now).
Proof.
  split; cbn; try constructor; try lia. exists []. by repeat split.
Qed.

Lemma submit_ok size subs rs p :
  pool_ok size subs p -> pool_ok size (subs ++ rs) (snd (submit true "" rs p)).
Proof.
  intros [H1 (t & -> & H2) H3 H4 H5 H6].
  destruct (submit_alive "" rs p) as (_ & Eq & _ & E1 & E2 & E3 & E4 & E5).
  split; unfold by_batches, by_workers; rewrite ?Eq, ?E1, ?E2, ?E3, ?E4, ?E5; try done.
  exists t. split; [by rewrite app_assoc|done].
Qed.

Lemma worker_ok size subs elapsed now p p' :
  worker_turn elapsed now p = Some p' -> pool_ok size subs p -> pool_ok size subs p'.
Proof.
  unfold worker_turn. destruct (queue p) as [|r rest] eqn:Eq; [done|]. intros [= <-].
  intros [H1 (t & -> & Hp & Hb & Hw) H3 H4 H5 H6]. split; try done.
  - exists (t ++ [r]). unfold by_batches, by_workers in *; cbn. rewrite map_app. cbn. split_and!.
    + by rewrite <- app_assoc, Eq.
    + by rewrite Hp, <- !app_assoc.
    + by apply sublist_inserts_r.
    + by apply sublist_app.
  - cbn. apply Forall_app. split; [done|]. constructor; [|done]. split; [|apply verification_result_valid].
    unfold verification_result. by destruct (verify_signature r).
Qed.

(** Sending off a non-empty batch of the right size. *)
Lemma flush_ok size subs uuid elapsed now total finished rest b p t :
  batch_size p = size -> subs = t ++ rest -> t ≡ₚ (concat (batched p) ++ b) ++ by_workers p ->
  concat (batched p) ++ b `sublist_of` t -> by_workers p `sublist_of` t ->
  Forall2 reports (batched p) (batch_results p) ->
  Forall (fun b => b <> [] /\ Z.of_nat (length b) <= Z.max 1 size) (batched p) ->
  b <> [] -> Z.of_nat (length b) <= Z.max 1 size ->
  Forall (fun '(r, x) => res_request_id x = req_id r /\
    (is_valid x = true <-> verify_signature r = Ok tt)) (worker_results p) ->
  pool_ok size subs (flush uuid elapsed now total finished rest b p).
Proof.
  intros H1 -> Hp Hb Hw H3 H4 Hne Hlen H6. split; cbn; try done; try lia.
  - exists t. unfold by_batches, by_workers in *; cbn.
    rewrite concat_app, app_nil_r. cbn. by rewrite app_nil_r.
  - apply Forall2_app; [done|]. constructor; [|done]. apply process_batch_reports.
  - apply Forall_app. split; [done|]. by constructor.
Qed.

Lemma receive_ok size subs uuid elapsed now total finished p p' :
  batch_receive uuid elapsed now total finished p = Some p' ->
  pool_ok size subs p -> pool_ok size subs p'.
Proof.
  unfold batch_receive. destruct (queue p) as [|r rest] eqn:Eq; [done|]. intros [= <-].
  intros [H1 (t & -> & Hp & Hb & Hw) H3 H4 H5 H6].
  assert (t ++ [r] ≡ₚ (concat (batched p) ++ batch p ++ [r]) ++ by_workers p) as Hp'.
  { rewrite Hp. unfold by_batches. rewrite <- !app_assoc. do 2 f_equiv. apply Permutation_app_comm. }
  assert (concat (batched p) ++ batch p ++ [r] `sublist_of` t ++ [r]) as Hb'.
  { rewrite app_assoc. by apply sublist_app. }
  assert (by_workers p `sublist_of` t ++ [r]) as Hw' by (by apply sublist_inserts_r).
  assert (t ++ queue p = (t ++ [r]) ++ rest) as Ht by (by rewrite Eq, <- app_assoc).
  rewrite length_app, H1. cbn [length]. destruct (size <=? _) eqn:E; bool_to_prop.
  - eapply (flush_ok _ _ _ _ _ _ _ _ _ _ (t ++ [r])); try done; [by destruct (batch p)|].
    rewrite length_app. cbn. lia.
  - split; cbn; try done.
    + exists (t ++ [r]). unfold by_batches, by_workers in *; cbn. by rewrite Ht.
    + rewrite length_app. cbn. lia.
Qed.

Lemma timeout_ok size subs woken uuid elapsed now total finished p :
  pool_ok size subs p -> pool_ok size subs (batch_timeout woken uuid elapsed now total finished p).
Proof.
  unfold batch_timeout. intros Hok. destruct (batch p) as [|r l] eqn:Eb; [done|].
  destruct (_ <=? _); [|done]. destruct Hok as [H1 (t & -> & Hp & Hb & Hw) H3 H4 H5 H6].
  unfold by_batches in *. rewrite Eb in *. eapply flush_ok; try done. lia.
Qed.

Lemma pool_after_ok workers size timeout now subs p :
  pool_after (new_pool workers size timeout now) subs p -> pool_ok size subs p.
Proof.
  induction 1 as [|subs p1 rs p2 _ IH Hs]; [apply new_pool_ok|].
  destruct Hs as [rs p r p' E|el nw p p' _ E|uu el nw to fi p p' E|wo uu el nw to fi p]; rewrite ?app_nil_r.
  - apply (f_equal snd) in E. cbn in E. rewrite <- E. by apply submit_ok.
  - by eapply worker_ok.
  - by eapply receive_ok.
  - by apply timeout_ok.
Qed.

(** Without workers the batch processor takes every request. *)
Lemma submit_workers x rs p : worker_count (snd (submit true x rs p)) = worker_count p.
Proof. revert p. induction rs as [|r rs IH]; intros p; cbn [submit]; [done|]. by rewrite IH. Qed.

Lemma step_workers p rs p' :
  pool_step p rs p' ->
  worker_count p' = worker_count p /\ (worker_count p <= 0 -> worker_results p' = worker_results p).
Proof.
  intros [rs' q r q' E|el nw q q' Hw E|uu el nw to fi q q' E|wo uu el nw to fi q].
  - apply (f_equal snd) in E. cbn in E. subst q'. split; [apply submit_workers|].
    intros _. apply submit_alive.
  - unfold worker_turn in E. destruct (queue q); simplify_eq. cbn. split; [done|lia].
  - unfold batch_receive in E. destruct (queue q); simplify_eq. by destruct (_ <=? _).
  - unfold batch_timeout. destruct (batch q); [done|]. by destruct (_ <=? _).
Qed.

Lemma pool_after_workers p subs p' :
  pool_after p subs p' ->
  worker_count p' = worker_count p /\ (worker_count p <= 0 -> worker_results p' = worker_results p).
Proof.
  induction 1 as [|subs p1 rs p2 _ [IH1 IH2] Hs]; [done|]. apply step_workers in Hs as [H1 H2].
  rewrite H1, IH1 in *. split; [done|]. intros Hle. by rewrite H2, IH2.
Qed.

(** ** The pending map *)

Definition ids (l : list SignatureVerificationRequest) : list string := map req_id l.

Definition pending_ok (p : CryptoWorkerPool) : Prop :=
  forall id, is_Some (pending_requests p !! id) <-> id ∈ ids (by_batches p ++ queue p).

Lemma submit_pending rs p : pending_ok p -> pending_ok (snd (submit true "" rs p)).
Proof.
  intros Hp id. destruct (submit_alive "" rs p) as (_ & Eq & Ep & E1 & _ & _ & E4 & _).
  unfold by_batches. rewrite Eq, Ep, E1, E4, app_assoc. unfold ids. rewrite map_app, elem_of_app.
  specialize (Hp id). unfold ids, by_batches in Hp. rewrite <- Hp.
  destruct (last (filter (fun r => req_id r = id) rs)) as [r|] eqn:El.
  - apply last_Some_elem_of in El. apply list_elem_of_filter in El as [<- Hr].
    split; [intros _; right; by apply list_elem_of_fmap_2|eauto].
  - apply last_None in El. split; [auto|]. intros [?|Hin]; [done|].
    apply list_elem_of_fmap in Hin as (r & -> & Hr). exfalso.
    assert (r ∈ filter (fun r0 => req_id r0 = req_id r) rs) as Hf by (by apply list_elem_of_filter).
    rewrite El in Hf. set_solver.
Qed.

Lemma worker_pending elapsed now p p' :
  worker_turn elapsed now p = Some p' -> NoDup (ids (by_batches p ++ queue p)) ->
  pending_ok p -> pending_ok p'.
Proof.
  unfold worker_turn. destruct (queue p) as [|r rest] eqn:Eq; [done|]. intros [= <-] Hnd Hp id.
  unfold pending_ok, ids, by_batches in *. cbn. rewrite Eq in Hp.
  rewrite map_app, NoDup_app in Hnd. destruct Hnd as (_ & Hdis & Hnd). cbn in Hnd.
  apply NoDup_cons in Hnd as [Hr _]. specialize (Hp id). rewrite map_app in Hp |- *. cbn in Hp.
  destruct (decide (id = req_id r)) as [->|Hne].
  - rewrite lookup_delete_eq. split; [by intros []|]. intros Hin. exfalso.
    apply elem_of_app in Hin as [Hin|Hin]; [|done]. apply (Hdis _ Hin). cbn. by left.
  - rewrite lookup_delete_ne by done. rewrite Hp. set_solver.
Qed.

Lemma receive_pending uuid elapsed now total finished p p' :
  batch_receive uuid elapsed now total finished p = Some p' -> pending_ok p -> pending_ok p'.
Proof.
  unfold batch_receive. destruct (queue p) as [|r rest] eqn:Eq; [done|]. intros [= <-] Hp id.
  specialize (Hp id). unfold by_batches in *. rewrite Eq in Hp.
  destruct (_ <=? _); cbn; rewrite Hp.
  - rewrite concat_app. cbn. by rewrite !app_nil_r, <- !app_assoc.
  - by rewrite <- !app_assoc.
Qed.

Lemma timeout_pending woken uuid elapsed now total finished p :
  pending_ok p -> pending_ok (batch_timeout woken uuid elapsed now total finished p).
Proof.
  unfold batch_timeout. intros Hp. destruct (batch p) as [|r l] eqn:Eb; [done|].
  destruct (_ <=? _); [|done]. intros id. specialize (Hp id). unfold by_batches in *. rewrite Eb in Hp.
  cbn. rewrite Hp, concat_app. cbn. by rewrite !app_nil_r, <- !app_assoc.
Qed.

Lemma pool_ids size subs p :
  pool_ok size subs p -> ids subs ≡ₚ ids (by_batches p ++ queue p) ++ ids (by_workers p).
Proof.
  intros [_ (t & -> & Hp & _) _ _ _ _]. unfold ids. rewrite <- map_app. apply Permutation_map.
  rewrite Hp, <- !app_assoc. f_equiv. apply Permutation_app_comm.
Qed.

Lemma pool_after_pending workers size timeout now subs p :
  pool_after (new_pool workers size timeout now) subs p -> NoDup (ids subs) -> pending_ok p.
Proof.
  induction 1 as [|subs p1 rs p2 Ha IH Hs]; intros Hnd.
  { intros id. cbn. rewrite lookup_empty. split; [by intros []|set_solver]. }
  unfold ids in Hnd. rewrite map_app in Hnd. apply NoDup_app in Hnd as (Hnd & _ & _).
  specialize (IH Hnd). pose proof (pool_after_ok _ _ _ _ _ _ Ha) as Hok.
  destruct Hs as [rs p r p' E|el nw p p' _ E|uu el nw to fi p p' E|wo uu el nw to fi p].
  - apply (f_equal snd) in E. cbn in E. rewrite <- E. by apply submit_pending.
  - eapply worker_pending; [done| |done]. apply pool_ids in Hok.
    unfold ids in Hok at 1. rewrite Hok in Hnd. by apply NoDup_app in Hnd as (? & _).
  - by eapply receive_pending.
  - by apply timeout_pending.
Qed.

(** ** Theorems *)

(** C36. Batches are exact: whatever was submitted and however the workers and the
    batch processor take turns, every request is either still queued, waiting in
    the open batch, in exactly one batch sent, or verified by a worker; the batch
    processor and the workers each take them in the order of submission; no batch
    exceeds the batch size, and each result reports its batch: one result per
    request in order, valid exactly for the signatures that verify, the counts
    add up, and the failed ids are those of the invalid ones. *)
Theorem batches_exact workers size timeout now subs p :
  pool_after (new_pool workers size timeout now) subs p ->
  (exists taken, subs = taken ++ queue p /\
     taken ≡ₚ concat (batched p) ++ batch p ++ by_workers p /\
     concat (batched p) ++ batch p `sublist_of` taken /\ by_workers p `sublist_of` taken) /\
  Forall2 reports (batched p) (batch_results p) /\
  Forall (fun b => b <> [] /\ Z.of_nat (length b) <= Z.max 1 size) (batched p) /\
  Z.of_nat (length (batch p)) < Z.max 1 size.
Proof.
  intros [_ (t & -> & H2 & H3 & H4) H5 H6 H7 _]%pool_after_ok. split_and!; try done.
  exists t. unfold by_batches in *. by rewrite <- app_assoc in H2.
Qed.

(** Requests verified in a batch stay pending for ever: with distinct ids, the
    pending map holds exactly the requests no worker has taken - those queued, but
    also all whose batch has been answered - and the statistics count them. *)
Theorem batched_requests_stay_pending workers size timeout now subs p available :
  pool_after (new_pool workers size timeout now) subs p -> NoDup (ids subs) ->
  (forall id, is_Some (pending_requests p !! id) <->
     id ∈ ids (concat (batched p) ++ batch p ++ queue p)) /\
  st_pending_requests (get_stats available p) =
    Z.of_nat (length subs) - Z.of_nat (length (by_workers p)).
Proof.
  intros Ha Hnd. pose proof (pool_after_pending _ _ _ _ _ _ Ha Hnd) as Hp.
  pose proof (pool_ids _ _ _ (pool_after_ok _ _ _ _ _ _ Ha)) as Hids.
  rewrite Hids in Hnd. apply NoDup_app in Hnd as (Hnd & _ & _).
  split; [intros id; rewrite (Hp id); unfold by_batches; by rewrite <- app_assoc|].
  cbn. assert (dom (pending_requests p) = list_to_set (ids (by_batches p ++ queue p))) as Hdom.
  { apply set_eq. intros id. rewrite elem_of_dom, elem_of_list_to_set. apply Hp. }
  rewrite <- size_dom, Hdom, size_list_to_set by done. apply Permutation_length in Hids.
  rewrite length_app in Hids. unfold ids in *. rewrite !length_map in *. lia.
Qed.
End Crypto.

(** ** Signing and verifying *)

Section RoundTrip.
Context `{Ed25519Laws} {W : Type}.

(** The signer under [kid] is the local one with the pair [kp], and what is cached
    for it is its key. *)
Definition signs_as (kid : string) (kp : Keypair) (lid : string) (s : SigningService (W := W)) : Prop :=
  signers s !! kid = Some (local_signer (mkLocal kp lid)) /\
  forall x, cache (public_key_cache s) !! kid = Some x -> public_key x = public kp.

Definition adds (kid : string) (o : ServiceOp (W := W)) : bool :=
  match o with OpAdd k _ => bool_decide (k = kid) | _ => false end.

Lemma key_signs_as kid kp lid now now' k s w :
  signs_as kid kp lid s -> signs_as kid kp lid (get_public_key now now' k s w).1.2.
Proof.
  intros [H1 H2]. unfold get_public_key, get_signer, get_or_fetch.
  destruct (signers s !! k) as [sg|] eqn:E; cbn; [|done].
  destruct (cached now k _) as [pk|]; cbn; [done|].
  destruct (Signer.get_public_key sg w) as [[pk|x] w'] eqn:Eg; cbn; [|done].
  split; cbn; [done|]. intros x. destruct (decide (k = kid)) as [->|Hne].
  - rewrite lookup_insert_eq. intros [= <-]. cbn. rewrite H1 in E. injection E as <-. cbn in Eg. congruence.
  - rewrite lookup_insert_ne by done. apply H2.
Qed.

Lemma run_op_signs_as kid kp lid s w o :
  adds kid o = false -> signs_as kid kp lid s -> signs_as kid kp lid (run_op (s, w) o).1.
Proof.
  intros Ha Hs. destruct o as [k sg|k|now now' k|k|k m]; cbn; try done.
  - cbn in Ha. bool_to_prop. unfold add_signer.
    destruct (health_check sg w) as [[[]|x] w']; cbn; try done. destruct Hs as [H1 H2].
    split; cbn; [by rewrite lookup_insert_ne|done].
  - unfold set_default_signer. destruct (signers s !! k); [|done]. by destruct Hs.
  - pose proof (key_signs_as kid kp lid now now' k s w Hs) as Hk.
    by destruct (get_public_key now now' k s w) as [[r s'] w'].
  - destruct Hs as [H1 H2]. split; cbn; [done|]. intros x Hx. apply (H2 x).
    destruct (decide (k = kid)) as [->|]; [by rewrite lookup_delete_eq in Hx|by rewrite lookup_delete_ne in Hx].
Qed.

Lemma run_ops_signs_as kid kp lid sw ops :
  Forall (fun o => adds kid o = false) ops -> signs_as kid kp lid sw.1 ->
  signs_as kid kp lid (foldl run_op sw ops).1.
Proof.
  revert sw. induction ops as [|o ops IH]; intros [s w] Hf Hs; [done|]. inversion Hf; subst. cbn [foldl].
  apply IH; [done|]. by apply run_op_signs_as.
Qed.

(** C35. What the signing service signs, the verifier accepts: once a local signer
    is added to a service, of any past, that caches no other key under the signer's
    id, then whatever other signers are added, defaults set, keys fetched,
    invalidated or messages signed, a message signed under its id verifies under
    the public key the service gives for that id, cached or not.  (The condition is
    needed: adding a signer leaves the cache alone, so a key cached for a former
    signer of the id outlives it.) *)
Theorem signed_messages_verify kid kp lid (s0 : SigningService (W := W)) w ops m uuid t now now' :
  (forall x, cache (public_key_cache s0) !! kid = Some x -> public_key x = public kp) ->
  Forall (fun o => adds kid o = false) ops ->
  let '(r, s1, w1) := add_signer kid (local_signer (mkLocal kp lid)) s0 w in
  let '(s, w2) := foldl run_op (s1, w1) ops in
  r = Ok tt /\
  exists sg pk s', sign_with kid m s w2 = (Ok sg, w2) /\ get_public_key now now' kid s w2 = (Ok pk, s', w2) /\
    verify_signature (new_request uuid t (public_to_bytes pk) m sg) = Ok tt.
Proof.
  intros Hc Hf. cbn [add_signer health_check local_signer].
  match goal with |- context [foldl run_op ?i ops] =>
    assert (signs_as kid kp lid (foldl run_op i ops).1) as [H1 H2] end.
  { apply run_ops_signs_as; [done|]. split; cbn; [apply lookup_insert_eq|exact Hc]. }
  destruct (foldl run_op _ ops) as [s w1]. cbn in H1, H2. split; [done|].
  exists (signature_to_bytes (sign_message kp m)), (public kp).
  assert (exists s', get_public_key now now' kid s w1 = (Ok (public kp), s', w1)) as [s' Hk].
  { unfold get_public_key, get_signer, get_or_fetch. rewrite H1. cbn. unfold cached.
    destruct (cache (public_key_cache s) !! kid) as [x|] eqn:E; [|by eexists].
    destruct (is_expired now x); [by eexists|]. rewrite (H2 x) by done. by eexists. }
  exists s'. split; [unfold sign_with, get_signer; by rewrite H1|]. split; [done|].
  unfold verify_signature, crypto_error; cbn. rewrite public_roundtrip, signature_roundtrip. cbn.
  by rewrite verify_sign.
Qed.
End RoundTrip.

(** *** Witnesses *)

Definition toy_request (k : Z) (id : string) (sg : Z) : SignatureVerificationRequest :=
  mkRequest id (replicate 31 0 ++ [k]) [1; 2] (sg :: replicate 63 0) 0.
Definition toy_requests : list SignatureVerificationRequest :=
  [toy_request 5 "a" 8; toy_request 5 "b" 9; toy_request 6 "c" 9].


Section ToyPool.
#[local] Existing Instance toy_ed25519 | 0.

Definition toy_receive (p : CryptoWorkerPool) : CryptoWorkerPool :=
  default p (batch_receive "x" (fun _ => 0) (fun _ => 0) 0 1 p).
Definition toy_p1 : CryptoWorkerPool := snd (submit true "" toy_requests (new_pool 2 2 100 0)).
Definition toy_p2 : CryptoWorkerPool := toy_receive toy_p1.
Definition toy_p3 : CryptoWorkerPool := toy_receive toy_p2.
Definition toy_p4 : CryptoWorkerPool := default toy_p3 (worker_turn 0 0 toy_p3).

Lemma toy_pool : pool_after (new_pool 2 2 100 0) toy_requests toy_p4.
Proof.
  apply (AfterStep _ toy_requests toy_p3 []); [|by apply (StepWorker 0 0)].
  apply (AfterStep _ toy_requests toy_p2 []);
    [|apply (StepReceive "x" (fun _ => 0) (fun _ => 0) 0 1); vm_compute; reflexivity].
  apply (AfterStep _ toy_requests toy_p1 []);
    [|apply (StepReceive "x" (fun _ => 0) (fun _ => 0) 0 1); vm_compute; reflexivity].
  apply (AfterStep _ [] (new_pool 2 2 100 0) toy_requests); [constructor|].
  apply (StepSubmit _ _ (Ok tt)). vm_compute. reflexivity.
Qed.

Example toy_results :
  map failed_verifications (batch_results toy_p4) = [["b"%string]] /\
  st_pending_requests (get_stats 2 toy_p4) = 2.
Proof. split; vm_compute; reflexivity. Qed.
End ToyPool.

Lemma batches_exact_witness :
  Forall2 (reports (H := toy_ed25519)) (batched toy_p4) (batch_results toy_p4).
Proof. exact (proj1 (proj2 (batches_exact 2 2 100 0 toy_requests toy_p4 toy_pool))). Defined.

Lemma batched_requests_stay_pending_witness :
  st_pending_requests (get_stats 2 toy_p4) = 3 - Z.of_nat (length (by_workers toy_p4)).
Proof.
  refine (proj2 (batched_requests_stay_pending 2 2 100 0 toy_requests toy_p4 2 toy_pool _)).
  apply (bool_decide_unpack _). vm_compute. exact I.
Defined.

(** The service has had another signer under the id, whose key was fetched, cached
    and then invalidated. *)
Definition toy_service : SigningService (H := toy_ed25519) (W := unit) :=
  (foldl (run_op (H := toy_ed25519)) (new_service 60, tt)
    [OpAdd "a" (local_signer (H := toy_ed25519) (mkLocal 9 "old")); OpKey 0 0 "a"; OpInvalidate "a"]).1.

Lemma signed_messages_verify_witness :
  is_Some (signers toy_service !! "a"%string) /\
  verify_signature (H := toy_ed25519) (new_request "r" 0 (public_to_bytes (5 : PublicKey)) [1; 2]
    (8 :: replicate 63 0)) = Ok tt.
Proof.
  split; [eexists; reflexivity|].
  pose proof (signed_messages_verify (H := toy_ed25519) "a" 5 "a" toy_service tt [OpKey 0 0 "a"] [1; 2] "r" 0 5 5) as Hv.
  destruct Hv as (_ & sg & pk & s' & E1 & E2 & E3); [intros x Hx; vm_compute in Hx; discriminate|by repeat constructor|].
  vm_compute in E1. injection E1 as <-. apply (f_equal (fun x => x.1.1)) in E2. vm_compute in E2.
  injection E2 as <-. exact E3.
Defined.
