(* ===== verification/Config.v ===== *)
(** network-node/src/config.rs: the node's configuration from the environment,
    and the Soroban RPC endpoints.

    The environment is a function from names to values; a value std::env cannot
    decode counts as absent, as it does for [std::env::var].  Texts are [string]s;
    URLs, which are trimmed, are lists of scalar values as in ChainParams.
    The JSON decoders (serde) and the random node id are parameters.  Times are
    seconds. *)
From Stdlib Require Import Ascii.
From stdpp Require Import base sets list strings.
From S2P Require Import Prelude NetworkErrors ChainParams Signer HorizonClient.

(** ** Numbers and booleans: [str::parse] *)

Fixpoint digits_value (acc : Z) (s : string) : option Z :=
  match s with
  | EmptyString => Some acc
  | String c s' =>
      let n := Z.of_N (N_of_ascii c) in
      if (48 <=? n) && (n <=? 57) then digits_value (10 * acc + (n - 48)) s' else None
  end.

(** Digits after an optional sign; the empty string has none. *)
Definition parse_unsigned (s : string) : option Z :=
  match s with
  | EmptyString => None
  | String "+" EmptyString => None
  | String "+" s' => digits_value 0 s'
  | _ => digits_value 0 s
  end.

Definition in_range (lo hi : Z) (o : option Z) : option Z :=
  match o with Some z => checked lo hi z | None => None end.

Definition parse_u64 (s : string) : option Z := in_range 0 u64_max (parse_unsigned s).

Definition parse_i64 (s : string) : option Z :=
  match s with
  | String "-" EmptyString => None
  | String "-" s' => in_range (-9223372036854775808) 9223372036854775807 (Z.opp <$> digits_value 0 s')
  | _ => in_range (-9223372036854775808) 9223372036854775807 (parse_unsigned s)
  end.

Definition parse_bool (s : string) : option bool :=
  if decide (s = "true") then Some true else if decide (s = "false") then Some false else None.

(** Lower case of the ASCII letters. *)
Fixpoint to_lowercase (s : string) : string :=
  match s with
  | EmptyString => EmptyString
  | String c s' =>
      let n := N_of_ascii c in
      String (if ((65 <=? n) && (n <=? 90))%N then ascii_of_N (n + 32) else c) (to_lowercase s')
  end.

(** ** The Soroban endpoints *)

Record SorobanConfig : Type := mkSorobanConfig {
  rpc_url : Str;
  rpc_urls : list Str;
  network_passphrase : string;
  soroban_health_check_interval_seconds : Z }.

Definition default_soroban_rpc_url : Str := lit "https://soroban-testnet.stellar.org:443".

Definition default_soroban_config : SorobanConfig :=
  mkSorobanConfig default_soroban_rpc_url [] "Test SDF Testnet ; September 2015" 60.

Definition blank (url : Str) : bool := bool_decide (trim url = []).

Definition add_endpoint (endpoints : list Str) (url : Str) : list Str :=
  if negb (blank url) && negb (bool_decide (url ∈ endpoints)) then endpoints ++ [url] else endpoints.

Definition rpc_endpoints (cfg : SorobanConfig) : list Str :=
  let first := if blank (rpc_url cfg) then [] else [rpc_url cfg] in
  let endpoints := fold_left add_endpoint (rpc_urls cfg) first in
  match endpoints with
  | [] => [default_soroban_rpc_url]
  | _ => endpoints
  end.

(** ** The node's configuration *)

Inductive TracingExporter : Type := Otlp | Jaeger | XRay | NoExporter.

Record DatabaseConfig : Type := mkDatabaseConfig {
  min_connections : Z;
  max_connections : Z;
  connection_timeout : Z;
  idle_timeout : Z }.
Definition default_database_config : DatabaseConfig := mkDatabaseConfig 2 10 30 300.
(** The URL is not looked at. *)
Definition database_config_from_url (url : string) : result NetworkError DatabaseConfig :=
  Ok default_database_config.

Record NetworkConfig : Type := mkNetworkConfig {
  bind_address : string;
  grpc_bind_address : string;
  gateway_bind_address : string;
  database_url : string;
  database_config : DatabaseConfig;
  shutdown_grace_period : Z;
  log_level : string;
  bootstrap_peer : option string;
  tls_cert_path : option string;
  tls_key_path : option string;
  tls_client_ca_path : option string;
  tls_require_client_auth : bool;
  enable_gateway : bool;
  enable_reflection : bool;
  node_id : string;
  otlp_endpoint : option string;
  jaeger_endpoint : option string;
  xray_endpoint : option string;
  tracing_enabled : bool;
  tracing_exporter : TracingExporter;
  signing_config : option SignerConfig;
  cache_ttl_seconds : Z;
  genesis_config_path : option string;
  horizon_config : HorizonConfig;
  soroban_config : SorobanConfig;
  vault_contract_address : string }.

Section FromEnv.
Context (horizon_json : string -> option HorizonConfig) (soroban_json : string -> option SorobanConfig).

Definition exporter_of (s : string) : TracingExporter :=
  if decide (to_lowercase s = "jaeger") then Jaeger
  else if decide (to_lowercase s = "xray") then XRay
  else if decide (to_lowercase s = "none") then NoExporter
  else Otlp.

Definition signing_from_env (var : string -> option string) : option SignerConfig :=
  match var "AWS_KMS_KEY_ID" with
  | Some kms_key_id => Some (AwsKms kms_key_id (default "us-east-1" (var "AWS_REGION")) (var "AWS_PROFILE"))
  | None =>
      match var "LOCAL_SIGNER_KEY_PATH" with
      | Some local_key_path => Some (Local local_key_path)
      | None => None
      end
  end.

(** The fields, given the grace period; [random_id] is the first group of a fresh
    UUID. *)
Definition env_config (grace : Z) (random_id : string) (var : string -> option string) : NetworkConfig :=
  mkNetworkConfig
    (default "0.0.0.0:8080" (var "BIND_ADDRESS"))
    (default "0.0.0.0:50051" (var "GRPC_BIND_ADDRESS"))
    (default "0.0.0.0:8081" (var "GATEWAY_BIND_ADDRESS"))
    (default "sqlite::memory:" (var "DATABASE_URL"))
    default_database_config
    grace
    (default "info" (var "LOG_LEVEL"))
    (var "BOOTSTRAP_PEER") (var "TLS_CERT_PATH") (var "TLS_KEY_PATH") (var "TLS_CLIENT_CA_PATH")
    (default true (var "TLS_REQUIRE_CLIENT_AUTH" ≫= parse_bool))
    (default true (parse_bool (default "true" (var "ENABLE_GATEWAY"))))
    (default true (parse_bool (default "true" (var "ENABLE_REFLECTION"))))
    (default ("node-" +:+ random_id) (var "NODE_ID"))
    (var "OTLP_ENDPOINT") (var "JAEGER_ENDPOINT") (var "XRAY_ENDPOINT")
    (default true (parse_bool (default "true" (var "TRACING_ENABLED"))))
    (exporter_of (default "otlp" (var "TRACING_EXPORTER")))
    (signing_from_env var)
    (default 3600 (var "CACHE_TTL_SECONDS" ≫= parse_i64))
    (var "GENESIS_CONFIG_PATH")
    (default default_horizon_config (var "HORIZON_CONFIG" ≫= horizon_json))
    (default default_soroban_config (var "SOROBAN_CONFIG" ≫= soroban_json))
    (default "CCDRM2F5H7..." (var "VAULT_CONTRACT_ADDRESS")).

Definition from_env (random_id : string) (var : string -> option string)
    : result NetworkError NetworkConfig :=
  let? grace := ok_or (parse_u64 (default "30" (var "SHUTDOWN_GRACE_PERIOD")))
                  (NE_Config "Invalid SHUTDOWN_GRACE_PERIOD") in
  Ok (env_config grace random_id var).
End FromEnv.

(** ** The endpoints are distinct and not blank *)

Lemma add_endpoint_nodup l u : NoDup l -> NoDup (add_endpoint l u).
Proof.
  intros Hl. unfold add_endpoint. destruct (_ && _) eqn:E; [|done].
  apply andb_true_iff in E as [_ E]. apply negb_true_iff, bool_decide_eq_false in E.
  apply NoDup_app. split_and!; [done|set_solver|apply NoDup_singleton].
Qed.

Lemma add_endpoint_elem l u x :
  x ∈ add_endpoint l u <-> x ∈ l \/ x = u /\ blank u = false.
Proof.
  unfold add_endpoint. destruct (blank u) eqn:Eb; cbn; [naive_solver|].
  case_bool_decide; cbn; set_solver.
Qed.

Lemma endpoints_fold_spec l0 l :
  NoDup l0 -> NoDup (fold_left add_endpoint l l0) /\
  forall x, x ∈ fold_left add_endpoint l l0 <-> x ∈ l0 \/ x ∈ l /\ blank x = false.
Proof.
  revert l0. induction l as [|u l IH]; intros l0 Hl; cbn [fold_left]; [set_solver|].
  destruct (IH (add_endpoint l0 u) (add_endpoint_nodup _ _ Hl)) as [H1 H2]. split; [done|].
  intros x. rewrite H2, add_endpoint_elem. set_solver.
Qed.

Lemma endpoints_fold_head l0 l : exists l', fold_left add_endpoint l l0 = l0 ++ l'.
Proof.
  revert l0. induction l as [|u l IH]; intros l0; cbn [fold_left]; [exists []; by rewrite app_nil_r|].
  destruct (IH (add_endpoint l0 u)) as [l' ->]. unfold add_endpoint. destruct (_ && _); [|by eexists].
  rewrite <- app_assoc. by eexists.
Qed.

(** The configured endpoints: distinct, never none, the primary URL first. *)
Lemma rpc_endpoints_spec cfg :
  rpc_endpoints cfg <> [] /\ NoDup (rpc_endpoints cfg) /\
  (blank (rpc_url cfg) = false -> head (rpc_endpoints cfg) = Some (rpc_url cfg)) /\
  (forall x, x ∈ rpc_endpoints cfg ->
     (x = rpc_url cfg \/ x ∈ rpc_urls cfg) /\ blank x = false \/ x = default_soroban_rpc_url) /\
  (forall x, x = rpc_url cfg \/ x ∈ rpc_urls cfg -> blank x = false -> x ∈ rpc_endpoints cfg).
Proof.
  unfold rpc_endpoints. set (first := if blank (rpc_url cfg) then [] else [rpc_url cfg]).
  destruct (endpoints_fold_spec first (rpc_urls cfg)) as [Hn He].
  { unfold first. destruct (blank _); [constructor|apply NoDup_singleton]. }
  destruct (endpoints_fold_head first (rpc_urls cfg)) as [l' Hh].
  assert (forall x, x ∈ first <-> x = rpc_url cfg /\ blank x = false) as Hf.
  { intros x. unfold first. destruct (blank (rpc_url cfg)) eqn:E; [|set_solver].
    split; [set_solver|]. intros [-> ?]. congruence. }
  destruct (fold_left add_endpoint (rpc_urls cfg) first) as [|u l] eqn:El.
  - split_and!; [done|apply NoDup_singleton| |set_solver|].
    + intros Hb. unfold first in Hh. by rewrite Hb in Hh.
    + intros x Hx Hb. exfalso. assert (x ∈ []) as Hin; [|set_solver]. rewrite He, Hf. naive_solver.
  - split_and!; [done|done| | |].
    + intros Hb. rewrite Hh. unfold first. by rewrite Hb.
    + intros x Hx. left. apply He in Hx. rewrite Hf in Hx. naive_solver.
    + intros x Hx Hb. apply He. rewrite Hf. naive_solver.
Qed.

(** ** Theorems *)

(** Reading the configuration fails in exactly one case, a grace period that is
    not a u64 number; every other value that is missing or unreadable falls back
    to its default.  A KMS key id selects the KMS signer even when a local key
    path is set; client certificates are required unless the variable says
    [false], also when no client CA is configured. *)
Theorem from_env_total horizon_json soroban_json random_id var :
  let read := from_env horizon_json soroban_json random_id var in
  (forall x, read = Err x <-> x = NE_Config "Invalid SHUTDOWN_GRACE_PERIOD" /\
     exists v, var "SHUTDOWN_GRACE_PERIOD" = Some v /\ parse_u64 v = None) /\
  (forall cfg, read = Ok cfg ->
     (var "SHUTDOWN_GRACE_PERIOD" = None -> shutdown_grace_period cfg = 30) /\
     (forall v, var "CACHE_TTL_SECONDS" = Some v -> parse_i64 v = None -> cache_ttl_seconds cfg = 3600) /\
     (forall k, var "AWS_KMS_KEY_ID" = Some k -> exists r p, signing_config cfg = Some (AwsKms k r p)) /\
     (tls_require_client_auth cfg = false <-> var "TLS_REQUIRE_CLIENT_AUTH" = Some "false"%string)).
Proof.
  cbv zeta. unfold from_env.
  assert (forall grace cfg, Ok (E := NetworkError) (env_config horizon_json soroban_json grace random_id var) = Ok cfg ->
    shutdown_grace_period cfg = grace /\
    (forall v, var "CACHE_TTL_SECONDS" = Some v -> parse_i64 v = None -> cache_ttl_seconds cfg = 3600) /\
    (forall k, var "AWS_KMS_KEY_ID" = Some k -> exists r p, signing_config cfg = Some (AwsKms k r p)) /\
    (tls_require_client_auth cfg = false <-> var "TLS_REQUIRE_CLIENT_AUTH" = Some "false"%string)) as Hf.
  { intros grace cfg [= <-]. cbn. split_and!; [done|by intros v -> E; cbn; rewrite E| |].
    - intros k Hk. unfold signing_from_env. rewrite Hk. by do 2 eexists.
    - destruct (var "TLS_REQUIRE_CLIENT_AUTH") as [b|]; cbn; [|naive_solver]. unfold parse_bool.
      repeat case_decide; subst; naive_solver. }
  destruct (var "SHUTDOWN_GRACE_PERIOD") as [v|] eqn:Ev; cbn [default from_option].
  - destruct (parse_u64 (id v)) as [n|] eqn:Ep; unfold id in Ep; cbn [ok_or bindR];
      (split; [naive_solver|]); [|done].
    intros cfg Hc. split; [done|]. by apply (Hf n).
  - split; [naive_solver|]. intros cfg Hc. destruct (Hf 30 cfg Hc) as [Hg Hr]. by split.
Qed.
