(* ===== verification/SorobanRpc.v ===== *)
(** network-node/src/soroban_rpc_client.rs (calls with failover over the
    endpoints), soroban_service.rs on top of it, and the polling loop of
    indexer.rs.

    The HTTP client is outside the repository: [post] sends a body to a URL and
    returns a response (with its retries of transient errors inside) or the text
    of an error.  The JSON encoder and decoder (serde) and the display of a status
    code are parameters.  The failovers [track_failover] counts are returned as a
    list. *)
From stdpp Require Import base list strings pretty.
From S2P Require Import Prelude NetworkErrors ChainParams Signer Config.

Record JsonRpcRequest (P : Type) : Type := mkRpcRequest {
  jsonrpc : string; rq_id : Z; method : string; params : P }.
Arguments mkRpcRequest {P} jsonrpc rq_id method params.

Record JsonRpcError : Type := mkRpcError { err_code : Z; err_message : string; err_data : option string }.

Record JsonRpcResponse (R : Type) : Type := mkRpcResponse {
  rs_jsonrpc : string; rs_id : Z; rs_result : option R; rs_error : option JsonRpcError }.
Arguments mkRpcResponse {R} rs_jsonrpc rs_id rs_result rs_error.
Arguments rs_result {R} j. Arguments rs_error {R} j.

(** A response: its status, and its body when it could be read. *)
Record HttpResponse : Type := mkHttp { status : Z; body : result string string }.

Record Failover : Type := mkFailover { from_url : Str; to_url : Str; reason : string }.

(** The bytes of a text. *)
Definition utf8_scalar (c : Z) : list Z :=
  if c <? 128 then [c]
  else if c <? 2048 then [192 + c / 64; 128 + c mod 64]
  else if c <? 65536 then [224 + c / 4096; 128 + (c / 64) mod 64; 128 + c mod 64]
  else [240 + c / 262144; 128 + (c / 4096) mod 64; 128 + (c / 64) mod 64; 128 + c mod 64].
Definition utf8 (s : Str) : string :=
  String.string_of_list_ascii (map (fun b => Ascii.ascii_of_N (Z.to_N b)) (flat_map utf8_scalar s)).

Section Client.
Context {W : Type} (post : Str -> string -> W -> result string HttpResponse * W)
  (status_text : Z -> string).

Definition SERVICE_UNAVAILABLE : Z := 503.
Definition is_success (st : Z) : bool := (200 <=? st) && (st <? 300).
Definition text (r : HttpResponse) : string := match body r with Ok s => s | Err _ => "" end.

Section Call.
Context {P R : Type} (encode : JsonRpcRequest P -> string)
  (decode : result string string -> result string (JsonRpcResponse R)).

(** What a response that is not failed over means. *)
Definition response_result (r : HttpResponse) : result NetworkError R :=
  if negb (is_success (status r))
  then Err (NE_SorobanRpc ("HTTP error " +:+ status_text (status r) +:+ ": " +:+ text r)) else
  match decode (body r) with
  | Err x => Err (NE_Serialization x)
  | Ok j =>
      match rs_error j with
      | Some x => Err (NE_SorobanRpc ("RPC error " +:+ pretty (err_code x) +:+ ": " +:+ err_message x))
      | None => ok_or (rs_result j) (NE_SorobanRpc "Empty result in Soroban RPC response")
      end
  end.

(** The loop over the endpoints; there is a next one exactly when [rest] is not
    empty. *)
Fixpoint call_endpoints (req : string) (urls : list Str) (last_error : option NetworkError) (w : W)
    : result NetworkError R * W * list Failover :=
  match urls with
  | [] => (Err (default (NE_SorobanRpc "No Soroban RPC endpoints available") last_error), w, [])
  | url :: rest =>
      match post url req w with
      | (Err x, w') =>
          let err := NE_Connection ("Failed to send Soroban RPC request to " +:+ utf8 url +:+ ": " +:+ x) in
          match rest with
          | [] => (Err err, w', [])
          | next :: _ =>
              let '(r, w'', fs) := call_endpoints req rest (Some err) w' in
              (r, w'', mkFailover url next "request_error" :: fs)
          end
      | (Ok resp, w') =>
          match rest with
          | next :: _ =>
              if status resp =? SERVICE_UNAVAILABLE then
                let err := NE_SorobanRpc ("HTTP error " +:+ status_text SERVICE_UNAVAILABLE +:+ " from " +:+
                             utf8 url +:+ ": " +:+ text resp) in
                let '(r, w'', fs) := call_endpoints req rest (Some err) w' in
                (r, w'', mkFailover url next "http_503" :: fs)
              else (response_result resp, w', [])
          | [] => (response_result resp, w', [])
          end
      end
  end.

Definition call (cfg : SorobanConfig) (mth : string) (prm : P) (w : W)
    : result NetworkError R * W * list Failover :=
  call_endpoints (encode (mkRpcRequest "2.0" 1 mth prm)) (rpc_endpoints cfg) None w.

(** ** Failover *)

(** An answer after which the next endpoint is asked. *)
Definition unavailable (a : result string HttpResponse) : bool :=
  match a with Err _ => true | Ok r => status r =? SERVICE_UNAVAILABLE end.

Inductive skipped (req : string) : list Str -> W -> W -> Prop :=
| SkipNone w : skipped req [] w w
| SkipOne u us a w w1 w2 :
    post u req w = (a, w1) -> unavailable a = true -> skipped req us w1 w2 ->
    skipped req (u :: us) w w2.

(** What the last endpoint asked decides. *)
Definition final_result (url : Str) (a : result string HttpResponse) : result NetworkError R :=
  match a with
  | Err x => Err (NE_Connection ("Failed to send Soroban RPC request to " +:+ utf8 url +:+ ": " +:+ x))
  | Ok resp => response_result resp
  end.

Lemma call_endpoints_spec req urls last_error w :
  urls <> [] ->
  exists tried u rest w1 a w2 fs,
    urls = tried ++ u :: rest /\ skipped req tried w w1 /\ post u req w1 = (a, w2) /\
    (rest <> [] -> unavailable a = false) /\
    call_endpoints req urls last_error w = (final_result u a, w2, fs) /\
    map from_url fs = tried /\ map to_url fs = take (length tried) (drop 1 urls).
Proof.
  revert last_error w. induction urls as [|url rest IH]; intros last_error w Hne; [done|]. clear Hne.
  cbn [call_endpoints]. destruct (post url req w) as [a w'] eqn:Ep.
  destruct rest as [|next rest].
  { exists [], url, [], w, a, w', []. split_and!; try done; [constructor|]. by destruct a. }
  destruct (unavailable a) eqn:Eu.
  - destruct (IH (Some (match a with
      | Err x => NE_Connection ("Failed to send Soroban RPC request to " +:+ utf8 url +:+ ": " +:+ x)
      | Ok resp => NE_SorobanRpc ("HTTP error " +:+ status_text SERVICE_UNAVAILABLE +:+ " from " +:+
                     utf8 url +:+ ": " +:+ text resp) end)) w' ltac:(done))
      as (tried & u & rest' & w1 & a' & w2 & fs & E1 & E2 & E3 & E4 & E5 & E6 & E7).
    exists (url :: tried), u, rest', w1, a', w2,
      (mkFailover url next (match a with Err _ => "request_error" | Ok _ => "http_503" end) :: fs).
    split_and!; try done; [by rewrite E1|by econstructor| |cbn; by rewrite E6|cbn in E7 |- *; by rewrite E7].
    destruct a as [resp|x]; cbn [unavailable] in Eu; [rewrite Eu|]; by rewrite E5.
  - exists [], url, (next :: rest), w, a, w', []. split_and!; try done; [constructor|].
    destruct a as [resp|x]; cbn [unavailable] in Eu; [by rewrite Eu|done].
Qed.
End Call.

(** ** The service *)

Record HealthResponse : Type := mkHealthResponse { hl_status : string }.
Record GetTransactionResponse : Type := mkGetTransaction {
  gt_status : string; gt_latest_ledger : Z; gt_latest_ledger_close_time : string; gt_oldest_ledger : Z;
  gt_oldest_ledger_close_time : string; gt_result_xdr : option string; gt_result_meta_xdr : option string }.
Record SimulateHostFunctionResult : Type := mkHostResult { hf_auth : option (list string); hf_xdr : string }.
Record SimulateTransactionResponse : Type := mkSimulate {
  sm_latest_ledger : Z; sm_results : option (list SimulateHostFunctionResult);
  sm_min_resource_fee : option string; sm_events : option (list string) }.
Record SendTransactionResponse : Type := mkSend {
  sd_hash : string; sd_status : string; sd_latest_ledger : Z; sd_latest_ledger_close_time : string;
  sd_error_result_xdr : option string }.

Context (encode : JsonRpcRequest (list (string * string)) -> string)
  (decode_health : result string string -> result string (JsonRpcResponse HealthResponse))
  (decode_transaction : result string string -> result string (JsonRpcResponse GetTransactionResponse))
  (decode_simulate : result string string -> result string (JsonRpcResponse SimulateTransactionResponse))
  (decode_send : result string string -> result string (JsonRpcResponse SendTransactionResponse)).

Definition rpc_get_health (cfg : SorobanConfig) : W -> result NetworkError HealthResponse * W * list Failover :=
  call encode decode_health cfg "getHealth" [].
Definition rpc_get_transaction (cfg : SorobanConfig) (hash : string)
    : W -> result NetworkError GetTransactionResponse * W * list Failover :=
  call encode decode_transaction cfg "getTransaction" [("hash"%string, hash)].
Definition rpc_simulate_transaction (cfg : SorobanConfig) (xdr : string)
    : W -> result NetworkError SimulateTransactionResponse * W * list Failover :=
  call encode decode_simulate cfg "simulateTransaction" [("transaction"%string, xdr)].
Definition rpc_send_transaction (cfg : SorobanConfig) (xdr : string)
    : W -> result NetworkError SendTransactionResponse * W * list Failover :=
  call encode decode_send cfg "sendTransaction" [("transaction"%string, xdr)].

(** [counter!("soroban_rpc_errors_total", 1)] is the last component. *)
Definition simulate_transaction (cfg : SorobanConfig) (xdr : string) (w : W)
    : result NetworkError SimulateTransactionResponse * W * Z :=
  let '(r, w', _) := rpc_simulate_transaction cfg xdr w in
  (r, w', if is_ok r then 0 else 1).

(** What the status of a submitted transaction means. *)
Definition submission_outcome (response : SendTransactionResponse)
    : result NetworkError SendTransactionResponse :=
  if decide (sd_status response = "ERROR") then
    match sd_error_result_xdr response with
    | Some xdr =>
        if contains "AAAAAAAAAAAAAAAB" xdr then Err NE_TransactionExpired
        else if contains "AAAAAAAAAAAAAAAC" xdr then Err NE_InsufficientFee
        else Err (NE_SorobanRpc ("Transaction failed: " +:+ sd_status response))
    | None => Err (NE_SorobanRpc ("Transaction failed: " +:+ sd_status response))
    end
  else Ok response.

Definition submit_transaction (cfg : SorobanConfig) (xdr : string) (w : W)
    : result NetworkError SendTransactionResponse * W * Z :=
  let '(r, w', _) := rpc_send_transaction cfg xdr w in
  match r with
  | Err x => (Err x, w', 1)
  | Ok response =>
      let out := submission_outcome response in (out, w', if is_ok out then 0 else 1)
  end.

Definition get_health (cfg : SorobanConfig) (w : W) : result NetworkError string * W :=
  let '(r, w', _) := rpc_get_health cfg w in (let? response := r in Ok (hl_status response), w').
Definition get_transaction_status (cfg : SorobanConfig) (hash : string) (w : W) : result NetworkError string * W :=
  let '(r, w', _) := rpc_get_transaction cfg hash w in (let? response := r in Ok (gt_status response), w').
End Client.

(** ** The event indexer *)

Record SorobanEvent : Type := mkEvent {
  event_type : string; ledger : Z; contract_id : string; ev_id : string; topic : list string; xdr : string }.
Record EventFilter : Type := mkFilter {
  ft_event_type : string; ft_contract_ids : list string; ft_topics : list (list string) }.
Record GetEventsParams : Type := mkEventsParams { start_ledger : Z; filters : list EventFilter }.
Record EventsResult : Type := mkEvents { events : list SorobanEvent; latest_ledger : Z }.

Definition events_request (contract : string) (current_ledger : Z) : GetEventsParams :=
  mkEventsParams current_ledger
    [mkFilter "contract" [contract] [["AxionveraVault"%string]]].

(** One turn of the loop of [start], on what the call answered: the next ledger
    to ask for (u32, which wraps) and the events parsed. *)
Definition poll_turn (current_ledger : Z) (answer : result NetworkError EventsResult)
    : Z * list SorobanEvent :=
  match answer with
  | Ok r => (as_u32 (latest_ledger r + 1), events r)
  | Err _ => (current_ledger, [])
  end.

(** The loop until it is cancelled: the requests sent and the events parsed, when
    the calls answer as [answer] says. *)
Fixpoint poll (contract : string) (answers : list (result NetworkError EventsResult)) (current_ledger : Z)
    : list GetEventsParams * list SorobanEvent :=
  match answers with
  | [] => ([], [])
  | a :: rest =>
      let '(next, evs) := poll_turn current_ledger a in
      let '(reqs, evs') := poll contract rest next in
      (events_request contract current_ledger :: reqs, evs ++ evs')
  end.
Definition start (contract : string) (answers : list (result NetworkError EventsResult))
    : list GetEventsParams * list SorobanEvent := poll contract answers 0.

(** The ledger after the last answer that succeeded. *)
Fixpoint resume_point (from : Z) (answers : list (result NetworkError EventsResult)) : Z :=
  match answers with
  | [] => from
  | Ok r :: rest => resume_point (as_u32 (latest_ledger r + 1)) rest
  | Err _ :: rest => resume_point from rest
  end.

Lemma poll_spec contract answers from :
  map start_ledger (poll contract answers from).1 =
    imap (fun i _ => resume_point from (take i answers)) answers /\
  (poll contract answers from).2 = flat_map (fun a => match a with Ok r => events r | Err _ => [] end) answers.
Proof.
  revert from. induction answers as [|a answers IH]; intros from; [done|]. cbn [poll].
  destruct (poll_turn from a) as [next evs] eqn:Et. specialize (IH next).
  destruct (poll contract answers next) as [reqs evs']. cbn [fst snd map flat_map] in IH |- *.
  destruct IH as [H1 H2].
  rewrite imap_cons, H1, H2. split.
  - f_equal. apply imap_ext. intros i x _. cbn. destruct a; cbn in Et; by simplify_eq.
  - f_equal. destruct a; cbn in Et; by simplify_eq.
Qed.

(** ** Theorems *)

(** A call asks the configured endpoints in order until one answers: every
    endpoint before the last one asked could not be reached or was unavailable
    (503), each such step is counted once as a failover to the endpoint that
    follows it, the answer of the last one asked decides the result, and an
    endpoint is given up only when it is unavailable and another one is left.  The
    endpoints are distinct, the primary URL comes first, and there is always at
    least one, so "no endpoints" is never reported. *)
Theorem rpc_failover {W P R} post status_text (encode : JsonRpcRequest P -> string)
    (decode : result string string -> result string (JsonRpcResponse R)) cfg mth prm (w : W) :
  let req := encode (mkRpcRequest "2.0" 1 mth prm) in
  exists tried u rest w1 a w2 fs,
    rpc_endpoints cfg = tried ++ u :: rest /\ NoDup (tried ++ u :: rest) /\
    (blank (rpc_url cfg) = false -> head (tried ++ u :: rest) = Some (rpc_url cfg)) /\
    skipped post req tried w w1 /\ post u req w1 = (a, w2) /\
    (rest <> [] -> unavailable a = false) /\
    call post status_text encode decode cfg mth prm w = (final_result status_text decode u a, w2, fs) /\
    map from_url fs = tried /\ map to_url fs = take (length tried) (drop 1 (rpc_endpoints cfg)).
Proof.
  cbv zeta. destruct (rpc_endpoints_spec cfg) as (Hne & Hnd & Hhd & _ & _).
  destruct (call_endpoints_spec post status_text decode (encode (mkRpcRequest "2.0" 1 mth prm))
    (rpc_endpoints cfg) None w Hne) as (tried & u & rest & w1 & a & w2 & fs & E1 & E2 & E3 & E4 & E5 & E6 & E7).
  exists tried, u, rest, w1, a, w2, fs. rewrite <- E1. by split_and!.
Qed.

(** The indexer resumes where it stopped: each poll asks for the ledger after
    the latest one of the last successful answer (zero before any; u32
    arithmetic), failed polls do not move it, and the events parsed are those of
    the successful answers, in order. *)
Theorem indexer_resumes contract answers :
  map start_ledger (start contract answers).1 =
    imap (fun i _ => resume_point 0 (take i answers)) answers /\
  (start contract answers).2 = flat_map (fun a => match a with Ok r => events r | Err _ => [] end) answers /\
  Forall (fun q => filters q = [mkFilter "contract" [contract] [["AxionveraVault"%string]]])
    (start contract answers).1.
Proof.
  unfold start. destruct (poll_spec contract answers 0) as [H1 H2]. split_and!; [done..|].
  clear H1 H2. generalize 0. induction answers as [|a answers IH]; intros from; [constructor|]. cbn [poll].
  destruct (poll_turn from a) as [next evs]. specialize (IH next).
  destruct (poll contract answers next). by constructor.
Qed.
