(* ===== verification/LegacyParams.v ===== *)
(** The chain parameter registry of network-node/src/amazon_eks.rs, an older copy
    of chain_params.rs without roles.

    Its data and helper functions are the same text as in chain_params.rs and are
    shared with ChainParams; the registry has no [roles], there is no
    [grant_role] / [revoke_role], and a submission is not checked against a role. *)
From stdpp Require Import base gmap sets list strings.
From S2P Require Import Prelude ChainParams.

Record LegacyRegistry : Type := mkLegacy {
  l_chain_id : Str;
  l_governance : GovernanceConfig;
  l_min_activation_delay_blocks : Z;
  l_current_height : Z;
  l_genesis_parameters : NetworkParameters;
  l_activations : list (Z * NetworkParametersPatch);
  l_upgrade_history : list ScheduledUpgradeRecord }.

Definition legacy_from_genesis (doc : GenesisDocument) : LegacyRegistry :=
  mkLegacy (doc_chain_id doc) (parameter_upgrade_governance doc) (doc_min_activation_delay_blocks doc) 0
    (network_parameters doc) [] [].

Definition legacy_development_default : LegacyRegistry :=
  legacy_from_genesis (mkGenesis 1 (lit "axionvera-dev") None (mkParams 2097152 100 1000)
    (AdminKeys [lit "dev-admin"]) 10).

Definition legacy_effective_at (r : LegacyRegistry) (height : Z) : NetworkParameters :=
  fold_left (fun p '(h, patch) => if h <=? height then apply_patch p patch else p)
    (l_activations r) (l_genesis_parameters r).

Definition legacy_active (r : LegacyRegistry) : NetworkParameters :=
  legacy_effective_at r (l_current_height r).

Definition legacy_pending (r : LegacyRegistry) : list ScheduledUpgradeRecord :=
  filter (fun u => activation_epoch_height u > l_current_height r) (l_upgrade_history r).

Definition legacy_set_tip (height : Z) (r : LegacyRegistry) : LegacyRegistry :=
  mkLegacy (l_chain_id r) (l_governance r) (l_min_activation_delay_blocks r) height
    (l_genesis_parameters r) (l_activations r) (l_upgrade_history r).

Definition legacy_authorize (r : LegacyRegistry) (proposer_address : Str) (dao_voter_addresses : list Str)
    : result ParamError unit :=
  match l_governance r with
  | AdminKeys keys =>
      if existsb (fun v => negb (bool_decide (v = []))) dao_voter_addresses then Err VotersNotEmpty else
      let p := normalize_id proposer_address in
      if bool_decide (p = []) then Err ProposerRequired else
      if existsb (fun k => bool_decide (normalize_id k = p)) keys then Ok tt else Err NotAdminKey
  | Dao members min_approvals =>
      if min_approvals =? 0 then Err MinApprovalsZero else
      let member_set : gset Str := list_to_set (map normalize_id members) in
      let? valid := count_voters member_set ∅ 0 dao_voter_addresses in
      if valid <? min_approvals then Err (NotEnoughApprovals min_approvals valid) else Ok tt
  end.

Definition legacy_submit (uuid : Z) (p : NetworkParametersPatch) (activation : Z)
    (proposer_address : Str) (dao_voter_addresses : list Str) (r : LegacyRegistry)
    : result ParamError (Str * LegacyRegistry) :=
  if negb (patch_has_changes p) then Err EmptyPatch else
  let? _ := legacy_authorize r proposer_address dao_voter_addresses in
  let tip := l_current_height r in
  let min_h := u64_saturating_add tip (l_min_activation_delay_blocks r) in
  if activation <? min_h
  then Err (ActivationTooEarly activation min_h tip (l_min_activation_delay_blocks r)) else
  let tx_id := format_tx_id uuid in
  Ok (tx_id,
      mkLegacy (l_chain_id r) (l_governance r) (l_min_activation_delay_blocks r) tip
        (l_genesis_parameters r)
        (bt_entry activation (fun existing => merge_patches existing p) p (l_activations r))
        (l_upgrade_history r ++ [mkUpgrade tx_id tip activation p])).

(** ** The current registry simulates the older one *)

(** The registry without its roles. *)
Definition forget_roles (r : ChainParameterRegistry) : LegacyRegistry :=
  mkLegacy (chain_id r) (governance r) (min_activation_delay_blocks r) (current_height r)
    (genesis_parameters r) (activations r) (upgrade_history r).

Inductive legacy_op : Type :=
| LTip (height : Z)
| LSubmit (uuid : Z) (p : NetworkParametersPatch) (activation : Z) (proposer : Str) (voters : list Str).

Definition run_legacy (r : LegacyRegistry) (o : legacy_op) : LegacyRegistry :=
  match o with
  | LTip h => legacy_set_tip h r
  | LSubmit u p a pr vs => match legacy_submit u p a pr vs r with Ok (_, r') => r' | Err _ => r end
  end.
Definition to_op (o : legacy_op) : reg_op :=
  match o with LTip h => OTip h | LSubmit u p a pr vs => OSubmit u p a pr vs end.

Lemma submit_forget u p a pr vs r :
  submit_parameter_upgrade u p a pr vs r =
    if negb (patch_has_changes p) then Err EmptyPatch else
    match check_role r pr RoleOperator with
    | Err x => Err (PermissionDenied x)
    | Ok _ =>
        match legacy_submit u p a pr vs (forget_roles r) with
        | Ok (t, r') => Ok (t, mkRegistry (l_chain_id r') (l_governance r')
            (l_min_activation_delay_blocks r') (l_current_height r') (l_genesis_parameters r')
            (l_activations r') (l_upgrade_history r') (roles r))
        | Err x => Err x
        end
    end.
Proof.
  unfold submit_parameter_upgrade, legacy_submit. destruct (negb _); [done|].
  destruct (check_role r pr RoleOperator) as [[]|x]; cbn; [|done].
  change (legacy_authorize (forget_roles r) pr vs) with (authorize_upgrade r pr vs).
  destruct (authorize_upgrade r pr vs) as [[]|x]; cbn; [|done]. by destruct (_ <? _).
Qed.

(** Under admin keys every key holder has the admin role, so the role check
    changes nothing but the error message. *)
Definition keys_are_admins (keys : list Str) (r : ChainParameterRegistry) : Prop :=
  governance r = AdminKeys keys /\
  forall k, k ∈ keys -> roles r !! normalize_id k = Some RoleAdmin.

Lemma authorized_has_role keys r pr vs :
  keys_are_admins keys r -> authorize_upgrade r pr vs = Ok tt -> check_role r pr RoleOperator = Ok tt.
Proof.
  intros [Hg Hk]. unfold authorize_upgrade. rewrite Hg. destruct (existsb _ vs); [done|].
  case_bool_decide; [done|]. destruct (existsb _ keys) eqn:E; [|done]. intros _.
  apply existsb_exists in E as (k & Hin & E). apply bool_decide_eq_true in E.
  apply list_elem_of_In in Hin. unfold check_role. by rewrite <- E, (Hk k Hin).
Qed.

Lemma genesis_admins doc keys :
  parameter_upgrade_governance doc = AdminKeys keys ->
  keys_are_admins keys (from_genesis_document doc).
Proof.
  intros Hg. split; [done|]. unfold from_genesis_document. cbn [roles]. rewrite Hg.
  assert (forall (m : gmap Str Role) k, k ∈ keys \/ m !! normalize_id k = Some RoleAdmin ->
    fold_left (fun m key => <[normalize_id key := RoleAdmin]> m) keys m !! normalize_id k = Some RoleAdmin) as Hf.
  { clear. induction keys as [|a keys IH]; intros m k Hk; [destruct Hk as [Hk|]; [set_solver|done]|].
    cbn [fold_left]. apply IH. destruct (decide (normalize_id a = normalize_id k)) as [E|E].
    - right. rewrite <- E. apply lookup_insert_eq.
    - destruct Hk as [Hk|Hk]; [|right; by rewrite lookup_insert_ne].
      apply elem_of_cons in Hk as [->|Hk]; [done|by left]. }
  intros k Hk. apply Hf. by left.
Qed.

Lemma run_op_forget keys r o :
  keys_are_admins keys r ->
  keys_are_admins keys (run_op r (to_op o)) /\ forget_roles (run_op r (to_op o)) = run_legacy (forget_roles r) o.
Proof.
  intros Hk. destruct o as [h|u p a pr vs]; cbn [to_op run_op run_legacy]; [by destruct Hk|].
  destruct (submit_parameter_upgrade u p a pr vs r) as [[t r']|x] eqn:Es.
  - pose proof Es as Es'. apply submit_Ok in Es' as (_ & _ & _ & _ & _ & ->). split; [by destruct Hk|].
    rewrite submit_forget in Es. destruct (negb _); [done|].
    destruct (check_role r pr RoleOperator); [|done].
    destruct (legacy_submit u p a pr vs (forget_roles r)) as [[t' r2]|x]; [|done].
    injection Es as _ E1 E2 E3 E4 E5 E6 E7. destruct r2. cbn in *. by subst.
  - split; [done|]. rewrite submit_forget in Es.
    destruct (legacy_submit u p a pr vs (forget_roles r)) as [[t' r2]|y] eqn:El; [exfalso|done].
    unfold legacy_submit in El. destruct (negb (patch_has_changes p)); [done|].
    change (legacy_authorize (forget_roles r) pr vs) with (authorize_upgrade r pr vs) in El.
    destruct (authorize_upgrade r pr vs) as [[]|z] eqn:Ea; [|done].
    by rewrite (authorized_has_role keys r pr vs Hk Ea) in Es.
Qed.

Lemma run_ops_forget keys r ops :
  keys_are_admins keys r ->
  forget_roles (fold_left run_op (map to_op ops) r) = fold_left run_legacy ops (forget_roles r).
Proof.
  revert r. induction ops as [|o ops IH]; intros r Hk; [done|]. cbn.
  destruct (run_op_forget keys r o Hk) as [Hk' <-]. by apply IH.
Qed.

(** C20. For a registry governed by admin keys the older code and the current one
    agree: after the same chain heights and submissions, however many were
    refused, both hold the same schedule and history and put the same parameters
    in force at every height - the role check added since refuses nobody whom the
    keys would accept.  (Under a DAO they differ: see [legacy_dao_accepts].) *)
Theorem legacy_registry_equivalent doc keys ops :
  parameter_upgrade_governance doc = AdminKeys keys ->
  let r := run_ops doc (map to_op ops) in
  let l := fold_left run_legacy ops (legacy_from_genesis doc) in
  forget_roles r = l /\ pending_upgrades r = legacy_pending l /\
  forall h, effective_parameters_at r h = legacy_effective_at l h.
Proof.
  intros Hg. cbv zeta. unfold run_ops.
  pose proof (run_ops_forget keys _ ops (genesis_admins doc keys Hg)) as E.
  change (forget_roles (from_genesis_document doc)) with (legacy_from_genesis doc) in E.
  rewrite <- E. by split_and!.
Qed.

(** Under a DAO the older code accepts an upgrade the members endorse. *)
Example legacy_dao_accepts :
  is_ok (legacy_submit 7 (mkPatch (Some 999) None None) 12 [] [lit "m1"; lit "m2"]
    (legacy_set_tip 10 (legacy_from_genesis dao_doc))) = true.
Proof. vm_compute. reflexivity. Qed.

Lemma legacy_registry_equivalent_witness :
  legacy_effective_at (fold_left run_legacy [LTip 100; LSubmit 7 fee_patch 106 (lit "admin_abc") []]
    (legacy_from_genesis dev_doc)) 106 =
  effective_parameters_at (run_ops dev_doc (map to_op [LTip 100; LSubmit 7 fee_patch 106 (lit "admin_abc") []])) 106.
Proof.
  symmetry. refine (proj2 (proj2 (legacy_registry_equivalent dev_doc [lit "Admin_ABC"]
    [LTip 100; LSubmit 7 fee_patch 106 (lit "admin_abc") []] eq_refl)) 106).
Defined.
