(* ===== verification/GrpcServer.v ===== *)
(** network-node/src/grpc/server.rs: the admin authentication of the gRPC server,
    the routing of its calls, and its TLS set-up; the TLS set-up of the HTTP server
    (enhanced_server.rs); and grpc/health_service.rs.

    SHA-256, the PEM parser and the file system are parameters.  Metadata values
    are ASCII ([to_str] refuses others, which then count as absent), and so is the
    configured hash. *)
From Stdlib Require Import Ascii.
From stdpp Require Import base gmap list strings.
From S2P Require Import Prelude NetworkErrors RateLimiter ChainParams Config P2P NetworkService GatewayService.

(** ** Admin authentication *)

Definition ADMIN_GRPC_PATHS : list string :=
  ["/axionvera.network.NetworkService/DistributeRewards";
   "/axionvera.network.NetworkService/ParameterUpgrade";
   "/axionvera.gateway.GatewayService/DistributeRewards";
   "/axionvera.gateway.GatewayService/ParameterUpgrade"]%string.

Definition is_admin_grpc_route (path : string) : bool := bool_decide (path ∈ ADMIN_GRPC_PATHS).

Record Metadata : Type := mkMetadata {
  authorization : option string;
  x_api_key : option string;
  api_key : option string }.

(** [str::split_once(' ')]. *)
Fixpoint split_once_space (s : string) : option (string * string) :=
  match s with
  | EmptyString => None
  | String c s' =>
      if Ascii.eqb c " "%char then Some (EmptyString, s')
      else (fun p => (String c p.1, p.2)) <$> split_once_space s'
  end.

Definition non_blank (s : string) : option string :=
  let t := trim_header s in if decide (t = "") then None else Some t.

Definition bearer_token (header : string) : option string :=
  match split_once_space (trim_header header) with
  | Some (scheme, token) =>
      if decide (to_lowercase scheme = "bearer") then non_blank token else None
  | None => None
  end.

Definition extract_admin_token (md : Metadata) : option string :=
  match authorization md ≫= bearer_token with
  | Some t => Some t
  | None =>
      match x_api_key md ≫= non_blank with
      | Some t => Some t
      | None => api_key md ≫= non_blank
      end
  end.

(** [Status::unauthenticated]. *)
Inductive AuthStatus : Type := Unauthenticated (message : string).

Record AdminAuthInterceptor : Type := mkInterceptor { expected_token_hash : option string }.

Definition new_interceptor (hash : option string) : AdminAuthInterceptor :=
  mkInterceptor (hash ≫= fun h =>
    let t := to_lowercase (trim_header h) in if decide (t = "") then None else Some t).

Definition is_configured (a : AdminAuthInterceptor) : bool :=
  bool_decide (is_Some (expected_token_hash a)).

Section Auth.
Context (sha256_hex : string -> string).

Definition intercept (a : AdminAuthInterceptor) (path : string) (md : Metadata) : result AuthStatus unit :=
  if negb (is_admin_grpc_route path) then Ok tt else
  let? expected_hash := ok_or (expected_token_hash a)
                          (Unauthenticated "admin authentication is not configured") in
  let? provided_token := ok_or (extract_admin_token md) (Unauthenticated "missing authorization token") in
  if decide (sha256_hex provided_token = expected_hash) then Ok tt
  else Err (Unauthenticated "invalid authorization token").

(** ** Routing *)

(** The calls that can change the node's state, and the others by their path. *)
Inductive Call (Addr : Type) : Type :=
| NetParameterUpgrade (req : ParameterUpgradeRequest)
| GwParameterUpgrade (req : Tracked ParameterUpgradeRequest)
| NetDistributeRewards (req : DistributeRewardsRequest)
| GwDistributeRewards (req : Tracked DistributeRewardsRequest)
| P2PConnect (addr : Addr) (id : string)
| P2PDisconnect (id : string).
Arguments NetParameterUpgrade {Addr} req. Arguments GwParameterUpgrade {Addr} req.
Arguments NetDistributeRewards {Addr} req. Arguments GwDistributeRewards {Addr} req.
Arguments P2PConnect {Addr} addr id. Arguments P2PDisconnect {Addr} id.

Definition path_of {Addr} (c : Call Addr) : string :=
  match c with
  | NetParameterUpgrade _ => "/axionvera.network.NetworkService/ParameterUpgrade"
  | GwParameterUpgrade _ => "/axionvera.gateway.GatewayService/ParameterUpgrade"
  | NetDistributeRewards _ => "/axionvera.network.NetworkService/DistributeRewards"
  | GwDistributeRewards _ => "/axionvera.gateway.GatewayService/DistributeRewards"
  | P2PConnect _ _ => "/axionvera.network.P2PService/ConnectToPeer"
  | P2PDisconnect _ => "/axionvera.network.P2PService/DisconnectFromPeer"
  end.

(** The services behind [interceptor(..)]: the network and the gateway one; the
    peer service is added without it. *)
Definition intercepted {Addr} (c : Call Addr) : bool :=
  match c with P2PConnect _ _ | P2PDisconnect _ => false | _ => true end.

(** Upgrades and reward distribution, on both services. *)
Definition administrative {Addr} (c : Call Addr) : bool :=
  match c with
  | NetParameterUpgrade _ | GwParameterUpgrade _ | NetDistributeRewards _ | GwDistributeRewards _ => true
  | P2PConnect _ _ | P2PDisconnect _ => false
  end.

(** The outcome of a call: refused before the handler, refused by it, or done. *)
Inductive Outcome : Type := AuthRefused (x : AuthStatus) | Refused (x : Status) | Done.

Definition outcome_of {A} (r : result Status A) : Outcome :=
  match r with Ok _ => Done | Err x => Refused x end.

Section Dispatch.
Context {Addr : Type} (rid uuid : Z) (now : Clock) (ms : Z) (elapsed : Z).

Definition handle (c : Call Addr) (s : NetworkServiceImpl Addr) : Outcome * NetworkServiceImpl Addr :=
  match c with
  | NetParameterUpgrade req =>
      let '(r, s') := NetworkService.parameter_upgrade uuid now req s in (outcome_of r, s')
  | GwParameterUpgrade req =>
      let '(r, s') := GatewayService.parameter_upgrade rid uuid now elapsed req s in (outcome_of r, s')
  | NetDistributeRewards req => (outcome_of (NetworkService.distribute_rewards uuid now req), s)
  | GwDistributeRewards req => (outcome_of (GatewayService.distribute_rewards rid uuid now elapsed req), s)
  | P2PConnect addr id =>
      (Done, mkService (snd (P2P.connect_to_peer ms rid addr id (p2p_manager s))) (chain_parameters s))
  | P2PDisconnect id =>
      (Done, mkService (snd (P2P.disconnect_from_peer id (p2p_manager s))) (chain_parameters s))
  end.

Definition dispatch (a : AdminAuthInterceptor) (md : Metadata) (c : Call Addr) (s : NetworkServiceImpl Addr)
    : Outcome * NetworkServiceImpl Addr :=
  if intercepted c then
    match intercept a (path_of c) md with
    | Err x => (AuthRefused x, s)
    | Ok _ => handle c s
    end
  else handle c s.
End Dispatch.

Lemma intercept_admin a path md :
  is_admin_grpc_route path = true ->
  intercept a path md = Ok tt <->
  exists tok, extract_admin_token md = Some tok /\ expected_token_hash a = Some (sha256_hex tok).
Proof.
  intros Hp. unfold intercept. rewrite Hp. cbn [negb].
  destruct (expected_token_hash a) as [h|]; cbn; [|naive_solver].
  destruct (extract_admin_token md) as [t|]; cbn; [|naive_solver]. case_decide; naive_solver.
Qed.

Lemma handle_chain {Addr} rid uuid now ms elapsed (c : Call Addr) s :
  chain_parameters (snd (handle rid uuid now ms elapsed c s)) =
    match c with
    | NetParameterUpgrade u | GwParameterUpgrade (mkTracked u _ _) =>
        match pu_parameter_patch u with
        | Some p => run_op (chain_parameters s) (OSubmit uuid p (pu_activation_epoch_height u)
                      (pu_proposer_address u) (pu_dao_voter_addresses u))
        | None => chain_parameters s
        end
    | _ => chain_parameters s
    end.
Proof.
  destruct c as [u|[u id cb]| | | |]; try done.
  - destruct u as [[p|] a pr sg n ts vs]; [|done]. cbn [handle]. rewrite network_upgrade.
    cbn [run_op pu_parameter_patch pu_activation_epoch_height pu_proposer_address pu_dao_voter_addresses].
    by destruct (submit_parameter_upgrade _ _ _ _ _ _) as [[t r']|x].
  - destruct u as [[p|] a pr sg n ts vs]; [|done]. cbn [handle]. rewrite gateway_upgrade_unfold.
    cbn [run_op pu_parameter_patch pu_activation_epoch_height pu_proposer_address pu_dao_voter_addresses].
    by destruct (submit_parameter_upgrade _ _ _ _ _ _) as [[t r']|x].
Qed.
End Auth.

(** ** TLS *)

Inductive TlsMode : Type := PlainTcp | OneWayTls | MutualTls.

Section Tls.
Context {Cert Key : Type} (read_file : string -> result string (list Z))
  (from_utf8 : list Z -> result string unit)
  (certs : list Z -> option (list Cert))
  (private_keys : list Z -> option (list Key))
  (add_root : Cert -> result string unit)
  (with_single_cert : list Cert -> Key -> result string unit)
  (tonic_tls : TlsMode -> result string unit).

Definition cfg_err {A} (what : string) (r : result string A) : result NetworkError A :=
  match r with Ok a => Ok a | Err x => Err (NE_Config (what +:+ x)) end.
Definition need {A} (what : string) (o : option A) : result NetworkError A := ok_or o (NE_Config what).
Definition non_empty {A} (what : string) (l : list A) : result NetworkError unit :=
  match l with [] => Err (NE_Config what) | _ => Ok tt end.

(** The loop that fills the root store. *)
Fixpoint add_roots (cs : list Cert) : result NetworkError unit :=
  match cs with
  | [] => Ok tt
  | c :: rest =>
      let? _ := cfg_err "Failed to add CA cert to root store: " (add_root c) in add_roots rest
  end.

Definition client_roots (path : string) : result NetworkError unit :=
  let? ca_pem := cfg_err "Failed to read TLS client CA file: " (read_file path) in
  let? parsed := need "Failed to parse client CA PEM" (certs ca_pem) in
  let? _ := non_empty "No CA certificates found in tls_client_ca_path" parsed in
  add_roots parsed.

(** The private keys of a PEM file ([read_one] until the end); the first is used. *)
Definition server_key (pem : list Z) : result NetworkError Key :=
  let? keys := need "Failed to parse TLS private key PEM" (private_keys pem) in
  match keys with
  | [] => Err (NE_Config "No private keys found in TLS key file")
  | k :: _ => Ok k
  end.

Definition server_certs (pem : list Z) : result NetworkError (list Cert) :=
  let? cs := need "Failed to parse server cert PEM" (certs pem) in
  let? _ := non_empty "No server certificates found in TLS cert file" cs in
  Ok cs.

Definition rustls_config (cs : list Cert) (k : Key) : result NetworkError unit :=
  cfg_err "Failed to create rustls server config: " (with_single_cert cs k).

(** The HTTP server (enhanced_server.rs). *)
Definition http_tls (cfg : NetworkConfig) : result NetworkError TlsMode :=
  match tls_cert_path cfg, tls_key_path cfg with
  | Some cert_path, Some key_path =>
      let? cert_pem := cfg_err "Failed to read TLS certificate: " (read_file cert_path) in
      let? key_pem := cfg_err "Failed to read TLS private key: " (read_file key_path) in
      let? der_certs := server_certs cert_pem in
      let? der_key := server_key key_pem in
      match tls_client_ca_path cfg with
      | Some ca =>
          let? _ := client_roots ca in
          let? _ := rustls_config der_certs der_key in
          Ok (if tls_require_client_auth cfg then MutualTls else OneWayTls)
      | None => let? _ := rustls_config der_certs der_key in Ok OneWayTls
      end
  | _, _ => Ok PlainTcp
  end.

(** The gRPC server (grpc/server.rs). *)
Definition grpc_tls (cfg : NetworkConfig) : result NetworkError TlsMode :=
  match tls_cert_path cfg, tls_key_path cfg with
  | Some cert_path, Some key_path =>
      let? cert_pem := cfg_err "Failed to read TLS certificate: " (read_file cert_path) in
      let? key_pem := cfg_err "Failed to read TLS private key: " (read_file key_path) in
      let? _ := cfg_err "Invalid cert PEM encoding: " (from_utf8 cert_pem) in
      let? _ := cfg_err "Invalid key PEM encoding: " (from_utf8 key_pem) in
      match tls_client_ca_path cfg with
      | Some ca =>
          let? _ := client_roots ca in
          let? der_certs := server_certs cert_pem in
          let? der_key := server_key key_pem in
          let? _ := rustls_config der_certs der_key in
          let? mode := if tls_require_client_auth cfg then Ok MutualTls
                       else let? _ := rustls_config der_certs der_key in Ok OneWayTls in
          let? _ := cfg_err "Failed to configure TLS: " (tonic_tls mode) in
          Ok mode
      | None =>
          let? _ := cfg_err "Failed to configure TLS: " (tonic_tls OneWayTls) in
          Ok OneWayTls
      end
  | _, _ => Ok PlainTcp
  end.

(** The mode a configuration stands for. *)
Definition configured_mode (cfg : NetworkConfig) : TlsMode :=
  match tls_cert_path cfg, tls_key_path cfg with
  | Some _, Some _ =>
      match tls_client_ca_path cfg with
      | Some _ => if tls_require_client_auth cfg then MutualTls else OneWayTls
      | None => OneWayTls
      end
  | _, _ => PlainTcp
  end.
End Tls.

(** ** The health service *)

Inductive HealthStatus : Type := Serving | NotServing.
Record GrpcHealth : Type := mkGrpcHealth {
  he_status : HealthStatus; he_message : Str; he_timestamp : option Timestamp; he_details : list (Str * Str) }.

(** [ConnectionPool::health_check] on the outcome of its query: a failed query is
    [Ok(false)]. *)
Definition pool_health_check (query : result string unit) : result NetworkError bool :=
  match query with Ok _ => Ok true | Err _ => Ok false end.

(** Any [Ok] counts as healthy. *)
Definition check_database_health (query : result string unit) : bool * Str :=
  match pool_health_check query with
  | Ok _ => (true, lit "Database connection healthy")
  | Err x => (false, lit ("Database connection failed: " +:+ net_display x))
  end.

Definition check_overall_health (query : result string unit) : HealthStatus * Str * list (Str * Str) :=
  let '(db_healthy, db_message) := check_database_health query in
  let overall_status := if db_healthy then Serving else NotServing in
  (overall_status,
   match overall_status with
   | Serving => lit "All systems operational"
   | NotServing => lit "Some systems are unhealthy"
   end,
   [(lit "database", if db_healthy then lit "healthy" else lit "unhealthy");
    (lit "memory_usage", lit "45%"); (lit "cpu_usage", lit "23%")]).

Definition check (query : result string unit) (now : Clock) : result Status GrpcHealth :=
  let '(status, message, details) := check_overall_health query in
  let? ts := timestamp_now now in
  Ok (mkGrpcHealth status message (Some ts) details).

(** The HTTP readiness probe (enhanced_server.rs) on the same pool: status code
    and reasons. *)
Definition health_readiness (query : result string unit) (is_accepting : bool) : Z * list string :=
  let database_ready := match pool_health_check query with Ok b => b | Err _ => false end in
  if database_ready && is_accepting then (200, [])
  else (503, (if database_ready then [] else ["database not connected"%string]) ++
             (if is_accepting then [] else ["not accepting connections"%string])).

(** ** Theorems *)


(** Both servers run the TLS mode the configuration stands for: plain TCP
    without a certificate and key, mutual TLS exactly when a client CA is
    configured and client certificates are required, one-way TLS otherwise - so
    requiring client certificates without a CA is silently one-way. *)
Theorem tls_modes_agree {Cert Key} read_file from_utf8 certs private_keys (add_root : Cert -> result string unit)
    (with_single_cert : list Cert -> Key -> result string unit) tonic_tls cfg :
  (forall m, http_tls read_file certs private_keys add_root with_single_cert cfg = Ok m -> m = configured_mode cfg) /\
  (forall m, grpc_tls read_file from_utf8 certs private_keys add_root with_single_cert tonic_tls cfg = Ok m ->
     m = configured_mode cfg) /\
  (configured_mode cfg = MutualTls <->
     is_Some (tls_cert_path cfg) /\ is_Some (tls_key_path cfg) /\ is_Some (tls_client_ca_path cfg) /\
     tls_require_client_auth cfg = true).
Proof.
  unfold http_tls, grpc_tls, configured_mode.
  destruct (tls_cert_path cfg) as [cp|], (tls_key_path cfg) as [kp|],
    (tls_client_ca_path cfg) as [ca|], (tls_require_client_auth cfg); split_and!; intros;
    repeat match goal with
    | H : bindR _ _ = Ok _ |- _ => apply bindR_Ok in H as (? & ? & ?)
    end; naive_solver.
Qed.

(** The gRPC health service reports a node as serving whatever the state of its
    database: a failed query is an [Ok(false)] of the pool, which the service
    counts as healthy - while the HTTP readiness probe on the same pool is ready
    exactly when the query succeeds and connections are accepted. *)
Theorem grpc_health_always_serving query d is_accepting :
  (exists h, check query (Ok d) = Ok h /\ he_status h = Serving /\ he_message h = lit "All systems operational") /\
  (fst (health_readiness query is_accepting) = 200 <-> query = Ok tt /\ is_accepting = true) /\
  (fst (health_readiness query is_accepting) = 503 <-> exists r, r ∈ snd (health_readiness query is_accepting)).
Proof.
  split; [|split].
  - unfold check, check_overall_health, check_database_health. destruct query; by eexists.
  - unfold health_readiness. destruct query as [[]|], is_accepting; cbn; naive_solver.
  - unfold health_readiness. destruct query as [[]|], is_accepting; cbn; set_solver.
Qed.
