(* ===== verification/StateTrie.v ===== *)
(** network-node/src/state_trie.rs: the state store and its root hash, and the
    snapshot handler of enhanced_server.rs.

    RocksDB, SHA-256 and serde_json are outside the repository: they are
    parameters, with the documented behaviour of a write and of an iteration, and
    the length of a digest, as laws.  The errors carry the two constructors that
    the file uses and that error.rs does not declare. *)
From stdpp Require Import base gmap list strings.
From S2P Require Import Prelude Sorting Config.

(** [[u8; 32]]. *)
#[local] Abbreviation Hash := (list Z).
#[local] Abbreviation Bytes := (list Z).

Inductive TrieNode : Type :=
| Leaf (key value : Bytes)
| Branch (children : list (option Hash)) (value : option Bytes)
| Extension (prefix : Bytes) (child : Hash).

Inductive TrieError : Type := QueryError (s : string) | SerializationError.

(** ** What the trie is built on *)

Class RocksDb (D : Type) : Type := {
  db_open : string -> result string D;
  db_put : Bytes -> Bytes -> D -> result string unit * D;
  (** [iterator(IteratorMode::Start)], run to its end. *)
  db_items : D -> list (result string (Bytes * Bytes));
  (** What the database holds. *)
  db_content : D -> gmap Bytes Bytes }.

Class RocksDbLaws (D : Type) `{RocksDb D} : Prop := {
  put_ok k v d d' : db_put k v d = (Ok tt, d') -> db_content d' = <[k := v]> (db_content d);
  items_ok d k v : Forall (fun x => is_ok x = true) (db_items d) ->
    Ok (k, v) ∈ db_items d <-> db_content d !! k = Some v }.

Class NodeCodec : Type := {
  sha256 : Bytes -> Hash;
  to_vec : TrieNode -> option Bytes;
  sha256_length m : length (sha256 m) = 32%nat }.

(** ** The trie *)

Record StateTrie (D : Type) : Type := mkTrie { db : D; root_hash : Hash }.
Arguments mkTrie {D} db root_hash.
Arguments db {D} s.
Arguments root_hash {D} s.

Section Trie.
Context {D : Type} `{!RocksDb D} `{!RocksDbLaws D} `{!NodeCodec}.
Implicit Types (t : StateTrie D) (kvs : list (Bytes * Bytes)).

Definition empty_root : Hash := replicate 32 0.
#[local] Arguments empty_root : simpl never.

Definition new_trie (path : string) : result TrieError (StateTrie D) :=
  match db_open path with
  | Err x => Err (QueryError x)
  | Ok d => Ok (mkTrie d empty_root)
  end.

(** [serde_json::to_vec(node).unwrap_or_default()], hashed. *)
Definition hash_node (node : TrieNode) : Hash := sha256 (default [] (to_vec node)).

(** [self.root_hash[i] ^= node_hash[i]] for every [i]. *)
Definition xor_hash (a b : Hash) : Hash := zip_with Z.lxor a b.
#[global] Arguments xor_hash : simpl never.

Definition insert_node (key value : Bytes) t : result TrieError Hash * StateTrie D :=
  let node := Leaf key value in
  let node_hash := hash_node node in
  match to_vec node with
  | None => (Err SerializationError, t)
  | Some encoded =>
      match db_put node_hash encoded (db t) with
      | (Err x, d) => (Err (QueryError x), mkTrie d (root_hash t))
      | (Ok _, d) =>
          let root := xor_hash (root_hash t) node_hash in
          (Ok root, mkTrie d root)
      end
  end.

Definition get_value (key : Bytes) t : result TrieError (option Bytes) := Ok None.

(** [usize] arithmetic, which wraps in the release profile. *)
Definition get_snapshot_chunk (chunk_index : Z) t : list (Bytes * Bytes) :=
  omap (fun ix : nat * result string (Bytes * Bytes) =>
    let i := Z.of_nat ix.1 in
    if (as_u64 (chunk_index * 100) <=? i) && (i <? as_u64 (as_u64 (chunk_index + 1) * 100)) then
      match ix.2 with Ok kv => Some kv | Err _ => None end
    else None) (imap pair (db_items (db t))).

(** [GET /sync/snapshot?chunk=N]: the query parameters, the answer's fields. *)
Record SnapshotAnswer : Type := mkSnapshot {
  chunk_index : Z;
  chunk_data : list (Bytes * Bytes);
  snapshot_root : string }.

Definition sync_snapshot (hex_encode : Hash -> string) (params : string -> option string) t
    : SnapshotAnswer :=
  let index := default 0 (c ← params "chunk"; parse_u64 c) in
  mkSnapshot index (get_snapshot_chunk index t) (hex_encode (root_hash t)).

(** ** Sequences of inserts *)

Fixpoint insert_all kvs t : list (result TrieError Hash) * StateTrie D :=
  match kvs with
  | [] => ([], t)
  | kv :: kvs' =>
      let '(r, t1) := insert_node kv.1 kv.2 t in
      let '(rs, t2) := insert_all kvs' t1 in
      (r :: rs, t2)
  end.

(** The pairs whose insert succeeded. *)
Fixpoint accepted kvs (rs : list (result TrieError Hash)) : list (Bytes * Bytes) :=
  match kvs, rs with
  | kv :: kvs', r :: rs' => (if is_ok r then [kv] else []) ++ accepted kvs' rs'
  | _, _ => []
  end.

Definition leaf_hash (kv : Bytes * Bytes) : Hash := hash_node (Leaf kv.1 kv.2).
Definition xor_all (hs : list Hash) : Hash := foldr xor_hash empty_root hs.

Lemma leaf_hash_length kv : length (leaf_hash kv) = 32%nat.
Proof. apply sha256_length. Qed.

Lemma xor_hash_length a b : length a = 32%nat -> length b = 32%nat -> length (xor_hash a b) = 32%nat.
Proof. intros Ha Hb. unfold xor_hash. rewrite length_zip_with. lia. Qed.

Lemma xor_hash_comm a b : xor_hash a b = xor_hash b a.
Proof.
  unfold xor_hash. revert b. induction a as [|x a IH]; intros [|y b]; cbn; try done.
  by rewrite Z.lxor_comm, IH.
Qed.

Lemma xor_hash_assoc a b c : xor_hash a (xor_hash b c) = xor_hash (xor_hash a b) c.
Proof.
  unfold xor_hash. revert b c. induction a as [|x a IH]; intros [|y b] [|z c]; cbn; try done.
  by rewrite Z.lxor_assoc, IH.
Qed.

Lemma xor_hash_zero n a : length a = n -> xor_hash (replicate n 0) a = a.
Proof.
  unfold xor_hash. revert n. induction a as [|x a IH]; intros n <-; cbn; [done|].
  by rewrite Z.lxor_0_l, IH.
Qed.

Lemma xor_hash_self a : xor_hash a a = replicate (length a) 0.
Proof. unfold xor_hash. induction a as [|x a IH]; cbn; [done|]. by rewrite Z.lxor_nilpotent, IH. Qed.

Lemma xor_all_length kvs : length (xor_all (map leaf_hash kvs)) = 32%nat.
Proof.
  induction kvs as [|kv kvs IH]; cbn; [done|]. by apply xor_hash_length; [apply leaf_hash_length|].
Qed.

#[global] Instance xor_all_proper : Proper ((≡ₚ) ==> (=)) xor_all.
Proof.
  intros l l' Hp. unfold xor_all.
  induction Hp as [|x l l' _ IH|x y l|l1 l2 l3 _ IH1 _ IH2]; cbn; [done|by rewrite IH| |congruence].
  rewrite !xor_hash_assoc. f_equal. apply xor_hash_comm.
Qed.

Lemma insert_root key value t r t' :
  insert_node key value t = (r, t') ->
  root_hash t' = if is_ok r then xor_hash (root_hash t) (leaf_hash (key, value)) else root_hash t.
Proof.
  unfold insert_node. destruct (to_vec _) as [e|]; [|by intros; simplify_eq].
  destruct (db_put _ _ _) as [[[]|] d]; intros; simplify_eq; done.
Qed.

Lemma insert_content key value t r t' :
  insert_node key value t = (Ok r, t') ->
  exists e, to_vec (Leaf key value) = Some e /\
    db_content (db t') = <[leaf_hash (key, value) := e]> (db_content (db t)).
Proof.
  unfold insert_node. destruct (to_vec _) as [e|] eqn:He; [|done].
  destruct (db_put _ _ _) as [[[]|] d] eqn:Hp; intros; simplify_eq. exists e. split; [done|].
  by apply put_ok in Hp.
Qed.

Lemma insert_all_root kvs t rs t' :
  length (root_hash t) = 32%nat -> insert_all kvs t = (rs, t') ->
  root_hash t' = xor_hash (root_hash t) (xor_all (map leaf_hash (accepted kvs rs))).
Proof.
  revert t rs. induction kvs as [|[k v] kvs IH]; cbn; intros t rs Hl Hi.
  { simplify_eq. cbn. rewrite xor_hash_comm. symmetry. by apply xor_hash_zero. }
  destruct (insert_node k v t) as [r t1] eqn:H1. destruct (insert_all kvs t1) as [rs' t2] eqn:H2.
  apply insert_root in H1. injection Hi as <- <-. cbn.
  assert (length (root_hash t1) = 32%nat).
  { rewrite H1. destruct (is_ok r); [|done]. apply xor_hash_length; [done|apply leaf_hash_length]. }
  rewrite (IH t1 rs') by done. rewrite H1. destruct (is_ok r); cbn; [|done]. by rewrite xor_hash_assoc.
Qed.

(** The root hash of a trie is the exclusive or of the hashes of the leaves
    whose inserts succeeded, and of nothing else: two sequences of inserts whose
    accepted pairs are the same up to their order lead to the same root, and a
    failed insert leaves the root as it was. *)
Theorem root_is_xor_of_leaves path t kvs rs t' kvs2 rs2 t2 :
  new_trie path = Ok t -> insert_all kvs t = (rs, t') -> insert_all kvs2 t = (rs2, t2) ->
  root_hash t' = xor_all (map leaf_hash (accepted kvs rs)) /\
  (accepted kvs rs ≡ₚ accepted kvs2 rs2 -> root_hash t' = root_hash t2).
Proof.
  unfold new_trie. destruct (db_open path) as [d|]; [|done]. intros [= <-] Hi Hi2.
  pose proof (insert_all_root kvs (mkTrie d empty_root) rs t' eq_refl Hi) as H1.
  pose proof (insert_all_root kvs2 (mkTrie d empty_root) rs2 t2 eq_refl Hi2) as H2.
  cbn [root_hash] in H1, H2. unfold empty_root in H1, H2.
  rewrite xor_hash_zero in H1 by apply xor_all_length. rewrite xor_hash_zero in H2 by apply xor_all_length.
  split; [done|]. intros Hp. rewrite H1, H2. by rewrite Hp.
Qed.

(** Inserting a pair that is already there takes its leaf out of the root
    again: after an even number of inserts of one pair the root is the one before
    them, although the leaf is in the database; and no key is ever found by
    [get]. *)
Theorem repeated_insert_forgotten key value t r1 t1 r2 t2 :
  length (root_hash t) = 32%nat ->
  insert_node key value t = (Ok r1, t1) -> insert_node key value t1 = (Ok r2, t2) ->
  root_hash t2 = root_hash t /\
  (exists e, db_content (db t2) !! leaf_hash (key, value) = Some e) /\
  get_value key t2 = Ok None.
Proof.
  intros Hl H1 H2. pose proof (insert_root _ _ _ _ _ H1) as R1. pose proof (insert_root _ _ _ _ _ H2) as R2.
  cbn in R1, R2. split_and!; [|by apply insert_content in H2 as (e & _ & ->); exists e; apply lookup_insert_eq|done].
  rewrite R2, R1, <- xor_hash_assoc, xor_hash_self, leaf_hash_length, xor_hash_comm. by apply xor_hash_zero.
Qed.

(** ** Snapshots *)

(** The items at positions [lo, hi), of an iteration that is at position [k]. *)
Lemma omap_window {A B} (p : nat -> bool) (f : A -> option B) (l : list A) (lo hi k : nat) :
  (forall i, p i = true <-> lo <= i < hi)%nat ->
  omap (fun ix : nat * A => if p ix.1 then f ix.2 else None) (imap (fun i x => ((i + k)%nat, x)) l) =
  omap f (take (hi - (lo `max` k)) (drop (lo - k) l)).
Proof.
  intros Hp. revert k. induction l as [|x l IH]; intros k; [by rewrite drop_nil, take_nil|].
  rewrite imap_cons. simpl omap.
  rewrite (imap_ext _ (fun i x => ((i + S k)%nat, x))) by (intros; cbn; f_equal; lia).
  rewrite IH. clear IH. specialize (Hp k).
  destruct (decide (lo <= k)%nat).
  - replace (lo - k)%nat with 0%nat by lia. replace (lo - S k)%nat with 0%nat by lia.
    replace (lo `max` k)%nat with k by lia. replace (lo `max` S k)%nat with (S k) by lia.
    destruct (p k).
    + replace (hi - k)%nat with (S (hi - S k)) by (assert (lo <= k < hi)%nat by tauto; lia).
      cbn. by destruct (f x).
    + destruct (decide (k < hi)%nat); [assert (false = true) by (apply Hp; lia); done|].
      replace (hi - S k)%nat with 0%nat by lia. by replace (hi - k)%nat with 0%nat by lia.
  - destruct (p k); [exfalso; assert (lo <= k < hi)%nat by tauto; lia|].
    replace (lo - k)%nat with (S (lo - S k)) by lia. cbn.
    by replace (lo `max` S k)%nat with (lo `max` k)%nat by lia.
Qed.

Definition chunk_fits (c : nat) : Prop := (Z.of_nat c + 1) * 100 <= u64_max.

Definition readable_of (l : list (result string (Bytes * Bytes))) : list (Bytes * Bytes) :=
  omap (fun x => match x with Ok kv => Some kv | Err _ => None end) l.

Lemma readable_length l : (length (readable_of l) <= length l)%nat.
Proof. unfold readable_of. induction l as [|[kv|x] l IH]; simpl; [done| |]; unfold omap in IH; lia. Qed.

Lemma chunk_window (c : nat) t :
  chunk_fits c ->
  get_snapshot_chunk (Z.of_nat c) t = readable_of (take 100 (drop (c * 100) (db_items (db t)))).
Proof.
  unfold chunk_fits, u64_max. intros Hc. unfold get_snapshot_chunk, readable_of.
  assert (forall z, 0 <= z <= 18446744073709551615 -> as_u64 z = z) as Hid.
  { intros z Hz. unfold as_u64, u64_max. apply Z.mod_small. lia. }
  rewrite (Hid (Z.of_nat c * 100)), (Hid (Z.of_nat c + 1)), (Hid ((Z.of_nat c + 1) * 100)) by lia.
  rewrite (imap_ext pair (fun i x => ((i + 0)%nat, x))) by (intros; cbn; f_equal; lia).
  etrans; [apply (omap_window
    (fun i => (Z.of_nat c * 100 <=? Z.of_nat i) && (Z.of_nat i <? (Z.of_nat c + 1) * 100))
    (fun x => match x with Ok kv => Some kv | Err _ => None end) _ (c * 100) ((c + 1) * 100) 0)|].
  2:{ rewrite Nat.sub_0_r. do 2 f_equal. lia. }
  intros i. rewrite andb_true_iff, Z.leb_le, Z.ltb_lt. lia.
Qed.

Lemma chunks_prefix t (n : nat) :
  chunk_fits n ->
  concat (map (fun c => get_snapshot_chunk (Z.of_nat c) t) (seq 0 n)) =
  readable_of (take (n * 100) (db_items (db t))).
Proof.
  induction n as [|n IH]; intros Hn; [done|].
  rewrite seq_S, map_app, concat_app, IH by (unfold chunk_fits in *; lia). cbn [map concat].
  rewrite app_nil_r, chunk_window by (unfold chunk_fits in *; lia). unfold readable_of.
  rewrite <- omap_app. f_equal. replace (S n * 100)%nat with (n * 100 + 100)%nat by lia.
  by rewrite <- take_take_drop.
Qed.

(** C40. The chunks of a snapshot partition the store: a chunk has at most one
    hundred entries, and when [n] chunks are enough for the entries, the chunks
    [0 .. n-1] one after the other are the readable entries in the order of the
    database; when no entry fails to be read they hold exactly the stored pairs. *)
Theorem snapshot_chunks_partition t (n : nat) :
  chunk_fits n -> (length (db_items (db t)) <= n * 100)%nat ->
  let chunks := map (fun c => get_snapshot_chunk (Z.of_nat c) t) (seq 0 n) in
  Forall (fun c => length c <= 100)%nat chunks /\
  concat chunks = readable_of (db_items (db t)) /\
  (Forall (fun x => is_ok x = true) (db_items (db t)) ->
   forall k v, (k, v) ∈ concat chunks <-> db_content (db t) !! k = Some v).
Proof.
  intros Hfit Hlen chunks.
  assert (concat chunks = readable_of (db_items (db t))) as Hc.
  { unfold chunks. rewrite chunks_prefix by done. by rewrite take_ge. }
  split_and!; [|done|].
  - apply Forall_forall. intros c (i & Hi & Hin)%list_elem_of_In%in_map_iff. subst c.
    apply in_seq in Hin. rewrite chunk_window by (unfold chunk_fits in *; lia).
    etrans; [apply readable_length|]. rewrite length_take. lia.
  - intros Hok k v. rewrite Hc. unfold readable_of. rewrite list_elem_of_omap.
    rewrite <- items_ok by done. split.
    + intros ([kv|] & Hin & [= ->]). done.
    + intros Hin. by exists (Ok (k, v)).
Qed.

End Trie.

(** ** A small instance: the database is a map, a digest is the length of the input *)

#[global] Instance toy_db : RocksDb (gmap Bytes Bytes) | 100 := {|
  db_open _ := Ok ∅;
  db_put k v d := (Ok tt, <[k := v]> d);
  db_items d := map (fun kv => Ok kv) (map_to_list d);
  db_content d := d |}.

#[global] Instance toy_db_laws : RocksDbLaws (gmap Bytes Bytes) | 100.
Proof.
  split; [by intros; cbn in *; simplify_eq|]. intros d k v _. cbn. rewrite <- elem_of_map_to_list.
  rewrite list_elem_of_In, in_map_iff, list_elem_of_In. split; [by intros (? & [= ->] & ?)|eauto].
Qed.

#[global] Instance toy_codec : NodeCodec | 100.
Proof.
  refine {| sha256 m := Z.of_nat (length m) `mod` 256 :: replicate 31 0;
            to_vec n := Some (match n with Leaf k v => k ++ v | _ => [] end) |}.
  by intros.
Defined.

Definition toy_trie : StateTrie (gmap Bytes Bytes) := mkTrie ∅ empty_root.
Definition toy_pairs : list (Bytes * Bytes) := [([1], [10; 20]); ([2], [30])].
Definition toy_full : StateTrie (gmap Bytes Bytes) := snd (insert_all toy_pairs toy_trie).

Lemma root_is_xor_of_leaves_witness :
  root_hash toy_full = 1 :: replicate 31 0 /\
  root_hash toy_full = root_hash (snd (insert_all (rev toy_pairs) toy_trie)).
Proof.
  destruct (root_is_xor_of_leaves "" toy_trie toy_pairs (insert_all toy_pairs toy_trie).1 toy_full
    (rev toy_pairs) (insert_all (rev toy_pairs) toy_trie).1 (insert_all (rev toy_pairs) toy_trie).2)
    as [Hr Hp]; [reflexivity..|].
  split; [rewrite Hr; reflexivity|]. apply Hp. cbn. apply Permutation_swap.
Defined.

Lemma repeated_insert_forgotten_witness :
  root_hash (snd (insert_all [([1], [2]); ([1], [2])] toy_trie)) = empty_root.
Proof.
  refine (proj1 (repeated_insert_forgotten [1] [2] toy_trie _ (snd (insert_node [1] [2] toy_trie)) _ _ _ _ _));
    reflexivity.
Defined.

Lemma snapshot_chunks_partition_witness :
  concat (map (fun c => get_snapshot_chunk (Z.of_nat c) toy_full) (seq 0 1)) =
  readable_of (db_items (db toy_full)).
Proof.
  refine (proj1 (proj2 (snapshot_chunks_partition toy_full 1 _ _))); vm_compute; [congruence|lia].
Defined.
