(* ===== verification/HttpServer.v ===== *)
(** network-node/src/enhanced_server.rs: the middleware stack of the HTTP server
    and its connection counter.

    A request is a future that passes the layers from the outside in: the
    connection tracker, the rate limiter, the connection limiter, the error
    handler, a route.  Each layer awaits, so requests interleave between any two
    layers, and a future may be dropped at any await point, which is what the
    HTTP library does when the client goes away.  A state holds every request
    with the layer it is in; an event advances one request by one layer.  What a
    route answers is an argument of the event. *)
From stdpp Require Import base gmap list strings.
From S2P Require Import Prelude NetworkErrors RateLimiter ErrorMiddleware.

(** ** Responses *)

Inductive Body : Type :=
| Page (s : string)
| JsonError (code message : string) (request_id : option string) (timestamp : Z).
Record Answer : Type := mkAnswer { answer_status : Z; answer_body : Body }.

(** [StatusCode::from_u16(..).unwrap_or(INTERNAL_SERVER_ERROR)]. *)
Definition status_from_u16 (n : Z) : Z := if (100 <=? n) && (n <? 1000) then n else 500.

Definition create_error_response (x : ContextualError) : Answer :=
  mkAnswer (status_from_u16 (http_status_code (ce_error x)))
    (JsonError (error_code (ce_error x)) (net_display (ce_error x))
       (ctx_request_id (ce_context x)) (ctx_timestamp (ce_context x))).

(** The error of the inner service: a boxed [NetworkError], or anything else that
    can be displayed. *)
Inductive BoxError : Type := Boxed (x : NetworkError) | OtherError (text : string).

Definition downcast (x : BoxError) : NetworkError :=
  match x with
  | Boxed e => e
  | OtherError text => NE_Server ("Internal server error: " +:+ text)
  end.

(** ** Requests and the server *)

Inductive Phase : Type :=
| Tracked (h : Headers)
| Granted
| Running
| Responding (a : Answer)
| Answered (a : Answer)
| Dropped.

Record Server `{Redis} : Type := mkServer {
  is_accepting : bool;
  active_connections : Z;
  rate_limiter : RateLimiter;
  error_middleware : ErrorMiddleware;
  shutdown_sent : option bool;
  requests : list Phase }.
Arguments mkServer {_} is_accepting active_connections rate_limiter error_middleware shutdown_sent requests.

Inductive HttpEvent : Type :=
| Arrive (h : Headers)
| RateLimit (i : nat) (now : Z)
| Limit (i : nat)
| Finish (i : nat) (request_id uuid : string) (created : Z) (t : Times) (r : result BoxError Answer)
| Respond (i : nat)
| DropRequest (i : nat)
| StopAccepting
| Stop.

Section Server.
Context `{!Redis} (debug_text : NetworkError -> string).
Implicit Types s : Server.

(** [EnhancedHttpServer::new], and [start], which makes the shutdown channel. *)
Definition new_server (rl : RateLimiter) (m : ErrorMiddleware) : Server := mkServer true 0 rl m None [].
Definition started (s : Server) : Server :=
  mkServer (is_accepting s) (active_connections s) (rate_limiter s) (error_middleware s)
    (Some false) (requests s).

Definition set_phase (i : nat) (p : Phase) s : Server :=
  mkServer (is_accepting s) (active_connections s) (rate_limiter s) (error_middleware s)
    (shutdown_sent s) (<[i := p]> (requests s)).

(** The first half of [connection_tracker_middleware]: [+= 1] on a [usize]. *)
Definition track (h : Headers) s : Server :=
  mkServer (is_accepting s) (as_u64 (active_connections s + 1)) (rate_limiter s) (error_middleware s)
    (shutdown_sent s) (requests s ++ [Tracked h]).

(** Its second half: [-= 1], and the response. *)
Definition untrack (i : nat) (a : Answer) s : Server :=
  mkServer (is_accepting s) (as_u64 (active_connections s - 1)) (rate_limiter s) (error_middleware s)
    (shutdown_sent s) (<[i := Answered a]> (requests s)).

Definition rate_limit (i : nat) (h : Headers) (now : Z) s : Server :=
  let '(r, rl) := rate_limit_middleware h now (rate_limiter s) in
  let phase := match r with
               | Next => Granted
               | TooManyRequests => Responding (mkAnswer 429 (Page "rate limit exceeded"))
               | LimiterError => Responding (mkAnswer 500 (Page "rate limiter error"))
               end in
  mkServer (is_accepting s) (active_connections s) rl (error_middleware s) (shutdown_sent s)
    (<[i := phase]> (requests s)).

Definition connection_limiter_middleware (i : nat) s : Server :=
  if negb (is_accepting s)
  then set_phase i (Responding (mkAnswer 503 (Page "Server is shutting down"))) s
  else set_phase i Running s.

Definition error_handler_middleware (request_id uuid : string) (created : Z) (t : Times)
    (r : result BoxError Answer) (m : ErrorMiddleware) : Answer * ErrorMiddleware :=
  let context := with_request_id request_id (new_context created "http_request" "http_server") in
  match r with
  | Ok response => (response, m)
  | Err err =>
      let '(contextual_error, m') := handle_error debug_text uuid t (downcast err) context m in
      (create_error_response contextual_error, m')
  end.

Definition finish (i : nat) (request_id uuid : string) (created : Z) (t : Times) (r : result BoxError Answer) s
    : Server :=
  let '(a, m) := error_handler_middleware request_id uuid created t r (error_middleware s) in
  mkServer (is_accepting s) (active_connections s) (rate_limiter s) m (shutdown_sent s)
    (<[i := Responding a]> (requests s)).

Definition stop_accepting_new_connections s : Server :=
  mkServer false (active_connections s) (rate_limiter s) (error_middleware s) (shutdown_sent s) (requests s).

(** [shutdown_tx.take()], then [send]. *)
Definition stop s : Server :=
  mkServer (is_accepting s) (active_connections s) (rate_limiter s) (error_middleware s)
    (match shutdown_sent s with Some _ => Some true | None => None end) (requests s).

Definition http_step s (ev : HttpEvent) : option Server :=
  match ev with
  | Arrive h => Some (track h s)
  | RateLimit i now => match requests s !! i with Some (Tracked h) => Some (rate_limit i h now s) | _ => None end
  | Limit i => match requests s !! i with Some Granted => Some (connection_limiter_middleware i s) | _ => None end
  | Finish i rid u created t r =>
      match requests s !! i with Some Running => Some (finish i rid u created t r s) | _ => None end
  | Respond i => match requests s !! i with Some (Responding a) => Some (untrack i a s) | _ => None end
  | DropRequest i =>
      match requests s !! i with
      | None | Some (Answered _) | Some Dropped => None
      | Some _ => Some (set_phase i Dropped s)
      end
  | StopAccepting => Some (stop_accepting_new_connections s)
  | Stop => Some (stop s)
  end.

Fixpoint http_run (evs : list HttpEvent) s : option Server :=
  match evs with
  | [] => Some s
  | ev :: evs' => s' ← http_step s ev; http_run evs' s'
  end.

(** [wait_for_connections_to_complete], on the counts it reads once per second:
    the number of seconds it waits. *)
Fixpoint wait_zero (max_attempts : nat) (reads : nat -> Z) : nat :=
  match max_attempts with
  | O => O
  | S n => if reads O =? 0 then O else S (wait_zero n (fun i => reads (S i)))
  end.
Definition wait_for_connections_to_complete (reads : nat -> Z) : nat := wait_zero 60 reads.

(** ** The counter *)

Definition open (p : Phase) : bool :=
  match p with Tracked _ | Granted | Running | Responding _ => true | _ => false end.
Definition dropped (p : Phase) : bool := match p with Dropped => true | _ => false end.
Definition counted_phase (p : Phase) : bool := open p || dropped p.
Definition count_phases (f : Phase -> bool) (l : list Phase) : Z :=
  sumZ (fun p => if f p then 1 else 0) l.

#[local] Arguments sumZ {_} _ _ : simpl never.

Definition tracker_ok s : Prop :=
  active_connections s = as_u64 (count_phases counted_phase (requests s)).

Lemma count_insert f l i p q :
  l !! i = Some p ->
  count_phases f (<[i := q]> l) = count_phases f l - (if f p then 1 else 0) + (if f q then 1 else 0).
Proof.
  unfold count_phases. revert i. induction l as [|x l IH]; intros [|i] Hl; cbn in Hl; simplify_eq;
    simpl; rewrite !sumZ_cons.
  - lia.
  - rewrite IH by done. lia.
Qed.

Lemma count_snoc f l q : count_phases f (l ++ [q]) = count_phases f l + (if f q then 1 else 0).
Proof. unfold count_phases. rewrite sumZ_app. unfold sumZ at 2. cbn. lia. Qed.

Lemma count_nonneg f l : 0 <= count_phases f l <= Z.of_nat (length l).
Proof.
  unfold count_phases. induction l as [|x l IH]; [done|]. rewrite sumZ_cons. cbn [length].
  destruct (f x); lia.
Qed.

Lemma count_split l : count_phases counted_phase l = count_phases open l + count_phases dropped l.
Proof.
  unfold count_phases. induction l as [|x l IH]; [done|]. rewrite !sumZ_cons, IH.
  destruct x; cbn; lia.
Qed.

Lemma count_same f l i p q :
  l !! i = Some p -> f p = f q -> count_phases f (<[i := q]> l) = count_phases f l.
Proof. intros Hi Hf. rewrite (count_insert _ _ _ _ _ Hi), Hf. lia. Qed.

Lemma step_tracker s ev s' : http_step s ev = Some s' -> tracker_ok s -> tracker_ok s'.
Proof.
  unfold tracker_ok. intros Hs Hok.
  destruct ev as [h|i now|i|i rid u created now r|i|i| |]; cbn in Hs; simplify_eq; cbn; try done.
  - rewrite count_snoc, Hok. cbn. by rewrite as_u64_add.
  - destruct (requests s !! i) as [[]|] eqn:Hi; simplify_eq. unfold rate_limit.
    destruct (rate_limit_middleware _ _ _) as [[] rl]; cbn; by rewrite (count_same _ _ _ _ _ Hi).
  - destruct (requests s !! i) as [[]|] eqn:Hi; simplify_eq. unfold connection_limiter_middleware.
    repeat case_match; cbn; by rewrite (count_same _ _ _ _ _ Hi).
  - destruct (requests s !! i) as [[]|] eqn:Hi; simplify_eq. unfold finish.
    destruct (error_handler_middleware _ _ _ _ _ _) as [a m]; cbn; by rewrite (count_same _ _ _ _ _ Hi).
  - destruct (requests s !! i) as [[]|] eqn:Hi; simplify_eq. cbn.
    rewrite (count_insert _ _ _ _ _ Hi), Hok. cbn. unfold as_u64. rewrite Zminus_mod_idemp_l. f_equal. lia.
  - destruct (requests s !! i) as [[]|] eqn:Hi; simplify_eq; cbn; by rewrite (count_same _ _ _ _ _ Hi).
Qed.

Lemma run_tracker evs s s' : http_run evs s = Some s' -> tracker_ok s -> tracker_ok s'.
Proof.
  revert s. induction evs as [|ev evs IH]; cbn; intros s Hr Hok; [by simplify_eq|].
  destruct (http_step s ev) as [s1|] eqn:Hs; [|done]. cbn in Hr. eauto using step_tracker.
Qed.

Lemma tracker_exact s :
  tracker_ok s -> Z.of_nat (length (requests s)) <= u64_max ->
  active_connections s = count_phases open (requests s) + count_phases dropped (requests s).
Proof.
  unfold tracker_ok. intros -> Hl. rewrite <- count_split.
  pose proof (count_nonneg counted_phase (requests s)). unfold as_u64, u64_max in *.
  apply Z.mod_small. lia.
Qed.

(** The connection counter of the server: after any interleaving of requests
    through the layers, in which any request may be dropped where it waits, the
    counter is the number of requests in flight plus the number of requests that
    were dropped before they were answered; it never goes below zero. *)
Theorem active_connections_exact rl m evs s :
  http_run evs (started (new_server rl m)) = Some s -> Z.of_nat (length (requests s)) <= u64_max ->
  active_connections s = count_phases open (requests s) + count_phases dropped (requests s).
Proof. intros Hr. apply tracker_exact. by eapply run_tracker. Qed.

(** ** A stopped server *)

Definition refusal (a : Answer) : Prop := answer_status a ∈ [429; 500; 503].
Definition refused_phase (p : Phase) : Prop :=
  match p with
  | Running => False
  | Responding a | Answered a => refusal a
  | _ => True
  end.

(** What holds of a state reached from the stopped state [s0]. *)
Record stopped_after (s0 s : Server) : Prop := mkStopped {
  st_flag : is_accepting s = false;
  st_running : forall i, requests s !! i = Some Running -> requests s0 !! i = Some Running;
  st_length : (length (requests s0) <= length (requests s))%nat;
  st_new : forall i p, requests s0 !! i = None -> requests s !! i = Some p -> refused_phase p }.

Lemma stopped_set s0 s i p l :
  stopped_after s0 s -> l = <[i := p]> (requests s) ->
  (p = Running -> requests s0 !! i = Some Running) ->
  (requests s0 !! i = None -> refused_phase p) ->
  forall s', is_accepting s' = false -> requests s' = l -> stopped_after s0 s'.
Proof.
  intros [Hf Hr Hl Hn] -> Hp Hq s' Hf' Hs'. split; [done|..]; rewrite Hs'.
  - intros j. destruct (decide (i = j)) as [<-|]; [|rewrite list_lookup_insert_ne by done; auto].
    destruct (decide (i < length (requests s))%nat).
    + rewrite list_lookup_insert_eq by done. naive_solver.
    + rewrite list_insert_ge by lia. auto.
  - by rewrite length_insert.
  - intros j q. destruct (decide (i = j)) as [<-|]; [|rewrite list_lookup_insert_ne by done; eauto].
    destruct (decide (i < length (requests s))%nat).
    + rewrite list_lookup_insert_eq by done. naive_solver.
    + rewrite list_insert_ge by lia. eauto.
Qed.

Lemma step_stopped s0 s ev s' : http_step s ev = Some s' -> stopped_after s0 s -> stopped_after s0 s'.
Proof.
  intros Hs Hst. pose proof Hst as [Hf Hr Hl Hn].
  destruct ev as [h|i now|i|i rid u created now r|i|i| |]; cbn in Hs; simplify_eq.
  - split; cbn; [done| | |].
    + intros i [?|[? [? ?]%list_lookup_singleton_Some]]%lookup_app_Some; [by apply Hr|done].
    + rewrite length_app. cbn. lia.
    + intros i p Hi [?|[? [? <-]%list_lookup_singleton_Some]]%lookup_app_Some; [by eapply Hn|done].
  - destruct (requests s !! i) as [[]|] eqn:Hi; simplify_eq. unfold rate_limit.
    destruct (rate_limit_middleware _ _ _) as [r rl].
    eapply (stopped_set s0 s i); [done|done| | |done|done]; destruct r; cbn; unfold refusal; cbn; set_solver.
  - destruct (requests s !! i) as [[]|] eqn:Hi; simplify_eq. unfold connection_limiter_middleware.
    rewrite Hf. cbn. eapply (stopped_set s0 s i); [done|done| | |done|done]; cbn; unfold refusal; cbn; set_solver.
  - destruct (requests s !! i) as [[]|] eqn:Hi; simplify_eq. unfold finish.
    destruct (error_handler_middleware _ _ _ _ _ _) as [a m].
    eapply (stopped_set s0 s i); [done|done| | |done|done]; [done|]. intros Hi0. by rewrite (Hr i) in Hi0.
  - destruct (requests s !! i) as [[]|] eqn:Hi; simplify_eq.
    eapply (stopped_set s0 s i); [done|done| | |done|done]; [done|]. intros Hi0. apply (Hn i _ Hi0 Hi).
  - destruct (requests s !! i) as [[]|] eqn:Hi; simplify_eq;
      (eapply (stopped_set s0 s i); [done|done| | |done|done]; done).
  - by split.
  - by split.
Qed.

Lemma run_stopped s0 evs s s' : http_run evs s = Some s' -> stopped_after s0 s -> stopped_after s0 s'.
Proof.
  revert s. induction evs as [|ev evs IH]; cbn; intros s Hr Hok; [by simplify_eq|].
  destruct (http_step s ev) as [s1|] eqn:Hs; [|done]. cbn in Hr. eauto using step_stopped.
Qed.

Lemma stopped_run s evs s' :
  http_run evs (stop_accepting_new_connections s) = Some s' ->
  stopped_after (stop_accepting_new_connections s) s'.
Proof.
  intros Hr. eapply run_stopped; [done|]. split; cbn; [done|done|done|]. intros i p Hi Hp. congruence.
Qed.

(** C28. Once the server stops accepting, it never accepts again and no request
    enters a route any more: the requests in a route afterwards are among those
    that were in a route before, and every request that arrives later and is
    answered is answered 503, or 429 or 500 by the rate limiter, which comes
    first. *)
Theorem stopped_server_refuses s evs s' :
  http_run evs (stop_accepting_new_connections s) = Some s' ->
  is_accepting s' = false /\
  (forall i, requests s' !! i = Some Running -> requests s !! i = Some Running) /\
  (forall i a, requests s !! i = None -> requests s' !! i = Some (Answered a) -> refusal a).
Proof.
  intros [Hf Hrun _ Hn]%stopped_run.
  split_and!; [done|done|]. intros i a Hi Ha. apply (Hn i (Answered a) Hi Ha).
Qed.

(** ** Waiting for the requests *)

Lemma wait_le max reads : (wait_zero max reads <= max)%nat.
Proof.
  revert reads. induction max as [|n IH]; intros reads; cbn; [done|].
  destruct (reads 0%nat =? 0); [lia|]. specialize (IH (fun i => reads (S i))). lia.
Qed.

Lemma wait_spec max reads :
  let k := wait_zero max reads in
  (forall j, (j < k)%nat -> reads j <> 0) /\ ((k < max)%nat -> reads k = 0).
Proof.
  revert reads. induction max as [|n IH]; intros reads; cbn; [split; intros; lia|].
  destruct (Z.eqb_spec (reads 0%nat) 0); [split; intros; [lia|done]|].
  destruct (IH (fun i => reads (S i))) as [Hb Hk]. split.
  - intros [|j] Hj; [done|]. apply (Hb j). lia.
  - intros Hlt. apply Hk. lia.
Qed.

Lemma step_dropped s ev s' i :
  http_step s ev = Some s' -> requests s !! i = Some Dropped -> requests s' !! i = Some Dropped.
Proof.
  intros Hs Hi.
  assert (forall j q, requests s !! j <> Some Dropped -> <[j := q]> (requests s) !! i = Some Dropped) as Hset.
  { intros j q Hj. rewrite list_lookup_insert_ne; [done|]. by intros ->. }
  destruct ev as [h|j now|j|j rid u created now r|j|j| |]; cbn in Hs; simplify_eq; cbn; try done.
  - by apply lookup_app_l_Some.
  - destruct (requests s !! j) as [[]|] eqn:Hj; simplify_eq. unfold rate_limit.
    destruct (rate_limit_middleware _ _ _). cbn. apply Hset. congruence.
  - destruct (requests s !! j) as [[]|] eqn:Hj; simplify_eq. unfold connection_limiter_middleware.
    repeat case_match; cbn; apply Hset; congruence.
  - destruct (requests s !! j) as [[]|] eqn:Hj; simplify_eq. unfold finish.
    destruct (error_handler_middleware _ _ _ _ _ _). cbn. apply Hset. congruence.
  - destruct (requests s !! j) as [[]|] eqn:Hj; simplify_eq. cbn. apply Hset. congruence.
  - destruct (requests s !! j) as [[]|] eqn:Hj; simplify_eq; cbn; apply Hset; congruence.
Qed.

Lemma run_dropped evs s s' i :
  http_run evs s = Some s' -> requests s !! i = Some Dropped -> requests s' !! i = Some Dropped.
Proof.
  revert s. induction evs as [|ev evs IH]; cbn; intros s Hr Hi; [by simplify_eq|].
  destruct (http_step s ev) as [s1|] eqn:Hs; [|done]. cbn in Hr. eauto using step_dropped.
Qed.

(** The states of the server at the times the counter is read. *)
Definition timeline (st : nat -> Server) : Prop :=
  forall n, exists evs, http_run evs (st n) = Some (st (S n)).

Lemma timeline_keeps (P : Server -> Prop) st :
  timeline st -> (forall evs s s', http_run evs s = Some s' -> P s -> P s') ->
  P (st O) -> forall n, P (st n).
Proof. intros Ht Hstep H0 n. induction n as [|n IH]; [done|]. destruct (Ht n) as [evs He]. eauto. Qed.

Lemma count_zero f l : count_phases f l = 0 -> Forall (fun p => f p = false) l.
Proof.
  unfold count_phases. induction l as [|x l IH]; [constructor|]. rewrite sumZ_cons. intros Hz.
  pose proof (count_nonneg f l) as Hl. unfold count_phases in Hl.
  destruct (f x) eqn:Hx; [lia|]. constructor; [done|]. apply IH. lia.
Qed.

Lemma count_pos f l i p : l !! i = Some p -> f p = true -> 0 < count_phases f l.
Proof.
  intros Hi Hf. destruct (decide (count_phases f l = 0)) as [Hz|]; [|pose proof (count_nonneg f l); lia].
  apply count_zero in Hz. rewrite Forall_lookup in Hz. specialize (Hz i p Hi). congruence.
Qed.

(** Every request of a server whose counter is zero is answered. *)
Lemma drained_answered s i p :
  tracker_ok s -> Z.of_nat (length (requests s)) <= u64_max -> active_connections s = 0 ->
  requests s !! i = Some p -> exists a, p = Answered a.
Proof.
  intros Hok Hlen Hz Hi. rewrite (tracker_exact s Hok Hlen) in Hz.
  pose proof (count_nonneg open (requests s)). pose proof (count_nonneg dropped (requests s)).
  destruct (decide (open p = true)) as [Ho|Ho].
  { pose proof (count_pos open _ _ _ Hi Ho). lia. }
  destruct (decide (dropped p = true)) as [Hd|Hd].
  { pose proof (count_pos dropped _ _ _ Hi Hd). lia. }
  destruct p; cbn in *; try congruence. eauto.
Qed.

Lemma timeline_tracker st n : timeline st -> tracker_ok (st O) -> tracker_ok (st n).
Proof. intros Ht H0. apply (timeline_keeps tracker_ok st Ht); [|done]. apply run_tracker. Qed.

(** C29. Draining before shutdown: the wait for connections reads the counter at
    most sixty times, a second apart, whatever the server does meanwhile.  If it
    stops before that, every request is answered, none is in flight and none was
    dropped; but one request dropped by its client, at any time before, keeps the
    counter above zero and makes it wait the full sixty seconds. *)
Theorem drain_outcome rl m evs st :
  http_run evs (started (new_server rl m)) = Some (st O) -> timeline st ->
  (forall n, Z.of_nat (length (requests (st n))) <= u64_max) ->
  let k := wait_for_connections_to_complete (fun n => active_connections (st n)) in
  (k <= 60)%nat /\
  ((k < 60)%nat -> forall i p, requests (st k) !! i = Some p -> exists a, p = Answered a) /\
  (forall i, requests (st O) !! i = Some Dropped -> k = 60%nat).
Proof.
  intros Hr Ht Hlen k.
  assert (forall n, tracker_ok (st n)) as Hok.
  { intros n. apply timeline_tracker; [done|]. by eapply run_tracker. }
  unfold k, wait_for_connections_to_complete.
  pose proof (wait_le 60 (fun n => active_connections (st n))) as Hle.
  destruct (wait_spec 60 (fun n => active_connections (st n))) as [_ Hk].
  set (w := wait_zero 60 _) in *. split_and!; [done|..].
  - intros Hlt i p. apply drained_answered; auto.
  - intros i Hi. destruct (decide (w < 60)%nat) as [Hlt|]; [|lia].
    assert (requests (st w) !! i = Some Dropped) as Hw.
    { apply (timeline_keeps (fun s => requests s !! i = Some Dropped) st Ht); [|done].
      intros evs' s s'. apply run_dropped. }
    destruct (drained_answered (st w) i Dropped) as [a Ha]; auto. done.
Qed.

(** ** Errors *)

(** A route that fails is answered with the error: the status of the answer
    is the error's HTTP status (an error that is not the node's own is an internal
    error, 500), its body carries the error's code, its text and the id given to
    the request, the request leaves the route with that answer, and the error
    middleware has counted one more error and holds its record last. *)
Theorem failed_route_reported s i rid u created t x s' :
  http_step s (Finish i rid u created t (Err x)) = Some s' ->
  let e := downcast x in
  requests s' !! i = Some (Responding (mkAnswer (http_status_code e)
    (JsonError (error_code e) (net_display e) (Some rid) created))) /\
  total_errors (error_stats (error_middleware s')) = as_u64 (total_errors (error_stats (error_middleware s)) + 1) /\
  (exists r, last (recent_errors (error_stats (error_middleware s'))) = Some r /\
     error_type r = error_code e /\ component r = "http_server" /\ rec_request_id r = Some rid) /\
  active_connections s' = active_connections s.
Proof.
  intros Hs e. cbn in Hs. destruct (requests s !! i) as [[]|] eqn:Hi; simplify_eq.
  assert (i < length (requests s))%nat as Hlt by (by apply lookup_lt_Some in Hi).
  assert (status_from_u16 (http_status_code e) = http_status_code e) as He by (by destruct e).
  unfold finish, error_handler_middleware, handle_error. fold e.
  cbn [requests error_middleware active_connections].
  rewrite list_lookup_insert_eq by done. unfold create_error_response. cbn [ce_error ce_context].
  rewrite He. split_and!; [done|by destruct (enable_circuit_breaker _)| |done].
  eexists. split; [destruct (enable_circuit_breaker _); apply last_bounded|done].
Qed.
End Server.

(** ** Status pages *)

(** [ready_check]: the pool's size, its idle connections and its health. *)
Definition ready_check (query : result string unit) (size num_idle : Z) : bool :=
  match query with Ok _ => 0 <? as_u32 (size - num_idle) | Err _ => false end.

Definition error_stats_page (m : ErrorMiddleware) : Z * gmap string Z * gmap string Z * Z * Z :=
  let stats := get_error_stats m in
  (total_errors stats, errors_by_type stats, errors_by_component stats,
   Z.of_nat (length (recent_errors stats)), last_updated stats).

Definition circuit_breaker_status (m : ErrorMiddleware) : gmap string string :=
  (fun b => match state b with Closed => "closed" | Open => "open" | HalfOpen => "half_open" end)
    <$> get_circuit_breaker_status m.

(** The page shows a component as open exactly when requests to it are refused. *)
Lemma status_page_agrees comp m :
  enable_circuit_breaker (config m) = true ->
  circuit_breaker_status m !! comp = Some "open"%string <-> is_circuit_breaker_open comp m = true.
Proof.
  intros He. unfold circuit_breaker_status, is_circuit_breaker_open, get_circuit_breaker_status.
  rewrite He. cbn. rewrite lookup_fmap. destruct (circuit_breakers m !! comp) as [b|]; [|done].
  cbn. rewrite bool_decide_eq_true. by destruct (state b).
Qed.

(** A node whose pool is healthy and idle reports that it is not ready. *)
Lemma idle_node_not_ready query size : ready_check query size size = false.
Proof. unfold ready_check. rewrite Z.sub_diag. by destruct query as [[]|]. Qed.

(** ** Witnesses: three requests, the second dropped by its client *)

Definition some_headers : Headers := mkHeaders None (Some "10.0.0.1"%string).
Definition fresh_server : Server := started (new_server (new_limiter None 10) (new default_config)).
Definition served_and_dropped : list HttpEvent :=
  [Arrive some_headers; Arrive some_headers; RateLimit 0 60; RateLimit 1 60; Limit 1; Limit 0;
   DropRequest 1; Finish 0 "r0" "u0" 60 (mkTimes 61 61 61) (Err (Boxed (NE_Validation "bad"))); Respond 0].
Definition dropped_server : Server := Eval vm_compute in
  default fresh_server (http_run (fun _ => ""%string) served_and_dropped fresh_server).

Lemma dropped_server_run : http_run (fun _ => ""%string) served_and_dropped fresh_server = Some dropped_server.
Proof. vm_compute. reflexivity. Qed.

Lemma active_connections_exact_witness : active_connections dropped_server = 1.
Proof.
  rewrite (active_connections_exact (fun _ => ""%string) (new_limiter None 10) (new default_config)
    served_and_dropped dropped_server dropped_server_run); [vm_compute; reflexivity|vm_compute; discriminate].
Defined.

Definition late_request : list HttpEvent := [Arrive some_headers; RateLimit 2 60; Limit 2; Respond 2].
Definition refusing_server : Server := Eval vm_compute in
  default fresh_server (http_run (fun _ => ""%string) late_request (stop_accepting_new_connections dropped_server)).
Lemma refusing_server_run :
  http_run (fun _ => ""%string) late_request (stop_accepting_new_connections dropped_server) = Some refusing_server.
Proof. vm_compute. reflexivity. Qed.

Lemma stopped_server_refuses_witness :
  is_accepting refusing_server = false /\
  requests refusing_server !! 2%nat = Some (Answered (mkAnswer 503 (Page "Server is shutting down"))).
Proof.
  split; [|reflexivity].
  exact (proj1 (stopped_server_refuses (fun _ => ""%string) dropped_server late_request refusing_server
    refusing_server_run)).
Defined.

Lemma drain_outcome_witness :
  wait_for_connections_to_complete (fun n => active_connections ((fun _ => dropped_server) n)) = 60%nat.
Proof.
  refine (proj2 (proj2 (drain_outcome (fun _ => ""%string) (new_limiter None 10) (new default_config)
    served_and_dropped (fun _ => dropped_server) dropped_server_run _ _)) 1%nat _).
  - intros n. by exists [].
  - intros n. vm_compute. discriminate.
  - vm_compute. reflexivity.
Defined.

Definition running_server : Server := Eval vm_compute in
  default fresh_server (http_run (fun _ => ""%string) [Arrive some_headers; RateLimit 0 60; Limit 0] fresh_server).
Definition failed_server : Server := Eval vm_compute in
  default fresh_server (http_step (fun _ => ""%string) running_server
    (Finish 0 "r0" "u0" 60 (mkTimes 61 61 61) (Err (OtherError "boom")))).

Lemma failed_route_reported_witness :
  requests failed_server !! 0%nat = Some (Responding (mkAnswer 500
    (JsonError "SERVER_ERROR" "Server error: Internal server error: boom" (Some "r0"%string) 60))).
Proof.
  refine (proj1 (failed_route_reported (fun _ => ""%string) running_server 0 "r0" "u0" 60 (mkTimes 61 61 61)
    (OtherError "boom") failed_server _)). vm_compute. reflexivity.
Defined.
