(* ===== verification/Node.v ===== *)
(** network-node/src/lib.rs and database.rs: how the node is put together.

    The database server, key services and files are outside: connecting, a
    statement, KMS and reading a genesis file are functions of a world [W], the
    parsing of a socket address is a parameter, and the key pair a local signer
    generates is an argument.  The components are those of the other files. *)
From stdpp Require Import base gmap list strings.
From S2P Require Import Prelude NetworkErrors Tasks ChainParams RateLimiter ErrorMiddleware Signer.
From S2P Require Import Signing Config HorizonClient P2P StateTrie HttpServer.

(** ** The connection pool (database.rs) *)

Inductive Statement : Type :=
| CreateIndexerState | InitIndexerState | CreateTransactions | CreateDeposits.

Section Pool.
Context {W Pg : Type}
  (connect : DatabaseConfig -> string -> W -> result string Pg * W)
  (execute : Pg -> Statement -> W -> result string unit * W).

Record ConnectionPool : Type := mkPool { pg : Pg; pool_config : DatabaseConfig }.

Fixpoint run_statements (p : Pg) (qs : list Statement) (w : W) : result NetworkError unit * W :=
  match qs with
  | [] => (Ok tt, w)
  | q :: qs' =>
      match execute p q w with
      | (Err x, w1) => (Err (NE_Database (QueryFailed x)), w1)
      | (Ok _, w1) => run_statements p qs' w1
      end
  end.

Definition initialize_schema (c : ConnectionPool) : W -> result NetworkError unit * W :=
  run_statements (pg c) [CreateIndexerState; InitIndexerState; CreateTransactions; CreateDeposits].

Definition new_pool (url : string) (w : W) : result NetworkError ConnectionPool * W :=
  match database_config_from_url url with
  | Err x => (Err x, w)
  | Ok cfg =>
      match connect cfg url w with
      | (Err x, w1) => (Err (NE_Database (ConnectionFailed x)), w1)
      | (Ok p, w1) =>
          let pool := mkPool p cfg in
          match initialize_schema pool w1 with
          | (Err x, w2) => (Err x, w2)
          | (Ok _, w2) => (Ok pool, w2)
          end
      end
  end.
End Pool.
Arguments ConnectionPool Pg : clear implicits.

(** ** Assembly: [NetworkNode::new] *)

Inductive NodeError : Type := Net (x : NetworkError) | Trie (x : TrieError).

Section Assembly.
Context `{!Ed25519} {W Pg D Addr : Type} `{!RocksDb D}
  (connect : DatabaseConfig -> string -> W -> result string Pg * W)
  (execute : Pg -> Statement -> W -> result string unit * W)
  (generated : Keypair)
  (new_kms : string -> string -> option string -> W -> result NetworkError (Signer W) * W)
  (load_genesis : string -> result string GenesisDocument).

(** The signer of the configuration, or a local one. *)
Definition node_signing (cfg : NetworkConfig) (w : W)
    : result NetworkError (SigningService (W := W)) * W :=
  let service := new_service (cache_ttl_seconds cfg) in
  match signing_config cfg with
  | Some signer_config =>
      match create_signer generated new_kms signer_config w with
      | (Err x, w1) => (Err x, w1)
      | (Ok signer, w1) =>
          match get_key_id signer with
          | Err x => (Err x, w1)
          | Ok key_id =>
              match add_signer key_id signer service w1 with
              | (Err x, _, w2) => (Err x, w2)
              | (Ok _, service1, w2) => (set_default_signer key_id service1, w2)
              end
          end
      end
  | None =>
      match add_signer "default" (local_signer (new_local generated "default_key.pem")) service w with
      | (Err x, _, w1) => (Err x, w1)
      | (Ok _, service1, w1) => (set_default_signer "default" service1, w1)
      end
  end.

Definition node_chain (cfg : NetworkConfig) : result NetworkError ChainParameterRegistry :=
  match genesis_config_path cfg with
  | Some p => match load_genesis p with
              | Err x => Err (NE_Config x)
              | Ok doc => Ok (from_genesis_document doc)
              end
  | None => Ok development_default
  end.

(** [ChainParameterRegistry::from_genesis_file]: the document of a file ([parse] is
    serde's), and the registry made from it. *)
Definition read_genesis (read_to_string : string -> result string string)
    (parse : string -> result string GenesisDocument) (path : string) : result string GenesisDocument :=
  match read_to_string path with
  | Err x => Err ("Failed to read genesis file " +:+ path +:+ ": " +:+ x)
  | Ok raw => match parse raw with Err x => Err ("Invalid genesis JSON: " +:+ x) | Ok doc => Ok doc end
  end.
Definition from_genesis_file (read_to_string : string -> result string string)
    (parse : string -> result string GenesisDocument) (path : string) : result string ChainParameterRegistry :=
  let? doc := read_genesis read_to_string parse path in Ok (from_genesis_document doc).

Record NetworkNode : Type := mkNode {
  node_config : NetworkConfig;
  connection_pool : ConnectionPool Pg;
  node_error_middleware : ErrorMiddleware;
  state_trie : StateTrie D;
  p2p_manager : P2PManager Addr;
  signing_service : SigningService (W := W);
  horizon_client : HorizonClient W;
  soroban_endpoints : list Str;
  chain_parameters : ChainParameterRegistry }.

Definition new_node (cfg : NetworkConfig) (w : W) : result NodeError NetworkNode * W :=
  match new_pool connect execute (database_url cfg) w with
  | (Err x, w1) => (Err (Net x), w1)
  | (Ok pool, w1) =>
      match new_trie "./data/state_trie" with
      | Err x => (Err (Trie x), w1)
      | Ok trie =>
          match node_signing cfg w1 with
          | (Err x, w2) => (Err (Net x), w2)
          | (Ok signing, w2) =>
              match node_chain cfg with
              | Err x => (Err (Net x), w2)
              | Ok chain =>
                  (Ok (mkNode cfg pool (ErrorMiddleware.new ErrorMiddleware.default_config) trie
                         (new_manager (replicate 32 0)) signing (new_client (horizon_config cfg) w2)
                         (rpc_endpoints (soroban_config cfg)) chain), w2)
              end
          end
      end
  end.

(** *** What a node that comes up signs with *)

Lemma add_first_signer kid (sg : Signer W) ttl w s w' :
  add_signer kid sg (new_service ttl) w = (Ok tt, s, w') ->
  s = mkSigning {[kid := sg]} (new_cache ttl) (Some kid) /\ health_check sg w = (Ok true, w').
Proof.
  unfold add_signer. destruct (health_check sg w) as [[[]|x] w1]; intros; by simplify_eq.
Qed.

(** The service holds one signer, and it is the default. *)
Definition only_signer (kid : string) (sg : Signer W) (s : SigningService (W := W)) : Prop :=
  default_signer_key s = Some kid /\ signers s = {[kid := sg]} /\
  forall m w, Signing.sign m s w = Signer.sign sg m w.

Lemma only_signer_intro kid sg ttl s :
  set_default_signer kid (mkSigning {[kid := sg]} (new_cache ttl) (Some kid)) = Ok s -> only_signer kid sg s.
Proof.
  unfold set_default_signer. cbn. rewrite lookup_singleton_eq. intros [= <-]. split_and!; [done|done|].
  intros m w. unfold Signing.sign, get_default_signer, get_signer. cbn. by rewrite lookup_singleton_eq.
Qed.

(** The signer the configuration asks for. *)
Definition configured_signer (cfg : NetworkConfig) (kid : string) (sg : Signer W) : Prop :=
  match signing_config cfg with
  | None => kid = "default"%string /\ sg = local_signer (new_local generated "default_key.pem")
  | Some (Local path) => kid = ("local:" +:+ path)%string /\ sg = local_signer (new_local generated path)
  | Some (AwsKms key reg prof) =>
      get_key_id sg = Ok kid /\ exists w1 w2, new_kms key reg prof w1 = (Ok sg, w2)
  | Some (Hsm _ _) => False
  end.

Lemma node_signing_spec cfg w s w' :
  node_signing cfg w = (Ok s, w') ->
  exists kid sg, only_signer kid sg s /\ configured_signer cfg kid sg /\
    exists w1, health_check sg w1 = (Ok true, w').
Proof.
  unfold node_signing, configured_signer. destruct (signing_config cfg) as [c|].
  - destruct (create_signer _ _ c w) as [[sg|] w1] eqn:Hc; [|done].
    destruct (get_key_id sg) as [kid|] eqn:Hk; [|done].
    destruct (add_signer kid sg _ w1) as [[[[]|] s1] w2] eqn:Ha; [|done].
    apply add_first_signer in Ha as [-> Hh]. intros [Hs <-]%pair_equal_spec.
    apply only_signer_intro in Hs. exists kid, sg. split; [done|]. split; [|by eauto].
    destruct c; cbn in Hc; simplify_eq; cbn in Hk, Hh; simplify_eq; eauto.
  - destruct (add_signer _ _ _ w) as [[[[]|] s1] w2] eqn:Ha; [|done].
    apply add_first_signer in Ha as [-> Hh]. intros [Hs <-]%pair_equal_spec.
    apply only_signer_intro in Hs. eexists _, _. split; [done|]. eauto.
Qed.

(** A node that comes up can sign: its signing service holds exactly one
    signer, the one the configuration asks for (a local one when there is none),
    that signer passed its health check, it is the default, and signing through
    the service is signing with it; in particular a node configured for an HSM
    never comes up.  Its chain parameters are those of the genesis file, or the
    development default. *)
Theorem node_comes_up_signing cfg w nd w' :
  new_node cfg w = (Ok nd, w') ->
  (exists kid sg, only_signer kid sg (signing_service nd) /\ configured_signer cfg kid sg /\
     exists w1, health_check sg w1 = (Ok true, w')) /\
  match genesis_config_path cfg with
  | None => chain_parameters nd = development_default
  | Some p => exists doc, load_genesis p = Ok doc /\ chain_parameters nd = from_genesis_document doc
  end.
Proof.
  unfold new_node. destruct (new_pool _ _ _ w) as [[pool|] w1]; [|done].
  destruct (new_trie _) as [t|]; [|done].
  destruct (node_signing cfg w1) as [[s|] w2] eqn:Hs; [|done].
  destruct (node_chain cfg) as [chain|] eqn:Hc; [|done]. intros [[= <-] <-]%pair_equal_spec. cbn.
  split; [by apply node_signing_spec in Hs|]. unfold node_chain in Hc.
  destruct (genesis_config_path cfg) as [p|]; [|by simplify_eq].
  destruct (load_genesis p) as [doc|]; simplify_eq. eauto.
Qed.
End Assembly.

(** ** Witness: a node with the default environment *)

Definition plain_config : NetworkConfig :=
  env_config (fun _ => None) (fun _ => None) 30 "1" (fun _ => None).
Definition toy_new_node : NetworkConfig -> unit ->
    result NodeError (NetworkNode (W := unit) (Pg := unit) (D := gmap (list Z) (list Z)) (Addr := unit)) * unit :=
  new_node (H := toy_ed25519) (fun _ _ w => (Ok tt, w)) (fun _ _ w => (Ok tt, w)) (7 : @Keypair toy_ed25519)
    (fun _ _ _ w => (Err NE_Cancelled, w)) (fun _ => Err "no file"%string).

Lemma node_comes_up_signing_witness :
  match toy_new_node plain_config tt with
  | (Ok nd, _) => chain_parameters nd = development_default /\
      exists kid sg, only_signer kid sg (signing_service nd)
  | _ => False
  end.
Proof.
  destruct (toy_new_node plain_config tt) as [[nd|x] w'] eqn:E; [|vm_compute in E; discriminate].
  destruct (node_comes_up_signing _ _ _ _ _ plain_config tt nd w' E) as [(kid & sg & Ho & _) Hg].
  split; [exact Hg|by exists kid, sg].
Defined.
