(* ===== verification/Shutdown.v ===== *)
(** network-node/src/lib.rs: [start] with its [select!], and [shutdown].

    The shutdown is a task that runs beside the requests, the handlers that read
    the pool and the tasks that use its connections.  Its state is the await point
    it is at; an event is one of its polls ([Turn]), a step of the others, or the
    passing of time, in milliseconds.  Everything that happens while it sleeps or
    waits is an event of its own: a lock that is held can be released later, and a
    connection that is checked out can be returned.

    Time passes while the task waits.  The runtime polls it at most [lag] after the
    instant it asked for, and a poll takes no time.  [timeout] polls the future it
    guards first, and looks at its deadline when that future has to wait. *)
From stdpp Require Import base gmap list strings.
From S2P Require Import Prelude NetworkErrors RateLimiter ErrorMiddleware Config P2P HttpServer.

(** ** The pool and its lock

    [tokio::sync::RwLock] serves in the order of arrival.  The shutdown is the only
    task that takes the pool for writing: [readers] are the handlers that hold a
    read guard, [queued] those that came after the writer.  [busy] connections are
    checked out; [PgPool::close] lets no more be taken and waits for these. *)

Inductive Writer : Type := NoWriter | WriterWaits | WriterHolds.

Record PoolState : Type := mkPoolState {
  readers : nat;
  writer : Writer;
  queued : nat;
  busy : nat;
  pool_closed : bool }.

Definition read_lock (p : PoolState) : PoolState :=
  match writer p with
  | NoWriter => mkPoolState (S (readers p)) NoWriter (queued p) (busy p) (pool_closed p)
  | w => mkPoolState (readers p) w (S (queued p)) (busy p) (pool_closed p)
  end.
Definition read_unlock (p : PoolState) : option PoolState :=
  match readers p with
  | O => None
  | S r => Some (mkPoolState r (writer p) (queued p) (busy p) (pool_closed p))
  end.
Definition cancel_read (p : PoolState) : option PoolState :=
  match queued p with
  | O => None
  | S q => Some (mkPoolState (readers p) (writer p) q (busy p) (pool_closed p))
  end.
Definition check_out (p : PoolState) : option PoolState :=
  if pool_closed p then None
  else Some (mkPoolState (readers p) (writer p) (queued p) (S (busy p)) (pool_closed p)).
Definition check_in (p : PoolState) : option PoolState :=
  match busy p with
  | O => None
  | S b => Some (mkPoolState (readers p) (writer p) (queued p) b (pool_closed p))
  end.

Definition request_write (p : PoolState) : PoolState :=
  mkPoolState (readers p) WriterWaits (queued p) (busy p) (pool_closed p).
(** The guard, once the readers are gone; the first poll of [close] marks the pool. *)
Definition acquire_and_close (p : PoolState) : option PoolState :=
  match readers p with
  | O => Some (mkPoolState 0 WriterHolds (queued p) (busy p) true)
  | S _ => None
  end.
(** [close] is done when nothing is checked out, and the guard is dropped: the
    handlers that queued get theirs. *)
Definition closed_and_release (p : PoolState) : option PoolState :=
  match busy p with
  | O => Some (mkPoolState (queued p) NoWriter 0 0 (pool_closed p))
  | S _ => None
  end.

(** ** The node while it runs *)

Inductive Stage : Type :=
| Serving
| HttpPoll (attempts : nat)
| HttpSleep (attempts : nat) (until : Z)
| DbPoll (attempts : nat)
| DbSleep (attempts : nat) (until : Z)
| LockWait
| Closing
| Returned.

(** The result of the [timeout], which the code matches on for its log. *)
Inductive Drained : Type := Completed | Expired.

Record NodeState `{Redis} (Addr : Type) : Type := mkState {
  http : Server;
  pool : PoolState;
  peers : P2PManager Addr;
  clock : Z;
  deadline : Z;
  stage : Stage;
  drained : option (Drained * Z) }.
Arguments mkState {_ Addr} http pool peers clock deadline stage drained.
Arguments http {_ Addr} n. Arguments pool {_ Addr} n. Arguments peers {_ Addr} n.
Arguments clock {_ Addr} n. Arguments deadline {_ Addr} n.
Arguments stage {_ Addr} n. Arguments drained {_ Addr} n.

Inductive NodeEvent : Type :=
| OnHttp (ev : HttpEvent)
| ReadPool | ReleasePool | CancelRead
| CheckOut | CheckIn
| Elapse (dt : Z)
| Turn.

(** The branches of the [select!] at the end of [start], and those that a
    cancelled token makes ready: the gRPC server and the indexer stop on it too. *)
Inductive Branch : Type := HttpEnded | GrpcEnded | IndexerEnded | TokenCancelled.
Definition ready_on_cancel : list Branch := [GrpcEnded; IndexerEnded; TokenCancelled].

Section Run.
Context `{!Redis} {Addr : Type} (debug_text : NetworkError -> string) (lag : Z).
Context (parse_addr : string -> result string Addr).
Implicit Types (n : NodeState Addr).

Definition set_http (x : Server) n : NodeState Addr :=
  mkState x (pool n) (peers n) (clock n) (deadline n) (stage n) (drained n).
Definition set_pool (p : PoolState) n : NodeState Addr :=
  mkState (http n) p (peers n) (clock n) (deadline n) (stage n) (drained n).
Definition set_clock (t : Z) n : NodeState Addr :=
  mkState (http n) (pool n) (peers n) t (deadline n) (stage n) (drained n).
Definition goto (st : Stage) n : NodeState Addr :=
  mkState (http n) (pool n) (peers n) (clock n) (deadline n) st (drained n).

(** The requests of the server; that it stops is the shutdown's doing. *)
Definition request_event (ev : HttpEvent) : bool :=
  match ev with StopAccepting | Stop => false | _ => true end.

(** The first await of [shutdown]: no more connections are accepted, and the
    [timeout] is armed. *)
Definition shutdown (grace : Z) n : NodeState Addr :=
  mkState (stop_accepting_new_connections (http n)) (pool n) (peers n) (clock n)
    (clock n + grace) (HttpPoll 0) None.

(** The end of the [timeout], in either way, and the request for the pool. *)
Definition end_drain (o : Drained) n : NodeState Addr :=
  mkState (http n) (request_write (pool n)) (peers n) (clock n) (deadline n) LockWait (Some (o, clock n)).

(** The future of the [timeout] has to wait. *)
Definition pending n : option (NodeState Addr) :=
  if deadline n <=? clock n then Some (end_drain Expired n) else None.

(** [wait_for_database_operations], from one of its awaits. *)
Definition wait_for_database_operations (attempts : nat) n : option (NodeState Addr) :=
  if (30 <=? attempts)%nat then Some (end_drain Completed n)
  else match writer (pool n) with
       | NoWriter =>
           if (busy (pool n) =? 0)%nat then Some (end_drain Completed n)
           else Some (goto (DbSleep attempts (clock n + 1000)) n)
       | _ => pending n
       end.

(** A poll of the task, up to its next await. *)
Definition turn n : option (NodeState Addr) :=
  match stage n with
  | HttpPoll k =>
      if (60 <=? k)%nat || (active_connections (http n) =? 0) then Some (goto (DbPoll 0) n)
      else Some (goto (HttpSleep k (clock n + 1000)) n)
  | HttpSleep k t => if t <=? clock n then Some (goto (HttpPoll (S k)) n) else pending n
  | DbPoll k => wait_for_database_operations k n
  | DbSleep k t => if t <=? clock n then Some (goto (DbPoll (S k)) n) else pending n
  | LockWait => p ← acquire_and_close (pool n); Some (goto Closing (set_pool p n))
  | Closing =>
      p ← closed_and_release (pool n); Some (goto Returned (set_http (HttpServer.stop (http n)) (set_pool p n)))
  | Serving | Returned => None
  end.

Definition may_elapse (dt : Z) n : bool :=
  (0 <=? dt) &&
  match stage n with
  | HttpSleep _ t | DbSleep _ t => clock n + dt <=? Z.min t (deadline n) + lag
  | HttpPoll _ | DbPoll _ => dt =? 0
  | _ => true
  end.

Definition node_step n (ev : NodeEvent) : option (NodeState Addr) :=
  match ev with
  | OnHttp e => if request_event e then (fun s => set_http s n) <$> http_step debug_text (http n) e else None
  | ReadPool => Some (set_pool (read_lock (pool n)) n)
  | ReleasePool => (fun p => set_pool p n) <$> read_unlock (pool n)
  | CancelRead => (fun p => set_pool p n) <$> cancel_read (pool n)
  | CheckOut => (fun p => set_pool p n) <$> check_out (pool n)
  | CheckIn => (fun p => set_pool p n) <$> check_in (pool n)
  | Elapse dt => if may_elapse dt n then Some (set_clock (clock n + dt) n) else None
  | Turn => turn n
  end.

(** A schedule; an event that is not possible does nothing. *)
Definition node_exec (evs : list NodeEvent) n : NodeState Addr :=
  fold_left (fun n ev => default n (node_step n ev)) evs n.

(** ** [start] *)

(** [EnhancedHttpServer::start]: the limiter, the shutdown channel, the address. *)
Definition http_start (var : string -> option string) (cfg : NetworkConfig) n
    : result NetworkError unit * NodeState Addr :=
  let limit := default 100 (var "RATE_LIMIT_PER_MINUTE" ≫= parse_u64) in
  let s := http n in
  let s1 := mkServer (is_accepting s) (active_connections s) (new_limiter (var "REDIS_URL") limit)
              (error_middleware s) (Some false) (requests s) in
  (match parse_addr (bind_address cfg) with
   | Err x => Err (NE_Config ("Invalid bind address: " +:+ x))
   | Ok _ => Ok tt
   end, set_http s1 n).

Definition bootstrap_node (cfg : NetworkConfig) n : result NetworkError unit * NodeState Addr :=
  match bootstrap_peer cfg with
  | None => (Ok tt, n)
  | Some seed =>
      match parse_addr seed with
      | Err x => (Err (NE_Config ("Invalid seed address: " +:+ x)), n)
      | Ok a => let '(_, m) := bootstrap a (peers n) in
                (Ok tt, mkState (http n) (pool n) m (clock n) (deadline n) (stage n) (drained n))
      end
  end.

(** [before] happens until the [select!] sees a branch, [after] since then.  The
    result is [None] when [start] has not returned. *)
Definition start (var : string -> option string) (cfg : NetworkConfig) (before : list NodeEvent) (b : Branch)
    (after : list NodeEvent) n : option (result NetworkError unit) * NodeState Addr :=
  match http_start var cfg n with
  | (Err x, n1) => (Some (Err x), n1)
  | (Ok _, n1) =>
      match bootstrap_node cfg n1 with
      | (Err x, n2) => (Some (Err x), n2)
      | (Ok _, n2) =>
          let n3 := node_exec before n2 in
          match b with
          | TokenCancelled =>
              let n4 := node_exec after (shutdown (1000 * shutdown_grace_period cfg) n3) in
              (match stage n4 with Returned => Some (Ok tt) | _ => None end, n4)
          | _ => (Some (Ok tt), n3)
          end
      end
  end.

(** ** The invariant of a shutdown *)

Definition draining (st : Stage) : bool :=
  match st with HttpPoll _ | HttpSleep _ _ | DbPoll _ | DbSleep _ _ => true | _ => false end.

Definition attempts_ok (st : Stage) : Prop :=
  match st with
  | HttpPoll k => (k <= 60)%nat | HttpSleep k _ => (k < 60)%nat
  | DbPoll k => (k <= 30)%nat | DbSleep k _ => (k < 30)%nat
  | _ => True
  end.

(** When the drain ended, and in which way. *)
Definition drained_in (t0 grace : Z) n : Prop :=
  exists o t, drained n = Some (o, t) /\ t0 <= t <= t0 + grace + lag /\ (o = Expired -> t0 + grace <= t).

Record shut_inv (t0 grace : Z) n : Prop := mkShut {
  si_stopped : is_accepting (http n) = false;
  si_channel : is_Some (shutdown_sent (http n));
  si_tracker : tracker_ok (http n);
  si_attempts : attempts_ok (stage n);
  si_deadline : deadline n = t0 + grace;
  si_clock : t0 <= clock n;
  si_drain : if draining (stage n) then drained n = None /\ clock n <= t0 + grace + lag else drained_in t0 grace n;
  si_pool :
    match stage n with
    | Serving => False
    | LockWait => writer (pool n) = WriterWaits /\ pool_closed (pool n) = false
    | Closing => writer (pool n) = WriterHolds /\ readers (pool n) = 0%nat /\ pool_closed (pool n) = true
    | Returned => pool_closed (pool n) = true /\ busy (pool n) = 0%nat /\ shutdown_sent (http n) = Some true
    | _ => writer (pool n) = NoWriter /\ pool_closed (pool n) = false
    end }.

Lemma request_frame s e s' :
  request_event e = true -> http_step debug_text s e = Some s' ->
  is_accepting s' = is_accepting s /\ shutdown_sent s' = shutdown_sent s.
Proof.
  intros He Hs. destruct e as [h|j now|j|j rid u created now r|j|j| |]; cbn in Hs; simplify_eq; try done;
    destruct (requests s !! j) as [[]|]; simplify_eq; try done.
  - unfold rate_limit. by destruct (rate_limit_middleware _ _ _).
  - unfold connection_limiter_middleware. by case_match.
  - unfold finish. by destruct (error_handler_middleware _ _ _ _ _ _ _).
Qed.

(** What the others do to the pool. *)
Definition pool_event (ev : NodeEvent) (p : PoolState) : option PoolState :=
  match ev with
  | ReadPool => Some (read_lock p)
  | ReleasePool => read_unlock p
  | CancelRead => cancel_read p
  | CheckOut => check_out p
  | CheckIn => check_in p
  | _ => Some p
  end.

Lemma pool_event_frame ev p p' :
  pool_event ev p = Some p' ->
  writer p' = writer p /\ pool_closed p' = pool_closed p /\
  (writer p <> NoWriter -> (readers p' <= readers p)%nat) /\ (ev <> ReleasePool -> (readers p <= readers p')%nat) /\
  (pool_closed p = true -> (busy p' <= busy p)%nat) /\ (ev <> CheckIn -> (busy p <= busy p')%nat).
Proof.
  destruct ev; cbn; unfold read_lock, read_unlock, cancel_read, check_out, check_in;
    intros; repeat (case_match || simplify_eq); cbn; split_and!; intros; try done; lia.
Qed.

(** A step is a poll of the task, or leaves its stage alone. *)
Lemma node_step_cases n ev n' :
  node_step n ev = Some n' ->
  (ev = Turn /\ turn n = Some n') \/
  (ev <> Turn /\ stage n' = stage n /\ deadline n' = deadline n /\ drained n' = drained n /\
   pool_event ev (pool n) = Some (pool n') /\
   (http n' = http n \/ exists e, request_event e = true /\ http_step debug_text (http n) e = Some (http n')) /\
   (clock n' = clock n \/ exists dt, ev = Elapse dt /\ may_elapse dt n = true /\ clock n' = clock n + dt)).
Proof.
  destruct ev as [e| | | | | |dt|]; cbn; intros Hs; [..|by left]; right; (split; [done|]).
  - destruct (request_event e) eqn:He; [|done]. apply fmap_Some in Hs as (s & Hs & ->). cbn. naive_solver.
  - simplify_eq. cbn. naive_solver.
  - apply fmap_Some in Hs as (s & Hs & ->). cbn. naive_solver.
  - apply fmap_Some in Hs as (s & Hs & ->). cbn. naive_solver.
  - apply fmap_Some in Hs as (s & Hs & ->). cbn. naive_solver.
  - apply fmap_Some in Hs as (s & Hs & ->). cbn. naive_solver.
  - destruct (may_elapse dt n) eqn:He; simplify_eq. cbn. naive_solver.
Qed.

Lemma end_drain_inv t0 grace o n :
  shut_inv t0 grace n -> draining (stage n) = true -> (o = Expired -> t0 + grace <= clock n) ->
  shut_inv t0 grace (end_drain o n).
Proof.
  intros [] Hd Ho. rewrite Hd in *. destruct si_drain0 as [_ Hc].
  assert (pool_closed (pool n) = false) as Hp by (destruct (stage n); try done; tauto).
  split; cbn; try done. exists o, (clock n). split_and!; [done|lia|lia|done].
Qed.

Lemma pending_inv t0 grace n n' :
  shut_inv t0 grace n -> draining (stage n) = true -> pending n = Some n' -> shut_inv t0 grace n'.
Proof.
  unfold pending. intros Hi Hd. destruct (deadline n <=? clock n) eqn:E; [|done]. intros [= <-].
  apply end_drain_inv; [done|done|]. apply Z.leb_le in E. rewrite (si_deadline _ _ _ Hi) in E. lia.
Qed.

Lemma goto_inv t0 grace st n :
  shut_inv t0 grace n -> draining (stage n) = true -> draining st = true -> attempts_ok st ->
  shut_inv t0 grace (goto st n).
Proof.
  intros [] Hd Hs Ha. rewrite Hd in *. split; cbn; try done; [by rewrite Hs|].
  destruct (stage n), st; try done.
Qed.

Lemma turn_inv t0 grace n n' : shut_inv t0 grace n -> turn n = Some n' -> shut_inv t0 grace n'.
Proof.
  intros Hi. pose proof Hi as [Hacc Hch Htr Hat Hdl Hck Hdr Hp]. unfold turn.
  destruct (stage n) as [|k|k t|k|k t| | |] eqn:Hst; try done; cbn in Hat.
  - destruct (_ || _) eqn:E; intros [= <-]; apply goto_inv; rewrite ?Hst; try done; cbn; [lia|].
    apply orb_false_iff in E as [E _]. apply Nat.leb_gt in E. lia.
  - destruct (t <=? clock n); [intros [= <-]; apply goto_inv; rewrite ?Hst; try done; cbn; lia|].
    apply pending_inv; [done|by rewrite Hst].
  - unfold wait_for_database_operations. destruct (30 <=? k)%nat eqn:E.
    { intros [= <-]. apply end_drain_inv; [done|by rewrite Hst|done]. }
    apply Nat.leb_gt in E. destruct Hp as [-> _]. destruct (busy (pool n) =? 0)%nat; intros [= <-].
    + apply end_drain_inv; [done|by rewrite Hst|done].
    + apply goto_inv; rewrite ?Hst; try done; cbn; lia.
  - destruct (t <=? clock n); [intros [= <-]; apply goto_inv; rewrite ?Hst; try done; cbn; lia|].
    apply pending_inv; [done|by rewrite Hst].
  - unfold acquire_and_close. destruct (readers (pool n)) eqn:Hr; cbn; intros [= <-]. by split.
  - unfold closed_and_release. destruct (busy (pool n)) eqn:Hb; cbn; intros [= <-]. destruct Hp as (_ & _ & Hpc).
    destruct Hch as [c Hc]. split; cbn; rewrite ?Hc; try done; by eauto.
Qed.

Lemma step_inv t0 grace n ev n' : 0 <= lag ->
  shut_inv t0 grace n -> node_step n ev = Some n' -> shut_inv t0 grace n'.
Proof.
  intros Hlag Hi Hs. apply node_step_cases in Hs as [[-> Ht]|(_ & Hst & Hdl & Hdr & Hp & Hh & Hc)];
    [by eapply turn_inv|].
  apply pool_event_frame in Hp as (Hw & Hpc & Hrd & _ & Hb & _).
  assert (is_accepting (http n') = is_accepting (http n) /\ shutdown_sent (http n') = shutdown_sent (http n) /\
    tracker_ok (http n')) as (Ha & Hsent & Htr).
  { destruct Hi. destruct Hh as [->|(e & He & Hs)]; [done|]. destruct (request_frame _ _ _ He Hs).
    split_and!; [done|done|by eapply step_tracker]. }
  destruct Hi as [Hacc Hch _ Hat Hdl0 Hck Hd Hpool].
  assert (clock n <= clock n') as Hle.
  { destruct Hc as [->|(dt & _ & Hm & ->)]; [lia|]. unfold may_elapse in Hm. apply andb_true_iff in Hm as [Hm _].
    apply Z.leb_le in Hm. lia. }
  split; rewrite ?Hst; try congruence; [lia|..].
  - destruct (draining (stage n)) eqn:E; [|unfold drained_in in *; by rewrite Hdr].
    destruct Hd as [Hn Hd]. split; [congruence|]. destruct Hc as [->|(dt & _ & Hm & ->)]; [done|].
    unfold may_elapse in Hm. apply andb_true_iff in Hm as [_ Hm]. destruct (stage n); try done;
      rewrite ?Z.eqb_eq, ?Z.leb_le in Hm; lia.
  - rewrite Hw, Hpc, Hsent. destruct (stage n); try done; destruct Hpool as (H1 & H2 & ?); split_and!; try done.
    + rewrite H1 in Hrd. specialize (Hrd ltac:(done)). lia.
    + specialize (Hb H1). lia.
Qed.

Lemma exec_keeps (P : NodeState Addr -> Prop) evs n :
  (forall n ev n', ev ∈ evs -> P n -> node_step n ev = Some n' -> P n') -> P n -> P (node_exec evs n).
Proof.
  revert n. induction evs as [|ev evs IH]; intros n Hs Hn; [done|]. cbn. apply IH.
  - intros n1 ev' n' Hin. apply Hs. by right.
  - destruct (node_step n ev) eqn:E; cbn; [|done]. eapply Hs; [left|done|done].
Qed.

(** ** The polls of the task *)

(** How many polls are left at most. *)
Definition rank (st : Stage) : nat :=
  match st with
  | HttpPoll k => 64 + 2 * (60 - k)
  | HttpSleep k _ => 63 + 2 * (60 - k)
  | DbPoll k => 3 + 2 * (30 - k)
  | DbSleep k _ => 2 + 2 * (30 - k)
  | LockWait => 2 | Closing => 1
  | Serving | Returned => 0
  end.

Lemma pending_rank n n' : pending n = Some n' -> rank (stage n') = 2%nat.
Proof. unfold pending. destruct (_ <=? _); [|done]. by intros [= <-]. Qed.

Lemma turn_rank n n' : attempts_ok (stage n) -> turn n = Some n' -> (rank (stage n') < rank (stage n))%nat.
Proof.
  intros Hat Ht. unfold turn in Ht. destruct (stage n) as [|k|k t|k|k t| | |] eqn:Hst; try done;
    cbn [attempts_ok rank] in *.
  - destruct (_ || _) eqn:E; simplify_eq; cbn [goto stage rank]; [lia|].
    apply orb_false_iff in E as [E _]. apply Nat.leb_gt in E. lia.
  - destruct (t <=? clock n); [|apply pending_rank in Ht; lia]. simplify_eq. cbn [goto stage rank]. lia.
  - unfold wait_for_database_operations in Ht. destruct (30 <=? k)%nat eqn:E.
    { simplify_eq. cbn [end_drain stage rank]. lia. }
    apply Nat.leb_gt in E. destruct (writer (pool n)); [|apply pending_rank in Ht; lia..].
    destruct (_ =? _)%nat; simplify_eq; cbn [end_drain goto stage rank]; lia.
  - destruct (t <=? clock n); [|apply pending_rank in Ht; lia]. simplify_eq. cbn [goto stage rank]. lia.
  - destruct (acquire_and_close _); cbn in Ht; simplify_eq. cbn. lia.
  - destruct (closed_and_release _); cbn in Ht; simplify_eq. cbn. lia.
Qed.

(** The polls in a schedule that did something. *)
Fixpoint turns_taken (evs : list NodeEvent) n : nat :=
  match evs with
  | [] => 0
  | ev :: evs' =>
      match ev, node_step n ev with Turn, Some _ => 1 | _, _ => 0 end +
      turns_taken evs' (default n (node_step n ev))
  end.

Lemma turns_bounded t0 grace evs n :
  0 <= lag -> shut_inv t0 grace n -> (turns_taken evs n <= rank (stage n))%nat.
Proof.
  intros Hlag. revert n. induction evs as [|ev evs IH]; intros n Hi; [cbn; lia|]. cbn [turns_taken].
  destruct (node_step n ev) as [n'|] eqn:Hs; unfold default; cbn [from_option id].
  - assert (shut_inv t0 grace n') as Hi' by eauto using step_inv. specialize (IH _ Hi').
    destruct (node_step_cases _ _ _ Hs) as [[-> Ht]|(Hne & Hst & _)].
    + rewrite Hs. apply turn_rank in Ht; [lia|apply Hi].
    + rewrite <- Hst. by destruct ev.
  - specialize (IH _ Hi). destruct ev; rewrite ?Hs; lia.
Qed.

(** At the deadline, at most four polls end the drain. *)
Definition ends_within (k : nat) n : Prop := is_Some (drained (node_exec (replicate k Turn) n)).

Lemma turns_keep_drained k n : is_Some (drained n) -> ends_within k n.
Proof.
  intros Hn. apply (exec_keeps (fun n => is_Some (drained n))); [|done]. clear. intros n ev n' ->%elem_of_replicate_inv Hn Hs.
  cbn in Hs. unfold turn, wait_for_database_operations, pending in Hs.
  repeat (case_match; cbn in Hs; simplify_eq; cbn; try done; try by eauto).
  - destruct (acquire_and_close _); cbn in Hs; by simplify_eq.
  - destruct (closed_and_release _); cbn in Hs; by simplify_eq.
Qed.

Lemma ends_turn k n n' : turn n = Some n' -> ends_within k n' -> ends_within (S k) n.
Proof. intros Ht. unfold ends_within, node_exec. cbn [replicate fold_left node_step]. by rewrite Ht. Qed.

Lemma ends_pending k n : deadline n <= clock n -> turn n = pending n -> ends_within (S k) n.
Proof.
  intros Hdl Hp. apply (ends_turn k n (end_drain Expired n)); [|apply turns_keep_drained; by eexists].
  rewrite Hp. unfold pending. by rewrite (proj2 (Z.leb_le _ _) Hdl).
Qed.

Lemma ends_db_poll n k : deadline n <= clock n -> stage n = DbPoll k -> ends_within 2 n.
Proof.
  intros Hdl Hs. assert (turn n = wait_for_database_operations k n) as Ht by (unfold turn; by rewrite Hs).
  unfold wait_for_database_operations in Ht. destruct (30 <=? k)%nat.
  { eapply ends_turn; [done|]. apply turns_keep_drained. by eexists. }
  destruct (writer (pool n)); [|by apply ends_pending..]. destruct (_ =? _)%nat.
  { eapply ends_turn; [done|]. apply turns_keep_drained. by eexists. }
  eapply ends_turn; [done|]. apply ends_pending; [done|]. unfold turn. cbn.
  by rewrite (proj2 (Z.leb_gt _ _)) by lia.
Qed.

Lemma ends_http_poll n k : deadline n <= clock n -> stage n = HttpPoll k -> ends_within 3 n.
Proof.
  intros Hdl Hs. destruct (turn n) as [n'|] eqn:Ht; pose proof Ht as Ht'; unfold turn in Ht'; rewrite Hs in Ht';
    destruct (_ || _) in Ht'; simplify_eq; (eapply ends_turn; [done|]).
  - by eapply ends_db_poll.
  - apply ends_pending; [done|]. unfold turn. cbn. by rewrite (proj2 (Z.leb_gt _ _)) by lia.
Qed.

Lemma ends_le k k' n : (k <= k')%nat -> ends_within k n -> ends_within k' n.
Proof.
  intros Hle He. unfold ends_within. replace k' with (k + (k' - k))%nat by lia.
  rewrite replicate_add. unfold node_exec. rewrite fold_left_app. by apply turns_keep_drained.
Qed.

Lemma deadline_ends n : draining (stage n) = true -> deadline n <= clock n -> ends_within 4 n.
Proof.
  intros Hd Hdl. destruct (stage n) as [|k|k t|k|k t| | |] eqn:Hs; try done.
  - eapply ends_le, ends_http_poll; [|done..]. lia.
  - destruct (Z.leb_spec t (clock n)) as [Ht|Ht].
    + eapply ends_turn; [unfold turn; by rewrite Hs, (proj2 (Z.leb_le _ _) Ht)|by eapply ends_http_poll].
    + apply ends_pending; [done|]. unfold turn. by rewrite Hs, (proj2 (Z.leb_gt _ _) Ht).
  - eapply ends_le, ends_db_poll; [|done..]. lia.
  - destruct (Z.leb_spec t (clock n)) as [Ht|Ht].
    + eapply ends_turn; [unfold turn; by rewrite Hs, (proj2 (Z.leb_le _ _) Ht)|].
      eapply ends_le, ends_db_poll; [|done..]. lia.
    + apply ends_pending; [done|]. unfold turn. by rewrite Hs, (proj2 (Z.leb_gt _ _) Ht).
Qed.

(** ** Before and after the drain *)

(** A node that serves: nobody writes to the pool, and the server has started. *)
Record serving n : Prop := mkServing {
  sv_writer : writer (pool n) = NoWriter;
  sv_open : pool_closed (pool n) = false;
  sv_tracker : tracker_ok (http n);
  sv_channel : is_Some (shutdown_sent (http n)) }.

Lemma shutdown_inv grace n : 0 <= lag -> 0 <= grace -> serving n -> shut_inv (clock n) grace (shutdown grace n).
Proof. intros ?? []. split; cbn; try done; [lia|]. split; [done|lia]. Qed.

Lemma exec_inv t0 grace evs n : 0 <= lag -> shut_inv t0 grace n -> shut_inv t0 grace (node_exec evs n).
Proof. intros Hl Hi. apply exec_keeps; [|done]. intros n1 ev n2 _ Hn Hs. by eapply step_inv. Qed.

Lemma serving_step n ev n' :
  stage n = Serving -> serving n -> node_step n ev = Some n' ->
  stage n' = Serving /\ serving n' /\ is_accepting (http n') = is_accepting (http n) /\
  shutdown_sent (http n') = shutdown_sent (http n).
Proof.
  intros Hst [Hw Ho Ht Hc] Hs.
  apply node_step_cases in Hs as [[-> Hs]|(_ & Hst' & _ & _ & Hp & Hh & _)];
    [unfold turn in Hs; by rewrite Hst in Hs|].
  apply pool_event_frame in Hp as (Hw' & Hp' & _).
  assert (is_accepting (http n') = is_accepting (http n) /\ shutdown_sent (http n') = shutdown_sent (http n) /\
    tracker_ok (http n')) as (Ha & Hsent & Htr).
  { destruct Hh as [->|(e & He & Hs)]; [done|]. destruct (request_frame _ _ _ He Hs).
    split_and!; [done|done|by eapply step_tracker]. }
  split; [congruence|]. split; [|done]. split; congruence.
Qed.

Lemma serving_exec evs n :
  stage n = Serving -> serving n ->
  let n' := node_exec evs n in
  stage n' = Serving /\ serving n' /\ is_accepting (http n') = is_accepting (http n) /\
  shutdown_sent (http n') = shutdown_sent (http n).
Proof.
  intros Hst Hsv. apply (exec_keeps (fun n' => stage n' = Serving /\ serving n' /\
    is_accepting (http n') = is_accepting (http n) /\ shutdown_sent (http n') = shutdown_sent (http n))); [|done].
  intros n1 ev n2 _ (H1 & H2 & H3 & H4) Hs. destruct (serving_step _ _ _ H1 H2 Hs) as (?&?&?&?).
  split_and!; congruence.
Qed.

(** The drain never starts again. *)
Lemma stays_drained evs n : stage n <> Serving -> draining (stage n) = false -> let n' := node_exec evs n in
  stage n' <> Serving /\ draining (stage n') = false.
Proof.
  intros Hs Hd. apply (exec_keeps (fun n => stage n <> Serving /\ draining (stage n) = false)); [|done].
  clear. intros n ev n' _ [Hs Hd] Hst. apply node_step_cases in Hst as [[-> Ht]|(_ & -> & _)]; [|done].
  unfold turn in Ht. destruct (stage n) eqn:E; try done.
  - destruct (acquire_and_close _); cbn in Ht; by simplify_eq.
  - destruct (closed_and_release _); cbn in Ht; by simplify_eq.
Qed.

Lemma released_returns n :
  stage n <> Serving -> draining (stage n) = false -> readers (pool n) = 0%nat -> busy (pool n) = 0%nat ->
  stage (node_exec [Turn; Turn] n) = Returned.
Proof.
  intros Hs Hd Hr Hb. change (stage (let m := default n (turn n) in default m (turn m)) = Returned).
  destruct (turn n) as [m|] eqn:Ht; pose proof Ht as Ht'; unfold turn in Ht'; destruct (stage n) eqn:E; try done;
    unfold acquire_and_close, closed_and_release in Ht'; rewrite ?Hr, ?Hb in Ht'; cbn in Ht'; simplify_eq; cbn.
  all: rewrite ?Ht; done.
Qed.

(** Who holds the lock, or a connection, and never lets go keeps the shutdown. *)
Lemma reader_blocks evs n :
  stage n = LockWait -> (0 < readers (pool n))%nat -> ReleasePool ∉ evs -> stage (node_exec evs n) = LockWait.
Proof.
  intros Hs Hr Hn. apply (exec_keeps (fun n => stage n = LockWait /\ (0 < readers (pool n))%nat)); [|done].
  clear -Hn. intros n ev n' Hin [Hs Hr] Hst.
  apply node_step_cases in Hst as [[-> Ht]|(_ & -> & _ & _ & Hp & _)].
  - unfold turn in Ht. rewrite Hs in Ht. unfold acquire_and_close in Ht. by destruct (readers (pool n)); [lia|].
  - split; [done|]. apply pool_event_frame in Hp as (_ & _ & _ & Hle & _).
    specialize (Hle ltac:(by intros ->)). lia.
Qed.

Lemma connection_blocks evs n :
  stage n = Closing -> (0 < busy (pool n))%nat -> CheckIn ∉ evs -> stage (node_exec evs n) = Closing.
Proof.
  intros Hs Hr Hn. apply (exec_keeps (fun n => stage n = Closing /\ (0 < busy (pool n))%nat)); [|done].
  clear -Hn. intros n ev n' Hin [Hs Hr] Hst.
  apply node_step_cases in Hst as [[-> Ht]|(_ & -> & _ & _ & Hp & _)].
  - unfold turn in Ht. rewrite Hs in Ht. unfold closed_and_release in Ht. by destruct (busy (pool n)); [lia|].
  - split; [done|]. apply pool_event_frame in Hp as (_ & _ & _ & _ & _ & Hle).
    specialize (Hle ltac:(by intros ->)). lia.
Qed.

(** What a wait has seen when it ends early. *)
Lemma http_wait_ends t0 grace n k n' :
  shut_inv t0 grace n -> stage n = HttpPoll k -> (k < 60)%nat -> turn n = Some n' -> stage n' = DbPoll 0 ->
  Z.of_nat (length (requests (http n))) <= u64_max ->
  forall i p, requests (http n) !! i = Some p -> exists a, p = Answered a.
Proof.
  intros Hi Hs Hk Ht Hst Hl i p. apply drained_answered; [apply Hi|done|]. unfold turn in Ht. rewrite Hs in Ht.
  destruct (_ || _) eqn:E; simplify_eq. apply orb_true_iff in E as [E|E]; [apply Nat.leb_le in E; lia|].
  by apply Z.eqb_eq in E.
Qed.

Lemma db_wait_ends t0 grace n k n' :
  shut_inv t0 grace n -> stage n = DbPoll k -> (k < 30)%nat -> turn n = Some n' -> stage n' = LockWait ->
  busy (pool n) = 0%nat.
Proof.
  intros Hi Hs Hk Ht Hst. pose proof (si_pool _ _ _ Hi) as Hp. rewrite Hs in Hp. destruct Hp as [Hw _].
  unfold turn in Ht. rewrite Hs in Ht. unfold wait_for_database_operations in Ht.
  rewrite (proj2 (Nat.leb_gt _ _) Hk), Hw in Ht. destruct (_ =? _)%nat eqn:E; simplify_eq.
  by apply Nat.eqb_eq in E.
Qed.

(** C30. Shutdown, whatever requests, handlers and connections do meanwhile.  The
    node stops accepting at once, and its task is polled at most 184 times.  The
    waits for requests and connections end within the grace period (plus the lag
    of the runtime), with the pool still open: at the deadline four more polls end
    them.  A wait that ends before its limit of polls saw every request answered,
    or no connection in use.  After that the shutdown returns as soon as no handler
    holds the lock of the pool and no connection is checked out, and not before:
    the pool is then closed, nothing is checked out and the server was told to stop.
    None of this is under the grace period: a handler that keeps the lock, or a task
    that keeps a connection, keeps the shutdown from returning for as long. *)
Theorem shutdown_outcome grace n0 evs :
  0 <= lag -> 0 <= grace -> serving n0 ->
  let n := node_exec evs (shutdown grace n0) in
  is_accepting (http n) = false /\ (turns_taken evs (shutdown grace n0) <= 184)%nat /\
  (if draining (stage n)
   then drained n = None /\ clock n <= clock n0 + grace + lag /\ pool_closed (pool n) = false /\
        (clock n0 + grace <= clock n -> is_Some (drained (node_exec (replicate 4 Turn) n)))
   else drained_in (clock n0) grace n /\
        (stage n = Returned ->
           pool_closed (pool n) = true /\ busy (pool n) = 0%nat /\ shutdown_sent (http n) = Some true) /\
        (forall later, let m := node_exec later n in
           readers (pool m) = 0%nat -> busy (pool m) = 0%nat -> stage (node_exec [Turn; Turn] m) = Returned) /\
        (stage n = LockWait -> (0 < readers (pool n))%nat -> forall later, ReleasePool ∉ later ->
           stage (node_exec later n) = LockWait) /\
        (stage n = Closing -> (0 < busy (pool n))%nat -> forall later, CheckIn ∉ later ->
           stage (node_exec later n) = Closing)) /\
  (forall k n', turn n = Some n' ->
     (stage n = HttpPoll k -> (k < 60)%nat -> stage n' = DbPoll 0 ->
        Z.of_nat (length (requests (http n))) <= u64_max ->
        forall i p, requests (http n) !! i = Some p -> exists a, p = Answered a) /\
     (stage n = DbPoll k -> (k < 30)%nat -> stage n' = LockWait -> busy (pool n) = 0%nat)).
Proof.
  intros Hlag Hg Hsv n. pose proof (shutdown_inv grace n0 Hlag Hg Hsv) as H0.
  assert (shut_inv (clock n0) grace n) as Hi by by apply exec_inv. pose proof Hi as [Hacc _ _ _ Hdl _ Hd Hp].
  split_and!; [done|by eapply (turns_bounded _ _ evs) in H0| |].
  - destruct (draining (stage n)) eqn:E; [destruct Hd|]; split_and!; try done.
    + by destruct (stage n) eqn:Es; try done; destruct Hp.
    + intros Hle. apply deadline_ends; [done|lia].
    + intros Hs. by rewrite Hs in Hp.
    + intros later m Hr Hb. assert (stage n <> Serving) as Hs by by intros Hs; rewrite Hs in Hp.
      destruct (stays_drained later n Hs E). by apply released_returns.
    + intros Hs Hr later. by apply reader_blocks.
    + intros Hs Hr later. by apply connection_blocks.
  - intros k n' Ht. split; intros; [by eapply http_wait_ends|by eapply db_wait_ends].
Qed.
End Run.

(** ** Witness: a request in flight when the signal comes *)

Definition busy_node : NodeState unit :=
  node_exec (fun _ => ""%string) 5 [OnHttp (Arrive some_headers); CheckOut; ReadPool]
    (mkState fresh_server (mkPoolState 0 NoWriter 0 0 false) (new_manager (replicate 32 0)) 0 0 Serving None).

(** Nobody lets go: the grace of three seconds passes. *)
Definition stubborn : list NodeEvent :=
  concat (replicate 4 [Turn; Elapse 1000; Turn]).

Lemma shutdown_outcome_witness :
  let n := node_exec (fun _ => ""%string) 5 stubborn (shutdown 3000 busy_node) in
  stage n = LockWait /\ drained n = Some (Expired, 3000) /\ is_accepting (http n) = false /\
  forall k, stage (node_exec (fun _ => ""%string) 5 (replicate k Turn) n) = LockWait.
Proof.
  destruct (shutdown_outcome (fun _ => ""%string) 5 3000 busy_node stubborn) as (Ha & _ & Hd & _); [lia|lia|..].
  - by split; try eexists.
  - assert (draining (stage (node_exec (fun _ => ""%string) 5 stubborn (shutdown 3000 busy_node))) = false) as E
      by (vm_compute; reflexivity).
    rewrite E in Hd. destruct Hd as (_ & _ & _ & Hr & _).
    split_and!; [vm_compute; reflexivity|vm_compute; reflexivity|exact Ha|].
    intros k. refine (Hr _ _ (replicate k Turn) _); [vm_compute; reflexivity|vm_compute; lia|].
    intros Hin. by apply elem_of_replicate_inv in Hin.
Defined.
