(* ===== verification/Stellar.v ===== *)
(** network-node/src/stellar_service.rs and the /stellar routes of
    enhanced_server.rs: queries to Horizon through the client of HorizonClient.v.

    The HTTP library is outside the repository: [send] sends a request and gives
    the response or the text of an error, and the display of a status code is a
    parameter.  So are serde's decoders of an account, a transaction and a ledger,
    and its parser of JSON values.  The two metrics the service keeps are a record
    that its calls update. *)
From Stdlib Require Import Ascii.
From stdpp Require Import base list strings pretty.
From S2P Require Import Prelude NetworkErrors Tasks HorizonClient SorobanRpc HttpServer.

(** ** Data *)

Record AccountFlags : Type := mkFlags { auth_required : bool; auth_revocable : bool; auth_immutable : bool }.
Record Thresholds : Type := mkThresholds { low_threshold : Z; med_threshold : Z; high_threshold : Z }.
Record AccountSigner : Type := mkAccountSigner { signer_key : string; weight : Z; signer_type : string }.
Record Account : Type := mkAccount {
  account_id : string; balance : string; sequence : string; flags : AccountFlags;
  thresholds : Thresholds; signers : list AccountSigner; data : list (string * string) }.
Record Transaction : Type := mkTransaction {
  tx_hash : string; tx_ledger : Z; created_at : string; source_account : string; fee_paid : Z;
  operation_count : Z; memo : option string; signatures : list string }.
Record Ledger : Type := mkLedger {
  ledger_id : string; ledger_sequence : Z; closed_at : string; total_coins : string; fee_pool : string;
  base_fee : Z; base_reserve : string; max_tx_set_size : Z; protocol_version : Z }.

(** [serde_json::Value], with the accessors the code uses. *)
Inductive Json : Type :=
| JNull | JBool (b : bool) | JNumber (n : Z) | JString (s : string)
| JArray (l : list Json) | JObject (fields : list (string * Json)).
Definition json_get (k : string) (j : Json) : option Json :=
  match j with
  | JObject fields => (fun x => snd (snd x)) <$> list_find (fun kv => fst kv = k) fields
  | _ => None
  end.
Definition json_first (j : Json) : option Json := match j with JArray l => head l | _ => None end.

(** The queries, and what they yield. *)
Inductive Query : Type :=
| GetAccount (id : string)
| GetTransaction (hash : string)
| GetLedger (seq : Z)
| GetLatestLedger
| SubmitTransaction (xdr : string).
Inductive Value : Type := VAccount (a : Account) | VTransaction (t : Transaction) | VLedger (l : Ledger).

Inductive Request : Type :=
| Get (url : string)
| PostForm (url : string) (form : list (string * string)).

(** [str::trim_end_matches('/')]. *)
Fixpoint trim_end_slash (s : string) : string :=
  match s with
  | EmptyString => EmptyString
  | String c s' =>
      match trim_end_slash s' with
      | EmptyString => if Ascii.eqb c "/"%char then EmptyString else String c EmptyString
      | t => String c t
      end
  end.

(** ** The service *)

Record StellarMetrics : Type := mkMetrics { last_ledger_processed : option Z; rpc_errors : Z }.

Section Service.
Context {W : Type} (now : W -> Z) (send : Request -> W -> result string HttpResponse * W)
  (status_text : Z -> string)
  (account_of : Json -> result string Account) (transaction_of : Json -> result string Transaction)
  (ledger_of : Json -> result string Ledger)
  (parse_json : string -> result string Json).

Definition request_of (q : Query) (p : HorizonProvider) : Request :=
  let base := trim_end_slash (url p) in
  match q with
  | GetAccount id => Get (base +:+ "/accounts/" +:+ id)
  | GetTransaction hash => Get (base +:+ "/transactions/" +:+ hash)
  | GetLedger seq => Get (base +:+ "/ledgers/" +:+ pretty seq)
  | GetLatestLedger => Get (base +:+ "/ledgers?order=desc&limit=1")
  | SubmitTransaction xdr => PostForm (base +:+ "/transactions") [("tx", xdr)]
  end.

(** The first record of [_embedded.records]. *)
Definition first_record (j : Json) : option Json :=
  embedded ← json_get "_embedded" j; records ← json_get "records" embedded; json_first records.

Definition decode_body (q : Query) (j : Json) : result string Value :=
  match q with
  | GetAccount _ => let? a := account_of j in Ok (VAccount a)
  | GetTransaction _ | SubmitTransaction _ => let? t := transaction_of j in Ok (VTransaction t)
  | GetLedger _ => let? l := ledger_of j in Ok (VLedger l)
  | GetLatestLedger =>
      match first_record j with
      | Some j' => let? l := ledger_of j' in Ok (VLedger l)
      | None => Err "Invalid ledger response format"
      end
  end.

Definition response_value (q : Query) (r : HttpResponse) : result string Value :=
  if is_success (status r) then
    let? raw := body r in
    let? j := parse_json raw in
    decode_body q j
  else Err ("HTTP " +:+ status_text (status r) +:+ ": " +:+ text r).

(** The closure passed to [execute_request]. *)
Definition operation (q : Query) (p : HorizonProvider) (w : W) : result string Value * W :=
  match send (request_of q p) w with
  | (Err x, w') => (Err x, w')
  | (Ok r, w') => (response_value q r, w')
  end.

(** The ledger queries set the gauge; every failed query counts an error. *)
Definition observe (q : Query) (r : result NetworkError Value) (m : StellarMetrics) : StellarMetrics :=
  match r, q with
  | Ok (VLedger l), (GetLedger _ | GetLatestLedger) => mkMetrics (Some (ledger_sequence l)) (rpc_errors m)
  | Ok _, _ => m
  | Err _, _ => mkMetrics (last_ledger_processed m) (rpc_errors m + 1)
  end.

Definition query (q : Query) (c : HorizonClient W) (m : StellarMetrics)
    : run (HorizonClient W) NetworkError Value * StellarMetrics :=
  match execute_request now (operation q) c with
  | Ret r c' => (Ret r c', observe q r m)
  | Blocked c' => (Blocked c', m)
  end.

(** The methods of [StellarService]. *)
Definition get_account (id : string) := query (GetAccount id).
Definition get_transaction (hash : string) := query (GetTransaction hash).
Definition get_ledger (seq : Z) := query (GetLedger seq).
Definition get_latest_ledger := query GetLatestLedger.
Definition submit_transaction (xdr : string) := query (SubmitTransaction xdr).
Definition get_provider_status : Tasks.Task (HorizonClient W) NetworkError (list ProviderStatus) :=
  get_provider_statuses.

(** ** The routes *)

(** [get_stellar_account], [get_latest_ledger]: the status of the response. *)
Definition stellar_status (r : result NetworkError Value) : Z :=
  match r with Ok _ => 200 | Err x => status_from_u16 (http_status_code x) end.

Record ProvidersPage : Type := mkPage {
  page_providers : list (string * string * Z * bool * Z * CircuitBreakerState);
  total_providers : Z;
  healthy_providers : Z }.
Definition providers_page (l : list ProviderStatus) : ProvidersPage :=
  mkPage (map (fun s => (name (provider s), url (provider s), priority (provider s), is_healthy s,
                         failure_count s, circuit_state s)) l)
    (Z.of_nat (length l)) (Z.of_nat (length (filter (fun s => is_healthy s = true) l))).

(** ** Every failure is Horizon's *)

Definition horizon_error (x : NetworkError) : Prop := exists s, x = NE_HorizonClient s.

(** The errors a task can end with. *)
Definition fails_with {A} (P : NetworkError -> Prop) (t : Tasks.Task (HorizonClient W) NetworkError A) : Prop :=
  forall c x c', t c = Ret (Err x) c' -> P x.

Lemma fails_ret {A} P (a : A) : fails_with P (ret a).
Proof. by intros c x c'. Qed.
Lemma fails_fail {A} (P : NetworkError -> Prop) x : P x -> fails_with P (fail (A := A) x).
Proof. intros Hp c y c' [= <-]. done. Qed.
Lemma fails_map {A} P (f : HorizonClient W -> A) : fails_with P (get_map f).
Proof. by intros c x c'. Qed.
Lemma fails_modify P f : fails_with P (modify f).
Proof. by intros c x c'. Qed.
Lemma fails_bind {A B} P (t : Tasks.Task _ _ A) (f : A -> Tasks.Task _ _ B) :
  fails_with P t -> (forall a, fails_with P (f a)) -> fails_with P (bind t f).
Proof.
  intros Ht Hf c x c'. unfold bind. destruct (t c) as [[a|y] c1|c1] eqn:E; [apply Hf| |done].
  intros [= <- <-]. by eapply Ht.
Qed.
Lemma fails_scoped {A} P get set acquire (t : Tasks.Task _ _ A) :
  fails_with P t -> fails_with P (scoped get set acquire t).
Proof.
  intros Ht c x c'. unfold scoped. destruct (acquire (get c)); [|done].
  destruct (t _) as [r c1|c1] eqn:E; intros; simplify_eq. by eapply Ht.
Qed.
#[local] Hint Resolve fails_ret fails_fail fails_map fails_modify fails_bind fails_scoped : core.

Lemma current_error : fails_with horizon_error get_current_provider.
Proof.
  apply fails_scoped, fails_bind; [by apply fails_scoped|]. intros i. apply fails_bind; [done|].
  intros l. destruct (pick l i); [done|]. apply fails_fail. by eexists.
Qed.

Lemma switch_error : fails_with horizon_error switch_provider.
Proof.
  do 2 apply fails_scoped. apply fails_bind; [done|]. intros l. apply fails_bind; [done|]. intros i.
  destruct (next_usable l i) as [[j t]|]; [by apply fails_bind|]. apply fails_fail. by eexists.
Qed.

Lemma perform_error {T} (op : HorizonProvider -> W -> result string T * W) p :
  fails_with horizon_error (perform op p).
Proof. intros c x c'. unfold perform. by destruct (op p (world c)). Qed.

Lemma attempt_error {T} (op : HorizonProvider -> W -> result string T * W) left :
  fails_with horizon_error (attempt now op left).
Proof.
  assert (forall p, fails_with horizon_error (record_provider_success now p)) as Hsucc.
  { intros p. by apply fails_scoped. }
  assert (forall p, fails_with horizon_error (record_provider_failure now p)) as Hfail.
  { intros p. apply fails_scoped, fails_bind; done. }
  induction left as [|left IH]; intros c x c'; cbn [attempt];
    (destruct (get_current_provider c) as [[p|y] c1|c1] eqn:Hg; [|apply current_error in Hg|done]).
  - apply (fails_bind horizon_error _ _ (perform_error op p)). intros [t|y]; [by apply fails_bind|].
    apply fails_bind; [done|]. intros []; apply fails_fail; by eexists.
  - by intros [= <- <-].
  - apply (fails_bind horizon_error _ _ (perform_error op p)). intros [t|y]; [by apply fails_bind|].
    apply fails_bind; [done|]. intros [] c2 z c3; [|apply fails_fail; by eexists].
    destruct (switch_provider c2) as [[q|z'] c4|c4]; [apply IH| |done]. intros [= <- <-]. by eexists.
  - apply fails_bind; [apply switch_error|done].
Qed.

(** ** The theorem *)

Definition ledger_query (q : Query) : bool := match q with GetLedger _ | GetLatestLedger => true | _ => false end.

(** A ledger query yields a ledger, the others something else. *)
Lemma response_ledger q resp v :
  response_value q resp = Ok v -> if ledger_query q then exists l, v = VLedger l else forall l, v <> VLedger l.
Proof.
  unfold response_value. destruct (is_success _); [|done]. destruct (body resp) as [raw|]; [|done]. cbn.
  destruct (parse_json raw) as [j|]; [|done]. cbn. unfold decode_body.
  destruct q; cbn; try destruct (account_of j); try destruct (transaction_of j); try destruct (ledger_of j);
    cbn; try (by intros [= <-]; eauto); try done.
  all: destruct (first_record j) as [j'|]; [|done]; destruct (ledger_of j'); cbn; [|done]; intros [= <-]; eauto.
Qed.

(** C26. A query to the Stellar service on a client in use returns.  It asks
    providers one after the other, each in the world the one before it left.  On a
    success all but the last failed, and the last, a configured provider, answered
    with a success status to exactly the request of that query: the value is that
    answer, decoded, the route answers 200, and for a ledger query its sequence is
    now in the gauge, which no other query touches.  On a failure all that were
    asked failed, one error is counted, the gauge stays, and the route answers 502. *)
Theorem stellar_query_outcome cfg c m q :
  config_ok cfg -> in_use now cfg c ->
  exists r c' m', query q c m = (Ret r c', m') /\ in_use now cfg c' /\
  match r with
  | Ok v => rpc_errors m' = rpc_errors m /\ stellar_status r = 200 /\
      (exists before p w resp, sent c' = sent c ++ before ++ [p] /\
        failures (operation q) before (world c) = Some w /\
        p ∈ map provider (providers c) /\ send (request_of q p) w = (Ok resp, world c') /\
        is_success (status resp) = true /\ response_value q resp = Ok v) /\
      (if ledger_query q
       then exists l, v = VLedger l /\ last_ledger_processed m' = Some (ledger_sequence l)
       else last_ledger_processed m' = last_ledger_processed m)
  | Err x => rpc_errors m' = rpc_errors m + 1 /\ last_ledger_processed m' = last_ledger_processed m /\
      stellar_status r = 502 /\
      exists tried, sent c' = sent c ++ tried /\ failures (operation q) tried (world c) = Some (world c')
  end.
Proof.
  intros Hcfg Hu. destruct (in_use_ok _ _ _ Hcfg Hu) as [Hok Hc].
  destruct (request_run now (operation q) c Hok) as (r & c' & tried & Hr & _ & _ & Hsent & Ho).
  pose proof (attempt_world now (operation q) _ c r c' Hok Hr) as Hw.
  exists r, c', (observe q r m). unfold query. rewrite Hr. split; [done|].
  split; [by eapply UseRequest|]. destruct r as [v|x].
  - destruct Hw as (before & p & w & Hs & Hf & Hop). unfold operation in Hop.
    destruct (send (request_of q p) w) as [[resp|] w'] eqn:Hsd; [|done]. injection Hop as Hv <-.
    pose proof (response_ledger q resp v Hv) as Hl. split_and!; [by destruct v, q|done| |].
    + exists before, p, w, resp. split_and!; [done|done| |done| |done].
      * assert (p ∈ tried) as Hin by (rewrite Hsent in Hs; apply app_inv_head in Hs; rewrite Hs; apply elem_of_app; right; by left).
        pose proof (o_closed _ _ _ _ _ _ Ho) as Hcl. rewrite Forall_forall in Hcl.
        destruct (Hcl p Hin) as (s & Hss & <- & _). by apply list_elem_of_fmap_2.
      * unfold response_value in Hv. by destruct (is_success _).
    + destruct (ledger_query q) eqn:Hq; [destruct Hl as [l ->]; exists l; by destruct q|].
      destruct v as [| |l]; [by destruct q..|by destruct (Hl l)].
  - split_and!; [by destruct q|by destruct q| |done].
    destruct (attempt_error (operation q) _ c x c' Hr) as [s ->]. done.
Qed.
End Service.

(** A provider that serves the latest ledger, reached at its own URL. *)
Definition toy_send (r : Request) (w : unit) : result string HttpResponse * unit :=
  (match r with
   | Get "https://horizon.stellar.org/ledgers?order=desc&limit=1" => Ok (mkHttp 200 (Ok "ledgers"%string))
   | _ => Ok (mkHttp 404 (Ok "missing"%string))
   end, w).
Definition toy_ledger : Ledger := mkLedger "l7" 7 "" "" "" 100 "" 1000 20.
Definition toy_json (s : string) : result string Json :=
  Ok (JObject [("_embedded", JObject [("records", JArray [JNumber 7; JNumber 6])])])%string.
Definition toy_decode (j : Json) : result string Ledger :=
  match j with JNumber 7 => Ok toy_ledger | _ => Err "unexpected"%string end.
Definition toy_account (j : Json) : result string Account := Err "no account"%string.
Definition toy_transaction (j : Json) : result string Transaction := Err "no transaction"%string.

Lemma stellar_query_outcome_witness :
  exists c', query (fun _ => 0) toy_send pretty toy_account toy_transaction toy_decode toy_json GetLatestLedger
    (new_client default_horizon_config tt) (mkMetrics None 0) =
    (Ret (Ok (VLedger toy_ledger)) c', mkMetrics (Some 7) 0).
Proof.
  destruct (stellar_query_outcome (fun _ => 0) toy_send pretty toy_account toy_transaction toy_decode toy_json
    default_horizon_config (new_client default_horizon_config tt) (mkMetrics None 0) GetLatestLedger
    default_config_ok (UseNew _ _ tt)) as (r & c' & m' & Hq & _).
  exists c'. rewrite Hq. vm_compute in Hq. injection Hq as <- <- <-. reflexivity.
Defined.
