(* ===== verification/RestGateway.v ===== *)
(** network-node/src/gateway.rs: the HTTP gateway, which forwards its routes to the
    gateway service of GatewayService.v.

    The JSON of requests and responses is serde's; a call carries the decoded
    request.  A path is the list of its segments.  The random numbers and clock
    readings of a request are arguments, as they are of the service. *)
From stdpp Require Import base list strings.
From S2P Require Import Prelude ChainParams NetworkService GatewayService.

Inductive Method : Type := GET | POST.
Inductive RouteName : Type :=
| RtDeposit | RtWithdraw | RtDistribute | RtClaim | RtBalance | RtRewards | RtContractState
| RtTransaction (hash : string) | RtHistory | RtNetworkStatus | RtNodeInfo | RtHealth.

(** [create_gateway_router]; a literal segment wins over a parameter. *)
Definition routes (path : list string) : option (Method * RouteName) :=
  match path with
  | ["v1"; "contract"; "deposit"] => Some (POST, RtDeposit)
  | ["v1"; "contract"; "withdraw"] => Some (POST, RtWithdraw)
  | ["v1"; "contract"; "distribute-rewards"] => Some (POST, RtDistribute)
  | ["v1"; "contract"; "claim-rewards"] => Some (POST, RtClaim)
  | ["v1"; "query"; "balance"] => Some (GET, RtBalance)
  | ["v1"; "query"; "rewards"] => Some (GET, RtRewards)
  | ["v1"; "query"; "contract-state"] => Some (GET, RtContractState)
  | ["v1"; "transaction"; "history"] => Some (GET, RtHistory)
  | ["v1"; "transaction"; hash] => Some (GET, RtTransaction hash)
  | ["v1"; "network"; "status"] => Some (GET, RtNetworkStatus)
  | ["v1"; "node"; "info"] => Some (GET, RtNodeInfo)
  | ["v1"; "health"] => Some (GET, RtHealth)
  | _ => None
  end.

(** The query of the history route. *)
Record PaginationQuery : Type := mkQuery {
  q_limit : option Z; q_offset : option Z; q_transaction_type : option Str;
  q_status : option Str; q_start_date : option Str; q_end_date : option Str }.

(** A call whose body or query was decoded. *)
Inductive RestCall : Type :=
| RDeposit (req : Tracked DepositRequest)
| RWithdraw (req : Tracked WithdrawRequest)
| RDistribute (req : Tracked DistributeRewardsRequest)
| RClaim (req : Tracked ClaimRewardsRequest)
| RBalance (user_address token_address : Str)
| RRewards (user_address : Str)
| RContractState (contract_address : Str)
| RTransaction (hash : Str)
| RHistory (q : PaginationQuery)
| RNetworkStatus
| RNodeInfo (node_id : Str)
| RHealth.

Inductive RestValue : Type :=
| RvTransaction (x : GwTransactionResponse) | RvBalance (x : GwBalanceResponse)
| RvRewards (x : GwRewardsResponse) | RvContractState (x : GwContractState) | RvHistory (x : GwHistory)
| RvNetworkStatus (x : GwNetworkStatus) | RvNodeInfo (x : GwNodeInfo) | RvHealth (x : HealthCheckResponse).

(** What the client sees: a decoded value with 200, a bare status code, or a
    connection closed by a panic. *)
Inductive RestAnswer : Type := RestOk (v : RestValue) | RestStatus (code : Z) | RestPanic.

(** The readings of a call. *)
Record Readings : Type := mkReadings {
  rd_request : Z; rd_random : Z; rd_clock : Clock; rd_clock2 : Clock; rd_elapsed : Z }.

(** [Ok(response) => Ok(Json(..)), Err(_) => Err(status)]. *)
Definition answer {A} (code : Z) (wrap : A -> RestValue) (r : result Status A) : RestAnswer :=
  match r with Ok a => RestOk (wrap a) | Err _ => RestStatus code end.
Definition answer_or_panic {A} (code : Z) (wrap : A -> RestValue) (r : option (result Status A)) : RestAnswer :=
  match r with Some r => answer code wrap r | None => RestPanic end.

(** ** The handlers *)

Definition rest_deposit (e : Readings) (req : Tracked DepositRequest) : RestAnswer :=
  answer 500 RvTransaction
    (deposit (rd_request e) (rd_random e) (rd_clock e) (rd_clock2 e) (rd_elapsed e) req).
Definition rest_withdraw (e : Readings) (req : Tracked WithdrawRequest) : RestAnswer :=
  answer 500 RvTransaction (withdraw (rd_request e) (rd_random e) (rd_clock e) (rd_elapsed e) req).
Definition rest_distribute (e : Readings) (req : Tracked DistributeRewardsRequest) : RestAnswer :=
  answer 500 RvTransaction (distribute_rewards (rd_request e) (rd_random e) (rd_clock e) (rd_elapsed e) req).
Definition rest_claim (e : Readings) (req : Tracked ClaimRewardsRequest) : RestAnswer :=
  answer 500 RvTransaction (claim_rewards (rd_request e) (rd_random e) (rd_clock e) (rd_elapsed e) req).
Definition rest_balance (e : Readings) (user_address token_address : Str) : RestAnswer :=
  answer 500 RvBalance (get_balance (rd_request e) (rd_clock e) (rd_clock2 e) user_address token_address).
Definition rest_rewards (e : Readings) (user_address : Str) : RestAnswer :=
  answer_or_panic 500 RvRewards (get_rewards (rd_request e) (rd_clock e) user_address).
Definition rest_contract_state (e : Readings) (contract_address : Str) : RestAnswer :=
  answer 500 RvContractState (get_contract_state (rd_request e) (rd_clock e) contract_address).
Definition rest_transaction (e : Readings) (hash : Str) : RestAnswer :=
  answer 500 RvTransaction (get_transaction (rd_request e) (rd_clock e) hash).
(** It asks for the empty user; dates and status are not forwarded. *)
Definition rest_history (e : Readings) (q : PaginationQuery) : RestAnswer :=
  answer_or_panic 500 RvHistory (get_transaction_history (rd_request e) (rd_clock e)
    (mkGwHistoryRequest [] (q_limit q) (q_offset q) (q_transaction_type q))).
Definition rest_node_info (e : Readings) (node_id : Str) : RestAnswer :=
  answer 500 RvNodeInfo (get_node_info (rd_request e) (rd_clock e) node_id).
Definition rest_health (e : Readings) : RestAnswer :=
  answer 503 RvHealth (check_health (rd_request e) (rd_clock e)).

Section Rest.
Context {Addr : Type}.
Implicit Types s : NetworkServiceImpl Addr.

Definition rest_network_status (e : Readings) s : RestAnswer :=
  answer 500 RvNetworkStatus (get_network_status (rd_request e) (rd_clock e) s).

Definition rest_handle (e : Readings) (c : RestCall) s : RestAnswer :=
  match c with
  | RDeposit req => rest_deposit e req
  | RWithdraw req => rest_withdraw e req
  | RDistribute req => rest_distribute e req
  | RClaim req => rest_claim e req
  | RBalance user token => rest_balance e user token
  | RRewards user => rest_rewards e user
  | RContractState a => rest_contract_state e a
  | RTransaction hash => rest_transaction e hash
  | RHistory q => rest_history e q
  | RNetworkStatus => rest_network_status e s
  | RNodeInfo id => rest_node_info e id
  | RHealth => rest_health e
  end.

(** ** Theorem *)

(** What the HTTP gateway answers: with a working clock every route answers
    200, whatever the request holds - signatures, hashes of transactions that do
    not exist, unknown nodes and unknown users included - except that a history
    with page size 0 panics; with a clock before the epoch every route fails, with
    503 for the health route and 500 (or a panic, for rewards) for the others.  The
    400 and 404 the routes document are never sent. *)
Theorem rest_answers e c s :
  match rd_clock e, rd_clock2 e with
  | Ok _, Ok _ =>
      match c with
      | RHistory q => if decide (q_limit q = Some 0) then rest_handle e c s = RestPanic
                      else exists v, rest_handle e c s = RestOk v
      | _ => exists v, rest_handle e c s = RestOk v
      end
  | Err _, _ =>
      rest_handle e c s = match c with RHealth => RestStatus 503 | RRewards _ => RestPanic | _ => RestStatus 500 end
  | Ok _, Err _ => rest_handle e c s <> RestStatus 400 /\ rest_handle e c s <> RestStatus 404
  end.
Proof.
  destruct e as [rid rnd [d|x] [d2|y] el]; cbn [rd_clock rd_clock2];
    destruct c as [r|r|r|r|u t|u|a|h|q| |i|]; cbn -[decide]; try done; try (by eexists).
  - unfold rest_history, get_transaction_history, pagination. cbn. destruct (q_limit q) as [l|]; cbn; [|by eexists].
    destruct (Z.eqb_spec l 0) as [->|Hl]; [done|].
    destruct (decide (Some l = Some 0)) as [[= ->]|]; [done|]. by eexists.
  - unfold rest_history, get_transaction_history, pagination. cbn. destruct (_ =? 0); done.
Qed.
End Rest.
