(* ===== verification/Floats.v ===== *)
(** Double-precision numbers, as the node's metrics and benchmarks use them.

    [f64] is the type of IEEE 754 numbers of the Standard Library, with 53 bits
    of precision and exponents below 1024; integers are cast by rounding to the
    nearest, ties to even, and the arithmetic operations round the same way. *)
From Stdlib Require Import SpecFloat.
From stdpp Require Import base strings pretty.
From S2P Require Import Prelude.

Abbreviation f64 := spec_float.

(** [z as f64] for an unsigned integer. *)
Definition f64_of_u64 (z : Z) : f64 := binary_normalize 53 1024 z 0 false.

Definition f64_add : f64 -> f64 -> f64 := SFadd 53 1024.
Definition f64_sub : f64 -> f64 -> f64 := SFsub 53 1024.
Definition f64_mul : f64 -> f64 -> f64 := SFmul 53 1024.
Definition f64_div : f64 -> f64 -> f64 := SFdiv 53 1024.
Definition f64_gt (x y : f64) : bool := SFltb y x.

Definition f64_zero : f64 := S754_zero false.

(** ** [format!("{:.n}", x)]

    The exact value is rounded to [n] decimals, ties to even. *)

Definition round_div_even (a b : Z) : Z :=
  let q := a / b in
  let r := a mod b in
  if 2 * r <? b then q else if b <? 2 * r then q + 1 else if Z.even q then q else q + 1.

Fixpoint pad_zeros (n : nat) (s : string) : string :=
  match n with
  | O => s
  | S m => if (String.length s <? n)%nat then "0" +:+ pad_zeros m s else s
  end.

Definition fixed_point (n : nat) (scaled : Z) : string :=
  let unit := 10 ^ Z.of_nat n in
  match n with
  | O => pretty scaled
  | _ => pretty (scaled / unit) +:+ "." +:+ pad_zeros n (pretty (scaled mod unit))
  end.

Definition format_fixed (n : nat) (x : f64) : string :=
  match x with
  | S754_nan => "NaN"
  | S754_infinity s => (if s then "-" else "") +:+ "inf"
  | S754_zero s => (if s then "-" else "") +:+ fixed_point n 0
  | S754_finite s m e =>
      let scaled := Z.pos m * 10 ^ Z.of_nat n in
      (if s then "-" else "") +:+
      fixed_point n (if 0 <=? e then scaled * 2 ^ e else round_div_even scaled (2 ^ (- e)))
  end.

(** ** Facts *)

Definition is_finite (x : f64) : bool :=
  match x with S754_zero _ | S754_finite _ _ _ => true | _ => false end.

Lemma f64_of_u64_zero : f64_of_u64 0 = f64_zero.
Proof. reflexivity. Qed.

(** A finite number minus itself is zero. *)
Lemma f64_sub_diag x : is_finite x = true -> f64_sub x x = f64_zero.
Proof.
  destruct x as [s|s| |s m e]; try done; intros _; [by destruct s|].
  unfold f64_sub, SFsub. rewrite Z.sub_diag. reflexivity.
Qed.

Lemma f64_zero_div y : f64_gt y f64_zero = true -> f64_div f64_zero y = f64_zero.
Proof. unfold f64_gt. destruct y as [[]|[]| |[] m e]; done. Qed.

Lemma f64_zero_mul y : f64_gt y f64_zero = true -> is_finite y = true -> f64_mul f64_zero y = f64_zero.
Proof. unfold f64_gt. destruct y as [[]|[]| |[] m e]; done. Qed.

Lemma f64_gt_irrefl x : f64_gt x x = false.
Proof.
  unfold f64_gt, SFltb. destruct x as [[]|[]| |[] m e]; cbn; try done;
    rewrite Z.compare_refl; unfold Pos.compare; rewrite Pos.compare_cont_refl; done.
Qed.
