(* ===== verification/Metrics.v ===== *)
(** network-node/src/metrics.rs: the collector of the node's counters and gauges,
    and the page a Prometheus server scrapes.

    The atomics of the collector are updated by one [fetch_add] or [store] each, so
    any interleaving of tasks is a sequence of operations; [fetch_add] wraps.  The
    page loads its values one after the other, so other tasks may update the
    collector between two loads: the states the loads see are a function of their
    position.  What the macros of the metrics library are handed is kept as a list
    of samples.  Times are milliseconds. *)
From Stdlib Require Import Ascii.
From stdpp Require Import base list strings pretty.
From S2P Require Import Prelude Floats Config.

(** ** The collector *)

Record MetricsCollector : Type := mkMetrics {
  start_time : Z;
  total_requests : Z;
  active_connections : Z;
  total_errors : Z;
  bytes_sent : Z;
  bytes_received : Z;
  pending_transactions : Z }.

(** [MetricsCollector::new] at time [now]. *)
Definition new_metrics (now : Z) : MetricsCollector := mkMetrics now 0 0 0 0 0 0.

(** What a macro call hands to the recorder of the process. *)
Inductive Sample : Type :=
| CounterInc (name : string) (n : Z)
| GaugeSet (name : string) (x : f64)
| Observe (name : string) (x : f64).

Implicit Types m : MetricsCollector.

Definition increment_requests m : MetricsCollector * list Sample :=
  (mkMetrics (start_time m) (as_u64 (total_requests m + 1)) (active_connections m) (total_errors m)
     (bytes_sent m) (bytes_received m) (pending_transactions m),
   [CounterInc "http_requests_total" 1]).

Definition set_active_connections (count : Z) m : MetricsCollector * list Sample :=
  (mkMetrics (start_time m) (total_requests m) count (total_errors m)
     (bytes_sent m) (bytes_received m) (pending_transactions m),
   [GaugeSet "active_connections" (f64_of_u64 count)]).

Definition increment_errors m : MetricsCollector * list Sample :=
  (mkMetrics (start_time m) (total_requests m) (active_connections m) (as_u64 (total_errors m + 1))
     (bytes_sent m) (bytes_received m) (pending_transactions m),
   [CounterInc "errors_total" 1]).

Definition add_bytes_sent (bytes : Z) m : MetricsCollector * list Sample :=
  (mkMetrics (start_time m) (total_requests m) (active_connections m) (total_errors m)
     (as_u64 (bytes_sent m + bytes)) (bytes_received m) (pending_transactions m),
   [CounterInc "bytes_sent_total" bytes]).

Definition add_bytes_received (bytes : Z) m : MetricsCollector * list Sample :=
  (mkMetrics (start_time m) (total_requests m) (active_connections m) (total_errors m)
     (bytes_sent m) (as_u64 (bytes_received m + bytes)) (pending_transactions m),
   [CounterInc "bytes_received_total" bytes]).

Definition record_request_duration (duration_secs : f64) m : MetricsCollector * list Sample :=
  (m, [Observe "request_duration_seconds" duration_secs]).

Definition set_pending_transactions (count : Z) m : MetricsCollector * list Sample :=
  (mkMetrics (start_time m) (total_requests m) (active_connections m) (total_errors m)
     (bytes_sent m) (bytes_received m) count,
   [GaugeSet "axionvera_pending_transactions_total" (f64_of_u64 count);
    GaugeSet "axionvera_transaction_queue_depth" (f64_of_u64 count)]).

(** [start_time.elapsed().as_secs()]: an [Instant] never runs backwards. *)
Definition uptime_secs (now : Z) m : Z := Z.max 0 (now - start_time m) / 1000.

(** The getters: one atomic load each. *)
Definition get_total_requests m : Z := total_requests m.
Definition get_active_connections m : Z := active_connections m.
Definition get_total_errors m : Z := total_errors m.
Definition get_bytes_sent m : Z := bytes_sent m.
Definition get_bytes_received m : Z := bytes_received m.
Definition get_pending_transactions m : Z := pending_transactions m.

(** A placeholder in the source. *)
Definition get_process_memory m : Z := 0.

(** ** The page *)

Definition newline : ascii := "010"%char.
Fixpoint unlines (ls : list string) : string :=
  match ls with
  | [] => ""
  | l :: ls' => l +:+ String newline (unlines ls')
  end.

(** The lines of the format string, with its nine arguments. *)
Definition page_lines (u r a x s v p q mem : string) : list string :=
  ["# HELP axionvera_uptime_seconds Node uptime in seconds";
   "# TYPE axionvera_uptime_seconds counter";
   "axionvera_uptime_seconds " +:+ u; "";
   "# HELP axionvera_http_requests_total Total number of HTTP requests";
   "# TYPE axionvera_http_requests_total counter";
   "axionvera_http_requests_total " +:+ r; "";
   "# HELP axionvera_active_connections Current number of active connections";
   "# TYPE axionvera_active_connections gauge";
   "axionvera_active_connections " +:+ a; "";
   "# HELP axionvera_errors_total Total number of errors";
   "# TYPE axionvera_errors_total counter";
   "axionvera_errors_total " +:+ x; "";
   "# HELP axionvera_bytes_sent_total Total bytes sent";
   "# TYPE axionvera_bytes_sent_total counter";
   "axionvera_bytes_sent_total " +:+ s; "";
   "# HELP axionvera_bytes_received_total Total bytes received";
   "# TYPE axionvera_bytes_received_total counter";
   "axionvera_bytes_received_total " +:+ v; "";
   "# HELP axionvera_pending_transactions_total Number of pending transactions in queue";
   "# TYPE axionvera_pending_transactions_total gauge";
   "axionvera_pending_transactions_total " +:+ p; "";
   "# HELP axionvera_transaction_queue_depth Current transaction queue depth";
   "# TYPE axionvera_transaction_queue_depth gauge";
   "axionvera_transaction_queue_depth " +:+ q; "";
   "# HELP process_memory_bytes Current memory usage in bytes";
   "# TYPE process_memory_bytes gauge";
   "process_memory_bytes " +:+ mem; "";
   "# HELP request_duration_seconds Request duration histogram";
   "# TYPE request_duration_seconds histogram"].

(** [get_prometheus_metrics]: [at_load i] is the collector as the i-th argument
    sees it. *)
Definition get_prometheus_metrics (now : Z) (at_load : nat -> MetricsCollector) : string :=
  unlines (page_lines
    (pretty (uptime_secs now (at_load 0%nat)))
    (pretty (get_total_requests (at_load 1%nat)))
    (pretty (get_active_connections (at_load 2%nat)))
    (pretty (get_total_errors (at_load 3%nat)))
    (pretty (get_bytes_sent (at_load 4%nat)))
    (pretty (get_bytes_received (at_load 5%nat)))
    (pretty (get_pending_transactions (at_load 6%nat)))
    (pretty (get_pending_transactions (at_load 7%nat)))
    (pretty (get_process_memory (at_load 8%nat)))).

(** ** What a scrape reads

    A line that is not a comment is a name, a blank and a value. *)

Fixpoint lines_of (s : string) : list string :=
  match s with
  | EmptyString => []
  | String c s' =>
      if Ascii.eqb c newline then "" :: lines_of s'
      else match lines_of s' with [] => [String c ""] | l :: ls => String c l :: ls end
  end.

Fixpoint strip_prefix (p s : string) : option string :=
  match p, s with
  | EmptyString, _ => Some s
  | String c p', String d s' => if Ascii.eqb c d then strip_prefix p' s' else None
  | _, _ => None
  end.

Fixpoint find_sample (name : string) (ls : list string) : option string :=
  match ls with
  | [] => None
  | l :: ls' => match strip_prefix (name +:+ " ") l with Some v => Some v | None => find_sample name ls' end
  end.

Definition scrape (name page : string) : option Z := find_sample name (lines_of page) ≫= parse_u64.

(** ** Histories *)

Inductive MetricOp : Type :=
| IncrementRequests
| SetActiveConnections (n : Z)
| IncrementErrors
| AddBytesSent (n : Z)
| AddBytesReceived (n : Z)
| RecordRequestDuration (x : f64)
| SetPendingTransactions (n : Z).

Definition metric_op (op : MetricOp) : MetricsCollector -> MetricsCollector * list Sample :=
  match op with
  | IncrementRequests => increment_requests
  | SetActiveConnections n => set_active_connections n
  | IncrementErrors => increment_errors
  | AddBytesSent n => add_bytes_sent n
  | AddBytesReceived n => add_bytes_received n
  | RecordRequestDuration x => record_request_duration x
  | SetPendingTransactions n => set_pending_transactions n
  end.

Fixpoint run_ops (ops : list MetricOp) m : MetricsCollector * list Sample :=
  match ops with
  | [] => (m, [])
  | op :: ops' =>
      let '(m1, l1) := metric_op op m in
      let '(m2, l2) := run_ops ops' m1 in
      (m2, l1 ++ l2)
  end.

(** The values a history stands for: what its operations add to a counter, and
    the last value a gauge was set to. *)
Definition requests_in (op : MetricOp) : Z := match op with IncrementRequests => 1 | _ => 0 end.
Definition errors_in (op : MetricOp) : Z := match op with IncrementErrors => 1 | _ => 0 end.
Definition sent_in (op : MetricOp) : Z := match op with AddBytesSent n => n | _ => 0 end.
Definition received_in (op : MetricOp) : Z := match op with AddBytesReceived n => n | _ => 0 end.
Definition active_set (op : MetricOp) : option Z := match op with SetActiveConnections n => Some n | _ => None end.
Definition pending_set (op : MetricOp) : option Z := match op with SetPendingTransactions n => Some n | _ => None end.
Definition last_set (f : MetricOp -> option Z) (ops : list MetricOp) : Z := default 0 (last (omap f ops)).

(** The arguments are unsigned 64-bit integers. *)
Definition op_ok (op : MetricOp) : Prop :=
  match op with
  | SetActiveConnections n | AddBytesSent n | AddBytesReceived n | SetPendingTransactions n => 0 <= n <= u64_max
  | _ => True
  end.

(** What a recorder that adds up increments holds for a counter. *)
Definition recorded (name : string) (l : list Sample) : Z :=
  sumZ (fun x => match x with CounterInc k n => if decide (k = name) then n else 0 | _ => 0 end) l.

(** ** Printing and reading back *)

Lemma digit_value n c :
  (n < 10)%N -> c = pretty_N_char n -> Z.of_N (N_of_ascii c) = 48 + Z.of_N n.
Proof.
  intros Hn ->. destruct n as [|p]; [done|].
  do 4 (destruct p as [p|p|]; try done; try lia).
Qed.

Lemma digits_value_go n s : digits_value 0 (pretty_N_go n s) = digits_value (Z.of_N n) s.
Proof.
  revert s. induction (N.lt_wf_0 n) as [n _ IH]; intros s.
  destruct (decide (n = 0%N)) as [->|]; [by rewrite pretty_N_go_0|].
  rewrite pretty_N_go_step by lia. rewrite IH by (apply N.div_lt; lia). cbn [digits_value].
  pose proof (N.mod_lt n 10 ltac:(lia)). rewrite (digit_value (n `mod` 10)) by done.
  destruct (_ && _) eqn:Hb; [|exfalso; bool_to_prop; destruct Hb; bool_to_prop;
    generalize dependent (n `mod` 10)%N; lia].
  f_equal. pose proof (N.div_mod n 10 ltac:(lia)). lia.
Qed.

Lemma digits_value_pretty z : 0 <= z -> digits_value 0 (pretty z) = Some z.
Proof.
  intros Hz. destruct z as [|p|p]; [done| |lia].
  change (pretty (Z.pos p)) with (pretty (N.pos p)). unfold pretty, pretty_N.
  case_decide; [done|]. by rewrite digits_value_go.
Qed.

(** A string of digits has no sign, no newline, and reads as its value. *)
Lemma parse_unsigned_digits s z : s <> ""%string -> digits_value 0 s = Some z -> parse_unsigned s = Some z.
Proof.
  intros Hs Hd. destruct s as [|c s]; [done|]. unfold parse_unsigned.
  destruct (Ascii.eqb c "+"%char) eqn:Hc; [apply Ascii.eqb_eq in Hc; subst; done|].
  repeat case_match; subst; try done; by rewrite Ascii.eqb_refl in Hc.
Qed.

Lemma parse_u64_pretty z : 0 <= z <= u64_max -> parse_u64 (pretty z) = Some z.
Proof.
  intros Hz. unfold parse_u64, in_range. rewrite (parse_unsigned_digits _ z).
  - by apply checked_Some.
  - intros He. pose proof (digits_value_pretty z ltac:(lia)) as Hd. rewrite He in Hd.
    by destruct z.
  - apply digits_value_pretty. lia.
Qed.

Fixpoint no_newline (s : string) : bool :=
  match s with EmptyString => true | String c s' => negb (Ascii.eqb c newline) && no_newline s' end.

Lemma digits_no_newline s acc z : digits_value acc s = Some z -> no_newline s = true.
Proof.
  revert acc. induction s as [|c s IH]; cbn [digits_value no_newline]; intros acc Hd; [done|].
  destruct (_ && _) eqn:Hb; [|done]. rewrite (IH _ Hd), andb_true_r. apply negb_true_iff.
  destruct (Ascii.eqb_spec c newline) as [->|]; done.
Qed.

Lemma no_newline_app s t : no_newline (s +:+ t) = no_newline s && no_newline t.
Proof.
  induction s as [|c s IH]; [done|]. change (String c s +:+ t) with (String c (s +:+ t)).
  cbn [no_newline]. by rewrite IH, andb_assoc.
Qed.

Lemma lines_of_app s t : no_newline s = true -> lines_of (s +:+ String newline t) = s :: lines_of t.
Proof.
  induction s as [|c s IH]; cbn [no_newline]; intros Hs; [done|].
  apply andb_prop in Hs as [Hc Hs]. apply negb_true_iff in Hc.
  change (String c s +:+ String newline t) with (String c (s +:+ String newline t)).
  cbn [lines_of]. by rewrite Hc, IH.
Qed.

Lemma lines_of_unlines ls : Forall (fun l => no_newline l = true) ls -> lines_of (unlines ls) = ls.
Proof. induction 1 as [|l ls Hl _ IH]; cbn [unlines]; [done|]. by rewrite lines_of_app, IH. Qed.

(** What each name finds on a page. *)
Definition sample_names : list string :=
  ["axionvera_uptime_seconds"; "axionvera_http_requests_total"; "axionvera_active_connections";
   "axionvera_errors_total"; "axionvera_bytes_sent_total"; "axionvera_bytes_received_total";
   "axionvera_pending_transactions_total"; "axionvera_transaction_queue_depth"; "process_memory_bytes"]%string.

Lemma find_samples u r a x s v p q mem :
  (fun name => find_sample name (page_lines u r a x s v p q mem)) <$> sample_names =
  Some <$> [u; r; a; x; s; v; p; q; mem].
Proof. reflexivity. Qed.

Lemma pretty_no_newline z : 0 <= z -> no_newline (pretty z) = true.
Proof. intros Hz. eapply digits_no_newline, digits_value_pretty, Hz. Qed.

Lemma page_no_newline u r a x s v p q mem :
  Forall (fun z => no_newline z = true) [u; r; a; x; s; v; p; q; mem] ->
  Forall (fun l => no_newline l = true) (page_lines u r a x s v p q mem).
Proof.
  intros HF. repeat match goal with H : Forall _ (_ :: _) |- _ => apply Forall_cons in H as [? H] end.
  unfold page_lines. repeat (apply Forall_cons; split; [rewrite ?no_newline_app; cbn [andb]; try done|]).
  all: try (by constructor).
Qed.

(** ** Counters and gauges over a history *)

Lemma counter_run (f : MetricsCollector -> Z) (g : MetricOp -> Z) ops m :
  (forall op m, f m = as_u64 (f m) -> f (fst (metric_op op m)) = as_u64 (f m + g op)) ->
  f m = as_u64 (f m) -> f (fst (run_ops ops m)) = as_u64 (f m + sumZ g ops).
Proof.
  intros Hop. revert m. induction ops as [|op ops IH]; intros m Hm; [by rewrite Z.add_0_r|].
  cbn [run_ops]. pose proof (Hop op m Hm) as H1. destruct (metric_op op m) as [m1 l1]. cbn in H1.
  specialize (IH m1). destruct (run_ops ops m1) as [m2 l2]. cbn [fst] in *.
  rewrite IH, H1, as_u64_add, sumZ_cons; [f_equal; lia|].
  rewrite H1. symmetry. apply as_u64_id, as_u64_bound.
Qed.

Lemma gauge_run (f : MetricsCollector -> Z) (g : MetricOp -> option Z) ops m :
  (forall op m, f (fst (metric_op op m)) = default (f m) (g op)) ->
  f (fst (run_ops ops m)) = default (f m) (last (omap g ops)).
Proof.
  intros Hop. revert m. induction ops as [|op ops IH]; intros m; [done|].
  cbn [run_ops]. pose proof (Hop op m) as H1. destruct (metric_op op m) as [m1 l1]. cbn in H1.
  specialize (IH m1). destruct (run_ops ops m1) as [m2 l2]. cbn [fst] in *.
  rewrite IH, H1. cbn. destruct (g op) as [z|]; [|done]. rewrite last_cons.
  by destruct (last (omap g ops)).
Qed.

Lemma recorded_run name (g : MetricOp -> Z) ops m :
  (forall op m, recorded name (snd (metric_op op m)) = g op) ->
  recorded name (snd (run_ops ops m)) = sumZ g ops.
Proof.
  intros Hop. revert m. induction ops as [|op ops IH]; intros m; [done|].
  cbn [run_ops]. pose proof (Hop op m) as H1. destruct (metric_op op m) as [m1 l1].
  specialize (IH m1). destruct (run_ops ops m1) as [m2 l2]. cbn [snd] in *.
  unfold recorded in *. by rewrite sumZ_app, H1, IH.
Qed.

(** What the collector holds after a history. *)
Record holds (start : Z) (ops : list MetricOp) m : Prop := mkHolds {
  h_start : start_time m = start;
  h_requests : total_requests m = as_u64 (sumZ requests_in ops);
  h_active : active_connections m = last_set active_set ops;
  h_errors : total_errors m = as_u64 (sumZ errors_in ops);
  h_sent : bytes_sent m = as_u64 (sumZ sent_in ops);
  h_received : bytes_received m = as_u64 (sumZ received_in ops);
  h_pending : pending_transactions m = last_set pending_set ops }.

Lemma start_run ops m : start_time (fst (run_ops ops m)) = start_time m.
Proof.
  revert m. induction ops as [|op ops IH]; intros m; [done|]. cbn [run_ops].
  destruct (metric_op op m) as [m1 l1] eqn:H1. specialize (IH m1).
  destruct (run_ops ops m1) as [m2 l2]. cbn in *. rewrite IH. destruct op; by inversion H1.
Qed.

#[local] Arguments as_u64 : simpl never.
#[local] Arguments Z.add : simpl never.

Lemma run_holds start ops : holds start ops (fst (run_ops ops (new_metrics start))).
Proof.
  split.
  - by rewrite start_run.
  - rewrite (counter_run total_requests requests_in); [done| |done].
    intros [] m Hm; cbn; by rewrite ?Z.add_0_r.
  - rewrite (gauge_run active_connections active_set); [done|]. by intros [].
  - rewrite (counter_run total_errors errors_in); [done| |done].
    intros [] m Hm; cbn; by rewrite ?Z.add_0_r.
  - rewrite (counter_run bytes_sent sent_in); [done| |done].
    intros [] m Hm; cbn; by rewrite ?Z.add_0_r.
  - rewrite (counter_run bytes_received received_in); [done| |done].
    intros [] m Hm; cbn; by rewrite ?Z.add_0_r.
  - rewrite (gauge_run pending_transactions pending_set); [done|]. by intros [].
Qed.

Lemma last_set_bound f ops :
  (forall op n, f op = Some n -> op_ok op -> 0 <= n <= u64_max) -> Forall op_ok ops ->
  0 <= last_set f ops <= u64_max.
Proof.
  intros Hf Hok. unfold last_set. destruct (last (omap f ops)) as [n|] eqn:Hl; [|done].
  apply last_Some_elem_of, list_elem_of_omap in Hl as (op & Hin & Hn).
  rewrite Forall_forall in Hok. cbn. eauto.
Qed.

Lemma cons_inj {A} (x y : A) l k : x :: l = y :: k -> x = y /\ l = k.
Proof. by intros [= -> ->]. Qed.

Lemma scrape_page now at_load vs :
  vs = [uptime_secs now (at_load 0); total_requests (at_load 1); active_connections (at_load 2);
        total_errors (at_load 3); bytes_sent (at_load 4); bytes_received (at_load 5);
        pending_transactions (at_load 6); pending_transactions (at_load 7);
        get_process_memory (at_load 8)]%nat ->
  Forall (fun z => 0 <= z <= u64_max) vs ->
  (fun name => scrape name (get_prometheus_metrics now at_load)) <$> sample_names = Some <$> vs.
Proof.
  intros -> HF. unfold scrape, get_prometheus_metrics, get_total_requests, get_active_connections, get_total_errors,
    get_bytes_sent, get_bytes_received, get_pending_transactions. rewrite lines_of_unlines.
  - etransitivity; [exact (list_fmap_compose (fun name => find_sample name _) (fun o => o ≫= parse_u64) sample_names)|].
    rewrite find_samples.
    repeat match goal with H : Forall _ (_ :: _) |- _ => apply Forall_cons in H as [? H] end.
    cbn [fmap list_fmap mbind option_bind]. by rewrite !parse_u64_pretty.
  - apply page_no_newline. repeat match goal with H : Forall _ (_ :: _) |- _ => apply Forall_cons in H as [? H] end.
    repeat (apply Forall_cons; split; [apply pretty_no_newline; lia|]). constructor.
Qed.

(** The nine samples of a page whose loads see the given histories. *)
Lemma page_reads start now (hist : nat -> list MetricOp) at_load :
  start <= now -> (now - start) / 1000 <= u64_max ->
  (forall i, Forall op_ok (hist i)) -> (forall i, holds start (hist i) (at_load i)) ->
  (fun name => scrape name (get_prometheus_metrics now at_load)) <$> sample_names =
  Some <$> [(now - start) / 1000; as_u64 (sumZ requests_in (hist 1%nat)); last_set active_set (hist 2%nat);
            as_u64 (sumZ errors_in (hist 3%nat)); as_u64 (sumZ sent_in (hist 4%nat));
            as_u64 (sumZ received_in (hist 5%nat)); last_set pending_set (hist 6%nat);
            last_set pending_set (hist 7%nat); 0].
Proof.
  intros Hs Hu Hok Hh. apply scrape_page.
  - unfold uptime_secs. rewrite (h_start _ _ _ (Hh _)), (h_requests _ _ _ (Hh _)), (h_active _ _ _ (Hh _)),
      (h_errors _ _ _ (Hh _)), (h_sent _ _ _ (Hh _)), (h_received _ _ _ (Hh _)),
      !(h_pending _ _ _ (Hh _)), Z.max_r by lia. done.
  - assert (forall i, 0 <= last_set active_set (hist i) <= u64_max) by
      (intros; apply last_set_bound; [by intros [] ? [= <-]|done]).
    assert (forall i, 0 <= last_set pending_set (hist i) <= u64_max) by
      (intros; apply last_set_bound; [by intros [] ? [= <-]|done]).
    pose proof (Z.div_pos (now - start) 1000 ltac:(lia) ltac:(lia)).
    repeat (apply Forall_cons; split; [by apply as_u64_bound || auto|]); constructor.
Qed.

(** C33. The metrics page is exact.  Whatever the tasks of the node do to the
    collector before and between the loads of a page ([hist i] is what happened
    before the i-th load), a scrape of the page reads back, under each name, the
    value of that metric at its load: the counters are the numbers of requests and
    errors and the bytes that were counted, modulo 2^64, the gauges are the values
    set last, and the uptime is whole seconds.  The increments handed to the
    process-wide recorder add up to the same counts. *)
Theorem metrics_page_exact start now (hist : nat -> list MetricOp) :
  start <= now -> (now - start) / 1000 <= u64_max -> (forall i, Forall op_ok (hist i)) ->
  let page := get_prometheus_metrics now (fun i => fst (run_ops (hist i) (new_metrics start))) in
  let log i := snd (run_ops (hist i) (new_metrics start)) in
  (scrape "axionvera_uptime_seconds" page = Some ((now - start) / 1000) /\
   scrape "axionvera_http_requests_total" page = Some (as_u64 (sumZ requests_in (hist 1%nat))) /\
   scrape "axionvera_active_connections" page = Some (last_set active_set (hist 2%nat)) /\
   scrape "axionvera_errors_total" page = Some (as_u64 (sumZ errors_in (hist 3%nat))) /\
   scrape "axionvera_bytes_sent_total" page = Some (as_u64 (sumZ sent_in (hist 4%nat))) /\
   scrape "axionvera_bytes_received_total" page = Some (as_u64 (sumZ received_in (hist 5%nat))) /\
   scrape "axionvera_pending_transactions_total" page = Some (last_set pending_set (hist 6%nat)) /\
   scrape "axionvera_transaction_queue_depth" page = Some (last_set pending_set (hist 7%nat)) /\
   scrape "process_memory_bytes" page = Some 0) /\
  (forall i, recorded "http_requests_total" (log i) = sumZ requests_in (hist i) /\
     recorded "errors_total" (log i) = sumZ errors_in (hist i) /\
     recorded "bytes_sent_total" (log i) = sumZ sent_in (hist i) /\
     recorded "bytes_received_total" (log i) = sumZ received_in (hist i)).
Proof.
  intros Hs Hu Hok page log. split.
  - pose proof (page_reads start now hist _ Hs Hu Hok (fun i => run_holds start (hist i))) as Hp.
    cbn [fmap list_fmap sample_names] in Hp. repeat apply cons_inj in Hp as [? Hp]. by split_and!.
  - intros i. unfold log. split_and!; apply recorded_run; intros [] m; unfold recorded, sumZ;
    cbn -[decide]; repeat case_decide; done || lia.
Qed.

(** ** Witness: a queue that changes between the two loads of its depth *)

Definition busy_history (i : nat) : list MetricOp :=
  [IncrementRequests; AddBytesSent u64_max; AddBytesSent 3; SetPendingTransactions 4] ++
  (if (i <? 7)%nat then [] else [SetPendingTransactions 9]).

Lemma metrics_page_exact_witness :
  let page := get_prometheus_metrics 61500 (fun i => fst (run_ops (busy_history i) (new_metrics 1000))) in
  scrape "axionvera_uptime_seconds" page = Some 60 /\
  scrape "axionvera_bytes_sent_total" page = Some 2 /\
  scrape "axionvera_pending_transactions_total" page = Some 4 /\
  scrape "axionvera_transaction_queue_depth" page = Some 9.
Proof.
  destruct (metrics_page_exact 1000 61500 busy_history) as [(Hu & _ & _ & _ & Hb & _ & Hp & Hq & _) _].
  - lia.
  - vm_compute. discriminate.
  - intros i. unfold busy_history. destruct (i <? 7)%nat; repeat constructor; cbn; unfold u64_max; lia.
  - split; [exact Hu|]. split; [exact Hb|]. split; [exact Hp|exact Hq].
Defined.
