(* ===== verification/Profiling.v ===== *)
(** network-node/src/profiling.rs: timing of operations, the benchmarks built on it
    and the comparison of their summaries.

    Instants are nanoseconds and dates milliseconds; the id a result gets, the
    process id and the random draws are arguments, and so is the order in which the
    map of benchmarks is iterated.  The connections of the database benchmark
    ([get_connection], [execute_query]) are declared nowhere in the repository and
    are functions of a world.  Counters are unsigned 64-bit integers that wrap, as
    they do in a release build. *)
From Stdlib Require Import SpecFloat.
From stdpp Require Import base gmap list strings pretty.
From S2P Require Import Prelude Floats NetworkErrors CryptoPool P2P.

(** ** Results *)

Record CpuMetrics : Type := mkCpu {
  process_id : Z;
  cpu_usage_percent : f64;
  user_time_ms : Z;
  system_time_ms : Z;
  memory_usage_mb : f64;
  cpu_timestamp : Z }.

Record BenchmarkResult : Type := mkBenchmark {
  b_id : string;
  b_operation : string;
  duration_ms : Z;
  throughput_ops_per_sec : f64;
  cpu_metrics : CpuMetrics;
  success_count : Z;
  error_count : Z;
  b_timestamp : Z }.

(** What a result takes from its surroundings: the id it gets, the id of the
    process, and the dates of its metrics and of itself. *)
Record Stamp : Type := mkStamp { st_uuid : string; st_pid : Z; st_cpu_now : Z; st_now : Z }.

Definition default_cpu (pid now : Z) : CpuMetrics := mkCpu pid f64_zero 0 0 f64_zero now.

(** Operations per second, for a count and a duration in milliseconds. *)
Definition throughput (count ms : Z) : f64 :=
  if ms >? 0 then f64_div (f64_of_u64 count) (f64_div (f64_of_u64 ms) (f64_of_u64 1000)) else f64_zero.

Definition new_benchmark (st : Stamp) (operation : string) (ms successes errors : Z) : BenchmarkResult :=
  mkBenchmark (st_uuid st) operation ms (throughput successes ms) (default_cpu (st_pid st) (st_cpu_now st))
    successes errors (st_now st).

(** [get_cpu_metrics]: simulated values, from four random draws. *)
Definition get_cpu_metrics (pid now : Z) (usage : f64) (user system : Z) (memory : f64) : CpuMetrics :=
  mkCpu pid (f64_mul usage (f64_of_u64 100)) user system (f64_mul memory (f64_of_u64 1024)) now.

(** ** The profiler *)

Record PerformanceProfiler : Type := mkProfiler {
  benchmarks : gmap string BenchmarkResult;
  current_operations : gmap string Z }.

Definition new_profiler : PerformanceProfiler := mkProfiler ∅ ∅.

Implicit Types p : PerformanceProfiler.

Definition start_operation (operation_id : string) (now : Z) p : result NetworkError unit * PerformanceProfiler :=
  (Ok tt, mkProfiler (benchmarks p) (<[operation_id := now]> (current_operations p))).

(** [end_time.duration_since(start_time).as_millis() as u64]; [duration_since]
    saturates at zero. *)
Definition elapsed_ms (started ended : Z) : Z := as_u64 (Z.max 0 (ended - started) / 1000000).

Definition end_operation (operation_id : string) (successes errors : Z) (now : Z) (st : Stamp) p
    : result NetworkError BenchmarkResult * PerformanceProfiler :=
  match current_operations p !! operation_id with
  | None => (Err (NE_Validation ("Operation " +:+ operation_id +:+ " not found")), p)
  | Some started =>
      let r := new_benchmark st operation_id (elapsed_ms started now) successes errors in
      (Ok r, mkProfiler (<[operation_id := r]> (benchmarks p)) (delete operation_id (current_operations p)))
  end.

Definition get_benchmarks p : gmap string BenchmarkResult := benchmarks p.
Definition get_benchmark (operation_id : string) p : option BenchmarkResult := benchmarks p !! operation_id.
Definition clear_benchmarks p : PerformanceProfiler := mkProfiler ∅ (current_operations p).

(** ** Summaries *)

Record PerformanceSummary : Type := mkSummary {
  total_operations : Z;
  total_duration_ms : Z;
  total_successes : Z;
  total_errors : Z;
  average_throughput_ops_per_sec : f64;
  error_rate_percent : f64 }.

(** [Iterator::sum] on [u64]. *)
Definition sum_u64 (f : BenchmarkResult -> Z) (l : list BenchmarkResult) : Z :=
  fold_left (fun acc b => as_u64 (acc + f b)) l 0.

Definition error_rate (successes errors : Z) : f64 :=
  if as_u64 (successes + errors) >? 0
  then f64_mul (f64_div (f64_of_u64 errors) (f64_of_u64 (as_u64 (successes + errors)))) (f64_of_u64 100)
  else f64_zero.

(** [values] are the values of the map, in the order it is iterated. *)
Definition get_performance_summary (values : list BenchmarkResult) : PerformanceSummary :=
  let total_duration := sum_u64 duration_ms values in
  let successes := sum_u64 success_count values in
  let errors := sum_u64 error_count values in
  mkSummary (Z.of_nat (length values)) total_duration successes errors
    (throughput successes total_duration) (error_rate successes errors).

Record PerformanceComparison : Type := mkComparison {
  throughput_improvement_percent : f64;
  error_rate_change_percent : f64;
  before_throughput : f64;
  after_throughput : f64;
  before_error_rate : f64;
  after_error_rate : f64 }.

Definition compare_performance (before after : PerformanceSummary) : PerformanceComparison :=
  let x := average_throughput_ops_per_sec before in
  let y := average_throughput_ops_per_sec after in
  mkComparison
    (if f64_gt x f64_zero then f64_mul (f64_div (f64_sub y x) x) (f64_of_u64 100) else f64_zero)
    (f64_sub (error_rate_percent after) (error_rate_percent before))
    x y (error_rate_percent before) (error_rate_percent after).

Definition summary (c : PerformanceComparison) : string :=
  "Throughput: " +:+ format_fixed 2 (before_throughput c) +:+ " -> " +:+ format_fixed 2 (after_throughput c) +:+
  " ops/sec (" +:+ format_fixed 1 (throughput_improvement_percent c) +:+ "% improvement), Error rate: " +:+
  format_fixed 2 (before_error_rate c) +:+ "% -> " +:+ format_fixed 2 (after_error_rate c) +:+ "% (" +:+
  format_fixed 1 (error_rate_change_percent c) +:+ "% change)".

(** ** Benchmarks

    Each counts the outcomes of its inputs between a start and an end; [t0] and
    [t1] are the instants of the two, and [st] stamps the result. *)

(** [success_count += 1] or [error_count += 1]. *)
Definition count_outcome (ok : bool) (sc : Z * Z) : Z * Z :=
  if ok then (as_u64 (fst sc + 1), snd sc) else (fst sc, as_u64 (snd sc + 1)).

(** The frame the three benchmarks share: start, body, end with [?]. *)
Definition timed (operation_id : string) (t0 t1 : Z) (st : Stamp) (counts : Z * Z) p
    : result NetworkError (list BenchmarkResult) * PerformanceProfiler :=
  let '(_, p1) := start_operation operation_id t0 p in
  match end_operation operation_id (fst counts) (snd counts) t1 st p1 with
  | (Ok r, p2) => (Ok [r], p2)
  | (Err x, p2) => (Err x, p2)
  end.

(** A draw below 95 out of 100 is a success. *)
Definition simulate_signature_verification (draw : Z) : result NetworkError unit :=
  if draw <? 95 then Ok tt else Err (NE_Crypto "Simulated verification failure").

(** [draws i] is the random number of the i-th request. *)
Fixpoint verification_loop (draws : nat -> Z) (requests : list SignatureVerificationRequest) (sc : Z * Z)
    : Z * Z :=
  match requests with
  | [] => sc
  | _ :: rest =>
      verification_loop (fun i => draws (S i)) rest
        (count_outcome (is_ok (simulate_signature_verification (draws O))) sc)
  end.

Definition benchmark_signature_verification (uuid : string) (t0 t1 : Z) (st : Stamp) (draws : nat -> Z)
    (requests : list SignatureVerificationRequest) p :=
  timed ("signature-verification-batch-" +:+ uuid) t0 t1 st (verification_loop draws requests (0, 0)) p.

Section Database.
Context {W C : Type} (get_connection : W -> result string C * W)
  (execute_query : C -> string -> W -> result string unit * W).

(** [query_count - n] queries are done when [n] are left. *)
Fixpoint query_loop (i : nat) (n : nat) (sc : Z * Z) (w : W) : (Z * Z) * W :=
  match n with
  | O => (sc, w)
  | S n' =>
      let query := "SELECT " +:+ pretty (Z.of_nat i) +:+ " FROM test_table" in
      let '(ok, w') :=
        match get_connection w with
        | (Ok conn, w1) => let '(r, w2) := execute_query conn query w1 in (is_ok r, w2)
        | (Err _, w1) => (false, w1)
        end in
      query_loop (S i) n' (count_outcome ok sc) w'
  end.

Definition benchmark_database_operations (uuid : string) (t0 t1 : Z) (st : Stamp) (query_count : nat) p (w : W) :=
  let '(sc, w') := query_loop 0 query_count (0, 0) w in
  (timed ("database-operations-" +:+ uuid) t0 t1 st sc p, w').
End Database.

Section Broadcast.
Context {Addr : Type}.

Fixpoint bytes_of (s : string) : list Z :=
  match s with
  | EmptyString => []
  | String c s' => Z.of_N (Ascii.N_of_ascii c) :: bytes_of s'
  end.
Definition as_i32 (z : Z) : Z := (z + 2147483648) mod (u32_max + 1) - 2147483648.

Fixpoint broadcast_loop (m : P2PManager Addr) (i n : nat) (sc : Z * Z) : Z * Z :=
  match n with
  | O => sc
  | S n' =>
      let payload := bytes_of ("Test message " +:+ pretty (Z.of_nat i)) in
      let ok := match broadcast_message (as_i32 (Z.of_nat i)) payload [] 300 m with
                | Ok (recipients, _) => recipients >? 0
                | Err _ => false
                end in
      broadcast_loop m (S i) n' (count_outcome ok sc)
  end.

Definition benchmark_p2p_broadcast (uuid : string) (t0 t1 : Z) (st : Stamp) (m : P2PManager Addr)
    (message_count : nat) p :=
  timed ("p2p-broadcast-" +:+ uuid) t0 t1 st (broadcast_loop m 0 message_count (0, 0)) p.
End Broadcast.

(** The [benchmark_operation!] macro on the outcome of its block: a number of
    successes, or an error. *)
Definition benchmark_operation {E} (name uuid : string) (t0 t1 : Z) (st : Stamp) (block : result E Z) p
    : result NetworkError (result E Z * BenchmarkResult) * PerformanceProfiler :=
  let operation_id := name +:+ "-" +:+ uuid in
  let '(_, p1) := start_operation operation_id t0 p in
  let '(successes, errors) := match block with Ok count => (count, 0) | Err _ => (0, 1) end in
  match end_operation operation_id successes errors t1 st p1 with
  | (Ok r, p2) => (Ok (block, r), p2)
  | (Err x, p2) => (Err x, p2)
  end.

(** ** Histories of a profiler *)

Inductive ProfilerOp : Type :=
| StartOp (id : string) (now : Z)
| EndOp (id : string) (successes errors now : Z) (st : Stamp)
| ClearAll.

Definition profiler_step p (c : ProfilerOp) : PerformanceProfiler :=
  match c with
  | StartOp id now => snd (start_operation id now p)
  | EndOp id s x now st => snd (end_operation id s x now st p)
  | ClearAll => clear_benchmarks p
  end.

(** The specification, for one operation on its own: whether it is running and
    since when, and its recorded result. *)
Definition OpState : Type := option Z * option BenchmarkResult.

Definition op_step (id : string) (s : OpState) (c : ProfilerOp) : OpState :=
  match c, s with
  | StartOp id' now, (_, res) => if decide (id' = id) then (Some now, res) else s
  | EndOp id' ok bad now st, (Some started, _) =>
      if decide (id' = id)
      then (None, Some (new_benchmark st id (elapsed_ms started now) ok bad))
      else s
  | EndOp _ _ _ _ _, (None, _) => s
  | ClearAll, (running, _) => (running, None)
  end.

Definition op_view (id : string) p : OpState := (current_operations p !! id, benchmarks p !! id).

Lemma step_view id p c : op_view id (profiler_step p c) = op_step id (op_view id p) c.
Proof.
  unfold op_view. destruct c as [i now|i ok bad now st|]; cbn -[decide].
  - case_decide; subst; [by rewrite lookup_insert_eq|by rewrite lookup_insert_ne].
  - unfold end_operation. destruct (decide (i = id)) as [->|Hi].
    + destruct (current_operations p !! id) eqn:Hc; cbn -[decide]; [|by rewrite Hc].
      by rewrite lookup_delete_eq, lookup_insert_eq.
    + destruct (current_operations p !! i); cbn -[decide]; rewrite ?lookup_delete_ne, ?lookup_insert_ne by done;
        by destruct (current_operations p !! id).
  - by rewrite lookup_empty.
Qed.

Lemma run_view id cs p :
  op_view id (fold_left profiler_step cs p) = fold_left (op_step id) cs (op_view id p).
Proof. revert p. induction cs as [|c cs IH]; intros p; cbn; [done|]. by rewrite IH, step_view. Qed.

(** The profiler keeps operations apart: after any sequence of starts, ends and
    clears, what it holds for an operation is what a timer and a result cell of
    that operation alone would hold; an end succeeds exactly when the operation is
    running, reports the whole milliseconds since its last start, and stops it, so
    ending twice fails and changes nothing. *)
Theorem profiler_per_operation cs id ok bad now st :
  let p := fold_left profiler_step cs new_profiler in
  op_view id p = fold_left (op_step id) cs (None, None) /\
  match fst (fold_left (op_step id) cs (None, None)), end_operation id ok bad now st p with
  | Some started, (Ok r, p') =>
      duration_ms r = elapsed_ms started now /\ success_count r = ok /\ error_count r = bad /\
      get_benchmark id p' = Some r /\ current_operations p' !! id = None /\
      (forall ok' bad' now' st', exists x, end_operation id ok' bad' now' st' p' = (Err x, p'))
  | None, (Err x, p') => x = NE_Validation ("Operation " +:+ id +:+ " not found") /\ p' = p
  | _, _ => False
  end.
Proof.
  intros p. assert (op_view id p = fold_left (op_step id) cs (None, None)) as Hv by apply run_view.
  split; [done|]. rewrite <- Hv. unfold op_view, end_operation. cbn [fst].
  destruct (current_operations p !! id) as [started|]; cbn [fst]; [|by split].
  split_and!; try done.
  - apply lookup_insert_eq.
  - apply lookup_delete_eq.
  - intros. cbn. rewrite lookup_delete_eq. by eexists.
Qed.

(** ** Benchmarks account for every input *)

(** What [timed] does to a profiler. *)
Lemma timed_spec id t0 t1 st sc p :
  let r := new_benchmark st id (elapsed_ms t0 t1) (fst sc) (snd sc) in
  timed id t0 t1 st sc p =
    (Ok [r], mkProfiler (<[id := r]> (benchmarks p)) (delete id (current_operations p))).
Proof.
  unfold timed, start_operation, end_operation. cbn. rewrite lookup_insert_eq. cbn. f_equal. f_equal.
  by rewrite delete_insert_eq.
Qed.

(** A loop over outcomes. *)
Definition count_outcomes (bs : list bool) (sc : Z * Z) : Z * Z := fold_left (fun sc b => count_outcome b sc) bs sc.
Definition count_true (bs : list bool) : Z := sumZ (fun b : bool => if b then 1 else 0) bs.

Lemma count_true_bound bs : 0 <= count_true bs <= Z.of_nat (length bs).
Proof.
  unfold count_true. induction bs as [|b bs IH]; [done|]. rewrite sumZ_cons. cbn [length].
  destruct b; lia.
Qed.

Lemma tally_exact bs s x :
  0 <= s -> 0 <= x -> s + x + Z.of_nat (length bs) <= u64_max ->
  count_outcomes bs (s, x) = (s + count_true bs, x + (Z.of_nat (length bs) - count_true bs)).
Proof.
  unfold count_outcomes, count_true. revert s x.
  induction bs as [|b bs IH]; intros s x Hs Hx Hl; [cbn; f_equal; lia|].
  cbn [fold_left length] in *. rewrite sumZ_cons. unfold count_outcome.
  destruct b; cbn [fst snd]; rewrite as_u64_id by lia; rewrite IH by lia; f_equal; lia.
Qed.

Lemma verification_tally draws reqs sc :
  verification_loop draws reqs sc = count_outcomes ((fun i => draws i <? 95) <$> seq 0 (length reqs)) sc.
Proof.
  revert draws sc. induction reqs as [|r reqs IH]; intros draws sc; [done|].
  cbn [verification_loop length seq fmap list_fmap]. rewrite IH, <- fmap_S_seq, <- list_fmap_compose.
  unfold count_outcomes. cbn [fold_left]. f_equal. f_equal. unfold simulate_signature_verification.
  by destruct (draws O <? 95).
Qed.

Lemma broadcast_tally {Addr} (m : P2PManager Addr) i n sc :
  broadcast_loop m i n sc = count_outcomes (replicate n (Z.of_nat (size (connected_peers m)) >? 0)) sc.
Proof. revert i sc. induction n as [|n IH]; intros i sc; [done|]. cbn. by rewrite IH. Qed.

Section QueryOutcomes.
Context {W C : Type} (get_connection : W -> result string C * W)
  (execute_query : C -> string -> W -> result string unit * W).

(** Every query is counted, whatever the database does. *)
Lemma query_tally i n sc w :
  exists bs, length bs = n /\ fst (query_loop get_connection execute_query i n sc w) = count_outcomes bs sc.
Proof.
  revert i sc w. induction n as [|n IH]; intros i sc w; [by exists []|]. cbn [query_loop].
  set (attempt := match get_connection w with (Ok conn, w1) => _ | (Err _, w1) => _ end).
  destruct attempt as [ok w']. destruct (IH (S i) (count_outcome ok sc) w') as (bs & <- & ->).
  by exists (ok :: bs).
Qed.

(** Every benchmark runs to an end and accounts for each of its inputs: it
    records one result under its own id, leaves the other results and the running
    operations of other ids alone, and its successes and errors add up to the
    number of inputs.  The simulated verification succeeds for the draws below 95;
    a broadcast counts as a success for every message when some peer is connected,
    and for none otherwise. *)
Theorem benchmarks_account {Addr} uuid t0 t1 st draws (reqs : list SignatureVerificationRequest)
    n (m : P2PManager Addr) p w :
  Z.of_nat (length reqs) <= u64_max -> Z.of_nat n <= u64_max ->
  let recorded id out r := out = (Ok [r], mkProfiler (<[id := r]> (benchmarks p)) (delete id (current_operations p))) /\
    duration_ms r = elapsed_ms t0 t1 in
  (exists r, recorded ("signature-verification-batch-" +:+ uuid)
      (benchmark_signature_verification uuid t0 t1 st draws reqs p) r /\
    success_count r = count_true ((fun i => draws i <? 95) <$> seq 0 (length reqs)) /\
    success_count r + error_count r = Z.of_nat (length reqs)) /\
  (exists r, recorded ("database-operations-" +:+ uuid)
      (fst (benchmark_database_operations get_connection execute_query uuid t0 t1 st n p w)) r /\
    0 <= success_count r /\ 0 <= error_count r /\ success_count r + error_count r = Z.of_nat n) /\
  (exists r, recorded ("p2p-broadcast-" +:+ uuid) (benchmark_p2p_broadcast uuid t0 t1 st m n p) r /\
    success_count r = (if decide (connected_peers m = ∅) then 0 else Z.of_nat n) /\
    success_count r + error_count r = Z.of_nat n).
Proof.
  intros Hr Hn recorded. split_and!.
  - unfold benchmark_signature_verification. rewrite timed_spec, verification_tally, tally_exact;
      [|lia|lia|by rewrite length_fmap, length_seq].
    eexists. split; [by split|]. cbn [success_count error_count new_benchmark fst snd].
    rewrite length_fmap, length_seq. lia.
  - unfold benchmark_database_operations.
    destruct (query_tally 0 n (0, 0) w) as (bs & Hl & Hq). destruct (query_loop _ _ _ _ _ _) as [sc w'].
    cbn [fst] in *. subst sc. rewrite timed_spec, tally_exact by (rewrite ?Hl; lia).
    eexists. split; [by split|]. cbn [success_count error_count new_benchmark fst snd].
    pose proof (count_true_bound bs). lia.
  - unfold benchmark_p2p_broadcast. rewrite timed_spec, broadcast_tally, tally_exact;
      [|lia|lia|by rewrite length_replicate].
    eexists. split; [by split|]. cbn [success_count error_count new_benchmark fst snd].
    rewrite length_replicate. split; [|lia].
    assert (forall b, count_true (replicate n b) = if b then Z.of_nat n else 0) as Hc.
    { intros b. unfold count_true. clear. induction n as [|n IH]; [by destruct b|]. cbn [replicate].
      rewrite sumZ_cons, IH. destruct b; lia. }
    rewrite Hc. case_decide as He.
    + by rewrite He, map_size_empty.
    + apply map_size_non_empty_iff in He. by destruct (Z.gtb_spec (Z.of_nat (size (connected_peers m))) 0); [|lia].
Qed.
End QueryOutcomes.

(** ** Summaries *)

Lemma sum_u64_spec f l : sum_u64 f l = as_u64 (sumZ f l).
Proof.
  unfold sum_u64. change 0 with (as_u64 0) at 1. rewrite <- (Z.add_0_l (sumZ f l)). generalize 0.
  induction l as [|b l IH]; intros acc; cbn [fold_left]; [by rewrite Z.add_0_r|].
  rewrite as_u64_add, IH, sumZ_cons. f_equal. lia.
Qed.

(** The summary does not depend on the order in which the map is iterated: it
    counts the recorded operations and adds up their durations, successes and
    errors modulo 2^64.  It reports no throughput when no time was measured and no
    error rate when nothing was counted, and comparing it with itself shows no
    change. *)
Theorem summary_exact p values :
  values ≡ₚ snd <$> map_to_list (benchmarks p) ->
  let s := get_performance_summary values in
  let total f := as_u64 (sumZ f (snd <$> map_to_list (benchmarks p))) in
  s = mkSummary (Z.of_nat (size (benchmarks p))) (total duration_ms) (total success_count) (total error_count)
        (throughput (total success_count) (total duration_ms))
        (error_rate (total success_count) (total error_count)) /\
  (total duration_ms = 0 -> average_throughput_ops_per_sec s = f64_zero) /\
  (total success_count = 0 -> total error_count = 0 -> error_rate_percent s = f64_zero) /\
  (is_finite (average_throughput_ops_per_sec s) = true -> is_finite (error_rate_percent s) = true ->
   throughput_improvement_percent (compare_performance s s) = f64_zero /\
   error_rate_change_percent (compare_performance s s) = f64_zero).
Proof.
  intros Hp s total.
  assert (s = mkSummary (Z.of_nat (size (benchmarks p))) (total duration_ms) (total success_count)
    (total error_count) (throughput (total success_count) (total duration_ms))
    (error_rate (total success_count) (total error_count))) as Hs.
  { unfold s, get_performance_summary, total. rewrite !sum_u64_spec, !(sumZ_perm _ _ _ Hp).
    by rewrite Hp, length_fmap, length_map_to_list. }
  split; [done|]. split_and!.
  - rewrite Hs. cbn [average_throughput_ops_per_sec]. by intros ->.
  - rewrite Hs. cbn [error_rate_percent]. by intros -> ->.
  - intros Ht He. unfold compare_performance.
    cbn [throughput_improvement_percent error_rate_change_percent].
    rewrite (f64_sub_diag _ He). split; [|done]. destruct (f64_gt _ _) eqn:Hg; [|done].
    by rewrite (f64_sub_diag _ Ht), f64_zero_div.
Qed.

(** ** Witnesses *)

Definition stamp0 : Stamp := mkStamp "u" 42 7 8.
Definition measured : PerformanceProfiler :=
  Eval vm_compute in
  fold_left profiler_step
    [StartOp "a" 0; StartOp "b" 5000000; EndOp "a" 30 10 1500000000 stamp0; EndOp "c" 1 1 9 stamp0;
     EndOp "b" 7 0 505000000 stamp0] new_profiler.

Lemma summary_exact_witness :
  let s := get_performance_summary (snd <$> map_to_list (benchmarks measured)) in
  total_operations s = 2 /\ total_duration_ms s = 2000 /\ total_errors s = 10 /\
  average_throughput_ops_per_sec s = f64_div (f64_of_u64 37) (f64_of_u64 2) /\
  throughput_improvement_percent (compare_performance s s) = f64_zero.
Proof.
  destruct (summary_exact measured _ (reflexivity _)) as (Hs & _ & _ & Hc).
  destruct Hc as [Hc _]; [vm_compute; reflexivity|vm_compute; reflexivity|].
  cbv zeta. split_and!; [..|exact Hc]; vm_compute; reflexivity.
Defined.

Lemma benchmarks_account_witness :
  exists r p', benchmark_p2p_broadcast "x" 0 3000000 stamp0 (new_manager (Addr := unit) (replicate 32 0)) 4 new_profiler
    = (Ok [r], p') /\ success_count r = 0 /\ error_count r = 4.
Proof.
  destruct (benchmarks_account (W := unit) (C := unit) (fun w => (Ok tt, w)) (fun _ _ w => (Ok tt, w)) "x" 0 3000000
    stamp0 (fun _ => 0) [] 4 (new_manager (Addr := unit) (replicate 32 0)) new_profiler tt)
    as (_ & _ & r & [Hr _] & Hs & Ht); [vm_compute; discriminate..|].
  eexists r, _. split; [exact Hr|]. assert (success_count r = 0) as E by exact Hs.
  split; [exact E|]. rewrite E in Ht. exact Ht.
Defined.
