(* ===== verification/VerifyService.v ===== *)
(** [SignatureVerificationService] of network-node/src/crypto.rs: a caller submits
    its requests to the pool of CryptoPool.v and waits for a result.

    The tasks of the pool - workers and the batch loop - run while the caller
    waits; what they do is an argument, constrained to be steps of the pool.  The
    results of all batches come out of one channel. *)
From stdpp Require Import base gmap list strings.
From S2P Require Import Prelude NetworkErrors Signer CryptoPool.

Section Service.
Context `{Ed25519}.
Implicit Types p : CryptoWorkerPool.

(** [verify_batch]: [meanwhile] is the pool after its tasks ran, [closed] whether
    the result channel has no sender left.  [None] while it still waits. *)
Definition verify_batch (alive : bool) (send_error : string) (rs : list SignatureVerificationRequest)
    (meanwhile : CryptoWorkerPool -> CryptoWorkerPool) (closed : bool) p
    : option (result NetworkError BatchVerificationResult) * CryptoWorkerPool :=
  match submit alive send_error rs p with
  | (Err x, p1) => (Some (Err x), p1)
  | (Ok _, p1) =>
      match receive_result (meanwhile p1) with
      | Some (r, p2) => (Some (Ok r), p2)
      | None =>
          (if closed then Some (Err (NE_Crypto "Failed to receive verification result")) else None, meanwhile p1)
      end
  end.

(** [start_result_processor]: the results it logs, in order, until the channel is
    empty. *)
Fixpoint drain_results (n : nat) p : list BatchVerificationResult * CryptoWorkerPool :=
  match n with
  | O => ([], p)
  | S n' =>
      match receive_result p with
      | None => ([], p)
      | Some (r, p') => let '(rs, p2) := drain_results n' p' in (r :: rs, p2)
      end
  end.

(** ** Results only come in at the end *)

Lemma step_results p rs p' : pool_step p rs p' -> batch_results p `prefix_of` batch_results p'.
Proof.
  destruct 1 as [rs p r p' E|el nw p p' _ E|uu el nw to fi p p' E|wo uu el nw to fi p].
  - apply (f_equal snd) in E. cbn in E. subst. destruct (submit_alive "" rs p) as (_ & _ & _ & _ & _ & -> & _). done.
  - unfold worker_turn in E. destruct (queue p); simplify_eq. done.
  - unfold batch_receive in E. destruct (queue p); simplify_eq. case_match; cbn; [by eexists|done].
  - unfold batch_timeout. repeat case_match; cbn; try done. by eexists.
Qed.

Lemma after_results p subs p' : pool_after p subs p' -> batch_results p `prefix_of` batch_results p'.
Proof. induction 1 as [|subs p1 rs p2 _ IH Hs]; [done|]. by etransitivity; [|eapply step_results]. Qed.

(** ** A pool with nothing to do *)

Definition idle p : Prop := queue p = [] /\ batch p = [].

Lemma idle_step p p' : pool_step p [] p' -> idle p -> idle p' /\ batch_results p' = batch_results p.
Proof.
  intros Hs [Hq Hb]. inversion Hs as [rs p0 r p0' E|el nw p0 p0' _ E|uu el nw to fi p0 p0' E|wo uu el nw to fi p0];
    subst.
  - cbn in E. simplify_eq. done.
  - unfold worker_turn in E. by rewrite Hq in E.
  - unfold batch_receive in E. by rewrite Hq in E.
  - unfold batch_timeout. rewrite Hb. done.
Qed.

Lemma idle_after p subs p' :
  pool_after p subs p' -> subs = [] -> idle p -> idle p' /\ batch_results p' = batch_results p.
Proof.
  induction 1 as [|subs p1 rs p2 _ IH Hs]; intros Hn Hi; [done|]. apply app_eq_nil in Hn as [-> ->].
  destruct (IH eq_refl Hi) as [Hi1 Hr]. destruct (idle_step _ _ Hs Hi1) as [Hi2 Hr2]. by rewrite Hr2.
Qed.

Lemma after_trans p subs p1 subs' p2 :
  pool_after p subs p1 -> pool_after p1 subs' p2 -> pool_after p (subs ++ subs') p2.
Proof.
  intros H1. induction 1 as [|subs' q rs q' _ IH Hs]; [by rewrite app_nil_r|].
  rewrite app_assoc. by eapply AfterStep.
Qed.

(** The workers take the whole queue. *)
Lemma workers_drain p :
  0 < worker_count p -> batch p = [] ->
  exists p', pool_after p [] p' /\ idle p' /\ batch_results p' = batch_results p.
Proof.
  remember (length (queue p)) as n eqn:Hn. revert p Hn. induction n as [|n IH]; intros p Hn Hc Hb.
  - exists p. split; [constructor|]. by destruct (queue p) eqn:Hq.
  - destruct (queue p) as [|r rest] eqn:Hq; [done|]. cbn in Hn.
    destruct (worker_turn 0 0 p) as [p1|] eqn:Hw; [|by unfold worker_turn in Hw; rewrite Hq in Hw].
    assert (queue p1 = rest /\ worker_count p1 = worker_count p /\ batch p1 = [] /\
      batch_results p1 = batch_results p) as (Hq1 & Hc1 & Hb1 & Hr1).
    { unfold worker_turn in Hw. rewrite Hq in Hw. by simplify_eq. }
    destruct (IH p1) as (p' & Ha & Hi & Hr); [by rewrite Hq1; lia|by rewrite Hc1|done|].
    exists p'. split; [|by rewrite Hr, Hr1].
    change [] with (@nil SignatureVerificationRequest ++ []). eapply after_trans; [|done].
    change [] with (@nil SignatureVerificationRequest ++ []). by eapply AfterStep, StepWorker; [constructor| |].
Qed.

(** C37. What [verify_batch] answers.  A result that is already in the channel when it
    is called is what it returns, whoever submitted those requests.  Called first
    on a new pool, what it returns reports the first batch the pool formed.  And it
    may never return: whatever is submitted to an idle pool with workers, they can take
    all of it, since they read the same queue as the batch loop, and then no batch
    is ever formed - however long the pool runs, no result comes.  (A pool built
    with no workers verifies nothing outside its batches.) *)
Theorem verify_batch_answers rs subs0 workers size timeout now p :
  pool_after (new_pool workers size timeout now) subs0 p ->
  let p1 := snd (submit true "" rs p) in
  (forall y rest subs p2 closed, batch_results p = y :: rest -> pool_after p1 subs p2 ->
     fst (verify_batch true "" rs (fun _ => p2) closed p) = Some (Ok y)) /\
  (forall subs p2 closed x, pool_after p1 subs p2 ->
     fst (verify_batch true "" rs (fun _ => p2) closed p) = Some (Ok x) ->
     exists b, head (batched p2) = Some b /\ reports b x) /\
  (workers <= 0 -> forall subs p2, pool_after p1 subs p2 -> by_workers p2 = []) /\
  (0 < workers -> batch p = [] -> batch_results p = [] ->
     exists p2, pool_after p1 [] p2 /\ forall p3, pool_after p2 [] p3 ->
       fst (verify_batch true "" rs (fun _ => p3) false p) = None).
Proof.
  intros Hp p1. pose proof (pool_after_workers _ _ _ Hp) as Hcount. cbn in Hcount.
  destruct (submit_alive "" rs p) as (Hok & _ & _ & Hb & _ & Hr & _).
  assert (forall f closed, verify_batch true "" rs f closed p =
    match receive_result (f p1) with
    | Some (r, p2) => (Some (Ok r), p2)
    | None => (if closed then Some (Err (NE_Crypto "Failed to receive verification result")) else None, f p1)
    end) as Hv.
  { intros f closed. unfold verify_batch, p1. destruct (submit true "" rs p) as [r q]. cbn in *. by subst r. }
  split_and!.
  - intros y rest subs p2 closed Hy Ha. rewrite Hv. apply after_results in Ha as [k Hk].
    unfold p1 in Hk. rewrite Hr, Hy in Hk. unfold receive_result. by rewrite Hk.
  - intros subs p2 closed x Ha. rewrite Hv. unfold receive_result.
    assert (pool_after (new_pool workers size timeout now) ((subs0 ++ rs) ++ subs) p2) as Hall.
    { eapply after_trans; [|done]. eapply AfterStep; [done|]. unfold p1.
      destruct (submit true "" rs p) as [r q] eqn:E. by eapply StepSubmit. }
    apply pool_after_ok in Hall as [_ _ Hf _ _ _].
    destruct (batch_results p2) as [|y l] eqn:E; [by destruct closed|]. cbn. intros [= <-].
    destruct (batched p2) as [|b bs]; [inversion Hf|]. inversion Hf; subst. by exists b.
  - intros Hw subs p2 [_ Ha]%pool_after_workers. unfold by_workers. rewrite Ha; unfold p1.
    + destruct (submit_alive "" rs p) as (_ & _ & _ & _ & _ & _ & _ & ->). by rewrite (proj2 Hcount).
    + rewrite submit_workers, (proj1 Hcount). done.
  - intros Hw Hb0 Hr0.
    destruct (workers_drain p1) as (p2 & Ha & Hi & Hr2);
      [unfold p1; rewrite submit_workers, (proj1 Hcount); done|by unfold p1; rewrite Hb|].
    exists p2. split; [done|]. intros p3 H3. rewrite Hv. unfold receive_result.
    destruct (idle_after _ _ _ H3 eq_refl Hi) as [_ ->]. rewrite Hr2. unfold p1. by rewrite Hr, Hr0.
Qed.
End Service.

(** ** Witness: one request to a new pool *)

Lemma verify_batch_answers_witness :
  exists p2, forall p3, pool_after (H := toy_ed25519) p2 [] p3 ->
    fst (verify_batch true "" toy_requests (fun _ => p3) false (new_pool 2 2 100 0)) = None.
Proof.
  destruct (verify_batch_answers (H := toy_ed25519) toy_requests [] 2 2 100 0 (new_pool 2 2 100 0) (AfterNone _))
    as (_ & _ & _ & Hs).
  destruct (Hs eq_refl eq_refl eq_refl) as (p2 & _ & Hn). exists p2. exact Hn.
Defined.
