(* ===== verification/ErrorLog.v ===== *)
(** What the node writes about errors: [log_error] and the handler trait of
    network-node/src/error_middleware.rs, and the validation and contextual errors of
    error.rs.

    A log entry is its level, its text and the fields it carries.  Sending to
    monitoring systems only logs in the source. *)
From stdpp Require Import base sets gmap list strings pretty.
From S2P Require Import Prelude NetworkErrors ErrorMiddleware.

(** ** error.rs *)

Inductive ValidationError : Type :=
| InvalidFormat (s : string)
| MissingField (s : string)
| InvalidValue (field value : string)
| RequestTooLarge (size : Z).

Definition validation_display (x : ValidationError) : string :=
  match x with
  | InvalidFormat s => "Invalid request format: " +:+ s
  | MissingField s => "Missing required field: " +:+ s
  | InvalidValue field value => "Invalid value for field '" +:+ field +:+ "': " +:+ value
  | RequestTooLarge size => "Request size exceeds limit: " +:+ pretty size +:+ " bytes"
  end.

(** A field of a log entry: a text ([%]), or an optional text ([?]). *)
Inductive Field : Type := Shown (s : string) | Debugged (o : option string).

Record LogEntry : Type := mkEntry {
  entry_level : LogLevel;
  entry_text : string;
  entry_fields : list (string * Field) }.

(** [ContextualError]: it prints as its error, and logs its context. *)
Definition contextual_display (x : ContextualError) : string := net_display (ce_error x).
Definition contextual_log (x : ContextualError) : LogEntry :=
  mkEntry LogError "Network error occurred"
    [("operation", Shown (ctx_operation (ce_context x))); ("component", Shown (ctx_component (ce_context x)));
     ("request_id", Debugged (ctx_request_id (ce_context x))); ("error", Shown (net_display (ce_error x)))]%string.

(** ** error_middleware.rs *)

Definition level_text (l : LogLevel) : string :=
  match l with
  | LogError => "Network error occurred"
  | LogWarn => "Network warning occurred"
  | LogInfo => "Network info occurred"
  | LogDebug => "Network debug occurred"
  end.

Definition log_error (x : NetworkError) (ctx : ErrorContext) (r : ErrorRecord) (m : ErrorMiddleware)
    : list LogEntry :=
  match determine_log_level x with
  | Some l =>
      [mkEntry l (level_text l)
        [("error_type", Shown (error_code x)); ("component", Shown (ctx_component ctx));
         ("operation", Shown (ctx_operation ctx));
         ("request_id", Debugged (ctx_request_id ctx)); ("error_id", Shown (rec_id r)); ("error", Shown (net_display x))]%string]
  | None => []
  end ++
  (if log_internal_errors (config m) && bool_decide (is_Some (stack_trace r))
   then [mkEntry LogError "Internal error stack trace"
          [("error_id", Shown (rec_id r)); ("stack_trace", Debugged (stack_trace r))]%string]
   else []).

Definition send_to_monitoring (r : ErrorRecord) : LogEntry :=
  mkEntry LogDebug "Sending error to monitoring systems" [("error_id", Shown (rec_id r))]%string.

(** The [ErrorHandler] trait, and [DefaultErrorHandler], which shares the
    middleware it is made from. *)
Class ErrorHandler (T : Type) : Type := {
  handle : (NetworkError -> string) -> string -> Times -> NetworkError -> ErrorContext -> T -> ContextualError * T }.

Record DefaultErrorHandler : Type := mkDefaultHandler { middleware : ErrorMiddleware }.

#[global] Instance default_error_handler : ErrorHandler DefaultErrorHandler := {
  handle := fun debug_text uuid t x ctx h =>
    let '(e, m) := handle_error debug_text uuid t x ctx (middleware h) in (e, mkDefaultHandler m) }.

(** ** Every error is logged once, under the id it is recorded with *)

(** The log of a handled error: one entry at the error's level, where the level
    is defined (the source's table stops before the cryptographic and later errors),
    followed by its stack trace exactly when internal errors are logged; each entry
    carries the id of the record the middleware now holds last.  A handler made from
    the middleware does the same to it as the middleware itself. *)
Theorem error_logged_once debug_text uuid t x ctx m :
  let r := create_error_record debug_text uuid (t_record t) x ctx m in
  let m' := snd (handle_error debug_text uuid t x ctx m) in
  last (recent_errors (error_stats m')) = Some r /\
  (entry_level <$> log_error x ctx r m =
     option_list (determine_log_level x) ++ (if log_internal_errors (config m) then [LogError] else [])) /\
  Forall (fun en => ("error_id", Shown uuid)%string ∈ entry_fields en)
    (log_error x ctx r m ++ [send_to_monitoring r]) /\
  handle debug_text uuid t x ctx (mkDefaultHandler m) = (mkContextual x ctx, mkDefaultHandler m') /\
  contextual_display (mkContextual x ctx) = rec_message r.
Proof.
  intros r m'. split_and!.
  - unfold m', handle_error. destruct (enable_circuit_breaker _); cbn; apply last_bounded.
  - unfold log_error, r, create_error_record, get_stack_trace. cbn [stack_trace].
    destruct (determine_log_level x), (log_internal_errors (config m)); cbn; done.
  - apply Forall_app. split; [|by repeat constructor]. unfold log_error. apply Forall_app. split.
    + destruct (determine_log_level x); repeat constructor; cbn; set_solver.
    + destruct (_ && _); repeat constructor; cbn; set_solver.
  - cbn [handle default_error_handler middleware]. unfold m'.
    destruct (handle_error debug_text uuid t x ctx m) as [e mm] eqn:E. cbn [snd]. f_equal.
    unfold handle_error in E. by simplify_eq.
  - done.
Qed.
