(* ===== verification/HealthService.v ===== *)
(** The watch stream of network-node/src/grpc/health_service.rs.

    [watch] spawns a task that, on every tick of a five-second interval, probes the
    database and sends the result into a bounded channel whose other end the client
    reads; a full channel suspends the task, a closed one ends it.  The clock, the
    database and the client are events, in any order.

    The source takes a pair from [health_check], which yields a boolean: the boolean
    is read as the first component.  The probe of [check] is in GrpcServer.v. *)
From stdpp Require Import base list strings.
From S2P Require Import Prelude NetworkErrors ChainParams NetworkService GrpcServer.

(** ** One round of the task *)

(** [pool.health_check().await.unwrap_or_else(|_| (false, ..))]. *)
Definition watch_probe (query : result string unit) : bool :=
  match pool_health_check query with Ok b => b | Err _ => false end.

(** [unwrap_or_default]: a clock before the epoch is the epoch. *)
Definition timestamp_or_epoch (now : Clock) : Timestamp :=
  match now with Ok d => mkTimestamp (as_i64 d.1) d.2 | Err _ => mkTimestamp 0 0 end.

Definition watch_response (query : result string unit) (now : Clock) : GrpcHealth :=
  let db_healthy := watch_probe query in
  let overall_status := if db_healthy then Serving else NotServing in
  mkGrpcHealth overall_status
    (match overall_status with
     | Serving => lit "All systems operational"
     | NotServing => lit "Some systems are unhealthy"
     end)
    (Some (timestamp_or_epoch now))
    [(lit "database", if db_healthy then lit "healthy" else lit "unhealthy");
     (lit "memory_usage", lit "45%"); (lit "cpu_usage", lit "23%")].

(** ** The task, the channel and the client *)

Definition channel_capacity : nat := 100.

Inductive WatchTask : Type :=
| WaitingTick
| SendingTo (r : GrpcHealth)
| TaskEnded.

Record Watch : Type := mkWatch {
  w_task : WatchTask;
  w_channel : list GrpcHealth;
  w_open : bool;
  w_received : list GrpcHealth }.

Definition new_watch : Watch := mkWatch WaitingTick [] true [].

Inductive WatchEvent : Type :=
| Tick (query : result string unit) (now : Clock)
| ResumeSend
| ClientRead
| ClientGone.

(** [tx.send(..).await]: an error when the receiver is gone, else the message is
    queued as soon as there is room. *)
Definition try_send (r : GrpcHealth) (s : Watch) : Watch :=
  if negb (w_open s) then mkWatch TaskEnded (w_channel s) (w_open s) (w_received s)
  else if (length (w_channel s) <? channel_capacity)%nat
  then mkWatch WaitingTick (w_channel s ++ [r]) (w_open s) (w_received s)
  else mkWatch (SendingTo r) (w_channel s) (w_open s) (w_received s).

Definition watch_step (s : Watch) (ev : WatchEvent) : option Watch :=
  match ev with
  | Tick query now =>
      match w_task s with
      | WaitingTick => Some (try_send (watch_response query now) s)
      | _ => None
      end
  | ResumeSend => match w_task s with SendingTo r => Some (try_send r s) | _ => None end
  | ClientRead =>
      match w_open s, w_channel s with
      | true, r :: rest => Some (mkWatch (w_task s) rest true (w_received s ++ [r]))
      | _, _ => None
      end
  | ClientGone => if w_open s then Some (mkWatch (w_task s) [] false (w_received s)) else None
  end.

Fixpoint watch_run (evs : list WatchEvent) (s : Watch) : option Watch :=
  match evs with
  | [] => Some s
  | ev :: evs' => s' ← watch_step s ev; watch_run evs' s'
  end.

(** ** What the client sees *)

(** The answers to the probes of a run, in order. *)
Definition probe_of (ev : WatchEvent) : option GrpcHealth :=
  match ev with Tick query now => Some (watch_response query now) | _ => None end.
Definition pending (s : Watch) : list GrpcHealth := match w_task s with SendingTo r => [r] | _ => [] end.

Record watch_ok (probes : list GrpcHealth) (s : Watch) : Prop := mkWatchOk {
  wo_order : if w_open s then probes = w_received s ++ w_channel s ++ pending s
             else w_received s `prefix_of` probes;
  wo_room : (length (w_channel s) <= channel_capacity)%nat;
  wo_alive : w_open s = true -> w_task s <> TaskEnded;
  wo_closed : w_open s = false -> w_channel s = [] }.

Lemma try_send_ok probes r s :
  (if w_open s then probes = w_received s ++ w_channel s else w_received s `prefix_of` probes) ->
  (length (w_channel s) <= channel_capacity)%nat -> (w_open s = false -> w_channel s = []) ->
  watch_ok (probes ++ [r]) (try_send r s).
Proof.
  intros Ho Hr Hc. unfold try_send. destruct (w_open s) eqn:Hw; cbn [negb].
  - subst probes. destruct (Nat.ltb_spec (length (w_channel s)) channel_capacity); split; cbn; try done.
    + by rewrite app_nil_r, app_assoc.
    + rewrite length_app. cbn. lia.
    + by rewrite app_assoc.
  - split; cbn; try done. by apply prefix_app_r.
Qed.

Lemma step_watch_ok probes s ev s' :
  watch_step s ev = Some s' -> watch_ok probes s ->
  watch_ok (probes ++ option_list (probe_of ev)) s'.
Proof.
  intros Hs [Ho Hr Ha Hc]. destruct ev as [q now| | |]; cbn in Hs |- *; rewrite ?app_nil_r.
  - destruct (w_task s) eqn:Ht; simplify_eq. apply try_send_ok; [|done|done].
    unfold pending in Ho. rewrite Ht, app_nil_r in Ho. by destruct (w_open s).
  - destruct (w_task s) as [|r|] eqn:Ht; simplify_eq. unfold pending in Ho. rewrite Ht in Ho.
    destruct (w_open s) eqn:Hw.
    + subst probes. rewrite app_assoc. apply try_send_ok; by rewrite ?Hw.
    + unfold try_send. rewrite Hw. by split; cbn.
  - destruct (w_open s) eqn:Hw; [|done]. destruct (w_channel s) as [|r rest]; simplify_eq.
    split; cbn in *; try done; [by rewrite <- app_assoc|lia].
  - destruct (w_open s) eqn:Hw; simplify_eq. split; cbn; try done; [|lia]. by eexists.
Qed.

Lemma run_watch_ok evs probes s s' :
  watch_run evs s = Some s' -> watch_ok probes s -> watch_ok (probes ++ omap probe_of evs) s'.
Proof.
  revert probes s. induction evs as [|ev evs IH]; cbn; intros probes s Hr Hok.
  { simplify_eq. by rewrite app_nil_r. }
  destruct (watch_step s ev) as [s1|] eqn:Hs; [|done]. cbn in Hr.
  apply step_watch_ok with (probes := probes) in Hs; [|done].
  apply IH with (probes := probes ++ option_list (probe_of ev)) in Hr; [|done].
  destruct (probe_of ev); cbn in *; [by rewrite <- app_assoc in Hr|by rewrite app_nil_r in Hr].
Qed.

Lemma dead_watch_ends s ev s' :
  w_open s = false -> watch_step s ev = Some s' ->
  w_open s' = false /\ w_received s' = w_received s /\ w_channel s' = w_channel s /\ w_task s' = TaskEnded.
Proof.
  intros Hw Hs. destruct ev; cbn in Hs; rewrite ?Hw in Hs; try done;
    destruct (w_task s); simplify_eq; unfold try_send; rewrite Hw; by cbn.
Qed.

(** C34. The watch stream.  Whatever the database, the clock and the client do, a
    client that stays connected receives the results of the probes in order,
    without loss or repetition, at most a channel and one message behind; a client
    that goes away has received a prefix of them, and the task ends at its next
    send.  A streamed result says serving exactly when the query of its probe
    succeeded, while [check] always says serving and all systems operational,
    whatever the query gave; so the two disagree exactly when the database is
    down. *)
Theorem watch_stream_exact evs s query d :
  watch_run evs new_watch = Some s ->
  w_received s `prefix_of` omap probe_of evs /\
  (w_open s = true -> w_task s <> TaskEnded /\
     omap probe_of evs = w_received s ++ w_channel s ++ pending s /\
     (length (omap probe_of evs) <= length (w_received s) + channel_capacity + 1)%nat) /\
  (w_open s = false -> forall ev s', watch_step s ev = Some s' ->
     w_task s' = TaskEnded /\ w_received s' = w_received s) /\
  (he_status (watch_response query (Ok d)) = Serving <-> query = Ok tt) /\
  (exists h, check query (Ok d) = Ok h /\ he_status h = Serving /\
     he_message h = lit "All systems operational" /\
     (h = watch_response query (Ok d) <-> query = Ok tt)).
Proof.
  intros Hr. apply (run_watch_ok _ []) in Hr as [Ho Hroom Ha Hc]; [|by split; cbn; try done; lia].
  cbn [app] in Ho. split_and!.
  - destruct (w_open s); [|done]. rewrite Ho. by eexists.
  - intros Hw. rewrite Hw in Ho. split_and!; [auto|done|]. rewrite Ho, !length_app.
    unfold pending. destruct (w_task s); cbn; lia.
  - intros Hw ev s' Hs. by destruct (dead_watch_ends s ev s' Hw Hs) as (_ & ? & _ & ?).
  - unfold watch_response, watch_probe. destruct query as [[]|]; cbn; naive_solver.
  - unfold check, watch_response, watch_probe. destruct query as [[]|]; cbn; eexists; naive_solver.
Qed.

(** ** Witness: the database fails, recovers, and the client leaves *)

Definition outage : list WatchEvent :=
  [Tick (Ok tt) (Ok (5, 0)); ClientRead; Tick (Err "down"%string) (Ok (10, 0)); ClientRead;
   Tick (Ok tt) (Ok (15, 0)); ClientGone; Tick (Ok tt) (Ok (20, 0))].

Lemma watch_stream_exact_witness :
  exists s, watch_run outage new_watch = Some s /\ w_received s `prefix_of` omap probe_of outage /\
    he_status <$> w_received s = [Serving; NotServing] /\ w_task s = TaskEnded.
Proof.
  eexists. split; [reflexivity|].
  destruct (watch_stream_exact outage _ (Ok tt) (5, 0) eq_refl) as [Hp _].
  split; [exact Hp|]. split; reflexivity.
Defined.
