(* ===== verification/GrpcStart.v ===== *)
(** How the gRPC servers come up: the rest of network-node/src/grpc/server.rs, the
    older server of network-node/src/server.rs, and tls_utils.rs.

    A start parses the address, registers its services, sets TLS up and listens.
    Listening sockets are outside: the class [Sockets] has what the system promises
    about them.  Files and the TLS libraries are the parameters of GrpcServer.v;
    tonic takes the PEM texts, so its acceptance is a function of them. *)
From stdpp Require Import base gmap list strings.
From S2P Require Import Prelude Floats NetworkErrors RateLimiter ChainParams Config P2P NetworkService.
From S2P Require Import GatewayService GrpcServer Metrics.

(** ** The services of a server *)

Record ServiceEntry : Type := mkEntry {
  svc_name : string;
  svc_guarded : bool;
  svc_max_decoding : option Z }.

Definition network_name : string := "axionvera.network.NetworkService".
Definition gateway_name : string := "axionvera.gateway.GatewayService".
Definition vault_name : string := "axionvera.network.VaultService".
Definition health_name : string := "axionvera.network.HealthService".
Definition p2p_name : string := "axionvera.network.P2PService".

(** grpc/server.rs: the services in the order they are added. *)
Definition services : list ServiceEntry :=
  [mkEntry network_name true (Some (4 * 1024 * 1024));
   mkEntry gateway_name true (Some (4 * 1024 * 1024));
   mkEntry vault_name false (Some (1024 * 1024));
   mkEntry health_name false (Some (1024 * 1024));
   mkEntry p2p_name false (Some (8 * 1024 * 1024));
   mkEntry gateway_name true None].

(** server.rs. *)
Definition older_services : list ServiceEntry :=
  [mkEntry network_name false (Some (4 * 1024 * 1024));
   mkEntry gateway_name false (Some (4 * 1024 * 1024));
   mkEntry health_name false (Some (1024 * 1024));
   mkEntry p2p_name false (Some (8 * 1024 * 1024));
   mkEntry gateway_name false None].

(** A path is "/" service "/" method; whether the services of that name are behind
    the interceptor. *)
Definition serves (path : string) (x : ServiceEntry) : bool :=
  match strip_prefix ("/" +:+ svc_name x +:+ "/") path with Some _ => true | None => false end.
Definition guarded_by (table : list ServiceEntry) (path : string) : bool :=
  existsb (serves path) table && forallb (fun x => implb (serves path x) (svc_guarded x)) table.

(** The call of a client at the older server: no interceptor. *)
Section Older.
Context {Addr : Type} (rid uuid : Z) (now : Clock) (ms : Z) (elapsed : Z).

Definition older_dispatch (md : Metadata) (c : Call Addr) (s : NetworkServiceImpl Addr)
    : Outcome * NetworkServiceImpl Addr := handle rid uuid now ms elapsed c s.
End Older.

(** ** The metrics layer *)

(** [MetricsService::call] around an inner call that completes with an answer, or
    is dropped before it does: the request is counted when it comes in, its
    duration when it is answered. *)
Definition metrics_call {S R} (inner : S -> option R * S) (duration : f64) (s : S)
    : option R * S * list Sample :=
  let '(r, s') := inner s in
  (r, s', CounterInc "grpc_requests_total" 1 ::
    match r with Some _ => [Observe "grpc_request_duration_seconds" duration] | None => [] end).

(** ** TLS *)

Section OlderTls.
Context {Cert Key : Type}
  (certs : list Z -> option (list Cert))
  (private_keys : list Z -> option (list Key))
  (add_root : Cert -> result string unit)
  (with_single_cert : list Cert -> Key -> result string unit).

Definition text_err {A} (what : string) (r : result string A) : result string A :=
  match r with Ok a => Ok a | Err x => Err (what +:+ x) end.

Fixpoint add_ca_certs (cs : list Cert) : result string unit :=
  match cs with
  | [] => Ok tt
  | c :: rest => let? _ := text_err "Failed to add CA cert: " (add_root c) in add_ca_certs rest
  end.

(** tls_utils.rs. *)
Definition build_rustls_server_config (cert_pem key_pem : list Z) (client_ca_pem : option (list Z))
    (require_client_auth : bool) : result string TlsMode :=
  let? server_certs := ok_or (certs cert_pem) "Failed to parse server cert PEM"%string in
  match server_certs with
  | [] => Err "No server certificates found in TLS cert data"%string
  | _ =>
      let? keys := ok_or (private_keys key_pem) "Failed to parse TLS private key PEM"%string in
      match keys with
      | [] => Err "No private keys found in TLS key data"%string
      | der_key :: _ =>
          let create := text_err "Failed to create rustls server config: " (with_single_cert server_certs der_key) in
          match client_ca_pem with
          | Some ca_pem =>
              let? parsed := ok_or (certs ca_pem) "Failed to parse client CA PEM"%string in
              match parsed with
              | [] => Err "No CA certificates found in client CA PEM"%string
              | _ =>
                  let? _ := add_ca_certs parsed in
                  let? _ := create in
                  Ok (if require_client_auth then MutualTls else OneWayTls)
              end
          | None => let? _ := create in Ok OneWayTls
          end
      end
  end.
End OlderTls.

(** The connections of the HTTP server under TLS: a failed handshake drops that
    connection only. *)
Definition tls_incoming {S T} (handshake : S -> result string T) (tcp : list (result string S))
    : list (result string T) :=
  omap (fun c => match c with
                 | Ok stream => match handshake stream with Ok t => Some (Ok t) | Err _ => None end
                 | Err x => Some (Err x)
                 end) tcp.

(** The older server: a configured client CA always means client certificates,
    and requiring them without a CA is refused. *)
Definition older_tls (read_to_string : string -> result string (list Z))
    (tonic_accepts : list Z -> list Z -> option (list Z) -> result string unit) (cfg : NetworkConfig)
    : result NetworkError TlsMode :=
  match tls_cert_path cfg, tls_key_path cfg with
  | Some cert_path, Some key_path =>
      let? cert := cfg_err "Failed to read TLS certificate: " (read_to_string cert_path) in
      let? key := cfg_err "Failed to read TLS private key: " (read_to_string key_path) in
      match tls_client_ca_path cfg with
      | Some ca_path =>
          let? ca := cfg_err "Failed to read client CA file: " (read_to_string ca_path) in
          let? _ := cfg_err "Failed to configure TLS: " (tonic_accepts cert key (Some ca)) in
          Ok MutualTls
      | None =>
          if tls_require_client_auth cfg then
            Err (NE_Config
              "TLS client authentication is required but no TLS_CLIENT_CA_PATH is configured")
          else
            let? _ := cfg_err "Failed to configure TLS: " (tonic_accepts cert key None) in
            Ok OneWayTls
      end
  | _, _ => Ok PlainTcp
  end.

(** ** Listening *)

(** What is bound: an address that is bound cannot be bound again. *)
Class Sockets (W Addr : Type) : Type := {
  bind_socket : Addr -> W -> result string W }.
Class SocketsLaws (W Addr : Type) `{!Sockets W Addr} : Prop := {
  bind_exclusive a w w' : bind_socket a w = Ok w' -> exists x, bind_socket a w' = Err x }.

Section Start.
Context {W Addr : Type} `{!Sockets W Addr} (parse_addr : string -> result string Addr).

(** [start] up to the point where the server listens; [tls] is the outcome of its
    TLS set-up.  From there it runs until the shutdown token is cancelled, and
    returns [Ok]. *)
Definition grpc_start (tls : result NetworkError TlsMode) (cfg : NetworkConfig) (w : W)
    : result NetworkError TlsMode * W :=
  match parse_addr (grpc_bind_address cfg) with
  | Err x => (Err (NE_Config ("Invalid gRPC bind address: " +:+ x)), w)
  | Ok addr =>
      match tls with
      | Err x => (Err x, w)
      | Ok mode =>
          match bind_socket addr w with
          | Err x => (Err (NE_Server ("gRPC server failed: " +:+ x)), w)
          | Ok w' => (Ok mode, w')
          end
      end
  end.

(** The task of the HTTP server (enhanced_server.rs): it binds first, then sets TLS
    up; when that fails the listener is dropped. *)
Definition http_listen (addr : Addr) (addr_text : string) (tls : result NetworkError TlsMode) (w : W)
    : result NetworkError TlsMode * W :=
  match bind_socket addr w with
  | Err x => (Err (NE_Server ("Failed to bind to " +:+ addr_text +:+ ": " +:+ x)), w)
  | Ok w' => match tls with Err x => (Err x, w) | Ok mode => (Ok mode, w') end
  end.

Definition health_address : string := "0.0.0.0:50051".

(** The task of the separate health server: an error is only logged. *)
Definition health_server (addr : Addr) (w : W) : bool * W :=
  match bind_socket addr w with Err _ => (false, w) | Ok w' => (true, w') end.

(** [start_with_health_check]: the task is spawned, so either server may listen
    first.  The outcome of [start], and whether the health server is up. *)
Definition start_with_health_check (health_first : bool) (tls : result NetworkError TlsMode)
    (cfg : NetworkConfig) (w : W) : result NetworkError TlsMode * bool * W :=
  match parse_addr health_address with
  | Err x => (Err (NE_Config ("Invalid health check address: " +:+ x)), false, w)
  | Ok a =>
      if health_first then
        let '(up, w1) := health_server a w in
        let '(r, w2) := grpc_start tls cfg w1 in (r, up, w2)
      else
        let '(r, w1) := grpc_start tls cfg w in
        let '(up, w2) := health_server a w1 in (r, up, w2)
  end.

(** The older server (server.rs) starts the same way, with its own TLS set-up; it
    runs until Ctrl-C instead of the shutdown token. *)
Definition older_start (read_to_string : string -> result string (list Z))
    (tonic_accepts : list Z -> list Z -> option (list Z) -> result string unit) (cfg : NetworkConfig) (w : W)
    : result NetworkError TlsMode * W :=
  grpc_start (older_tls read_to_string tonic_accepts cfg) cfg w.

Definition older_start_with_health_check (health_first : bool) (read_to_string : string -> result string (list Z))
    (tonic_accepts : list Z -> list Z -> option (list Z) -> result string unit) (cfg : NetworkConfig) (w : W)
    : result NetworkError TlsMode * bool * W :=
  start_with_health_check health_first (older_tls read_to_string tonic_accepts cfg) cfg w.
End Start.

(** [GrpcGateway::start]: not implemented in the source, it logs the address. *)
Record GrpcGateway : Type := mkGrpcGateway { gg_config : NetworkConfig; grpc_address : string }.
Definition gateway_start (g : GrpcGateway) : result NetworkError unit := Ok tt.

(** ** Theorems *)

(** The interceptor covers every administrative route of the server, and the
    calls modelled as intercepted are those the table of services puts behind it;
    the older server guards none. *)
Lemma admin_routes_guarded :
  (forall path, path ∈ ADMIN_GRPC_PATHS -> guarded_by services path = true /\ guarded_by older_services path = false) /\
  (forall Addr (c : Call Addr), intercepted c = guarded_by services (path_of c)).
Proof.
  split; [|intros Addr []; vm_compute; reflexivity].
  intros path Hp. unfold ADMIN_GRPC_PATHS in Hp. rewrite !elem_of_cons in Hp.
  destruct Hp as [->|[->|[->|[->|Hp]]]]; [split; vm_compute; reflexivity..|set_solver].
Qed.

Lemma dispatch_cases {Addr} sha256_hex rid uuid now ms elapsed a md (c : Call Addr) s :
  dispatch sha256_hex rid uuid now ms elapsed a md c s =
    match (if intercepted c then intercept sha256_hex a (path_of c) md else Ok tt) with
    | Err x => (AuthRefused x, s)
    | Ok _ => handle rid uuid now ms elapsed c s
    end.
Proof. unfold dispatch. by destruct (intercepted c). Qed.

(** The older server against the current one: on a call of an authenticated
    administrator, and on every call that is not administrative, they do the same;
    on any other administrative call the current server refuses and changes
    nothing, and the older one runs the handler - a parameter upgrade submitted
    with no token at all goes to the registry. *)
Theorem older_server_unguarded {Addr} sha256_hex rid uuid now ms elapsed hash md (c : Call Addr) s :
  let a := new_interceptor hash in
  let current := dispatch sha256_hex rid uuid now ms elapsed a md c s in
  let older := older_dispatch rid uuid now ms elapsed md c s in
  let authenticated := exists tok,
    extract_admin_token md = Some tok /\ expected_token_hash a = Some (sha256_hex tok) in
  (is_admin_grpc_route (path_of c) = false \/ authenticated -> older = current) /\
  (is_admin_grpc_route (path_of c) = true -> ~ authenticated ->
     (exists x, current = (AuthRefused x, s)) /\
     forall u p, c = NetParameterUpgrade Addr u -> pu_parameter_patch u = Some p ->
       chain_parameters (snd older) =
         run_op (chain_parameters s) (OSubmit uuid p (pu_activation_epoch_height u)
           (pu_proposer_address u) (pu_dao_voter_addresses u))).
Proof.
  intros a current older authenticated. subst current older. rewrite dispatch_cases. unfold older_dispatch.
  destruct (is_admin_grpc_route (path_of c)) eqn:Hadm.
  - pose proof (intercept_admin sha256_hex a (path_of c) md Hadm) as Hi.
    assert (intercepted c = true) as Hc by (destruct c; try done; by vm_compute in Hadm). rewrite Hc.
    split.
    + intros [?|Ha]; [done|]. by rewrite (proj2 Hi Ha).
    + intros _ Hna. destruct (intercept sha256_hex a (path_of c) md) as [[]|x]; [naive_solver|].
      split; [by eexists|]. intros u p -> Hp. rewrite handle_chain. by rewrite Hp.
  - split; [|done]. intros _. destruct (intercepted c); [|done].
    unfold intercept. rewrite Hadm. done.
Qed.

Section TlsTheorems.
Context {Cert Key : Type} (read_file : string -> result string (list Z))
  (certs : list Z -> option (list Cert))
  (private_keys : list Z -> option (list Key))
  (add_root : Cert -> result string unit)
  (with_single_cert : list Cert -> Key -> result string unit).

(** Same outcome, up to the texts of errors. *)
Definition to_option {E A} (r : result E A) : option A := match r with Ok a => Some a | Err _ => None end.

Lemma add_roots_option cs : to_option (add_roots add_root cs) = to_option (add_ca_certs add_root cs).
Proof. induction cs as [|c cs IH]; [done|]. cbn. by destruct (add_root c) as [[]|]; cbn. Qed.

Lemma to_option_bind {E A B} (r : result E A) (f : A -> result E B) :
  to_option (let? x := r in f x) = to_option r ≫= (fun x => to_option (f x)).
Proof. by destruct r. Qed.

Lemma to_option_cfg {A} what (r : result string A) : to_option (cfg_err what r) = to_option r.
Proof. by destruct r. Qed.

Lemma to_option_text {A} what (r : result string A) : to_option (text_err what r) = to_option r.
Proof. by destruct r. Qed.

Lemma to_option_ok_or {E A} (o : option A) (x : E) : to_option (ok_or o x) = o.
Proof. by destruct o. Qed.

(** What the client CA of a configuration reads as. *)
Definition ca_reads (cfg : NetworkConfig) (ca : option (list Z)) : Prop :=
  match tls_client_ca_path cfg with
  | None => ca = None
  | Some path => exists pem, read_file path = Ok pem /\ ca = Some pem
  end.

Create Rewrite HintDb to_option.
#[local] Hint Rewrite @to_option_bind @to_option_cfg @to_option_text @to_option_ok_or : to_option.

Lemma http_tls_builds cfg cert_path key_path cert key ca :
  tls_cert_path cfg = Some cert_path -> tls_key_path cfg = Some key_path ->
  read_file cert_path = Ok cert -> read_file key_path = Ok key -> ca_reads cfg ca ->
  to_option (http_tls read_file certs private_keys add_root with_single_cert cfg) =
  to_option (build_rustls_server_config certs private_keys add_root with_single_cert cert key ca
    (tls_require_client_auth cfg)).
Proof.
  intros Hcp Hkp Hc Hk Hca. unfold http_tls, ca_reads, build_rustls_server_config in *. rewrite Hcp, Hkp, Hc, Hk.
  unfold server_certs, server_key, rustls_config, need. cbn [cfg_err bindR].
  destruct (certs cert) as [[|c cs]|]; cbn; [done| |done].
  destruct (private_keys key) as [[|k ks]|]; cbn; [done| |done].
  destruct (tls_client_ca_path cfg) as [path|].
  - destruct Hca as (pem & Hp & ->). unfold client_roots, need. rewrite Hp. cbn [cfg_err bindR].
    destruct (certs pem) as [[|r rs]|]; cbn [ok_or bindR non_empty]; [done| |done].
    autorewrite with to_option. rewrite add_roots_option. done.
  - subst ca. by autorewrite with to_option.
Qed.

(** The four TLS set-ups.  [build_rustls_server_config] of tls_utils.rs is what
    the HTTP server does in line: on the same files both fail, or both give the
    same mode.  The older gRPC server differs from the current one in two cases:
    it takes a configured client CA to require client certificates also when the
    configuration does not ask for it, and when client certificates are required
    but no CA is configured it refuses to start, where the current servers fall
    back to one-way TLS. *)
Theorem tls_setups_compared cfg cert_path key_path from_utf8 tonic_tls read_to_string tonic_accepts :
  tls_cert_path cfg = Some cert_path -> tls_key_path cfg = Some key_path ->
  let http := http_tls read_file certs private_keys add_root with_single_cert cfg in
  let grpc := grpc_tls read_file from_utf8 certs private_keys add_root with_single_cert tonic_tls cfg in
  let older := older_tls read_to_string tonic_accepts cfg in
  (forall cert key ca, read_file cert_path = Ok cert -> read_file key_path = Ok key -> ca_reads cfg ca ->
     to_option http = to_option (build_rustls_server_config certs private_keys add_root with_single_cert
       cert key ca (tls_require_client_auth cfg))) /\
  (forall m m', grpc = Ok m -> older = Ok m' ->
     (m' = if decide (tls_client_ca_path cfg = None) then OneWayTls else MutualTls) /\
     (m <> m' <-> tls_client_ca_path cfg <> None /\ tls_require_client_auth cfg = false)) /\
  (tls_client_ca_path cfg = None -> tls_require_client_auth cfg = true ->
     (exists x, older = Err x) /\ forall m, http = Ok m \/ grpc = Ok m -> m = OneWayTls).
Proof.
  intros Hc Hk http grpc older.
  destruct (tls_modes_agree read_file from_utf8 certs private_keys add_root with_single_cert tonic_tls cfg)
    as (Hh & Hg & _). unfold configured_mode in Hh, Hg. rewrite Hc, Hk in Hh, Hg. split_and!.
  - intros cert key ca ? ? ?. by eapply http_tls_builds.
  - intros m m' Hm Ho. apply Hg in Hm. unfold older, older_tls in Ho. rewrite Hc, Hk in Ho.
    destruct (tls_client_ca_path cfg) as [path|], (tls_require_client_auth cfg);
      repeat match goal with H : bindR _ _ = Ok _ |- _ => apply bindR_Ok in H as (? & ? & ?) end;
      simplify_eq; case_decide; naive_solver.
  - intros Hca Hr. rewrite Hca in Hh, Hg. split; [|intros m [Hm|Hm]; [by apply Hh|by apply Hg]].
    unfold older, older_tls. rewrite Hc, Hk, Hca, Hr.
    destruct (cfg_err _ (read_to_string cert_path)) as [?|?]; cbn; [|by eexists].
    destruct (cfg_err _ (read_to_string key_path)) as [?|?]; cbn; by eexists.
Qed.
End TlsTheorems.

(** A client that fails its handshake takes nothing from the others: what is
    served does not depend on it, wherever it comes in. *)
Lemma failed_handshake_isolated {S T} (handshake : S -> result string T) l1 l2 s x :
  handshake s = Err x -> tls_incoming handshake (l1 ++ Ok s :: l2) = tls_incoming handshake (l1 ++ l2).
Proof. intros Hs. unfold tls_incoming. rewrite !omap_app. cbn. by rewrite Hs. Qed.

Section StartTheorems.
Context {W Addr : Type} `{!Sockets W Addr} `{!SocketsLaws W Addr} (parse_addr : string -> result string Addr).

(** The separate health server listens on the default address of the main one:
    with that address, whichever of the two listens first, the other one does not
    come up - either the start fails with a server error, or the node runs without
    its health server, which is only logged. *)
Theorem health_port_conflict health_first tls cfg a w r up w' :
  grpc_bind_address cfg = health_address -> parse_addr health_address = Ok a ->
  start_with_health_check parse_addr health_first tls cfg w = (r, up, w') ->
  (is_ok r = true -> up = false) /\
  (is_ok tls = true -> is_ok (bind_socket a w) = true ->
   up = health_first /\ (health_first = true -> exists x, r = Err (NE_Server ("gRPC server failed: " +:+ x))) /\
   (health_first = false -> r = tls)).
Proof.
  intros Ha Hp. unfold start_with_health_check, grpc_start, health_server. rewrite Ha, Hp.
  destruct (bind_socket a w) as [w1|x] eqn:Hb.
  - destruct (bind_exclusive _ _ _ Hb) as [x Hx].
    destruct health_first, tls as [mode|y]; rewrite ?Hx, ?Hb; intros [= <- <- <-]; cbn; naive_solver.
  - destruct health_first, tls as [mode|y]; rewrite ?Hb; intros [= <- <- <-]; cbn; naive_solver.
Qed.
End StartTheorems.

(** ** Witnesses *)

(** A system with a list of bound addresses. *)
Definition toy_bind (a : string) (w : list string) : result string (list string) :=
  if decide (a ∈ w) then Err "Address already in use"%string else Ok (a :: w).
#[global] Instance toy_sockets : Sockets (list string) string := { bind_socket := toy_bind }.
#[global] Instance toy_sockets_laws : SocketsLaws (list string) string.
Proof.
  split. cbn. unfold toy_bind. intros a w w'. case_decide; intros [= <-].
  rewrite decide_True by set_solver. by eexists.
Qed.

Definition default_env_config : NetworkConfig :=
  env_config (fun _ => None) (fun _ => None) 30 "1" (fun _ => None).

Lemma health_port_conflict_witness :
  exists r w', start_with_health_check Ok true (Ok PlainTcp) default_env_config [] = (r, true, w') /\ is_ok r = false.
Proof.
  destruct (start_with_health_check Ok true (Ok PlainTcp) default_env_config []) as [[r up] w'] eqn:E.
  destruct (health_port_conflict Ok true (Ok PlainTcp) default_env_config health_address [] r up w'
    ltac:(reflexivity) ltac:(reflexivity) E) as [_ H].
  destruct (H ltac:(reflexivity) ltac:(reflexivity)) as (-> & Hr & _).
  destruct (Hr eq_refl) as [x ->]. exists (Err (NE_Server ("gRPC server failed: " +:+ x))), w'.
  split; reflexivity.
Defined.

(** Client certificates required, no CA. *)
Definition no_ca_config : NetworkConfig :=
  env_config (fun _ => None) (fun _ => None) 30 "1"
    (fun k => if decide (k = "TLS_CERT_PATH") then Some "c" else if decide (k = "TLS_KEY_PATH") then Some "k"
              else if decide (k = "TLS_REQUIRE_CLIENT_AUTH") then Some "true" else None)%string.
Definition toy_pem (path : string) : result string (list Z) := Ok [].

Lemma tls_setups_compared_witness :
  http_tls toy_pem (fun _ => Some [tt]) (fun _ => Some [tt]) (fun _ => Ok tt) (fun _ _ => Ok tt) no_ca_config = Ok OneWayTls /\
  exists x, older_tls toy_pem (fun _ _ _ => Ok tt) no_ca_config = Err x.
Proof.
  destruct (tls_setups_compared (Cert := unit) (Key := unit) toy_pem (fun _ => Some [tt]) (fun _ => Some [tt])
    (fun _ => Ok tt) (fun _ _ => Ok tt) no_ca_config "c" "k" (fun _ => Ok tt) (fun _ => Ok tt) toy_pem
    (fun _ _ _ => Ok tt) ltac:(vm_compute; reflexivity) ltac:(vm_compute; reflexivity)) as (_ & _ & H).
  destruct (H ltac:(vm_compute; reflexivity) ltac:(vm_compute; reflexivity)) as [Hx _].
  split; [vm_compute; reflexivity|exact Hx].
Defined.
