(* ===== verification/VaultTvl.v ===== *)
(** network-node/src/grpc/vault_service.rs: the total value locked, read from the
    table of deposits that database.rs creates.

    PostgreSQL is outside: the statements of the node are functions of a world, as
    in Node.v, and the class [DepositsDb] has what the server promises about the
    one table the query reads - its rows, the text of their sum, and that creating
    a table that exists keeps it. *)
From stdpp Require Import base sets list strings pretty.
From S2P Require Import Prelude NetworkErrors ChainParams NetworkService Config Node.

#[global] Instance Statement_eq_dec : EqDecision Statement.
Proof. solve_decision. Defined.

Inductive SqlError : Type := RowNotFound | OtherSqlError (text : string).

Class DepositsDb (W Pg : Type) : Type := {
  Numeric : Type;
  execute_statement : Pg -> Statement -> W -> result string unit * W;
  fetch_tvl : Pg -> W -> result SqlError string * W;
  deposits : W -> option (list Numeric);
  sum_text : list Numeric -> string }.

Class DepositsDbLaws (W Pg : Type) `{!DepositsDb W Pg} : Prop := {
  execute_deposits p q w r w' : execute_statement p q w = (r, w') ->
    deposits w' = match q, r with
                  | CreateDeposits, Ok _ => Some (default [] (deposits w))
                  | _, _ => deposits w
                  end;
  fetch_deposits p w r w' : fetch_tvl p w = (r, w') ->
    deposits w' = deposits w /\
    (forall t, r = Ok t -> exists rows, deposits w = Some rows /\ t = sum_text rows);
  fetch_finds p w w' : fetch_tvl p w = (Err RowNotFound, w') -> deposits w = None;
  sum_text_empty : sum_text [] = "0"%string }.

Section Tvl.
Context {W Pg : Type} `{!DepositsDb W Pg}.

(** [get_tvl] on the pool of the service. *)
Definition get_tvl (c : ConnectionPool Pg) (w : W) : result Status string * W :=
  match fetch_tvl (pg c) w with
  | (Ok tvl, w1) => (Ok tvl, w1)
  | (Err RowNotFound, w1) => (Err (mkStatus NotFoundCode (lit "vault deposits not found")), w1)
  | (Err (OtherSqlError _), w1) => (Err (mkStatus Internal (lit "failed to fetch vault TVL")), w1)
  end.

Fixpoint get_tvl_times (n : nat) (c : ConnectionPool Pg) (w : W) : list (result Status string) * W :=
  match n with
  | O => ([], w)
  | S n' =>
      let '(r, w1) := get_tvl c w in
      let '(rs, w2) := get_tvl_times n' c w1 in (r :: rs, w2)
  end.

Context `{!DepositsDbLaws W Pg}.

Lemma get_tvl_spec c w rows :
  deposits w = Some rows ->
  deposits (snd (get_tvl c w)) = Some rows /\
  (fst (get_tvl c w) = Ok (sum_text rows) \/
   fst (get_tvl c w) = Err (mkStatus Internal (lit "failed to fetch vault TVL"))).
Proof.
  intros Hd. unfold get_tvl. destruct (fetch_tvl (pg c) w) as [r w1] eqn:Hf.
  destruct (fetch_deposits _ _ _ _ Hf) as [Hw Hr].
  destruct r as [t|[|x]]; cbn; (split; [by rewrite Hw|]); [|by apply fetch_finds in Hf; congruence|by right].
  left. destruct (Hr t eq_refl) as (rows' & Hd' & ->). congruence.
Qed.

Lemma run_statements_deposits p qs w w' :
  run_statements execute_statement p qs w = (Ok tt, w') ->
  deposits w' = if decide (CreateDeposits ∈ qs) then Some (default [] (deposits w)) else deposits w.
Proof.
  revert w. induction qs as [|q qs IH]; intros w; cbn [run_statements]; [by intros [= ->]|].
  destruct (execute_statement p q w) as [[[]|x] w1] eqn:Hq; [|done]. intros Hr%IH. rewrite Hr.
  rewrite (execute_deposits _ _ _ _ _ Hq). destruct q; repeat case_decide; set_solver.
Qed.

Lemma new_pool_deposits connect url w c w' :
  (forall cfg u w r w1, connect cfg u w = (r, w1) -> deposits w1 = deposits w) ->
  new_pool connect execute_statement url w = (Ok c, w') ->
  deposits w' = Some (default [] (deposits w)).
Proof.
  intros Hc. unfold new_pool. destruct (database_config_from_url url) as [cfg|]; [|done].
  destruct (connect cfg url w) as [[p|] w1] eqn:Hp; [|done]. unfold initialize_schema. cbn [pg].
  destruct (run_statements _ _ _ w1) as [[[]|] w2] eqn:Hr; [|done]. intros [= <- <-].
  apply run_statements_deposits in Hr. rewrite (Hc _ _ _ _ _ Hp) in Hr. exact Hr.
Qed.

(** The total value locked is what the table held before the node came up: no
    statement of the node writes a deposit, so however often it is asked, the
    service answers the sum of those rows or an internal error, never "not found" -
    and a node on a fresh database reports zero whatever the vault holds. *)
Theorem tvl_never_moves connect url w c w' n :
  (forall cfg u w r w1, connect cfg u w = (r, w1) -> deposits w1 = deposits w) ->
  new_pool connect execute_statement url w = (Ok c, w') ->
  Forall (fun r => r = Ok (sum_text (default [] (deposits w))) \/
                   r = Err (mkStatus Internal (lit "failed to fetch vault TVL")))
    (fst (get_tvl_times n c w')) /\
  (deposits w = None -> sum_text (default [] (deposits w)) = "0"%string).
Proof.
  intros Hc Hn. apply new_pool_deposits in Hn; [|done]. split; [|intros ->; apply sum_text_empty].
  revert w' Hn. induction n as [|n IH]; intros w' Hd; cbn [get_tvl_times]; [constructor|].
  destruct (get_tvl_spec c w' _ Hd) as [Hd' Hr]. destruct (get_tvl c w') as [r w1].
  specialize (IH w1 Hd'). destruct (get_tvl_times n c w1) as [rs w2]. by constructor.
Qed.
End Tvl.

(** ** Witness: a fresh database *)

Definition toy_execute (p : unit) (q : Statement) (w : option (list Z)) : result string unit * option (list Z) :=
  match q with CreateDeposits => (Ok tt, Some (default [] w)) | _ => (Ok tt, w) end.
Definition toy_fetch (p : unit) (w : option (list Z)) : result SqlError string * option (list Z) :=
  match w with
  | Some rows => (Ok (pretty (sumZ id rows)), w)
  | None => (Err (OtherSqlError "relation does not exist"), w)
  end.
#[global] Instance toy_deposits_db : DepositsDb (option (list Z)) unit :=
  { Numeric := Z; execute_statement := toy_execute; fetch_tvl := toy_fetch; deposits := fun w => w;
    sum_text := fun rows => pretty (sumZ id rows) }.
#[global] Instance toy_deposits_db_laws : DepositsDbLaws (option (list Z)) unit.
Proof.
  split; cbn.
  - intros p q w r w'. destruct q; cbn; by intros [= <- <-].
  - intros p w r w'. destruct w as [rows|]; cbn; intros [= <- <-]; naive_solver.
  - intros p w w'. destruct w; by intros [=].
  - reflexivity.
Qed.

Lemma tvl_never_moves_witness :
  exists c w', new_pool (fun _ _ w => (Ok tt, w)) execute_statement "db" (None : option (list Z)) = (Ok c, w') /\
    Forall (fun r => r = Ok "0"%string \/ r = Err (mkStatus Internal (lit "failed to fetch vault TVL")))
      (fst (get_tvl_times 2 c w')).
Proof.
  eexists _, _. split; [reflexivity|].
  destruct (tvl_never_moves (fun _ _ w => (Ok tt, w)) "db" (None : option (list Z)) (mkPool tt default_database_config)
    (Some []) 2 ltac:(intros ? ? ? ? ? [= _ ->]; reflexivity) eq_refl) as [Hf _].
  exact Hf.
Defined.
