(* ===== verification/HttpRoutes.v ===== *)
(** The router of network-node/src/enhanced_server.rs, its handlers, and
    memory_profiling.rs behind two of them.

    The table of routes is the one [start] builds; a request that no layer refused
    is matched against it and handled.  What a handler reads at that moment - the
    clock, the query of the health check, the sizes of the pool, the query string -
    is in a [Moment].  The allocator's control interface (jemalloc) is a function of
    a world, and the printing of dates is a parameter.  The handlers [sync_snapshot]
    (StateTrie.v) and [p2p_ping] are in no table. *)
From Stdlib Require Import Ascii.
From stdpp Require Import base gmap list strings pretty.
From S2P Require Import Prelude NetworkErrors Tasks RateLimiter ErrorMiddleware HorizonClient P2P.
From S2P Require Import SorobanRpc HttpServer GrpcServer Stellar Metrics.

(** ** Matching *)

Inductive Method : Type := MGet | MHead | MPost | MOther.

#[global] Instance Method_eq_dec : EqDecision Method.
Proof. solve_decision. Defined.

Inductive RouteName : Type :=
| RHealth | RReady | RMetrics | RErrorStats | RBreakers | RLiveness | RReadiness
| RAccount | RLatestLedger | RProviders | RSwitch | RMemoryDump | RMemoryStats.

#[global] Instance RouteName_eq_dec : EqDecision RouteName.
Proof. solve_decision. Defined.

(** The routes in the order they are added. *)
Definition route_table : list (string * Method * RouteName) :=
  [("/health", MGet, RHealth);
   ("/ready", MGet, RReady);
   ("/metrics", MGet, RMetrics);
   ("/error-stats", MGet, RErrorStats);
   ("/circuit-breaker-status", MGet, RBreakers);
   ("/health/liveness", MGet, RLiveness);
   ("/health/readiness", MGet, RReadiness);
   ("/stellar/account/:account_id", MGet, RAccount);
   ("/stellar/ledger/latest", MGet, RLatestLedger);
   ("/stellar/providers/status", MGet, RProviders);
   ("/stellar/providers/switch", MPost, RSwitch);
   ("/admin/memory/dump", MPost, RMemoryDump);
   ("/admin/memory/stats", MGet, RMemoryStats)]%string.

(** The parts of a path between slashes. *)
Fixpoint segments (s : string) : list string :=
  match s with
  | EmptyString => [""]%string
  | String c s' =>
      if Ascii.eqb c "/"%char then ""%string :: segments s'
      else match segments s' with [] => [String c ""] | x :: l => String c x :: l end
  end.

(** A segment that starts with a colon captures a non-empty segment. *)
Fixpoint match_segments (pattern path : list string) : option (list string) :=
  match pattern, path with
  | [], [] => Some []
  | String ":" _ :: ps, x :: xs => if decide (x = "") then None else cons x <$> match_segments ps xs
  | p :: ps, x :: xs => if decide (p = x) then match_segments ps xs else None
  | _, _ => None
  end.
Definition match_path (pattern path : string) : option (list string) :=
  match_segments (segments pattern) (segments path).

Inductive Matched : Type :=
| Routed (r : RouteName) (captures : list string)
| MethodNotAllowed
| RouteNotFound.

(** A [get] route also takes HEAD requests. *)
Definition accepts (m : Method) (meth : Method) : bool :=
  bool_decide (m = meth) || bool_decide (m = MGet /\ meth = MHead).

Fixpoint find_route (table : list (string * Method * RouteName)) (meth : Method) (path : string) : Matched :=
  match table with
  | [] => RouteNotFound
  | (pattern, m, r) :: rest =>
      match match_path pattern path with
      | Some caps => if accepts m meth then Routed r caps else MethodNotAllowed
      | None => find_route rest meth path
      end
  end.
Definition route : Method -> string -> Matched := find_route route_table.

(** ** The allocator (memory_profiling.rs) *)

Record Allocator (A : Type) : Type := mkAllocator {
  prof_dump : string -> A -> result string unit * A;
  epoch_advance : A -> result string unit * A;
  stats_read : string -> A -> result string Z }.
Arguments prof_dump {A} a. Arguments epoch_advance {A} a. Arguments stats_read {A} a.

Section Memory.
Context {A : Type} (profiling : option (Allocator A)).
Implicit Types w : A.

(** [CString::new]: no NUL inside. *)
Fixpoint nul_free (s : string) : bool :=
  match s with
  | EmptyString => true
  | String c s' => negb (Ascii.eqb c "000"%char) && nul_free s'
  end.

(** [profiling] is the crate feature: without it the functions are dummies.
    [nul_text] is what the error of [CString::new] prints. *)
Definition dump_memory_stats (nul_text : string -> string) (path : string) w : result string unit * A :=
  match profiling with
  | None => (Err "Profiling feature not enabled. Recompile with --features profiling to use this endpoint."%string, w)
  | Some al =>
      if nul_free path then
        match prof_dump al path w with
        | (Ok _, w') => (Ok tt, w')
        | (Err x, w') => (Err ("Jemalloc error: " +:+ x), w')
        end
      else (Err ("Invalid path: " +:+ nul_text path), w)
  end.

Definition read_stat (al : Allocator A) (name : string) w : result string Z :=
  match stats_read al name w with
  | Ok n => Ok n
  | Err x => Err ("Failed to read " +:+ name +:+ " stats: " +:+ x)
  end.

Definition get_memory_stats w : result string string * A :=
  match profiling with
  | None => (Err "Profiling feature not enabled."%string, w)
  | Some al =>
      match epoch_advance al w with
      | (Err x, w1) => (Err ("Failed to advance jemalloc epoch: " +:+ x), w1)
      | (Ok _, w1) =>
          (let? allocated := read_stat al "allocated" w1 in
           let? active := read_stat al "active" w1 in
           let? metadata := read_stat al "metadata" w1 in
           let? resident := read_stat al "resident" w1 in
           let? mapped := read_stat al "mapped" w1 in
           let? retained := read_stat al "retained" w1 in
           Ok ("Jemalloc Stats:" +:+ String newline "- Allocated: " +:+ pretty allocated +:+ " bytes" +:+
               String newline "- Active: " +:+ pretty active +:+ " bytes" +:+
               String newline "- Metadata: " +:+ pretty metadata +:+ " bytes" +:+
               String newline "- Resident: " +:+ pretty resident +:+ " bytes" +:+
               String newline "- Mapped: " +:+ pretty mapped +:+ " bytes" +:+
               String newline "- Retained: " +:+ pretty retained +:+ " bytes"), w1)
      end
  end.
End Memory.

(** ** The handlers *)

Record AppState (W A : Type) : Type := mkApp {
  app_metrics : MetricsCollector;
  app_horizon : HorizonClient W;
  app_stellar : StellarMetrics;
  app_errors : ErrorMiddleware;
  app_accepting : bool;
  app_heap : A }.
Arguments mkApp {W A} _ _ _ _ _ _.
Arguments app_metrics {W A} _. Arguments app_horizon {W A} _. Arguments app_stellar {W A} _.
Arguments app_errors {W A} _. Arguments app_accepting {W A} _. Arguments app_heap {W A} _.

Record Moment : Type := mkMoment {
  clock_ms : Z;
  db_query : result string unit;
  pool_size : Z;
  pool_idle : Z;
  params : gmap string string }.

Inductive RouteBody : Type :=
| RJson (j : Json)
| RText (s : string)
| RValue (v : Value)
| RProvidersPage (p : ProvidersPage)
| REmpty.

Section Handlers.
Context {W A : Type} (profiling : option (Allocator A)) (nul_text : string -> string)
  (rfc3339 : Z -> string) (version : string).
Context (now : W -> Z) (send : Request -> W -> result string HttpResponse * W) (status_text : Z -> string)
  (account_of : Stellar.Json -> result string Account) (transaction_of : Stellar.Json -> result string Transaction)
  (ledger_of : Stellar.Json -> result string Ledger)
  (parse_json : string -> result string Stellar.Json).
Implicit Types (s : AppState W A) (mo : Moment).

#[local] Abbreviation stellar_query := (query now send status_text account_of transaction_of ledger_of parse_json).

Definition set_metrics (m : MetricsCollector) s : AppState W A :=
  mkApp m (app_horizon s) (app_stellar s) (app_errors s) (app_accepting s) (app_heap s).
Definition set_stellar (c : HorizonClient W) (m : StellarMetrics) s : AppState W A :=
  mkApp (app_metrics s) c m (app_errors s) (app_accepting s) (app_heap s).
Definition set_heap (w : A) s : AppState W A :=
  mkApp (app_metrics s) (app_horizon s) (app_stellar s) (app_errors s) (app_accepting s) w.

Definition timestamp_field mo : string * Json := ("timestamp"%string, JString (rfc3339 (clock_ms mo))).

Definition health_check_page mo : Json :=
  JObject [("status", JString "healthy"); timestamp_field mo; ("version", JString version)]%string.

Definition health_liveness mo : Z * Json :=
  (200, JObject [("status", JString "alive"); timestamp_field mo]%string).

(** [health_readiness]: the decision and the reasons are those of GrpcServer.v. *)
Definition readiness_page mo s : Z * Json :=
  let '(code, reasons) := health_readiness (db_query mo) (app_accepting s) in
  (code,
   JObject (if (code =? 200)%Z
            then [("status", JString "ready"); ("database", JString "connected");
                  ("accepting_connections", JBool true); timestamp_field mo]
            else [("status", JString "not ready"); ("reasons", JArray (JString <$> reasons));
                  ("database", JString (match db_query mo with Ok _ => "connected" | Err _ => "disconnected" end));
                  ("accepting_connections", JBool (app_accepting s)); timestamp_field mo]))%string.

Definition ready_page mo : Json :=
  let healthy := match db_query mo with Ok _ => true | Err _ => false end in
  JObject [("ready", JBool (ready_check (db_query mo) (pool_size mo) (pool_idle mo)));
           ("database_healthy", JBool healthy);
           ("active_connections", JNumber (as_u32 (pool_size mo - pool_idle mo)));
           timestamp_field mo]%string.

(** [metrics_endpoint]: the scrape counts itself, then prints the page. *)
Definition metrics_endpoint mo s : string * AppState W A :=
  let '(m, _) := increment_requests (app_metrics s) in
  (get_prometheus_metrics (clock_ms mo) (fun _ => m), set_metrics m s).

Definition counts_json (m : gmap string Z) : Json := JObject (prod_map id JNumber <$> map_to_list m).
Definition error_stats_json s : Json :=
  let '(total, by_type, by_component, recent, updated) := error_stats_page (app_errors s) in
  JObject [("total_errors", JNumber total); ("errors_by_type", counts_json by_type);
           ("errors_by_component", counts_json by_component); ("recent_errors_count", JNumber recent);
           ("last_updated", JString (rfc3339 updated))]%string.

Definition breakers_json mo s : Json :=
  JObject [("circuit_breakers",
            JObject (prod_map id JString <$> map_to_list (circuit_breaker_status (app_errors s))));
           timestamp_field mo]%string.

(** The error responses of the stellar routes. *)
Definition stellar_error (x : NetworkError) : Z * RouteBody :=
  (status_from_u16 (http_status_code x),
   RJson (JObject [("error", JString (error_code x)); ("message", JString (net_display x))]%string)).

(** [get_stellar_account], [get_latest_ledger]. *)
Definition stellar_route (q : Query) s : option (Z * RouteBody) * AppState W A :=
  match stellar_query q (app_horizon s) (app_stellar s) with
  | (Ret (Ok v) c, m) => (Some (200, RValue v), set_stellar c m s)
  | (Ret (Err x) c, m) => (Some (stellar_error x), set_stellar c m s)
  | (Blocked c, m) => (None, set_stellar c m s)
  end.

Definition get_horizon_providers_status s : option (Z * RouteBody) * AppState W A :=
  match get_provider_status (app_horizon s) with
  | Ret (Ok l) c => (Some (200, RProvidersPage (providers_page l)), set_stellar c (app_stellar s) s)
  | Ret (Err x) c => (Some (stellar_error x), set_stellar c (app_stellar s) s)
  | Blocked c => (None, set_stellar c (app_stellar s) s)
  end.

Definition switch_horizon_provider s : option (Z * RouteBody) * AppState W A :=
  match switch_provider (app_horizon s) with
  | Ret (Ok p) c =>
      (Some (200, RJson (JObject
        [("message", JString "Successfully switched to backup provider");
         ("provider", JObject [("name", JString (name p)); ("url", JString (url p));
                               ("priority", JNumber (priority p))])]%string)), set_stellar c (app_stellar s) s)
  | Ret (Err x) c => (Some (stellar_error x), set_stellar c (app_stellar s) s)
  | Blocked c => (None, set_stellar c (app_stellar s) s)
  end.

(** [memory_dump]: the file is the one the client names. *)
Definition dump_path mo : string :=
  default ("heap_dump_" +:+ pretty (clock_ms mo / 1000) +:+ ".prof") (params mo !! "path"%string).
Definition memory_dump mo s : (Z * Json) * AppState W A :=
  let path := dump_path mo in
  match dump_memory_stats profiling nul_text path (app_heap s) with
  | (Ok _, w) =>
      ((200, JObject [("status", JString "success"); ("message", JString ("Memory dump written to " +:+ path));
                      ("path", JString path)]%string), set_heap w s)
  | (Err x, w) => ((500, JObject [("status", JString "error"); ("message", JString x)]%string), set_heap w s)
  end.

Definition memory_stats s : (Z * Json) * AppState W A :=
  match get_memory_stats profiling (app_heap s) with
  | (Ok stats, w) => ((200, JObject [("status", JString "success"); ("stats", JString stats)]%string), set_heap w s)
  | (Err x, w) => ((501, JObject [("status", JString "error"); ("message", JString x)]%string), set_heap w s)
  end.

Definition json_answer (r : Z * Json) : option (Z * RouteBody) := Some (fst r, RJson (snd r)).

Definition handle_route (r : RouteName) (captures : list string) mo s : option (Z * RouteBody) * AppState W A :=
  match r with
  | RHealth => (json_answer (200, health_check_page mo), s)
  | RReady => (json_answer (200, ready_page mo), s)
  | RMetrics => let '(page, s') := metrics_endpoint mo s in (Some (200, RText page), s')
  | RErrorStats => (json_answer (200, error_stats_json s), s)
  | RBreakers => (json_answer (200, breakers_json mo s), s)
  | RLiveness => (json_answer (health_liveness mo), s)
  | RReadiness => (json_answer (readiness_page mo s), s)
  | RAccount => stellar_route (GetAccount (default "" (head captures))) s
  | RLatestLedger => stellar_route GetLatestLedger s
  | RProviders => get_horizon_providers_status s
  | RSwitch => switch_horizon_provider s
  | RMemoryDump => let '(a, s') := memory_dump mo s in (json_answer a, s')
  | RMemoryStats => let '(a, s') := memory_stats s in (json_answer a, s')
  end.

(** A request that passed the layers: [None] when the handler never answers. *)
Definition serve (meth : Method) (path : string) mo s : option (Z * RouteBody) * AppState W A :=
  match route meth path with
  | Routed r captures => handle_route r captures mo s
  | MethodNotAllowed => (Some (405, REmpty), s)
  | RouteNotFound => (Some (404, REmpty), s)
  end.

(** [p2p_ping], which no table routes to. *)
Definition p2p_ping {Addr} (peer : PeerInfo string Addr) (m : P2PManager Addr) : Z * P2PManager Addr :=
  match handle_ping peer m with
  | (Ok _, m') => (200, m')
  | (Err _, m') => (500, m')
  end.

(** ** What a request can change *)

Definition routed_to (meth : Method) (path : string) (l : list RouteName) : bool :=
  match route meth path with Routed r _ => bool_decide (r ∈ l) | _ => false end.

(** Evaluate the membership tests of a concrete route. *)
Ltac eval_routes :=
  repeat match goal with
  | |- context [bool_decide ?P] =>
      let b := eval vm_compute in (bool_decide P) in change (bool_decide P) with b
  end.

(** The parts of the state a request leaves alone. *)
Lemma serve_frame meth path mo s :
  let s' := snd (serve meth path mo s) in
  app_errors s' = app_errors s /\ app_accepting s' = app_accepting s /\
  app_metrics s' = (if routed_to meth path [RMetrics] then fst (increment_requests (app_metrics s)) else app_metrics s) /\
  (routed_to meth path [RMemoryDump; RMemoryStats] = false -> app_heap s' = app_heap s) /\
  (routed_to meth path [RAccount; RLatestLedger; RProviders; RSwitch] = false ->
     app_horizon s' = app_horizon s /\ app_stellar s' = app_stellar s).
Proof.
  cbv zeta. unfold serve, routed_to. destruct (route meth path) as [r caps| |]; [|done..].
  destruct r; cbn [handle_route]; eval_routes; unfold stellar_route, get_horizon_providers_status, switch_horizon_provider,
    memory_dump, memory_stats, metrics_endpoint;
    repeat case_match; simplify_eq; cbn; by split_and!.
Qed.

(** ** Sequences of requests *)

Definition HttpCall : Type := Method * string * Moment.
Definition serve_call s (c : HttpCall) : AppState W A := snd (serve (fst (fst c)) (snd (fst c)) (snd c) s).
Definition is_scrape (c : HttpCall) : bool := routed_to (fst (fst c)) (snd (fst c)) [RMetrics].
Definition scrapes (cs : list HttpCall) : Z := sumZ (fun c => if is_scrape c then 1 else 0) cs.

Lemma run_ops_snoc ops op m : fst (run_ops (ops ++ [op]) m) = fst (metric_op op (fst (run_ops ops m))).
Proof.
  revert m. induction ops as [|o ops IH]; intros m; cbn [app run_ops].
  - cbn [fst]. by destruct (metric_op op m).
  - destruct (metric_op o m) as [m1 l1]. specialize (IH m1).
    destruct (run_ops (ops ++ [op]) m1), (run_ops ops m1). done.
Qed.

(** What a history of scrapes adds up to. *)
Lemma scrape_sums n :
  sumZ requests_in (replicate n IncrementRequests ++ [IncrementRequests]) = Z.of_nat n + 1 /\
  sumZ errors_in (replicate n IncrementRequests ++ [IncrementRequests]) = 0 /\
  sumZ sent_in (replicate n IncrementRequests ++ [IncrementRequests]) = 0 /\
  sumZ received_in (replicate n IncrementRequests ++ [IncrementRequests]) = 0 /\
  last_set active_set (replicate n IncrementRequests ++ [IncrementRequests]) = 0 /\
  last_set pending_set (replicate n IncrementRequests ++ [IncrementRequests]) = 0.
Proof.
  assert (forall f, sumZ f (replicate n IncrementRequests ++ [IncrementRequests]) =
    (Z.of_nat n + 1) * f IncrementRequests) as Hsum.
  { intros f. rewrite sumZ_app. change (sumZ f [IncrementRequests]) with (f IncrementRequests + 0).
    induction n as [|n IH]; [change (sumZ f (replicate 0 IncrementRequests)) with 0; lia|].
    cbn [replicate]. rewrite sumZ_cons. lia. }
  assert (forall f, f IncrementRequests = None ->
    last_set f (replicate n IncrementRequests ++ [IncrementRequests]) = 0) as Hlast.
  { intros f Hf. unfold last_set. rewrite omap_app. cbn. rewrite Hf, app_nil_r. clear Hsum.
    induction n as [|n IH]; [done|]. cbn. by rewrite Hf. }
  rewrite !Hsum. cbn [requests_in errors_in sent_in received_in]. split_and!; try lia; by apply Hlast.
Qed.

Lemma served_metrics cs s :
  app_metrics (fold_left serve_call cs s) =
  fst (run_ops (replicate (Z.to_nat (scrapes cs)) IncrementRequests) (app_metrics s)).
Proof.
  revert s. induction cs as [|c cs IH]; intros s; [done|]. cbn [fold_left]. rewrite IH. clear IH.
  destruct (serve_frame (fst (fst c)) (snd (fst c)) (snd c) s) as (_ & _ & Hm & _).
  unfold serve_call at 1. rewrite Hm. unfold scrapes. rewrite sumZ_cons. fold (scrapes cs). unfold is_scrape.
  assert (0 <= scrapes cs) by (apply sumZ_nonneg; intros; by destruct (is_scrape _)).
  destruct (routed_to _ _ _); [|done].
  rewrite Z2Nat.inj_add by lia. change (Z.to_nat 1) with 1%nat. cbn [Nat.add replicate run_ops metric_op].
  destruct (increment_requests (app_metrics s)) as [m1 l1]. cbn [fst]. by destruct (run_ops _ m1).
Qed.

(** The metrics page shows scrapes, not traffic.  After any requests to a node
    that came up at [start] with a fresh collector, a scrape of /metrics is answered
    200 with a page that reads back as: the number of scrapes so far, itself
    included, under the total of HTTP requests - and zero under active connections,
    errors, bytes and pending transactions, whatever was served. *)
Theorem metrics_page_counts_scrapes cs s meth mo start :
  app_metrics s = new_metrics start -> start <= clock_ms mo -> (clock_ms mo - start) / 1000 <= u64_max ->
  route meth "/metrics" = Routed RMetrics [] ->
  exists page s', serve meth "/metrics" mo (fold_left serve_call cs s) = (Some (200, RText page), s') /\
    scrape "axionvera_uptime_seconds" page = Some ((clock_ms mo - start) / 1000) /\
    scrape "axionvera_http_requests_total" page = Some (as_u64 (scrapes cs + 1)) /\
    Forall (fun name => scrape name page = Some 0)
      ["axionvera_active_connections"; "axionvera_errors_total"; "axionvera_bytes_sent_total";
       "axionvera_bytes_received_total"; "axionvera_pending_transactions_total";
       "axionvera_transaction_queue_depth"; "process_memory_bytes"]%string.
Proof.
  intros Hm Hs Hu Hr. set (n := Z.to_nat (scrapes cs)).
  assert (0 <= scrapes cs) as Hn by (apply sumZ_nonneg; intros; by destruct (is_scrape _)).
  unfold serve. rewrite Hr. cbn [handle_route]. unfold metrics_endpoint.
  rewrite served_metrics, Hm. fold n.
  assert (holds start (replicate n IncrementRequests ++ [IncrementRequests])
    (fst (increment_requests (fst (run_ops (replicate n IncrementRequests) (new_metrics start)))))) as Hh.
  { rewrite <- (run_ops_snoc _ IncrementRequests). apply run_holds. }
  destruct (increment_requests _) as [m l]. cbn [fst] in Hh. eexists _, _. split; [reflexivity|].
  pose proof (page_reads start (clock_ms mo) (fun _ => replicate n IncrementRequests ++ [IncrementRequests])
    (fun _ => m) Hs Hu) as Hp.
  assert (Forall op_ok (replicate n IncrementRequests ++ [IncrementRequests])) as Hok
    by (apply Forall_app; split; [by apply Forall_replicate|by constructor]).
  specialize (Hp (fun _ => Hok) (fun _ => Hh)). cbv beta in Hp. destruct (scrape_sums n) as (H1 & H2 & H3 & H4 & H5 & H6).
  rewrite H1, H2, H3, H4, H5, !H6 in Hp. cbn [fmap list_fmap sample_names] in Hp.
  repeat apply cons_inj in Hp as [? Hp]. split_and!; [done| |].
  - etransitivity; [done|]. do 2 f_equal. unfold n. lia.
  - by repeat constructor.
Qed.

(** ** The background health check takes the stellar routes down *)

Definition stellar_routes : list RouteName := [RAccount; RLatestLedger; RProviders; RSwitch].

Lemma jammed_routes meth path mo s :
  jammed now (app_horizon s) ->
  if routed_to meth path stellar_routes
  then fst (serve meth path mo s) = None /\ app_horizon (snd (serve meth path mo s)) = app_horizon s
  else is_Some (fst (serve meth path mo s)).
Proof.
  intros (Hr & Hs & Hg & _). unfold serve, routed_to.
  destruct (route meth path) as [r caps| |]; [|by eexists..].
  destruct r; cbn [handle_route]; eval_routes; unfold stellar_route, query, get_horizon_providers_status,
    get_provider_status, switch_horizon_provider, memory_dump, memory_stats, metrics_endpoint;
    rewrite ?Hr, ?Hs, ?Hg; try done; repeat case_match; simplify_eq; by eexists.
Qed.

Lemma probing_routes meth path mo s :
  calm (app_horizon s) ->
  exists c1, health_check_start (app_horizon s) = Ret (Ok (providers (app_horizon s))) c1 /\
    (routed_to meth path [RProviders; RSwitch] = true ->
     is_Some (fst (serve meth path mo (set_stellar c1 (app_stellar s) s)))).
Proof.
  intros Hc. destruct (probing_serves _ Hc) as (c1 & Hs & Hg & (r & c2 & Hw) & _). exists c1. split; [done|].
  unfold serve, routed_to. destruct (route meth path) as [x caps| |]; try done.
  destruct x; eval_routes; try done; intros _; cbn [handle_route];
    unfold get_horizon_providers_status, get_provider_status, switch_horizon_provider; cbn [app_horizon set_stellar];
    rewrite ?Hg, ?Hw; repeat case_match; by eexists.
Qed.


Lemma set_heap_same s : set_heap (app_heap s) s = s.
Proof. by destruct s. Qed.

(** The heap dump asks for no credentials: whoever can send the request names the
    file, and with the profiling feature the allocator writes to exactly that path
    (unless it holds a NUL); without the feature nothing happens and the answer is
    an error. *)
Theorem dump_goes_where_told mo s p :
  params mo !! "path"%string = Some p ->
  exists code b s', serve MPost "/admin/memory/dump" mo s = (Some (code, RJson b), s') /\
  match profiling with
  | Some al =>
      if nul_free p
      then app_heap s' = snd (prof_dump al p (app_heap s)) /\
           code = if is_ok (fst (prof_dump al p (app_heap s))) then 200 else 500
      else s' = s /\ code = 500
  | None => s' = s /\ code = 500
  end.
Proof.
  intros Hp. assert (route MPost "/admin/memory/dump" = Routed RMemoryDump []) as Hr by (vm_compute; reflexivity).
  unfold serve. rewrite Hr. cbn [handle_route]. unfold memory_dump, dump_path, dump_memory_stats. rewrite Hp.
  cbn [from_option id]. destruct profiling as [al|].
  - destruct (nul_free p); [|cbn -[set_heap]; rewrite set_heap_same; by do 3 eexists].
    destruct (prof_dump al p (app_heap s)) as [[[]|x] w]; by do 3 eexists.
  - cbn -[set_heap]. rewrite set_heap_same. by do 3 eexists.
Qed.
End Handlers.

(** ** Examples and witnesses *)

(** Every route is reached by the path it is registered under, and the handlers
    without a route by none of the paths their names suggest. *)
Example routes_reached :
  Forall (fun x => exists caps, route (snd (fst x)) (fst (fst x)) = Routed (snd x) caps) route_table /\
  route MGet "/stellar/account/GABC" = Routed RAccount ["GABC"]%string /\
  route MHead "/metrics" = Routed RMetrics [] /\
  route MPost "/metrics" = MethodNotAllowed /\
  route MGet "/sync/snapshot" = RouteNotFound /\ route MPost "/p2p/ping" = RouteNotFound.
Proof. split_and!; [|vm_compute; reflexivity..]. repeat constructor; by eexists. Qed.

Definition idle_moment : Moment := mkMoment 9000 (Ok tt) 2 2 (<["path" := "/etc/x"]> ∅)%string.
Definition recording_allocator : Allocator (list string) :=
  mkAllocator _ (fun p w => (Ok tt, p :: w)) (fun w => (Ok tt, w)) (fun _ _ => Ok 0).
Definition fresh_app : AppState unit (list string) :=
  mkApp (new_metrics 1000) (new_client default_horizon_config tt) (Stellar.mkMetrics None 0)
    (ErrorMiddleware.new ErrorMiddleware.default_config) true [].
Definition toy_serve := serve (Some recording_allocator) (fun _ => ""%string) pretty "0.1.0" (fun _ => 0) toy_send
  pretty toy_account toy_transaction toy_decode toy_json.
Definition two_calls : list HttpCall :=
  [(MGet, "/metrics", idle_moment); (MGet, "/health", idle_moment)]%string.

Lemma metrics_page_counts_scrapes_witness :
  exists page s', toy_serve MGet "/metrics" idle_moment
      (fold_left (serve_call (Some recording_allocator) (fun _ => ""%string) pretty "0.1.0" (fun _ => 0) toy_send
         pretty toy_account toy_transaction toy_decode toy_json) two_calls fresh_app) = (Some (200, RText page), s') /\
    scrape "axionvera_http_requests_total" page = Some 2 /\ scrape "axionvera_uptime_seconds" page = Some 8.
Proof.
  destruct (metrics_page_counts_scrapes (Some recording_allocator) (fun _ => ""%string) pretty "0.1.0" (fun _ => 0)
    toy_send pretty toy_account toy_transaction toy_decode toy_json two_calls fresh_app MGet idle_moment 1000)
    as (page & s' & Hs & Hu & Hr & _); [reflexivity|cbn; lia|vm_compute; discriminate|vm_compute; reflexivity|].
  exists page, s'. split; [exact Hs|]. split; [exact Hr|exact Hu].
Defined.

Lemma dump_goes_where_told_witness :
  app_heap (snd (toy_serve MPost "/admin/memory/dump" idle_moment fresh_app)) = ["/etc/x"]%string.
Proof.
  destruct (dump_goes_where_told (Some recording_allocator) (fun _ => ""%string) pretty "0.1.0" (fun _ => 0) toy_send
    pretty toy_account toy_transaction toy_decode toy_json idle_moment fresh_app "/etc/x") as (code & b & s' & Hs & Hh & _).
  - reflexivity.
  - unfold toy_serve. rewrite Hs. exact Hh.
Defined.

