(* ===== verification/Process.v ===== *)
(** network-node/src/main.rs and shutdown.rs: the process around the node.

    [main] reads the configuration, sets up the metrics exporter and the logs,
    builds the node and runs it; its exit status is what a supervisor sees.  The
    exporter, the tracing exporters (main.rs calls functions of telemetry.rs that
    are not there) and the signals of the system are outside: their outcomes are
    arguments.  The node is that of Node.v, and it runs as in Shutdown.v. *)
From stdpp Require Import base sets gmap list strings.
From S2P Require Import Prelude NetworkErrors ChainParams RateLimiter ErrorMiddleware Signer.
From S2P Require Import Signing Config HorizonClient P2P StateTrie HttpServer Node Shutdown.

(** ** Signals (shutdown.rs) *)

Inductive Signal : Type := SIGTERM | SIGINT | OtherSignal (n : Z).

Inductive HandlerTask : Type := NotStarted | AwaitingSignal | Finished | HandlerPanicked.

Record ShutdownHandler : Type := mkHandler {
  grace_period : Z;
  cancelled : bool;
  handler_task : HandlerTask }.

Definition new_handler (grace : Z) : ShutdownHandler := mkHandler grace false NotStarted.

(** [start]: the spawned task installs both handlers; [expect] panics in it. *)
Definition handler_start (install : Signal -> bool) (h : ShutdownHandler) : ShutdownHandler :=
  mkHandler (grace_period h) (cancelled h)
    (if install SIGTERM && install SIGINT then AwaitingSignal else HandlerPanicked).

(** A signal reaches the [select!] of the task, which cancels the token and ends.
    A handler, once installed, keeps the default action of its signal away. *)
Definition on_signal (h : ShutdownHandler) (sg : Signal) : ShutdownHandler :=
  match handler_task h, sg with
  | AwaitingSignal, (SIGTERM | SIGINT) => mkHandler (grace_period h) true Finished
  | _, _ => h
  end.

(** ** Logs *)

Inductive Level : Type := LError | LWarn | LInfo | LDebug | LTrace.

(** [str::parse::<Level>]: a name in any case, or a number. *)
Definition parse_level (s : string) : option Level :=
  let t := to_lowercase s in
  if decide (t = "error" \/ s = "1") then Some LError
  else if decide (t = "warn" \/ s = "2") then Some LWarn
  else if decide (t = "info" \/ s = "3") then Some LInfo
  else if decide (t = "debug" \/ s = "4") then Some LDebug
  else if decide (t = "trace" \/ s = "5") then Some LTrace
  else None.
Definition level_text (l : Level) : string :=
  match l with LError => "ERROR" | LWarn => "WARN" | LInfo => "INFO" | LDebug => "DEBUG" | LTrace => "TRACE" end.

Record Logging : Type := mkLogging { filter_text : string; log_dir : string; log_file : string }.

(** [init_basic_logging]: the filter of the environment ([rust_log], when it
    parses), else the configured level, else INFO. *)
Definition init_basic_logging (rust_log : option string) (var : string -> option string) (cfg : NetworkConfig)
    : result string Logging :=
  let level := default LInfo (parse_level (log_level cfg)) in
  Ok (mkLogging (default ("axionvera_network_node=" +:+ level_text level) rust_log)
        (default "logs" (var "LOG_DIR")) "axionvera-network.log").

(** ** [main] *)

(** What the process has come to: an exit status, with whether the tracer was shut
    down; a panic; or it still runs. *)
Inductive Exit : Type :=
| Exited (status : Z) (tracer_shut_down : bool)
| ExitPanic
| StillRuns.

Section Main.
Context `{!Ed25519} `{!Redis} {W Pg D Addr : Type} `{!RocksDb D}
  (connect : DatabaseConfig -> string -> W -> result string Pg * W)
  (execute : Pg -> Statement -> W -> result string unit * W)
  (generated : Keypair)
  (new_kms : string -> string -> option string -> W -> result NetworkError (Signer W) * W)
  (load_genesis : string -> result string GenesisDocument)
  (debug_text : NetworkError -> string) (lag : Z) (parse_addr : string -> result string Addr)
  (horizon_json : string -> option HorizonConfig) (soroban_json : string -> option SorobanConfig)
  (random_id : string) (var : string -> option string) (rust_log : option string)
  (install_exporter : result string unit)
  (init_exporter : TracingExporter -> NetworkConfig -> result string unit).

Definition init_logs (cfg : NetworkConfig) : result string unit :=
  let basic := let? _ := init_basic_logging rust_log var cfg in Ok tt in
  if tracing_enabled cfg then
    match tracing_exporter cfg with
    | NoExporter => basic
    | x => init_exporter x cfg
    end
  else basic.

(** The node as it starts to run.  Its limiter is made when the server starts. *)
Definition running_of (nd : NetworkNode (W := W) (Pg := Pg) (D := D) (Addr := Addr)) (now : Z) : NodeState Addr :=
  mkState (new_server (new_limiter None 0) (node_error_middleware nd)) (mkPoolState 0 NoWriter 0 0 false)
    (p2p_manager nd) now now Serving None.

(** [b] is the branch of the final [select!] of the node that is seen first, after
    the events [before]; [after] has happened since. *)
Definition main (now : Z) (before : list NodeEvent) (b : Branch) (after : list NodeEvent) (w : W)
    : Exit * option (NodeState Addr) :=
  match from_env horizon_json soroban_json random_id var with
  | Err _ => (Exited 1 false, None)
  | Ok cfg =>
      match install_exporter with
      | Err _ => (ExitPanic, None)
      | Ok _ =>
          match init_logs cfg with
          | Err _ => (Exited 1 false, None)
          | Ok _ =>
              match new_node connect execute generated new_kms load_genesis cfg w with
              | (Err _, _) => (Exited 1 false, None)
              | (Ok nd, _) =>
                  match start debug_text lag parse_addr var cfg before b after (running_of nd now) with
                  | (Some (Err _), r) => (Exited 1 true, Some r)
                  | (Some (Ok _), r) => (Exited 0 true, Some r)
                  | (None, r) => (StillRuns, Some r)
                  end
              end
          end
      end
  end.

(** ** How the process ends *)

(** The branches of the [select!] that are ready: a server that ended, and the
    branches a cancelled token makes ready. *)
Definition ready_branches (token_cancelled http_ended grpc_ended : bool) : list Branch :=
  (if http_ended then [HttpEnded] else []) ++ (if grpc_ended then [GrpcEnded] else []) ++
  (if token_cancelled then ready_on_cancel else []).

Definition stops (sg : Signal) : bool := match sg with SIGTERM | SIGINT => true | _ => false end.

Lemma signals_cancel grace install signals :
  let h := fold_left on_signal signals (handler_start install (new_handler grace)) in
  (cancelled h = true <-> install SIGTERM = true /\ install SIGINT = true /\ existsb stops signals = true) /\
  (cancelled h = true -> forall sg, on_signal h sg = h).
Proof.
  unfold handler_start. destruct (install SIGTERM && install SIGINT) eqn:Hi; cbv zeta.
  - apply andb_true_iff in Hi as [Ht Hs].
    assert (forall l g, fold_left on_signal l (mkHandler g true Finished) = mkHandler g true Finished) as Hfin.
    { intros l g. induction l as [|sg l IH]; [done|]. cbn. apply IH. }
    cbn [grace_period cancelled new_handler].
    induction signals as [|sg l IH]; [split; [cbn; naive_solver|done]|].
    cbn [fold_left]. destruct sg; cbn [on_signal handler_task grace_period existsb stops orb].
    + rewrite Hfin. cbn. split; [naive_solver|done].
    + rewrite Hfin. cbn. split; [naive_solver|done].
    + exact IH.
  - assert (forall l g, fold_left on_signal l (mkHandler g false HandlerPanicked) = mkHandler g false HandlerPanicked) as Hp.
    { intros l g. induction l as [|sg l IH]; [done|]. cbn. apply IH. }
    cbn [grace_period cancelled new_handler]. rewrite Hp. cbn.
    split; [|done]. apply andb_false_iff in Hi. split; [done|]. intros (H1 & H2 & _). destruct Hi; congruence.
Qed.

(** The addresses a start needs. *)
Definition bad_address (cfg : NetworkConfig) : bool :=
  match parse_addr (bind_address cfg), bootstrap_peer cfg with
  | Err _, _ => true
  | Ok _, Some seed => match parse_addr seed with Err _ => true | Ok _ => false end
  | Ok _, None => false
  end.

(** The node the [select!] waits in: a serving one. *)
Lemma start_outcome cfg before b after nd now :
  let r := start debug_text lag parse_addr var cfg before b after (running_of nd now) in
  if bad_address cfg then exists x, fst r = Some (Err x)
  else exists n, stage n = Serving /\ serving n /\ is_accepting (http n) = true /\
    shutdown_sent (http n) = Some false /\
    r = match b with
        | TokenCancelled =>
            let n' := node_exec debug_text lag after (shutdown (1000 * shutdown_grace_period cfg) n) in
            (match stage n' with Returned => Some (Ok tt) | _ => None end, n')
        | _ => (Some (Ok tt), n)
        end.
Proof.
  unfold start, bad_address, http_start, bootstrap_node.
  destruct (parse_addr (bind_address cfg)) as [a|x]; [|by eexists].
  destruct (bootstrap_peer cfg) as [seed|]; [destruct (parse_addr seed) as [a'|x]; [|by eexists]|];
    cbv zeta; eexists; (split_and!; [..|reflexivity]); by apply serving_exec.
Qed.

(** C31. The exit status of a node that was built, whatever happens before and after
    the [select!] sees a branch.  A bind or seed address that does not parse ends the
    process with status 1.  Otherwise it never exits with an error.  After SIGTERM or
    SIGINT (once both handlers are installed, and no other signal), when the
    [select!] sees the cancelled token, the process exits, with 0, exactly when the
    shutdown has returned: with the pool closed, no connection in use and the server
    told to stop.  But it also exits 0, with nothing shut down - the pool open, the
    server accepting and not told to stop - when its gRPC or HTTP server ended on its
    own, for example because the address was taken, or when the [select!] sees one of
    those or the indexer first after a signal.  A second signal changes nothing. *)
Theorem process_exit cfg (nd : NetworkNode (W := W) (Pg := Pg) (D := D) (Addr := Addr)) w w1 now
    before signals install http_ended grpc_ended b after :
  from_env horizon_json soroban_json random_id var = Ok cfg -> install_exporter = Ok tt ->
  init_logs cfg = Ok tt ->
  new_node connect execute generated new_kms load_genesis cfg w = (Ok nd, w1) ->
  0 <= lag -> 0 <= shutdown_grace_period cfg ->
  let h := fold_left on_signal signals (handler_start install (new_handler (shutdown_grace_period cfg))) in
  b ∈ ready_branches (cancelled h) http_ended grpc_ended ->
  exists e r, main now before b after w = (e, Some r) /\
  (cancelled h = true -> existsb stops signals = true /\ forall sg, on_signal h sg = h) /\
  if bad_address cfg then e = Exited 1 true
  else match b with
  | TokenCancelled =>
      cancelled h = true /\ is_accepting (http r) = false /\
      (e = Exited 0 true \/ e = StillRuns) /\ (e = Exited 0 true <-> stage r = Returned) /\
      (e = Exited 0 true ->
         pool_closed (pool r) = true /\ busy (pool r) = 0%nat /\ shutdown_sent (http r) = Some true)
  | _ => e = Exited 0 true /\ pool_closed (pool r) = false /\ is_accepting (http r) = true /\
         shutdown_sent (http r) = Some false
  end.
Proof.
  intros He Hx Hl Hn Hlag Hgr h Hb. unfold main. rewrite He, Hx, Hl, Hn.
  pose proof (start_outcome cfg before b after nd now) as Ho. cbv zeta in Ho.
  destruct (signals_cancel (shutdown_grace_period cfg) install signals) as [Hc Hk]. fold h in Hc, Hk.
  assert (cancelled h = true -> existsb stops signals = true /\ forall sg, on_signal h sg = h) as Hsig
    by naive_solver.
  destruct (bad_address cfg).
  { destruct Ho as [x Ho]. destruct (start _ _ _ _ _ _ _ _ _) as [o r]. cbn in Ho. subst o. by eexists _, _. }
  destruct Ho as (n & Hst & Hsv & Hacc & Hsent & ->). destruct b.
  1-3: eexists _, _; (split; [reflexivity|]); split_and!; try done; apply Hsv.
  assert (cancelled h = true) as Ht.
  { unfold ready_branches in Hb. destruct (cancelled h); [done|]. destruct http_ended, grpc_ended; set_solver. }
  set (n' := node_exec _ _ _ _).
  assert (shut_inv lag (clock n) (1000 * shutdown_grace_period cfg) n') as Hi.
  { apply exec_inv; [done|]. by apply shutdown_inv; [|lia|]. }
  destruct Hi as [Ha _ _ _ _ _ _ Hp].
  destruct (stage n') eqn:E; eexists _, _; (split; [reflexivity|]); split_and!; try done; eauto; by rewrite E.
Qed.
End Main.

(** ** Witnesses: the gRPC address is taken, no signal; and a clean stop *)

Definition toy_main : Z -> list NodeEvent -> Branch -> list NodeEvent -> unit -> Exit * option (NodeState unit) :=
  main (H := toy_ed25519) (D := gmap (list Z) (list Z)) (fun _ _ w => (Ok tt, w)) (fun _ _ w => (Ok tt, w))
    (7 : @Keypair toy_ed25519) (fun _ _ _ w => (Err NE_Cancelled, w)) (fun _ => Err "no file"%string)
    (fun _ => ""%string) 5 (fun _ => Ok tt) (fun _ => None) (fun _ => None) "1" (fun _ => None) None (Ok tt)
    (fun _ _ => Ok tt).

Lemma process_exit_witness :
  exists r, toy_main 0 [] GrpcEnded [] tt = (Exited 0 true, Some r) /\ pool_closed (pool r) = false.
Proof.
  destruct (toy_new_node plain_config tt) as [[nd|x] w1] eqn:E; [|vm_compute in E; discriminate].
  destruct (process_exit (H := toy_ed25519) (D := gmap (list Z) (list Z)) (fun _ _ w => (Ok tt, w))
    (fun _ _ w => (Ok tt, w)) (7 : @Keypair toy_ed25519) (fun _ _ _ w => (Err NE_Cancelled, w))
    (fun _ => Err "no file"%string) (fun _ => ""%string) 5 (fun _ => Ok tt) (fun _ => None) (fun _ => None) "1"
    (fun _ => None) None (Ok tt) (fun _ _ => Ok tt) plain_config nd tt w1 0 [] [] (fun _ => true) false true
    GrpcEnded []) as (e & r & Hm & _ & Hr).
  - vm_compute. reflexivity.
  - reflexivity.
  - vm_compute. reflexivity.
  - exact E.
  - lia.
  - vm_compute. discriminate.
  - left.
  - cbn in Hr. destruct Hr as (He & Hp & _). exists r. split; [|exact Hp]. unfold toy_main. rewrite Hm, He. reflexivity.
Defined.

(** An idle node, told to stop, exits at once. *)
Example idle_node_stops :
  fst (toy_main 0 [] TokenCancelled [Turn; Turn; Turn; Turn] tt) = Exited 0 true.
Proof. vm_compute. reflexivity. Qed.
