(* ===== verification/ApiDoc.v ===== *)
(** network-node/src/openapi.rs and the [utoipa::path] annotations of gateway.rs:
    the published description of the HTTP gateway, compared with the router and the
    handlers of RestGateway.v. *)
From stdpp Require Import base sets list strings.
From S2P Require Import Prelude ChainParams NetworkService GatewayService RestGateway.

(** ** The description *)

Inductive Segment : Type := Lit (s : string) | Param (name : string).

Record Operation : Type := mkOperation {
  op_handler : string;
  op_method : Method;
  op_path : list Segment;
  op_tag : string;
  op_params : list string;
  op_statuses : list Z }.

Definition lits : list string -> list Segment := map Lit.

(** The annotation of each handler. *)
Definition doc_deposit : Operation :=
  mkOperation "deposit" POST (lits ["v1"; "contract"; "deposit"]) "contract" [] [200; 400; 500].
Definition doc_withdraw : Operation :=
  mkOperation "withdraw" POST (lits ["v1"; "contract"; "withdraw"]) "contract" [] [200; 400; 500].
Definition doc_distribute_rewards : Operation :=
  mkOperation "distribute_rewards" POST (lits ["v1"; "contract"; "distribute-rewards"]) "contract" [] [200; 400; 500].
Definition doc_claim_rewards : Operation :=
  mkOperation "claim_rewards" POST (lits ["v1"; "contract"; "claim-rewards"]) "contract" [] [200; 400; 500].
Definition doc_get_balance : Operation :=
  mkOperation "get_balance" GET (lits ["v1"; "query"; "balance"]) "query" ["user_address"; "token_address"] [200; 400; 500].
Definition doc_get_rewards : Operation :=
  mkOperation "get_rewards" GET (lits ["v1"; "query"; "rewards"]) "query" ["user_address"] [200; 400; 500].
Definition doc_get_contract_state : Operation :=
  mkOperation "get_contract_state" GET (lits ["v1"; "query"; "contract-state"]) "query" ["contract_address"] [200; 400; 500].
Definition doc_get_transaction : Operation :=
  mkOperation "get_transaction" GET [Lit "v1"; Lit "transaction"; Param "transaction_hash"] "query"
    ["transaction_hash"] [200; 404; 500].
Definition doc_get_transaction_history : Operation :=
  mkOperation "get_transaction_history" GET (lits ["v1"; "transaction"; "history"]) "query"
    ["limit"; "offset"; "transaction_type"; "status"; "start_date"; "end_date"] [200; 400; 500].
Definition doc_get_network_status : Operation :=
  mkOperation "get_network_status" GET (lits ["v1"; "network"; "status"]) "network" [] [200; 500].
Definition doc_get_node_info : Operation :=
  mkOperation "get_node_info" GET (lits ["v1"; "node"; "info"]) "network" ["node_id"] [200; 404; 500].
Definition doc_check_health : Operation :=
  mkOperation "check_health" GET (lits ["v1"; "health"]) "health" [] [200; 503].

(** [ApiDoc]: the paths, the tags and the servers. *)
Definition api_paths : list Operation :=
  [doc_deposit; doc_withdraw; doc_distribute_rewards; doc_claim_rewards; doc_get_balance; doc_get_rewards;
   doc_get_contract_state; doc_get_transaction; doc_get_transaction_history; doc_get_network_status;
   doc_get_node_info; doc_check_health].
Definition api_tags : list string := ["contract"; "query"; "network"; "health"].
Definition api_servers : list string :=
  ["https://api.axionvera.com"; "https://testnet-api.axionvera.com"; "http://localhost:8081"].

(** ** The description and the gateway *)

(** A path of an operation, with its parameter filled in. *)
Definition fill (value : string) (path : list Segment) : list string :=
  map (fun s => match s with Lit x => x | Param _ => value end) path.

Definition handler_of (r : RouteName) : string :=
  match r with
  | RtDeposit => "deposit" | RtWithdraw => "withdraw" | RtDistribute => "distribute_rewards"
  | RtClaim => "claim_rewards" | RtBalance => "get_balance" | RtRewards => "get_rewards"
  | RtContractState => "get_contract_state" | RtTransaction _ => "get_transaction"
  | RtHistory => "get_transaction_history" | RtNetworkStatus => "get_network_status"
  | RtNodeInfo => "get_node_info" | RtHealth => "check_health"
  end.

Definition call_handler (c : RestCall) : string :=
  match c with
  | RDeposit _ => "deposit" | RWithdraw _ => "withdraw" | RDistribute _ => "distribute_rewards"
  | RClaim _ => "claim_rewards" | RBalance _ _ => "get_balance" | RRewards _ => "get_rewards"
  | RContractState _ => "get_contract_state" | RTransaction _ => "get_transaction"
  | RHistory _ => "get_transaction_history" | RNetworkStatus => "get_network_status"
  | RNodeInfo _ => "get_node_info" | RHealth => "check_health"
  end.

(** The literal path of the history route is not a transaction hash. *)
Lemma transaction_route h : h <> "history"%string -> routes ["v1"; "transaction"; h]%string = Some (GET, RtTransaction h).
Proof. intros Hh. unfold routes. by repeat (case_match; try done). Qed.

Lemma answer_status {A} code (wrap : A -> RestValue) r :
  match answer code wrap r with RestStatus c => c = code | _ => True end.
Proof. by destruct r. Qed.

Lemma answer_or_panic_status {A} code (wrap : A -> RestValue) r :
  match answer_or_panic code wrap r with RestStatus c => c = code | _ => True end.
Proof. by destruct r as [[]|]. Qed.

(** What a handler can answer, by the operation it is documented as. *)
Lemma answered_status {Addr} e c (s : NetworkServiceImpl Addr) :
  match rest_handle e c s with
  | RestStatus code => code = match c with RHealth => 503 | _ => 500 end
  | _ => True
  end.
Proof. destruct c; apply answer_status || apply answer_or_panic_status. Qed.

(** The published description against the gateway.  Every documented operation is
    routed, with its method, to the handler it documents, and every route of the
    gateway is documented; an answer always has a documented status.  The documented
    400 and 404 are never answered. *)
Theorem api_doc_accurate {Addr} :
  (forall op h, op ∈ api_paths -> h <> "history"%string ->
     op_tag op ∈ api_tags /\
     exists r, routes (fill h (op_path op)) = Some (op_method op, r) /\ handler_of r = op_handler op) /\
  (forall r, exists op, op ∈ api_paths /\ op_handler op = handler_of r) /\
  (forall e c (s : NetworkServiceImpl Addr) op, op ∈ api_paths -> op_handler op = call_handler c ->
     match rest_handle e c s with
     | RestOk _ => 200 ∈ op_statuses op
     | RestStatus code => code ∈ op_statuses op /\ code <> 400 /\ code <> 404
     | RestPanic => True
     end).
Proof.
  split_and!.
  - intros op h Hop Hh. unfold api_paths in Hop. rewrite !elem_of_cons in Hop.
    repeat (destruct Hop as [->|Hop]); [..|set_solver].
    all: split; [cbn; set_solver|]; cbn [fill map lits op_path doc_get_transaction].
    all: try (by eexists).
    exists (RtTransaction h). by rewrite transaction_route.
  - intros []; cbn [handler_of];
      [exists doc_deposit|exists doc_withdraw|exists doc_distribute_rewards|exists doc_claim_rewards
      |exists doc_get_balance|exists doc_get_rewards|exists doc_get_contract_state|exists doc_get_transaction
      |exists doc_get_transaction_history|exists doc_get_network_status|exists doc_get_node_info
      |exists doc_check_health]; split; unfold api_paths; set_solver.
  - intros e c s op Hop Hc. pose proof (answered_status e c s) as Ha.
    unfold api_paths in Hop. rewrite !elem_of_cons in Hop.
    repeat (destruct Hop as [->|Hop]); [..|set_solver].
    all: destruct c; try discriminate Hc; destruct (rest_handle _ _ _); try done; subst; cbn; set_solver.
Qed.
